(* ===== verification/_CoqProject ===== *)
-Q . S2P
Prelude.v
Header.v
Period.v
Tap.v
Driver.v
LoopBack.v
Foo.v
Udp.v
Mmio.v
Vectors.v
DbgBridge.v
Stream.v
Fifo.v
Tmem.v
TmemSpec.v
Conn.v
ConnSpec.v
Target.v
Player.v
Recording.v
Stack.v
Calls.v
Server.v
Simulation.v
ServerSpec.v
Chain.v
Firmware.v
Link.v
Sniffer.v
Drivers.v
SelfTest.v
Trace.v
