(* ===== verification/Prelude.v ===== *)
(** * xvcSupport: verification of the XVC server

    The program under src/xvcSrv is a server for the Xilinx Virtual Cable
    protocol: a client (a hardware debugger) connects by TCP and asks for
    JTAG vectors to be shifted, the server passes them on to firmware, over
    one of several transports, and returns what came out of TDO.

    ** The parts of the program and the files

    From the client down to the wire:

    - [XvcServer], [DriverRegistry] and [main] (xvcSrv.cc, xvcSrv.h,
      xvcDriver.h) are in Server.v.  [XvcServer_run] is the accept loop over
      the list of what [accept] yields; the registry is a list of entries;
      [main] takes the options [getopt] yields and returns an exit status
      with the connections that were served.  Simulation.v compares two
      servers whose drivers behave [alike], ServerSpec.v holds the
      theorems.
    - The program as it is linked is in Drivers.v: [AnyDriver] is an object
      of any of the driver classes and [virtual] the dispatch of their
      methods; the registry is created on its first use ([getP]), by the
      registrars [r_*] of the drivers, which run before main in an order
      the language leaves open, and by those of a library that dlopen
      loads.  [program] is main on all of this.  SelfTest.v adds the thread
      of the UDP loop-back ([udpTestThread]) and the socket between it and
      the server ([self_test]).
    - [XvcConn] (xvcConn.cc, xvcConn.h) is in Conn.v: the receive and
      transmit buffers with their offsets, [select], partial reads and
      writes, the messages getinfo, settck and shift, and the chunking of
      long vectors.  ConnSpec.v specifies it on the octet stream, Calls.v
      has what it asks of any driver: the calls of [sendVectors] for the
      pieces of a vector, and those for a length that wraps around.
    - The driver interface [JtagDriver] is the class [JtagDriverIfc] of
      Conn.v; what the connection relies on is [JtagDriverLaws] in
      ConnSpec.v.
    - [JtagDriver] and [JtagDriverAxisToJtag] (xvcDriver.h, xvcSrv.cc) are
      in Driver.v, the message header in Header.v and the clock period in
      Period.v.  A transport is an instance of the class [Transport]; what
      it has to respect is [TransportLaws].  Stack.v shows that the driver
      on any lawful transport keeps the promises of [JtagDriverLaws], so
      that the theorems of the connection and the server hold for all of
      the transports below.
    - The transports: LoopBack.v (xvcDrvLoopBack.cc), Udp.v (xvcDrvUdp.cc
      and the test peer [UdpLoopBack]), DbgBridge.v
      (xvcDrvAxiDbgBridgeIP.cc) and Fifo.v (xvcDrvAxisFifo.cc) over the
      memory-mapped window of Mmio.v (mmioHelper.h), Tmem.v and TmemSpec.v
      (xvcDrvAxisTmem.cc).  Foo.v is the skeleton for new ones
      (xvcDrvFoo.cc), which cannot be queried.  Stream.v has the loops that
      the two FIFO drivers share, Vectors.v the bits of vectors and
      messages.
    - What is at the other end is a [Target] (Target.v), a machine that takes
      vectors; a driver that gives access to it is an instance of [Drives].
      A target may run out ([able]), may take vectors in whole words only
      ([grain]) and may have a clock of a fixed period ([tck]).  Stack.v reduces [Drives] to what a transport has to do
      with a query and with one message ([shifter]).  The targets and the
      drivers for them: the loop-back, which echoes TDI or plays back a
      file ([player], Player.v); a JTAG scan chain behind the debug bridge
      or the TMEM firmware (Chain.v); any target behind an AxisToJtag core
      at the end of a FIFO (Firmware.v, where [speaks] is the protocol of
      a core with words of four bytes: its memory, with the shift it may
      replay, and its period); and the UDP driver with its test peer across a network
      that loses datagrams (Link.v).  Recording.v is about the mode of the
      loop-back driver that compares the shifts with a recorded session.
    - The sniffer [JtagDumpCtx] (jtagDump.cc, jtagDump.h), which [sendVectors]
      calls when it is switched on, is in Tap.v.  Sniffer.v puts it into the
      driver and the server: the class [BlindTransport] says that a
      transport does not look at it.
    - Trace.v has what is printed: the vectors ([prwrds] and the debug
      output of [sendVectors]), [dumpInfo], the texts of the exceptions and
      the usage.

    This file has the vocabulary: outcomes, the state and exception monad,
    total correctness of actions seen through a view of the state, integers
    of a fixed width, buffers, bytes and bits.

    ** Conventions

    A function of the program that may throw, or that has undefined
    behaviour on some inputs, returns an [outcome]; a method that changes
    its object is an action of the monad [M S], whose state survives a
    throw.  Integers are [Z]; every place where the program may wrap around
    is written with [wrap32] or [wrap64].  Buffers are lists of bytes, and
    every access outside of them is a [Fault].  Byte order and the content
    of fresh memory are the class [Platform].  System calls, the network,
    the registers of a device and the TOSCA library are arguments: lists of
    events, or the classes [Mmio] and [Tosca].  Indeterminate members
    ([xid_], [f_], [useSdes_]) are arguments of the constructors.

    ** Loops and fuel

    Loops that the program bounds run on that bound: words of a message,
    bytes of a header, attempts of a transfer, bits of a word.  The loop of a
    connection runs on the length of the stream: every message has eight
    octets or more.  The loop over the pieces of a vector has as many rounds
    as the vector has bytes, and [rounds] more, a number of [Platform] that
    stands for how long the program is watched: a length of 2^32-7 or more
    bits wraps around to zero bytes, and the program then asks the driver to
    shift no bits until the driver fails.  [shift_never_returns] is about
    every number of rounds, and [run_refines] shows that the fuel is used
    up by such a shift only.  (The drivers of JtagDriverAxisToJtag send a
    message of one word for a shift of no bits; [message_ok] allows for it.)
    Loops that wait for a device have a number of
    polls; the theorems assume that the device answers within it, for any
    number, and then show that the loop ends.  A driver on a device that
    never answers waits for ever, which is [NoFuel].

    ** The theorems

    - The whole program: [program_plays_back] (from the command line and
      the file to the replies, with all drivers linked),
      [program_is_server] (virtual calls and the registry do not show),
      [registration_order] (nor does the order of the registrars),
      [sniffing_invisible] (nor does the sniffer), [self_test_plays] (the
      self test from the command line, over a network that loses
      datagrams), [bridge_server_scans], [tmem_server_scans] (from
      the octets of all clients to the bits clocked into the scan chain and
      back, chunks and buffers included), [fifo_server_shifts] and
      [tmem_fifo_server_shifts] (any target behind any core with words of
      four bytes that speaks the protocol), [server_plays_back] on the
      loop-back driver.
    - The server: [server_refines] (the accept loop implements its
      specification for every driver with room for the vectors, and all
      clients whose system calls do not fail), [server_fatal] (a
      message that is not understood ends the server), [main_refusals] and
      [main_options_typed] (exit status and options).
    - The connection: [run_refines] (refinement of the octet-stream
      specification for every segmentation), [chunks_partition] (the calls
      for the pieces make up the vector), [shift_never_returns] (the calls
      for a length that wraps around have no end).
    - The driver: [sendVectors_message] (what the message contains),
      [sendVectors_safe], [xferRel_reply], [xferRel_timeout],
      [query_establishes] (the invariant), [sendVectors_overflow],
      [streaming_overflow] and [tmem_default_overrun] (where it is not
      established),
      [late_reply_misread] (the answer to a query may be the late reply to
      a shift; [late_reply_ends_server] is a run of the whole program in
      which this ends the server).
    - Header and period: [shift_header_roundtrip], [mkQueryReply_decode],
      [newXid_no_reuse], [mkShift_overflow].
    - End to end over a transport, from the vectors of [sendVectors] to the
      JTAG signals and back: [loopback_tdo_is_tdi], [file_plays_back] (a
      file that is written is read back), [recording_checked] (a session is
      accepted exactly if it is the recorded one), [udp_shift_delivered]
      (every shift is done once on a lossy network, with [peer_retry]: the
      peer answers every copy of it from its buffer),
      [bridge_scan] with [bridge_shift], [tmem_scan].  One packet over a
      FIFO: [fifo_exchange], [tmem_fifo_exchange].  Constructors and sizes:
      [MemMap_window], [udp_mtu], [udp_max_message], [fifo_max_message],
      [tmem_new_ready], [tmem_max_message], [bridge_init_overflow].
    - The sniffer: [processBuf_run], [tms_reset], [addBit_high] and
      [sniffer_reports] (a shift that is a data register scan is reported
      with the numbers that its bits make up).
    - The debug output: [trace_shows] (the records contain exactly the
      vectors; where their numbers of bits are wrong).

    Every theorem with hypotheses is followed by an instance that evaluates
    the definitions on concrete data, in a module of its own where it needs
    a concrete device or session ([Session], [Accept], [Bypass], [Lossy],
    [Inverter], [Counter], [Board], [Core], [OverUdp], [Program], [Run],
    [Report], [Shown], ..).

    ** What the theorems on the whole program assume

    The clients send valid requests and close the connection, in segments
    that [read] and [select] may cut as they like; a client that does not
    is the subject of [server_fatal].  The host is little-endian except for
    the TMEM drivers.  Where the target announces no memory, the vectors have
    to fit the initial buffer of the driver, which holds two vectors of 1020
    bytes: [streaming_overflow], [bridge_init_overflow] and
    [tmem_default_overrun] show that this is necessary, that the default
    limit of the server (32768) is too large for it, and the bounds on
    [maxMsgSize_] come from there; with a memory the default will do
    ([fifo_server_shifts]).  On the FIFO of the TMEM firmware the messages
    have to fit the FIFO, too.  The FILE pointer that the constructor of the
    loop-back driver leaves uninitialised without a file is not followed:
    the theorems on the whole program have a file.  On UDP, no reply is late, and of any six
    transmissions (five retries) two come through both ways: one would do,
    but the peer may drop it on purpose, one request of 256; datagrams of
    1444 bytes, for vectors of 720 bytes, have to pass.

    ** Not modelled

    The messages on [stderr] other than those of Trace.v, and the help each
    driver prints, which have no effect on the state; destructors;
    [getopt] and the resolver, whose results are arguments, as is what
    [dlopen] loads; the thread of the self test runs beside the server
    without shared state and meets it as datagrams only; the system calls of
    the peer do not fail there ([peer_serve] has their failures).  Cores with
    words of more than four bytes behind the FIFO drivers.  The header
    xvcDrvSerDesTmem.h has no implementation in the repository.  The
    firmware (rtl, tb) and the Python client are in other languages: the
    firmware is the device or the peer of the theorems.

    ** What could be added

    The server is not joined with the mode of the loop-back driver that
    compares with a recording: as a target it would need vectors to be
    acceptable or not.  The theorem of Link.v is for a network
    on which no reply is late; what a late reply does to a later session is
    shown by example. *)

From stdpp Require Import base numbers option list strings.
From Stdlib Require Import ZArith Lia.
#[local] Open Scope Z_scope.

(** ** Outcomes of a C++ computation

    A function of the program returns a value, throws one of the four
    exception classes of [xvcDriver.h], runs into undefined behaviour
    ([Fault]) or exhausts the fuel of the model ([NoFuel]). *)

Inductive exn :=
  | SysErr (prefix : string)
  | ProtoErr (msg : string)
  | TimeoutErr
  | RuntimeErr (msg : string).

Inductive fault :=
  | OutOfBounds     (* access outside of the allocated memory *)
  | Indeterminate   (* branch on a value that was never initialised *)
  | BadShift        (* shift count not less than the width *)
  | BadCast.        (* floating point value outside of the integer type *)

Inductive outcome (A : Type) :=
  | Ret (a : A)
  | Throw (e : exn)
  | Fault (u : fault)
  | NoFuel.
Arguments Ret {A} a.
Arguments Throw {A} e.
Arguments Fault {A} u.
Arguments NoFuel {A}.

#[export] Instance outcome_ret : MRet outcome := @Ret.
#[export] Instance outcome_bind : MBind outcome := λ A B f m,
  match m with
  | Ret a => f a
  | Throw e => Throw e
  | Fault u => Fault u
  | NoFuel => NoFuel
  end.

(** State passing with exceptions: the state survives a [throw], as the
    members of a C++ object do. *)
Definition M (S A : Type) : Type := S → outcome A * S.

#[export] Instance M_ret S : MRet (M S) := λ A a s, (Ret a, s).
#[export] Instance M_bind S : MBind (M S) := λ A B f m s,
  match m s with
  | (Ret a, s') => f a s'
  | (Throw e, s') => (Throw e, s')
  | (Fault u, s') => (Fault u, s')
  | (NoFuel, s') => (NoFuel, s')
  end.

Definition throw {S A} (e : exn) : M S A := λ s, (Throw e, s).
Definition undefined {S A} (u : fault) : M S A := λ s, (Fault u, s).
Definition no_fuel {S A} : M S A := λ s, (NoFuel, s).
Definition gets {S A} (f : S → A) : M S A := λ s, (Ret (f s), s).
Definition modify {S} (f : S → S) : M S unit := λ s, (Ret tt, f s).
Definition lift {S A} (o : outcome A) : M S A := λ s, (o, s).

(** Replace the state by the result of a partial function. *)
Definition upd {S} (f : S → outcome S) : M S unit := λ s,
  match f s with
  | Ret s' => (Ret tt, s')
  | Throw e => (Throw e, s)
  | Fault u => (Fault u, s)
  | NoFuel => (NoFuel, s)
  end.

(** Run an action on a component of the state. *)
Definition zoom {S T A} (get : S → T) (set : T → S → S) (m : M T A) : M S A :=
  λ s, let (o, t) := m (get s) in (o, set t s).

Lemma M_bind_ext {S A B} (m m' : M S A) (k k' : A → M S B) s :
  m s = m' s → (∀ a s, k a s = k' a s) → (m ≫= k) s = (m' ≫= k') s.
Proof.
  intros Hm Hk. unfold mbind, M_bind. rewrite Hm. destruct (m' s) as [[]]; auto.
Qed.

Lemma M_bind_assoc {S A B C} (m : M S A) (f : A → M S B) (g : B → M S C) s :
  ((m ≫= f) ≫= g) s = (m ≫= (λ a, f a ≫= g)) s.
Proof. unfold mbind, M_bind. by destruct (m s) as [[]]. Qed.

Lemma M_bind_ret {S A B} (m : M S A) (k : A → M S B) s a s' :
  m s = (Ret a, s') → (m ≫= k) s = k a s'.
Proof. intros E. unfold mbind, M_bind. by rewrite E. Qed.

(** ** Total correctness of actions *)

Definition triple {S A} (P : S → Prop) (m : M S A)
    (Q : A → S → Prop) (E : exn → S → Prop) : Prop :=
  ∀ s, P s →
    match m s with
    | (Ret a, s') => Q a s'
    | (Throw e, s') => E e s'
    | (Fault _, _) | (NoFuel, _) => False
    end.

Section triples.
Context {S : Type}.
Implicit Types P : S → Prop.

Lemma triple_bind {A B} P (m : M S A) (k : A → M S B) R Q E :
  triple P m R E → (∀ a, triple (R a) (k a) Q E) → triple P (m ≫= k) Q E.
Proof.
  intros Hm Hk s Hs. specialize (Hm s Hs). unfold mbind, M_bind.
  destruct (m s) as [[a|e|u|] s']; try done. by apply Hk.
Qed.

End triples.

(** An invariant that an action keeps, also when it throws. *)
Definition keeps {S A} (I : S → Prop) (m : M S A) : Prop := triple I m (λ _, I) (λ _, I).

Section keeps.
Context {S : Type} (I : S → Prop).

Lemma keeps_ret {A} (a : A) : keeps I (mret a).
Proof. by intros s. Qed.
Lemma keeps_throw {A} e : keeps I (throw e : M S A).
Proof. by intros s. Qed.
Lemma keeps_modify f : (∀ s, I s → I (f s)) → keeps I (modify f).
Proof. intros H s. apply H. Qed.
Lemma keeps_bind {A B} (m : M S A) (k : A → M S B) :
  keeps I m → (∀ a, keeps I (k a)) → keeps I (m ≫= k).
Proof. apply triple_bind. Qed.
(** Reading the state: the continuation is checked at every value that a
    state with the invariant can give. *)
Lemma keeps_gets {A B} (f : S → A) (k : A → M S B) :
  (∀ s, I s → triple (λ s', s' = s) (k (f s)) (λ _, I) (λ _, I)) → keeps I (gets f ≫= k).
Proof. intros H s Hs. by apply (H s Hs). Qed.
Lemma keeps_gets' {A B} (f : S → A) (k : A → M S B) :
  (∀ a, keeps I (k a)) → keeps I (gets f ≫= k).
Proof. intros H s Hs. by apply (H (f s)). Qed.
Lemma keeps_lift {A B} (o : outcome A) (k : A → M S B) :
  match o with Ret a => keeps I (k a) | Throw _ => True | _ => False end →
  keeps I (lift o ≫= k).
Proof. intros H s Hs. unfold mbind, M_bind, lift. destruct o; try done. by apply H. Qed.
Lemma keeps_assoc {A B C} (m : M S A) (f : A → M S B) (g : B → M S C) :
  keeps I ((m ≫= f) ≫= g) → keeps I (m ≫= (λ a, f a ≫= g)).
Proof. intros H s Hs. specialize (H s Hs). by rewrite M_bind_assoc in H. Qed.
End keeps.

(** What holds when an action returns. *)
Definition returns {S A} (m : M S A) (s : S) (P : A → S → Prop) : Prop :=
  match m s with (Ret a, s') => P a s' | _ => True end.

Lemma returns_bind {S A B} (m : M S A) (k : A → M S B) s P :
  returns m s (λ a s', returns (k a) s' P) → returns (m ≫= k) s P.
Proof. unfold returns, mbind, M_bind. by destruct (m s) as [[]]. Qed.
Lemma returns_mono {S A} (m : M S A) s (P Q : A → S → Prop) :
  returns m s P → (∀ a s', P a s' → Q a s') → returns m s Q.
Proof. unfold returns. destruct (m s) as [[]]; auto. Qed.

Lemma returns_modify {S} (f : S → S) s (P : unit → S → Prop) : P tt (f s) → returns (modify f) s P.
Proof. done. Qed.

(** ** Actions seen through a view of the state

    [runs view v m a w]: from every state that looks like [v] the action
    returns [a] and leaves a state that looks like [w]; what the view does
    not show (times, schedules) does not matter. *)
Section runs.
Context {S V : Type} (view : S → V).

Definition runs {A} (v : V) (m : M S A) (a : A) (w : V) : Prop :=
  ∀ s, view s = v → ∃ s', m s = (Ret a, s') ∧ view s' = w.

Lemma runs_bind {A B} v w x (m : M S A) a (k : A → M S B) b :
  runs v m a w → runs w (k a) b x → runs v (m ≫= k) b x.
Proof.
  intros Hm Hk s Hs. destruct (Hm s Hs) as (s' & E & Hs'). rewrite (M_bind_ret _ _ _ _ _ E). by apply Hk.
Qed.
Lemma runs_ret {A} v (a : A) : runs v (mret a) a v.
Proof. intros s Hs. by exists s. Qed.
Lemma runs_lift {A} v (o : outcome A) a : o = Ret a → runs v (lift o) a v.
Proof. intros -> s Hs. by exists s. Qed.

Lemma runs_gets {A B} v w (f : S → A) (k : A → M S B) b :
  (∀ s, view s = v → runs v (k (f s)) b w) → runs v (gets f ≫= k) b w.
Proof. intros Hk s Hs. by apply (Hk s Hs). Qed.

(** The action returns some value with the property [P]. *)
Definition yields {A} (v : V) (m : M S A) (P : A → Prop) (w : V) : Prop :=
  ∀ s, view s = v → ∃ a s', m s = (Ret a, s') ∧ P a ∧ view s' = w.

Lemma yields_bind {A B} v w x (m : M S A) P (k : A → M S B) b :
  yields v m P w → (∀ a, P a → runs w (k a) b x) → runs v (m ≫= k) b x.
Proof.
  intros Hm Hk s Hs. destruct (Hm s Hs) as (a & s' & E & Ha & Hs'). rewrite (M_bind_ret _ _ _ _ _ E).
  by apply Hk.
Qed.

Lemma yields_then {A B} v w x (m : M S A) P (k : A → M S B) Q :
  yields v m P w → (∀ a, P a → yields w (k a) Q x) → yields v (m ≫= k) Q x.
Proof.
  intros Hm Hk s Hs. destruct (Hm s Hs) as (a & s' & E & Ha & Hs'). rewrite (M_bind_ret _ _ _ _ _ E).
  by apply (Hk a).
Qed.
Lemma runs_then {A B} v w x (m : M S A) a (k : A → M S B) Q :
  runs v m a w → yields w (k a) Q x → yields v (m ≫= k) Q x.
Proof.
  intros Hm Hk s Hs. destruct (Hm s Hs) as (s' & E & Hs'). rewrite (M_bind_ret _ _ _ _ _ E). by apply Hk.
Qed.
Lemma yields_ret {A} v (a : A) (P : A → Prop) : P a → yields v (mret a) P v.
Proof. intros Ha s Hs. by exists a, s. Qed.
Lemma yields_gets {A} v (f : S → A) : yields v (gets f) (λ _, True) v.
Proof. intros s Hs. by exists (f s), s. Qed.

(** The action returns something that is then not used. *)
Definition ends {A} (v : V) (m : M S A) (w : V) : Prop := yields v m (λ _, True) w.

Lemma ends_bind {A B} v w x (m : M S A) (k : M S B) b : ends v m w → runs w k b x → runs v (m ;; k) b x.
Proof. intros Hm Hk. eapply yields_bind; [exact Hm|]. by intros _ _. Qed.

(** The action throws [e]. *)
Definition fails {A} (v : V) (m : M S A) (e : exn) (w : V) : Prop :=
  ∀ s, view s = v → ∃ s', m s = (Throw e, s') ∧ view s' = w.

Lemma fails_bind {A B} v w x (m : M S A) a (k : A → M S B) e :
  runs v m a w → fails w (k a) e x → fails v (m ≫= k) e x.
Proof.
  intros Hm Hk s Hs. destruct (Hm s Hs) as (s' & E & Hs'). rewrite (M_bind_ret _ _ _ _ _ E). by apply Hk.
Qed.
Lemma fails_first {A B} v w (m : M S A) (k : A → M S B) e : fails v m e w → fails v (m ≫= k) e w.
Proof. intros Hm s Hs. destruct (Hm s Hs) as (s' & E & Hs'). exists s'. unfold mbind, M_bind. by rewrite E. Qed.
Lemma fails_throw {A} v e : fails v (throw e : M S A) e v.
Proof. intros s Hs. by exists s. Qed.
End runs.

(** ** Comparisons that arithmetic decides *)
Ltac zbool_step :=
  match goal with
  | |- context [?a <=? ?b] =>
      first [rewrite (proj2 (Z.leb_le a b)) by lia | rewrite (proj2 (Z.leb_gt a b)) by lia]
  | |- context [?a <? ?b] =>
      first [rewrite (proj2 (Z.ltb_lt a b)) by lia | rewrite (proj2 (Z.ltb_ge a b)) by lia]
  | |- context [?a =? ?b] =>
      first [rewrite (proj2 (Z.eqb_eq a b)) by lia | rewrite (proj2 (Z.eqb_neq a b)) by lia]
  end.
Ltac zbool := repeat (zbool_step; cbn [andb orb negb]; cbv iota).

(** ** Machine words

    [uint32_t], [unsigned] and [unsigned long] (LP64) are integers reduced
    modulo 2^32 and 2^64; a byte is an integer in [0, 256). *)

Definition wrap8 (z : Z) : Z := z `mod` 256.
Definition wrap32 (z : Z) : Z := z `mod` 2 ^ 32.
Definition wrap64 (z : Z) : Z := z `mod` 2 ^ 64.

Definition is_byte (b : Z) : Prop := 0 ≤ b < 256.
Definition bytes (l : list Z) : Prop := Forall is_byte l.
Definition is_u32 (w : Z) : Prop := 0 ≤ w < 2 ^ 32.

#[export] Instance is_byte_dec b : Decision (is_byte b).
Proof. unfold is_byte. apply _. Defined.
#[export] Instance is_u32_dec w : Decision (is_u32 w).
Proof. unfold is_u32. apply _. Defined.

Abbreviation zlen l := (Z.of_nat (length l)).

Lemma wrap32_small z : is_u32 z → wrap32 z = z.
Proof. apply Z.mod_small. Qed.
Lemma wrap64_small z : 0 ≤ z < 2 ^ 64 → wrap64 z = z.
Proof. apply Z.mod_small. Qed.
Lemma wrap32_u32 z : is_u32 (wrap32 z).
Proof. apply Z.mod_pos_bound. lia. Qed.
Lemma wrap8_byte z : is_byte (wrap8 z).
Proof. apply Z.mod_pos_bound. lia. Qed.

(** A mask of [k] bits at position [j] selects a digit. *)
Lemma land_field x j k : 0 ≤ j → 0 ≤ k →
  Z.land x (Z.shiftl (Z.ones k) j) = (x / 2 ^ j) `mod` 2 ^ k * 2 ^ j.
Proof.
  intros Hj Hk. rewrite <-Z.shiftl_mul_pow2, <-Z.land_ones, <-Z.shiftr_div_pow2 by lia.
  apply Z.bits_inj'. intros n Hn.
  rewrite Z.land_spec, !Z.shiftl_spec, Z.land_spec by lia.
  destruct (Z.ltb_spec n j).
  - rewrite !(Z.testbit_neg_r _ (n - j)) by lia. by rewrite andb_false_r.
  - rewrite Z.shiftr_spec by lia. by replace (n - j + j) with n by lia.
Qed.

(** Bits of disjoint ranges are added. *)
Lemma lor_add a b n : 0 ≤ n → 0 ≤ a < 2 ^ n → Z.lor a (b * 2 ^ n) = a + b * 2 ^ n.
Proof.
  intros Hn Ha.
  assert (Hd : Z.land a (b * 2 ^ n) = 0).
  { rewrite <-Z.shiftl_mul_pow2 by done. apply Z.bits_inj'. intros i Hi.
    rewrite Z.land_spec, Z.shiftl_spec, Z.bits_0 by lia. destruct (Z.ltb_spec i n).
    - rewrite (Z.testbit_neg_r b) by lia. apply andb_false_r.
    - replace a with (a `mod` 2 ^ n) by (apply Z.mod_small; lia).
      by rewrite Z.mod_pow2_bits_high by lia. }
  rewrite Z.add_nocarry_lxor by done. by rewrite Z.lxor_lor.
Qed.

Lemma land_pow2 a j : 0 ≤ j → negb (Z.land a (2 ^ j) =? 0) = Z.testbit a j.
Proof.
  intros Hj. replace (2 ^ j) with (Z.shiftl (Z.ones 1) j) at 1
    by (rewrite Z.shiftl_mul_pow2 by done; change (Z.ones 1) with 1; lia).
  rewrite land_field by lia. rewrite Z.pow_1_r, <-Z.testbit_spec' by done.
  pose proof (Z.pow_pos_nonneg 2 j). destruct (Z.testbit a j); simpl Z.b2z.
  - by rewrite (proj2 (Z.eqb_neq _ _)) by lia.
  - done.
Qed.

(** Single bits of numbers that are put together. *)
Lemma tb_b2z b k i : 0 ≤ k → 0 ≤ i → Z.testbit (Z.shiftl (Z.b2z b) k) i = b && (i =? k).
Proof.
  intros Hk Hi. rewrite Z.shiftl_spec by done. destruct (Z.eqb_spec i k) as [->|Hne].
  - rewrite Z.sub_diag, andb_true_r. by destruct b.
  - rewrite andb_false_r. destruct (Z_lt_le_dec i k); [apply Z.testbit_neg_r; lia|].
    destruct b; [|apply Z.bits_0]. apply (Z.bits_above_log2 1); [lia|cbn; lia].
Qed.
Lemma tb_small x n i : 0 ≤ x < 2 ^ n → n ≤ i → Z.testbit x i = false.
Proof.
  intros Hx Hi. destruct (Z.eq_dec x 0) as [->|Hne]; [apply Z.bits_0|].
  apply Z.bits_above_log2; [lia|]. assert (Z.log2 x < n) by (apply Z.log2_lt_pow2; lia). lia.
Qed.
Lemma tb_shift x k i : 0 ≤ k → 0 ≤ i → Z.testbit (Z.shiftl x k) i = Z.testbit x (i - k).
Proof. intros Hk Hi. by rewrite Z.shiftl_spec by done. Qed.
Lemma ldiff_pow2_tb x k i : 0 ≤ k → 0 ≤ i → Z.testbit (Z.ldiff x (2 ^ k)) i = if i =? k then false else Z.testbit x i.
Proof.
  intros Hk Hi. rewrite Z.ldiff_spec. destruct (Z.eqb_spec i k) as [->|Hne];
    [by rewrite Z.pow2_bits_true, andb_false_r by lia|by rewrite Z.pow2_bits_false, andb_true_r by lia].
Qed.
Lemma lor_pow2_tb x k i : 0 ≤ k → 0 ≤ i → Z.testbit (Z.lor x (2 ^ k)) i = if i =? k then true else Z.testbit x i.
Proof.
  intros Hk Hi. rewrite Z.lor_spec. destruct (Z.eqb_spec i k) as [->|Hne];
    [by rewrite Z.pow2_bits_true, orb_true_r by lia|by rewrite Z.pow2_bits_false, orb_false_r by lia].
Qed.

(** The number with the given bits, least significant bit first. *)
Fixpoint bits_val (l : list bool) : Z :=
  match l with [] => 0 | b :: l => Z.b2z b + 2 * bits_val l end.

Lemma bits_val_bounds l : 0 ≤ bits_val l < 2 ^ zlen l.
Proof.
  induction l as [|b l IH]; [done|]. cbn [bits_val length]. rewrite Nat2Z.inj_succ, Z.pow_succ_r by lia.
  destruct b; cbn [Z.b2z]; lia.
Qed.
Lemma bits_val_app l l' : bits_val (l ++ l') = bits_val l + 2 ^ zlen l * bits_val l'.
Proof.
  induction l as [|b l IH]; [cbn; lia|]. cbn [app bits_val length].
  rewrite IH, Nat2Z.inj_succ, Z.pow_succ_r by lia. lia.
Qed.
Lemma bits_val_snoc l b : bits_val (l ++ [b]) = bits_val l + Z.b2z b * 2 ^ zlen l.
Proof. rewrite bits_val_app. cbn. lia. Qed.

(** The bits of a byte, and of a buffer in the order they are shifted:
    lowest offset first, least significant bit first. *)
Definition byte_bits (b : Z) : list bool := Z.testbit b <$> seqZ 0 8.
Definition bits_of (l : list Z) : list bool := concat (byte_bits <$> l).

Lemma byte_bits_length b : length (byte_bits b) = 8%nat.
Proof. done. Qed.
Lemma bits_of_length l : length (bits_of l) = (8 * length l)%nat.
Proof.
  induction l as [|b l IH]; [done|].
  change (bits_of (b :: l)) with (byte_bits b ++ bits_of l).
  rewrite length_app, IH, byte_bits_length. simpl length. lia.
Qed.
Lemma bits_of_cons b l : bits_of (b :: l) = byte_bits b ++ bits_of l.
Proof. done. Qed.
Lemma bits_of_drop n l : drop (8 * n) (bits_of l) = bits_of (drop n l).
Proof.
  revert n. induction l as [|b l IH]; intros n.
  - rewrite drop_nil. apply drop_nil.
  - destruct n as [|n]; [done|]. rewrite bits_of_cons.
    replace (8 * S n)%nat with (length (byte_bits b) + 8 * n)%nat
      by (rewrite byte_bits_length; lia).
    rewrite drop_app_add. apply IH.
Qed.

(** The characters of a C string. *)
Definition text (s : string) : list Z :=
  (λ c, Z.of_N (Ascii.N_of_ascii c)) <$> String.list_ascii_of_string s.

(** And back. *)
Definition of_text (l : list Z) : string :=
  String.string_of_list_ascii ((λ z, Ascii.ascii_of_N (Z.to_N z)) <$> l).

Lemma of_text_text s : of_text (text s) = s.
Proof.
  unfold of_text, text. rewrite <-list_fmap_compose. etrans; [|apply String.string_of_list_ascii_of_string].
  f_equal. etrans; [|apply list_fmap_id]. apply list_fmap_ext. intros i c _. unfold compose. cbn.
  by rewrite N2Z.id, Ascii.ascii_N_embedding.
Qed.

Lemma text_bytes s : bytes (text s).
Proof.
  apply Forall_fmap, Forall_forall. intros c _. unfold compose, is_byte.
  pose proof (Ascii.N_ascii_bounded c). lia.
Qed.
Lemma text_length s : length (text s) = String.length s.
Proof. unfold text. rewrite length_fmap. induction s as [|c s IH]; simpl; auto. Qed.

(** ** Memory

    A C buffer is the list of the bytes it holds; an access outside of it
    is undefined behaviour. *)

Definition rd (off n : Z) (buf : list Z) : outcome (list Z) :=
  if (0 <=? off) && (0 <=? n) && (off + n <=? zlen buf)
  then Ret (take (Z.to_nat n) (drop (Z.to_nat off) buf))
  else Fault OutOfBounds.

(** [memcpy( &buf[off], bs, |bs| )] *)
Definition wr (off : Z) (bs buf : list Z) : outcome (list Z) :=
  if (0 <=? off) && (off + zlen bs <=? zlen buf)
  then Ret (take (Z.to_nat off) buf ++ bs ++ drop (Z.to_nat off + length bs) buf)
  else Fault OutOfBounds.

(** [memcpy( &dst[doff], &src[soff], n )] *)
Definition memcpy (doff : Z) (src : list Z) (soff n : Z) (dst : list Z) : outcome (list Z) :=
  bs ← rd soff n src; wr doff bs dst.

Definition memset (off c n : Z) (buf : list Z) : outcome (list Z) :=
  wr off (replicate (Z.to_nat n) c) buf.

Lemma rd_ok off n buf : 0 ≤ off → 0 ≤ n → off + n ≤ zlen buf →
  rd off n buf = Ret (take (Z.to_nat n) (drop (Z.to_nat off) buf)).
Proof.
  intros. unfold rd. repeat rewrite (proj2 (Z.leb_le _ _)) by lia. done.
Qed.

Lemma wr_ok off bs buf : 0 ≤ off → off + zlen bs ≤ zlen buf →
  wr off bs buf =
    Ret (take (Z.to_nat off) buf ++ bs ++ drop (Z.to_nat off + length bs) buf).
Proof.
  intros. unfold wr. repeat rewrite (proj2 (Z.leb_le _ _)) by lia. done.
Qed.

Lemma wr_length off bs buf buf' : wr off bs buf = Ret buf' → length buf' = length buf.
Proof.
  unfold wr. destruct (_ && _) eqn:E; [|done]. intros [= <-].
  apply andb_true_iff in E as [?%Z.leb_le ?%Z.leb_le].
  rewrite !length_app, length_take, length_drop. lia.
Qed.

(** A write in the middle of a buffer that is already split there. *)
Lemma wr_split pre bs old post : length old = length bs →
  wr (zlen pre) bs (pre ++ old ++ post) = Ret (pre ++ bs ++ post).
Proof.
  intros Hl. rewrite wr_ok; [|lia|rewrite !length_app; lia].
  rewrite Nat2Z.id, take_app_length. do 3 f_equal.
  rewrite <-Hl, app_assoc, drop_app_length'; [done|by rewrite length_app].
Qed.

(** [buf[i]] *)
Definition ix (buf : list Z) (i : Z) : option Z :=
  if 0 <=? i then buf !! Z.to_nat i else None.

Lemma ix_nat buf (i : nat) : ix buf (Z.of_nat i) = buf !! i.
Proof. unfold ix. rewrite (proj2 (Z.leb_le _ _)) by lia. by rewrite Nat2Z.id. Qed.

Lemma rd_ix off n buf : 0 ≤ off → 0 ≤ n → off + n ≤ zlen buf →
  ∃ l, rd off n buf = Ret l ∧ zlen l = n ∧ (∀ i, 0 ≤ i < n → ix l i = ix buf (off + i)) ∧
    (bytes buf → bytes l).
Proof.
  intros Ho Hn Hl. exists (take (Z.to_nat n) (drop (Z.to_nat off) buf)).
  rewrite rd_ok by done. split_and!; [done|rewrite length_take, length_drop; lia| |].
  - intros i Hi. unfold ix. rewrite !(proj2 (Z.leb_le _ _)) by lia.
    rewrite lookup_take_lt by lia. rewrite lookup_drop. f_equal. lia.
  - intros Hb. by apply Forall_take, Forall_drop.
Qed.

Lemma wr_ix off bs buf : 0 ≤ off → off + zlen bs ≤ zlen buf →
  ∃ buf', wr off bs buf = Ret buf' ∧ length buf' = length buf ∧
    (∀ i, ix buf' i = if (off <=? i) && (i <? off + zlen bs) then ix bs (i - off) else ix buf i) ∧
    (bytes bs → bytes buf → bytes buf').
Proof.
  intros Ho Hl. rewrite wr_ok by done. eexists. split; [done|].
  split; [rewrite !length_app, length_take, length_drop; lia|]. split.
  - intros i. unfold ix at 1 3. destruct (Z.leb_spec 0 i); cycle 1.
    { rewrite (proj2 (Z.leb_gt off i)) by lia. done. }
    rewrite lookup_app, length_take, Nat.min_l by lia.
    destruct (decide (i < off)) as [Hi|Hi].
    { rewrite lookup_take_lt by lia. rewrite (proj2 (Z.leb_gt off i)) by lia.
      destruct (lookup_lt_is_Some_2 buf (Z.to_nat i)) as [x ->]; [lia|done]. }
    rewrite (lookup_ge_None_2 (take _ _)) by (rewrite length_take; lia).
    rewrite (proj2 (Z.leb_le off i)) by lia. rewrite lookup_app.
    destruct (Z.ltb_spec i (off + zlen bs)); cbn [andb].
    + unfold ix. rewrite (proj2 (Z.leb_le 0 (i - off))) by lia.
      replace (Z.to_nat i - Z.to_nat off)%nat with (Z.to_nat (i - off)) by lia.
      destruct (lookup_lt_is_Some_2 bs (Z.to_nat (i - off))) as [x ->]; [lia|done].
    + rewrite (lookup_ge_None_2 bs) by lia. rewrite lookup_drop. f_equal. lia.
  - intros Hbs Hbuf. apply Forall_app; split; [by apply Forall_take|].
    apply Forall_app; split; [done|by apply Forall_drop].
Qed.

Lemma memcpy_ix doff src soff n dst : 0 ≤ doff → 0 ≤ soff → 0 ≤ n →
  soff + n ≤ zlen src → doff + n ≤ zlen dst →
  ∃ dst', memcpy doff src soff n dst = Ret dst' ∧ length dst' = length dst ∧
    (∀ i, ix dst' i = if (doff <=? i) && (i <? doff + n)
                      then ix src (soff + (i - doff)) else ix dst i) ∧
    (bytes src → bytes dst → bytes dst').
Proof.
  intros. destruct (rd_ix soff n src) as (bs & Hrd & Hlen & Hix & Hby); [lia..|].
  unfold memcpy. rewrite Hrd. cbn [mbind outcome_bind].
  destruct (wr_ix doff bs dst) as (dst' & Hwr & Hl & Hi & Hb); [lia..|].
  exists dst'. split_and!; [done..| |by auto].
  intros i. rewrite Hi, Hlen.
  destruct (Z.leb_spec doff i); [|done]. destruct (Z.ltb_spec i (doff + n)); [|done].
  apply Hix. lia.
Qed.

Lemma memcpy_oob doff src soff n dst : 0 ≤ n → zlen dst < doff + n →
  memcpy doff src soff n dst = Fault OutOfBounds.
Proof.
  intros Hn Hd. unfold memcpy, rd. destruct (_ && _ && _) eqn:E; [|done].
  apply andb_true_iff in E as [[Hs _]%andb_true_iff Hl].
  cbn [mbind outcome_bind]. unfold wr.
  rewrite length_take, length_drop, Nat.min_l by lia.
  rewrite (proj2 (Z.leb_gt (doff + _) _)), andb_false_r by lia. done.
Qed.

(** ** Little-endian numbers *)

Fixpoint le_val (l : list Z) : Z :=
  match l with [] => 0 | b :: t => b + 256 * le_val t end.

Fixpoint le_bytes (n : nat) (v : Z) : list Z :=
  match n with O => [] | S n => wrap8 v :: le_bytes n (v / 256) end.

Lemma le_bytes_length n v : length (le_bytes n v) = n.
Proof. revert v; induction n; intros; simpl; auto. Qed.

Lemma le_bytes_bytes n v : bytes (le_bytes n v).
Proof.
  revert v; induction n as [|n IH]; intros v; simpl; [constructor|].
  apply Forall_cons; split; [apply wrap8_byte|apply IH].
Qed.

Lemma le_val_bounds l : bytes l → 0 ≤ le_val l < 256 ^ zlen l.
Proof.
  induction 1 as [|b l Hb Hl IH]; [simpl; lia|]. unfold is_byte in Hb.
  cbn [le_val length]. rewrite Nat2Z.inj_succ, Z.pow_succ_r by lia. lia.
Qed.

Lemma le_val_le_bytes n v : le_val (le_bytes n v) = v `mod` 256 ^ Z.of_nat n.
Proof.
  revert v; induction n as [|n IH]; intros v; [by rewrite Z.mod_1_r|].
  cbn [le_bytes le_val]. rewrite IH, Nat2Z.inj_succ, Z.pow_succ_r by lia.
  unfold wrap8. rewrite (Z.rem_mul_r v 256) by lia. done.
Qed.

Lemma le_bytes_le_val l : bytes l → le_bytes (length l) (le_val l) = l.
Proof.
  induction 1 as [|b l Hb Hl IH]; [done|]. unfold is_byte in Hb. cbn [length le_bytes le_val].
  unfold wrap8. f_equal.
  - rewrite (Z.mul_comm 256), Z.mod_add, Z.mod_small by lia. done.
  - rewrite (Z.mul_comm 256), Z.div_add, Z.div_small, Z.add_0_l by lia. done.
Qed.

Lemma bytes_app l1 l2 : bytes (l1 ++ l2) ↔ bytes l1 ∧ bytes l2.
Proof. apply Forall_app. Qed.
Lemma bytes_take n l : bytes l → bytes (take n l).
Proof. apply Forall_take. Qed.
Lemma bytes_drop n l : bytes l → bytes (drop n l).
Proof. apply Forall_drop. Qed.

Create HintDb xvc.
#[export] Hint Resolve wrap32_u32 wrap8_byte le_bytes_bytes bytes_take bytes_drop : xvc.
Create Rewrite HintDb xvc_len.
#[export] Hint Rewrite bits_of_length byte_bits_length le_bytes_length @length_app @length_take @length_drop
  @length_replicate @length_rev @length_insert : xvc_len.

(** Arithmetic on lengths. *)
Ltac len := autorewrite with xvc_len in *; simpl length in *; try lia.

(** ** The machine the program is compiled for

    [isLE] is what [JtagDriverAxisToJtag::isLE] computes; [junk] is the
    content of freshly allocated memory.  [rounds] is not a property of the
    machine, but how long it is watched: a loop of the program that need not
    end is followed for that many rounds beyond those it is meant to make.
    The theorems hold for every number. *)
Class Platform := {
  isLE : bool;
  rounds : nat;
  junk : nat → Z;
  junk_byte : ∀ i, is_byte (junk i);
}.

Definition fresh `{Platform} (n : Z) : list Z := junk <$> seq 0 (Z.to_nat n).

Lemma fresh_length `{Platform} n : length (fresh n) = Z.to_nat n.
Proof. unfold fresh. by rewrite length_fmap, length_seq. Qed.
Lemma fresh_bytes `{Platform} n : bytes (fresh n).
Proof. apply Forall_fmap, Forall_forall. intros i _. apply junk_byte. Qed.

Section native.
Context `{Platform}.

(** A [uint32_t] as the host lays it out. *)
Definition load32 (bs : list Z) : Z := if isLE then le_val bs else le_val (rev bs).
Definition store32 (w : Z) : list Z := if isLE then le_bytes 4 w else rev (le_bytes 4 w).
Definition bswap32 (w : Z) : Z := le_val (rev (le_bytes 4 w)).

Lemma store32_length w : length (store32 w) = 4%nat.
Proof. unfold store32. destruct isLE; len. Qed.
Lemma bswap32_le_val bs : bytes bs → length bs = 4%nat → bswap32 (le_val bs) = le_val (rev bs).
Proof. intros Hb Hl. unfold bswap32. by rewrite <-Hl, le_bytes_le_val. Qed.

(** On a little-endian host a header is stored as it was read. *)
Lemma store32_le (HLE : isLE = true) l : bytes l → 4 ≤ zlen l → store32 (le_val (take 4 l)) = take 4 l.
Proof.
  intros Hb Hl. unfold store32. rewrite HLE. pose proof (le_bytes_le_val _ (bytes_take 4 l Hb)) as E.
  rewrite length_take in E. by replace (4 `min` length l)%nat with 4%nat in E by lia.
Qed.
Lemma le_val_store32 (HLE : isLE = true) w : is_u32 w → le_val (store32 w) = w.
Proof. intros Hw. unfold store32. rewrite HLE, le_val_le_bytes. by apply Z.mod_small. Qed.
Lemma store32_bytes w : bytes (store32 w).
Proof. unfold store32. destruct isLE; [apply le_bytes_bytes|apply List.Forall_rev, le_bytes_bytes]. Qed.
End native.

(** A big-endian machine whose memory comes zeroed. *)
Program Definition some_platform : Platform := {| isLE := false; rounds := 5; junk := λ _, 0 |}.
Next Obligation. intros i. unfold is_byte. lia. Qed.

(** A little-endian one. *)
Program Definition le_platform : Platform := {| isLE := true; rounds := 5; junk := λ _, 0 |}.
Next Obligation. intros i. unfold is_byte. lia. Qed.
