(* ===== verification/Header.v ===== *)
(** * The message header (class [JtagDriverAxisToJtag], xvcDriver.h and
    xvcSrv.cc)

    The 32-bit header word that starts every message to and from the
    firmware: protocol version, command, transaction ID and length, the
    fields of a query reply, and its little-endian image in memory. *)

From stdpp Require Import base numbers option list strings.
From Stdlib Require Import ZArith Lia.
From S2P Require Import Prelude.
#[local] Open Scope Z_scope.

(** ** Constants of xvcDriver.h *)

Definition XID_ANY : Z := 0.
Definition PVER0 : Z := 0x00000000.
Definition PVERS : Z := PVER0.
Definition CMD_Q : Z := 0x00000000.
Definition CMD_S : Z := 0x10000000.
Definition CMD_E : Z := 0x20000000.
Definition VRS_MASK : Z := 0xc0000000.
Definition CMD_MASK : Z := 0x30000000.
Definition ERR_SHIFT : Z := 0.
Definition ERR_MASK : Z := 0x000000ff.
Definition XID_SHIFT : Z := 20.
Definition LEN_SHIFT : Z := 0.
Definition LEN_MASK : Z := 0x000fffff.
Definition ERR_BAD_VERSION : Z := 1.
Definition ERR_BAD_COMMAND : Z := 2.
Definition ERR_TRUNCATED : Z := 3.
Definition ERR_NOT_PRESENT : Z := 4.
Definition UNKNOWN_PERIOD : Z := 0.

(** ** Fields *)

Definition getXid (x : Z) : Z := Z.land (Z.shiftr x 20) 0xff.
Definition getCmd (x : Z) : Z := Z.land x CMD_MASK.
Definition getErr (x : Z) : Z :=
  if negb (getCmd x =? CMD_E) then 0 else Z.shiftr (Z.land x ERR_MASK) ERR_SHIFT.
Definition getLen (x : Z) : outcome Z :=
  if negb (getCmd x =? CMD_S)
  then Throw (ProtoErr "Cannot extract length from non-shift command header")
  else Ret (Z.shiftr (Z.land x LEN_MASK) LEN_SHIFT + 1).
Definition getVrs (x : Z) : Z := Z.land x VRS_MASK.

Definition getMsg (e : Z) : option string :=
  if e =? 0 then Some "NO ERROR"
  else if e =? ERR_BAD_VERSION then Some "Unsupported Protocol Version"
  else if e =? ERR_BAD_COMMAND then Some "Unsupported Command"
  else if e =? ERR_TRUNCATED then Some "Unsupported Command"
  else if e =? ERR_NOT_PRESENT then Some "XVC Support not Instantiated in Firmware"
  else None.

(** Fields of a query reply. *)
Definition wordSize (reply : Z) : Z := Z.land reply 0x0000000f + 1.
Definition memDepth (reply : Z) : Z := Z.land (Z.shiftr reply 4) 0xffff.

(** ** Construction of headers *)

(** [newXid] increments the 8-bit member [xid_], which it returns with the
    header bits. *)
Definition newXid (xid_ : Z) : Z * Z :=
  let x1 := wrap8 (xid_ + 1) in
  let x2 := if x1 =? XID_ANY then wrap8 (x1 + 1) else x1 in
  (x2, wrap32 (Z.shiftl x2 XID_SHIFT)).

Definition mkQuery : Z := Z.lor (Z.lor PVERS CMD_Q) XID_ANY.

Definition mkShift (xid_ len : Z) : Z * Z :=
  let len := wrap32 (len - 1) in
  let (xid, xbits) := newXid xid_ in
  (xid, Z.lor (Z.lor (Z.lor PVERS CMD_S) xbits) (wrap32 (Z.shiftl len LEN_SHIFT))).

(** ** The encoding of the TCK period

    The query reply carries [round( log10( T / 5ns ) * 256/4 )].  The code
    evaluates [round( pow( 10, raw*4/256 ) * 5 )] and
    [round( log10( T/5 ) * 64 )] in floating point; the definitions give
    the rounding of the real numbers.  [floor( y + 1/2 )] is
    [( floor( 2 y ) + 1 ) / 2]; [2*5*10^(raw/64)] is the 64-th root of
    [10^(64 + raw)], and a 64-th root is six square roots. *)

Definition root64 (z : Z) : Z := Nat.iter 6 Z.sqrt z.

Definition cvtPerNs (reply : Z) : Z :=
  let rawVal := Z.land (Z.shiftr reply XID_SHIFT) 0xff in
  if 0 =? rawVal then UNKNOWN_PERIOD
  else wrap32 ((root64 (10 ^ (64 + rawVal)) + 1) / 2).

(** [floor( log10( n / acc ) )] for [acc <= n < acc * 10^fuel]. *)
Fixpoint ilog10_from (fuel : nat) (acc n : Z) : Z :=
  match fuel with
  | O => 0
  | S fuel => if n <? acc * 10 then 0 else 1 + ilog10_from fuel (acc * 10) n
  end.
Definition ilog10 (fuel : nat) (n : Z) : Z := ilog10_from fuel 1 n.

(** For periods of 1 to 4 ns the logarithm rounds to a negative number,
    whose conversion to [uint32_t] is undefined. *)
Definition encPerNs (perNs : Z) : outcome Z :=
  if UNKNOWN_PERIOD =? perNs then Ret 0
  else if perNs <? 5 then Fault BadCast
  else Ret ((ilog10 1300 (perNs ^ 128 / 5 ^ 128) + 1) / 2).

Definition mkQueryReply (protoVers wordSize memDepth periodNs : Z) : outcome Z :=
  periodEncoded ← encPerNs periodNs;
  if negb (protoVers =? PVER0) then
    Throw (RuntimeErr "mkQueryReply: unsupported protocol version")
  else if 16 <? wordSize then
    Throw (RuntimeErr "mkQueryReply: unsupported word size")
  else if Z.shiftl 1 16 <=? memDepth then
    Throw (RuntimeErr "mkQueryReply: unsupported memory depth")
  else if Z.shiftl 1 8 <=? periodNs then
    Throw (RuntimeErr "mkQueryReply: unsupported TCK clock period")
  else
    let rval := Z.lor protoVers CMD_Q in
    let rval := Z.lor rval (Z.shiftl (Z.land periodEncoded 0xff) 20) in
    let rval := Z.lor rval (Z.shiftl (Z.land memDepth 0xffff) 4) in
    Ret (Z.lor rval (Z.shiftl (Z.land (wrap32 (wordSize - 1)) 0xf) 0)).

(** ** The header in memory *)

Section memory.
Context `{Platform}.

(** [getw32( buf + off )] *)
Definition getw32 (off : Z) (buf : list Z) : outcome Z :=
  bs ← rd off 4 buf;
  let w := load32 bs in
  Ret (if negb isLE then bswap32 w else w).

Definition getHdr (buf : list Z) : outcome Z := getw32 0 buf.

(** [setw32( buf + off, w, l )] *)
Definition setw32 (off w l : Z) (buf : list Z) : outcome (list Z) :=
  let w := if negb isLE then bswap32 w else w in
  memcpy off (store32 w) 0 (if 4 <=? l then 4 else l) buf.

(** [setHdr( buf, hdr )] with [getWordSize()] given. *)
Definition setHdr (wsz hdr : Z) (buf : list Z) : outcome (list Z) :=
  let empty := wrap32 (wrap64 (wsz - 4)) in
  buf ← setw32 0 hdr 4 buf;
  memset 4 0 empty buf.
End memory.

(** ** Fields as digits *)

Lemma getXid_digit x : getXid x = (x / 2 ^ 20) `mod` 2 ^ 8.
Proof.
  unfold getXid. change 0xff with (Z.ones 8).
  by rewrite Z.land_ones, Z.shiftr_div_pow2 by lia.
Qed.
Lemma getCmd_digit x : getCmd x = (x / 2 ^ 28) `mod` 2 ^ 2 * 2 ^ 28.
Proof. apply (land_field x 28 2); lia. Qed.
Lemma getVrs_digit x : getVrs x = (x / 2 ^ 30) `mod` 2 ^ 2 * 2 ^ 30.
Proof. apply (land_field x 30 2); lia. Qed.
Lemma len_digit x : Z.shiftr (Z.land x LEN_MASK) LEN_SHIFT = x `mod` 2 ^ 20.
Proof.
  change LEN_MASK with (Z.ones 20). unfold LEN_SHIFT.
  by rewrite Z.shiftr_0_r, Z.land_ones by lia.
Qed.
Lemma getLen_digit x : getCmd x = CMD_S → getLen x = Ret (x `mod` 2 ^ 20 + 1).
Proof. intros Hc. unfold getLen. by rewrite Hc, len_digit. Qed.
Lemma getErr_no_error x : getCmd x ≠ CMD_E → getErr x = 0.
Proof. intros Hc. unfold getErr. by rewrite (proj2 (Z.eqb_neq _ _) Hc). Qed.
Lemma wordSize_digit x : wordSize x = x `mod` 2 ^ 4 + 1.
Proof. unfold wordSize. change 0x0000000f with (Z.ones 4). by rewrite Z.land_ones by lia. Qed.
Lemma memDepth_digit x : memDepth x = (x / 2 ^ 4) `mod` 2 ^ 16.
Proof.
  unfold memDepth. change 0xffff with (Z.ones 16).
  by rewrite Z.land_ones, Z.shiftr_div_pow2 by lia.
Qed.

Lemma wordSize_bounds x : 1 ≤ wordSize x ≤ 16.
Proof. rewrite wordSize_digit. pose proof (Z.mod_pos_bound x (2 ^ 4)). lia. Qed.
Lemma memDepth_bounds x : 0 ≤ memDepth x < 2 ^ 16.
Proof. rewrite memDepth_digit. apply Z.mod_pos_bound. lia. Qed.

(** [newXid] counts modulo 255 through 1 .. 255. *)
Lemma newXid_next x : is_byte x →
  newXid x = (x `mod` 255 + 1, (x `mod` 255 + 1) * 2 ^ 20).
Proof.
  intros Hx. unfold is_byte in Hx. unfold newXid, XID_ANY, wrap8.
  assert (E : (if (x + 1) `mod` 256 =? 0 then ((x + 1) `mod` 256 + 1) `mod` 256
               else (x + 1) `mod` 256) = x `mod` 255 + 1).
  { destruct (Z.eqb_spec ((x + 1) `mod` 256) 0) as [E|E];
      Z.div_mod_to_equations; lia. }
  rewrite E. unfold XID_SHIFT. rewrite Z.shiftl_mul_pow2 by lia.
  rewrite wrap32_small; [done|]. unfold is_u32. Z.div_mod_to_equations. lia.
Qed.

Lemma newXid_range x : is_byte x → 1 ≤ fst (newXid x) ≤ 255.
Proof. intros Hx. rewrite newXid_next by done. simpl. Z.div_mod_to_equations. lia. Qed.

(** The bits of the three fields of a shift header do not overlap. *)
Lemma mkShift_sum x len : is_byte x → 1 ≤ len ≤ 2 ^ 20 →
  mkShift x len =
    (x `mod` 255 + 1, (len - 1) + (x `mod` 255 + 1) * 2 ^ 20 + CMD_S).
Proof.
  intros Hx Hl. unfold mkShift. rewrite newXid_next by done. unfold LEN_SHIFT.
  assert (0 ≤ x `mod` 255 < 255) by (apply Z.mod_pos_bound; lia).
  rewrite Z.shiftl_0_r, !(wrap32_small (len - 1)) by (unfold is_u32; lia).
  f_equal. change (Z.lor PVERS CMD_S) with (1 * 2 ^ 28).
  rewrite (Z.lor_comm (1 * 2 ^ 28)), lor_add by lia.
  rewrite Z.lor_comm.
  replace ((x `mod` 255 + 1) * 2 ^ 20 + 1 * 2 ^ 28) with ((x `mod` 255 + 1 + 2 ^ 8) * 2 ^ 20) by lia.
  rewrite lor_add by lia. unfold CMD_S. lia.
Qed.

(** A shift header built for a vector of 1 to 2^20 bits is decoded to
    the same length, to the transaction ID just drawn, to protocol version
    0 and to the shift command, and it carries no error code. *)
Lemma mkShift_fields x len : is_byte x → 1 ≤ len ≤ 2 ^ 20 →
  let (xid, h) := mkShift x len in
  is_u32 h ∧ getVrs h = PVER0 ∧ getCmd h = CMD_S ∧ getErr h = 0 ∧
  getXid h = xid ∧ xid = fst (newXid x) ∧ getLen h = Ret len.
Proof.
  intros Hx Hl. rewrite mkShift_sum by done. rewrite newXid_next by done.
  assert (0 ≤ x `mod` 255 < 255) by (apply Z.mod_pos_bound; lia).
  set (h := _ + CMD_S). assert (Hc : getCmd h = CMD_S).
  { rewrite getCmd_digit. subst h. unfold CMD_S in *. Z.div_mod_to_equations. lia. }
  rewrite getErr_no_error, getLen_digit, getVrs_digit, getXid_digit by (by rewrite ?Hc).
  unfold is_u32, PVER0. subst h. unfold CMD_S in *.
  split_and!; try done; [..|f_equal]; Z.div_mod_to_equations; lia.
Qed.

(** ** The integer root and logarithm of the period encoding *)

(** One more square root halves the exponent. *)
Lemma sqrt_root w r n : 0 ≤ r → 0 < n → 0 ≤ w → r ^ n ≤ Z.sqrt w < (r + 1) ^ n →
  r ^ (2 * n) ≤ w < (r + 1) ^ (2 * n).
Proof.
  intros Hr Hn Hw [H1 H2].
  rewrite (Z.mul_comm 2), !Z.pow_mul_r, !Z.pow_2_r by lia.
  pose proof (Z.pow_nonneg r n Hr). pose proof (Z.sqrt_spec w Hw) as Hs. cbv zeta in Hs.
  pose proof (Z.sqrt_nonneg w). split; nia.
Qed.

Lemma root64_spec z : 0 ≤ z → 0 ≤ root64 z ∧ root64 z ^ 64 ≤ z < (root64 z + 1) ^ 64.
Proof.
  intros Hz. set (r := root64 z).
  assert (Hr : 0 ≤ r) by apply Z.sqrt_nonneg. split; [done|].
  pose proof (Z.sqrt_nonneg) as Hn.
  eapply (sqrt_root z r 32); [done..|]. eapply (sqrt_root _ r 16); [done..|].
  eapply (sqrt_root _ r 8); [done..|]. eapply (sqrt_root _ r 4); [done..|].
  eapply (sqrt_root _ r 2); [done..|]. eapply (sqrt_root _ r 1); [done..|].
  rewrite !Z.pow_1_r. change (r ≤ r < r + 1). clear. lia.
Qed.

Lemma ilog10_from_spec fuel acc n : 0 < acc → acc ≤ n < acc * 10 ^ Z.of_nat fuel →
  let k := ilog10_from fuel acc n in 0 ≤ k ∧ acc * 10 ^ k ≤ n < acc * 10 ^ (k + 1).
Proof.
  revert acc. induction fuel as [|fuel IH]; intros acc Ha Hn; [simpl in Hn; lia|].
  cbn [ilog10_from]. destruct (Z.ltb_spec n (acc * 10)) as [Hlt|Hge]; [simpl; lia|].
  rewrite Nat2Z.inj_succ, Z.pow_succ_r, Z.mul_assoc in Hn by lia.
  destruct (IH (acc * 10)) as (Hk & H1 & H2); [lia|lia|].
  set (k := ilog10_from _ _ _) in *. cbv zeta. split; [lia|].
  replace (1 + k + 1) with (Z.succ (k + 1)) by lia.
  rewrite Z.add_1_l, !Z.pow_succ_r, !Z.mul_assoc by lia. done.
Qed.

Lemma ilog10_spec fuel n : 1 ≤ n < 10 ^ Z.of_nat fuel →
  0 ≤ ilog10 fuel n ∧ 10 ^ ilog10 fuel n ≤ n < 10 ^ (ilog10 fuel n + 1).
Proof.
  intros Hn. destruct (ilog10_from_spec fuel 1 n) as (Hk & H); [done|by rewrite Z.mul_1_l|].
  rewrite !Z.mul_1_l in H. done.
Qed.

Lemma newXid_iter x k : 1 ≤ x ≤ 255 →
  Nat.iter k (λ x, fst (newXid x)) x = (x - 1 + Z.of_nat k) `mod` 255 + 1.
Proof.
  intros Hx. induction k as [|k IH].
  - simpl. rewrite Z.add_0_r, Z.mod_small by lia. lia.
  - change (Nat.iter (S k) ?f x) with (f (Nat.iter k f x)). cbv beta. rewrite IH.
    assert (0 ≤ (x - 1 + Z.of_nat k) `mod` 255 < 255) by (apply Z.mod_pos_bound; lia).
    rewrite newXid_next by (unfold is_byte; lia). cbn [fst]. f_equal.
    rewrite Zplus_mod_idemp_l. f_equal. lia.
Qed.

(** Over any 255 consecutive transactions the IDs that [newXid] draws
    are pairwise different and never [XID_ANY] (0): two of them agree
    exactly when their distance is a multiple of 255. *)
Theorem newXid_no_reuse x j k : 1 ≤ x ≤ 255 →
  let xid n := Nat.iter n (λ x, fst (newXid x)) x in
  1 ≤ xid j ≤ 255 ∧ (xid j = xid k ↔ Z.of_nat j `mod` 255 = Z.of_nat k `mod` 255).
Proof.
  intros Hx xid. subst xid. cbv beta. rewrite !newXid_iter by done.
  split; [Z.div_mod_to_equations; lia|].
  split; intros H; Z.div_mod_to_equations; lia.
Qed.

Lemma newXid_no_reuse_witness :
  let xid n := Nat.iter n (λ x, fst (newXid x)) 254 in
  (xid 1%nat = 255 ∧ xid 2%nat = 1) ∧
  1 ≤ xid 2%nat ≤ 255 ∧ (xid 2%nat = xid 257%nat ↔ Z.of_nat 2 `mod` 255 = Z.of_nat 257 `mod` 255).
Proof. split; [split; reflexivity|]. apply (newXid_no_reuse 254 2 257). lia. Defined.

(** Every field of a disjunction is the disjunction of the fields. *)
Lemma getXid_lor a b : getXid (Z.lor a b) = Z.lor (getXid a) (getXid b).
Proof. unfold getXid. by rewrite Z.shiftr_lor, Z.land_lor_distr_l. Qed.
Lemma getCmd_lor a b : getCmd (Z.lor a b) = Z.lor (getCmd a) (getCmd b).
Proof. apply Z.land_lor_distr_l. Qed.
Lemma mod_lor a b n : 0 ≤ n → Z.lor a b `mod` 2 ^ n = Z.lor (a `mod` 2 ^ n) (b `mod` 2 ^ n).
Proof. intros Hn. by rewrite <-!Z.land_ones, Z.land_lor_distr_l. Qed.

(** A vector of more than 2^20 bits does not fit the length field: its
    excess is or-ed into the transaction ID and the decoded length is
    wrong. *)
Theorem mkShift_overflow x len : is_byte x → 2 ^ 20 < len ≤ 2 ^ 28 →
  let (xid, h) := mkShift x len in
  getXid h = Z.lor xid ((len - 1) / 2 ^ 20) ∧
  getLen h = Ret ((len - 1) `mod` 2 ^ 20 + 1) ∧ getLen h ≠ Ret len.
Proof.
  intros Hx Hl. unfold mkShift. rewrite newXid_next by done. unfold LEN_SHIFT.
  assert (0 ≤ x `mod` 255 < 255) by (apply Z.mod_pos_bound; lia).
  rewrite Z.shiftl_0_r, !(wrap32_small (len - 1)) by (unfold is_u32; lia).
  set (xid := x `mod` 255 + 1). change (Z.lor PVERS CMD_S) with CMD_S.
  assert (HL : getLen (Z.lor (Z.lor CMD_S (xid * 2 ^ 20)) (len - 1)) =
               Ret ((len - 1) `mod` 2 ^ 20 + 1)).
  { rewrite getLen_digit; [by rewrite !mod_lor, Z.mod_mul by lia|].
    rewrite !getCmd_lor, !getCmd_digit, (Z.div_small (xid * _)), (Z.div_small (len - 1))
      by (subst xid; lia). done. }
  assert (HX : getXid (xid * 2 ^ 20) = xid)
    by (rewrite getXid_digit, Z.div_mul, Z.mod_small by lia; done).
  assert (HQ : getXid (len - 1) = (len - 1) / 2 ^ 20).
  { rewrite getXid_digit, Z.mod_small; [done|]. Z.div_mod_to_equations. lia. }
  rewrite HL, !getXid_lor, HX, HQ. change (getXid CMD_S) with 0.
  split_and!; [done..|]. intros [= E].
  pose proof (Z.mod_pos_bound (len - 1) (2 ^ 20)). lia.
Qed.

Lemma mkShift_overflow_witness :
  is_byte 1 ∧ 2 ^ 20 < 2 ^ 20 + 1 ≤ 2 ^ 28 ∧
  let (xid, h) := mkShift 1 (2 ^ 20 + 1) in
  getXid h = Z.lor xid ((2 ^ 20 + 1 - 1) / 2 ^ 20) ∧
  getLen h = Ret ((2 ^ 20 + 1 - 1) `mod` 2 ^ 20 + 1) ∧ getLen h ≠ Ret (2 ^ 20 + 1).
Proof.
  split; [unfold is_byte; lia|]. split; [lia|].
  apply (mkShift_overflow 1 (2 ^ 20 + 1)); [unfold is_byte; lia|lia].
Defined.

(** ** The header in memory *)

Section memory_proofs.
Context `{Platform}.

Lemma getw32_ok off buf : bytes buf → 0 ≤ off → off + 4 ≤ zlen buf →
  getw32 off buf = Ret (le_val (take 4 (drop (Z.to_nat off) buf))).
Proof.
  intros Hb Ho Hl. unfold getw32. rewrite rd_ok by lia. cbn [mbind outcome_bind].
  change (Z.to_nat 4) with 4%nat.
  assert (Ht : bytes (take 4 (drop (Z.to_nat off) buf))) by auto with xvc.
  assert (length (take 4 (drop (Z.to_nat off) buf)) = 4%nat) by len.
  revert Ht H0. generalize (take 4 (drop (Z.to_nat off) buf)). intros bs Hbs Hbl.
  unfold load32. destruct isLE; simpl negb; cbv iota; [done|].
  rewrite bswap32_le_val by (try apply List.Forall_rev; len; done).
  by rewrite rev_involutive.
Qed.

Lemma setw32_bytes w : is_u32 w →
  store32 (if negb isLE then bswap32 w else w) = le_bytes 4 w.
Proof.
  intros Hw. unfold store32, bswap32. destruct isLE; simpl negb; cbv iota; [done|].
  replace 4%nat with (length (rev (le_bytes 4 w))) at 1 by len.
  rewrite le_bytes_le_val by (apply List.Forall_rev, le_bytes_bytes).
  apply rev_involutive.
Qed.

(** The first [min l 4] little-endian bytes of [w] are stored. *)
Lemma setw32_ok off w l buf : is_u32 w → 0 ≤ l → 0 ≤ off →
  off + Z.min l 4 ≤ zlen buf →
  setw32 off w l buf = wr off (take (Z.to_nat (Z.min l 4)) (le_bytes 4 w)) buf.
Proof.
  intros Hw Hl Ho Hb. unfold setw32, memcpy. rewrite setw32_bytes by done.
  assert (E : (if 4 <=? l then 4 else l) = Z.min l 4)
    by (destruct (Z.leb_spec 4 l); lia).
  rewrite E, rd_ok by len. cbn [mbind outcome_bind]. by rewrite drop_0.
Qed.
End memory_proofs.
