(* ===== verification/Period.v ===== *)
(** * Query replies and the TCK period (xvcSrv.cc)

    [mkQueryReply] against its decoders, and the evaluation of the period
    in floating point against the real numbers. *)

From stdpp Require Import base numbers option list strings.
From Stdlib Require Import ZArith Lia.
From S2P Require Import Prelude Header.
#[local] Open Scope Z_scope.

(** ** Query replies *)

(** ** The encoding of the period is accurate

    The 128-th powers are compared; [10^(1/128)] is less than 1.0182. *)

Lemma tenth_root : 10 * 10000 ^ 128 < 10182 ^ 128.
Proof. by vm_compute. Qed.

(** [a <= 10^(1/128) * b] *)
Lemma root_bound a b : 0 ≤ a → 0 ≤ b → a ^ 128 ≤ 10 * b ^ 128 → 10000 * a ≤ 10182 * b.
Proof.
  intros Ha Hb H. apply Znot_gt_le. intros Hgt.
  assert (Hlt : (10182 * b) ^ 128 < (10000 * a) ^ 128)
    by (apply Z.pow_lt_mono_l; clear - Hgt Hb; lia).
  rewrite !Z.pow_mul_l in Hlt. pose proof tenth_root as Ht.
  pose proof (Z.pow_nonneg b 128 Hb) as Hn.
  revert H Hlt Ht Hn. generalize (a ^ 128) (b ^ 128) (10182 ^ 128).
  assert (0 < 10000 ^ 128) as Hp by by vm_compute. revert Hp. generalize (10000 ^ 128).
  clear. intros. nia.
Qed.

Lemma encPerNs_log p : 6 ≤ p < 2 ^ 32 → ∃ k, encPerNs p = Ret ((k + 1) / 2) ∧ 0 ≤ k ∧
  10 ^ k * 5 ^ 128 ≤ p ^ 128 < 10 ^ (k + 1) * 5 ^ 128.
Proof.
  intros Hp. unfold encPerNs, UNKNOWN_PERIOD. set (n := p ^ 128 / 5 ^ 128).
  assert (H5 : 0 < 5 ^ 128) by by vm_compute.
  assert (Hn : 1 ≤ n < 10 ^ Z.of_nat 1300).
  { assert (6 ^ 128 ≤ p ^ 128 < (2 ^ 32) ^ 128).
    { split; [apply Z.pow_le_mono_l|apply Z.pow_lt_mono_l]; clear - Hp; lia. }
    split.
    - apply Z.div_le_lower_bound; [done|]. rewrite Z.mul_1_r. trans (6 ^ 128); [|apply H].
      by vm_compute.
    - apply Z.div_lt_upper_bound; [done|]. eapply Z.lt_le_trans; [apply H|].
      by vm_compute. }
  exists (ilog10 1300 n). destruct (ilog10_spec 1300 n Hn) as (Hk & Hlo & Hhi).
  split; [|split; [done|]].
  - rewrite (proj2 (Z.eqb_neq 0 p)), (proj2 (Z.ltb_ge p 5)) by (clear - Hp; lia). done.
  - pose proof (Z.div_mod (p ^ 128) (5 ^ 128) ltac:(by intros ?)) as Hd. fold n in Hd.
    pose proof (Z.mod_pos_bound (p ^ 128) (5 ^ 128) H5) as Hm.
    revert Hlo Hhi Hd Hm H5. generalize (10 ^ ilog10 1300 n) (10 ^ (ilog10 1300 n + 1)).
    generalize (p ^ 128) (5 ^ 128). clear. intros. nia.
Qed.

Lemma cvtPerNs_root e : 1 ≤ e < 256 → ∃ r, 0 ≤ r ∧
  cvtPerNs (Z.shiftl e XID_SHIFT) = wrap32 ((r + 1) / 2) ∧
  r ^ 64 ≤ 10 ^ (64 + e) < (r + 1) ^ 64.
Proof.
  intros He. exists (root64 (10 ^ (64 + e))).
  destruct (root64_spec (10 ^ (64 + e))) as [Hr H]; [by apply Z.pow_nonneg|].
  split; [done|]. split; [|done].
  unfold cvtPerNs. change 0xff with (Z.ones 8). unfold XID_SHIFT.
  rewrite Z.land_ones, Z.shiftr_div_pow2, Z.shiftl_mul_pow2, Z.div_mul by (clear; lia).
  rewrite Z.mod_small by (clear - He; lia).
  by rewrite (proj2 (Z.eqb_neq 0 e)) by (clear - He; lia).
Qed.

Lemma pow_128 x : x ^ 128 = x ^ 64 * x ^ 64.
Proof. by rewrite <-Z.pow_add_r by (clear; lia). Qed.

Lemma chain_up R E E2 K T F P : 0 ≤ R → 0 < T → 0 < F → R ≤ E → E * E = T * E2 →
  E2 ≤ 10 * K → K * F ≤ P → F * (R * R) ≤ 10 * (T * P).
Proof.
  intros HR HT HF H1 H2 H3 H4.
  assert (R * R ≤ E * E) by (apply Z.mul_le_mono_nonneg; lia).
  assert (T * E2 ≤ T * (10 * K)) by (apply Z.mul_le_mono_nonneg_l; lia).
  assert (F * (R * R) ≤ F * (T * (10 * K))) by (apply Z.mul_le_mono_nonneg_l; lia).
  assert (T * (K * F) ≤ T * P) by (apply Z.mul_le_mono_nonneg_l; lia). lia.
Qed.

Lemma chain_down R1 E E2 K T F P : 0 ≤ E → 0 < T → 0 < F → E < R1 → E * E = T * E2 →
  K ≤ E2 → P < 10 * K * F → T * P ≤ 10 * (F * (R1 * R1)).
Proof.
  intros HE HT HF H1 H2 H3 H4.
  assert (E * E ≤ R1 * R1) by (apply Z.mul_le_mono_nonneg; lia).
  assert (T * K ≤ T * E2) by (apply Z.mul_le_mono_nonneg_l; lia).
  assert (F * (T * K) ≤ F * (R1 * R1)) by (apply Z.mul_le_mono_nonneg_l; lia).
  assert (T * P ≤ T * (10 * K * F)) by (apply Z.mul_le_mono_nonneg_l; lia). lia.
Qed.

(** The decoded period doubled and not yet rounded, [r], against [p]. *)
Lemma root_accurate p k r : 0 ≤ p → 0 ≤ r → 0 ≤ k →
  10 ^ k * 5 ^ 128 ≤ p ^ 128 < 10 ^ (k + 1) * 5 ^ 128 →
  r ^ 64 ≤ 10 ^ (64 + (k + 1) / 2) < (r + 1) ^ 64 →
  10000 * (5 * r) ≤ 10182 * (10 * p) ∧ 10000 * (10 * p) ≤ 10182 * (5 * (r + 1)).
Proof.
  intros Hp Hr Hk [Hlo Hhi] [Hr0 Hr1]. set (e := (k + 1) / 2) in *.
  assert (He : k ≤ 2 * e ≤ k + 1) by (subst e; clear; Z.div_mod_to_equations; lia).
  assert (Hsq : 10 ^ (64 + e) * 10 ^ (64 + e) = 10 ^ 128 * 10 ^ (2 * e))
    by (rewrite <-!Z.pow_add_r by (clear - He Hk; lia); f_equal; clear; lia).
  assert (HU : 10 ^ (2 * e) ≤ 10 * 10 ^ k).
  { rewrite <-Z.pow_succ_r by done. apply Z.pow_le_mono_r; clear - He; lia. }
  assert (HL : 10 ^ k ≤ 10 ^ (2 * e)) by (apply Z.pow_le_mono_r; clear - He; lia).
  rewrite Z.add_1_r, Z.pow_succ_r in Hhi by done.
  pose proof (Z.pow_nonneg r 64 Hr) as Hrn. pose proof (Z.pow_pos_nonneg 10 k eq_refl Hk) as Hkn.
  assert (H5 : 0 < 5 ^ 128) by by vm_compute. assert (H10 : 0 < 10 ^ 128) by by vm_compute.
  split; (apply root_bound; [clear - Hp Hr; lia|clear - Hp Hr; lia|]);
    rewrite !Z.pow_mul_l.
  - rewrite (pow_128 r). eapply (chain_up _ _ _ (10 ^ k)); eassumption.
  - rewrite (pow_128 (r + 1)). eapply (chain_down _ (10 ^ (64 + e)) _ (10 ^ k)); try eassumption.
    clear - Hr0 Hrn. apply (Z.le_trans _ _ _ Hrn Hr0).
Qed.

Lemma encPerNs_ok p : 6 ≤ p < 256 → ∃ e, encPerNs p = Ret e ∧ 1 ≤ e < 256 ∧
  100 * Z.abs (cvtPerNs (Z.shiftl e XID_SHIFT) - p) ≤ 2 * p + 50.
Proof.
  intros Hp. destruct (encPerNs_log p) as (k & He & Hk & Hb); [clear - Hp; lia|].
  exists ((k + 1) / 2). split; [done|].
  assert (Hk1 : 1 ≤ k < 510).
  { split; apply Znot_gt_le || apply Z.nle_gt; intros Hc.
    - assert (k = 0) by (clear - Hk Hc; lia). subst k. destruct Hb as [_ Hb].
      assert (6 ^ 128 ≤ p ^ 128) as H6 by (apply Z.pow_le_mono_l; clear - Hp; lia).
      assert (10 ^ (0 + 1) * 5 ^ 128 < 6 ^ 128) by by vm_compute.
      eapply Z.lt_irrefl, Z.lt_trans; [|exact H]. eapply Z.le_lt_trans; eassumption.
    - destruct Hb as [Hb _].
      assert (p ^ 128 < 256 ^ 128) as H6 by (apply Z.pow_lt_mono_l; clear - Hp; lia).
      assert (10 ^ 510 ≤ 10 ^ k) as H10 by (apply Z.pow_le_mono_r; clear - Hc; lia).
      assert (256 ^ 128 < 10 ^ 510 * 5 ^ 128) by by vm_compute.
      assert (0 < 5 ^ 128) by by vm_compute.
      revert Hb H6 H10 H H0. generalize (10 ^ 510) (10 ^ k) (5 ^ 128) (p ^ 128) (256 ^ 128).
      clear. intros. nia. }
  assert (He1 : 1 ≤ (k + 1) / 2 < 256) by (clear - Hk1; Z.div_mod_to_equations; lia).
  split; [done|]. destruct (cvtPerNs_root _ He1) as (r & Hr & -> & Hrb).
  destruct (root_accurate p k r) as [HA HB]; [clear - Hp; lia|done..|].
  clear - HA HB Hp Hr. rewrite wrap32_small; unfold is_u32; Z.div_mod_to_equations; lia.
Qed.

Lemma cvtPerNs_digit x e : is_byte e → (x / 2 ^ 20) `mod` 2 ^ 8 = e →
  cvtPerNs x = cvtPerNs (Z.shiftl e XID_SHIFT).
Proof.
  intros He <-. unfold cvtPerNs. change 0xff with (Z.ones 8). unfold XID_SHIFT.
  rewrite !Z.land_ones, !Z.shiftr_div_pow2, Z.shiftl_mul_pow2, Z.div_mul by lia.
  by rewrite Z.mod_mod by lia.
Qed.

(** The bits of a query reply add up. *)
Lemma mkQueryReply_sum ws d p e : 1 ≤ ws ≤ 16 → 0 ≤ d < 2 ^ 16 → p < 256 →
  encPerNs p = Ret e → 0 ≤ e < 256 →
  mkQueryReply PVER0 ws d p = Ret ((ws - 1) + d * 2 ^ 4 + e * 2 ^ 20).
Proof.
  intros Hw Hd Hp He Hb. unfold mkQueryReply. rewrite He. cbn [mbind outcome_bind].
  change (negb (PVER0 =? PVER0)) with false. cbv iota.
  rewrite (proj2 (Z.ltb_ge 16 ws)), (proj2 (Z.leb_gt (Z.shiftl 1 16) d)),
    (proj2 (Z.leb_gt (Z.shiftl 1 8) p)) by (rewrite ?Z.shiftl_mul_pow2; lia).
  rewrite (wrap32_small (ws - 1)) by (unfold is_u32; lia).
  change 0xff with (Z.ones 8). change 0xffff with (Z.ones 16). change 0xf with (Z.ones 4).
  change (Z.lor PVER0 CMD_Q) with 0.
  rewrite !Z.land_ones, !Z.mod_small, !Z.shiftl_mul_pow2, Z.lor_0_l by lia.
  f_equal. rewrite (Z.lor_comm (e * 2 ^ 20)), Z.mul_1_r, Z.lor_comm.
  rewrite Z.lor_assoc, (lor_add (ws - 1)), lor_add by lia. done.
Qed.

Lemma mkQueryReply_zero vrs d p : mkQueryReply vrs 0 d p = mkQueryReply vrs 16 d p.
Proof. unfold mkQueryReply. by destruct (encPerNs p). Qed.

(** A period that can be encoded. *)
Lemma encPerNs_byte p : p = UNKNOWN_PERIOD ∨ 5 ≤ p < 256 → ∃ e, encPerNs p = Ret e ∧ 0 ≤ e < 256 ∧
  let q := cvtPerNs (Z.shiftl e XID_SHIFT) in
  (q = UNKNOWN_PERIOD ↔ p = UNKNOWN_PERIOD ∨ p = 5) ∧ (p ≠ 5 → 100 * Z.abs (q - p) ≤ 2 * p + 50).
Proof.
  intros Hp. destruct (Z.eq_dec p UNKNOWN_PERIOD) as [->|H0].
  { exists 0. split; [done|]. split; [lia|]. split; [|done]. split; [by left|done]. }
  destruct (Z.eq_dec p 5) as [->|H5].
  { exists 0. split; [by vm_compute|]. split; [lia|]. split; [|done]. split; [by right|done]. }
  destruct (encPerNs_ok p) as (e & He & Hb & Ha); [unfold UNKNOWN_PERIOD in *; lia|]. exists e.
  unfold UNKNOWN_PERIOD in *. split_and!; try done; lia.
Qed.

(** C34: for all arguments [mkQueryReply] either throws, when one of them is
    out of the range it checks; or converts a negative number to an unsigned
    one, which is undefined, for periods of 1 to 4 ns; or gives a word from
    which [wordSize], [memDepth] and [cvtPerNs] read the arguments back: the
    depth exactly, the word size too except that 0 comes back as 16, and the
    period within 2 per cent and half a nanosecond of rounding, except that
    5 ns come back as the unknown period. *)
Theorem mkQueryReply_decode vrs ws d p : is_u32 ws → is_u32 d → is_u32 p →
  match mkQueryReply vrs ws d p with
  | Ret h => (vrs = PVER0 ∧ ws ≤ 16 ∧ d < 2 ^ 16 ∧ (p = UNKNOWN_PERIOD ∨ 5 ≤ p < 256)) ∧
      is_u32 h ∧ getVrs h = PVER0 ∧ getCmd h = CMD_Q ∧
      wordSize h = (if ws =? 0 then 16 else ws) ∧ memDepth h = d ∧
      (cvtPerNs h = UNKNOWN_PERIOD ↔ p = UNKNOWN_PERIOD ∨ p = 5) ∧
      (p ≠ 5 → 100 * Z.abs (cvtPerNs h - p) ≤ 2 * p + 50)
  | Throw e => (∃ msg, e = RuntimeErr msg) ∧ (vrs ≠ PVER0 ∨ 16 < ws ∨ 2 ^ 16 ≤ d ∨ 256 ≤ p)
  | Fault u => u = BadCast ∧ 1 ≤ p ≤ 4
  | NoFuel => False
  end.
Proof.
  unfold is_u32. intros Hw Hd Hp. destruct (decide (1 ≤ p ≤ 4)) as [H4|H4].
  { unfold mkQueryReply, encPerNs, UNKNOWN_PERIOD. rewrite (proj2 (Z.eqb_neq 0 p)), (proj2 (Z.ltb_lt p 5)) by lia. done. }
  destruct (decide (vrs = PVER0 ∧ ws ≤ 16 ∧ d < 2 ^ 16 ∧ p < 256)) as [(-> & Hw' & Hd' & Hp')|Hno]; cycle 1.
  { assert (∃ e, encPerNs p = Ret e) as [e He].
    { destruct (Z.eq_dec p 0) as [->|]; [by exists 0|]. unfold encPerNs, UNKNOWN_PERIOD.
      rewrite (proj2 (Z.eqb_neq 0 p)), (proj2 (Z.ltb_ge p 5)) by lia. by eexists. }
    unfold mkQueryReply. rewrite He. cbn [mbind outcome_bind]. rewrite !Z.shiftl_mul_pow2, !Z.mul_1_l by lia.
    destruct (Z.eqb_spec vrs PVER0); cbn [negb]; [|split; [by eexists|by left]].
    destruct (Z.ltb_spec 16 ws); [split; [by eexists|lia]|].
    destruct (Z.leb_spec (2 ^ 16) d); [split; [by eexists|lia]|].
    destruct (Z.leb_spec (2 ^ 8) p); [split; [by eexists|lia]|]. lia. }
  assert (Hpr : p = UNKNOWN_PERIOD ∨ 5 ≤ p < 256) by (unfold UNKNOWN_PERIOD; lia).
  destruct (encPerNs_byte p Hpr) as (e & He & Hb & Hu & Ha).
  set (w := if ws =? 0 then 16 else ws). assert (Hw1 : 1 ≤ w ≤ 16) by (subst w; destruct (Z.eqb_spec ws 0); lia).
  assert (mkQueryReply PVER0 ws d p = mkQueryReply PVER0 w d p) as ->
    by (subst w; destruct (Z.eqb_spec ws 0) as [->|]; [apply mkQueryReply_zero|done]).
  rewrite (mkQueryReply_sum w d p e) by (done || lia). split; [done|].
  set (h := _ + e * 2 ^ 20). assert (Hper : (h / 2 ^ 20) `mod` 2 ^ 8 = e) by (subst h; Z.div_mod_to_equations; lia).
  rewrite (cvtPerNs_digit h e) by done.
  rewrite getVrs_digit, getCmd_digit, wordSize_digit, memDepth_digit.
  unfold is_u32, PVER0, CMD_Q. subst h. split_and!; try done; Z.div_mod_to_equations; lia.
Qed.

Lemma mkQueryReply_decode_witness :
  mkQueryReply PVER0 4 180 50 = Ret 0x04000b43 ∧
  match mkQueryReply PVER0 4 180 50 with
  | Ret h => (PVER0 = PVER0 ∧ 4 ≤ 16 ∧ 180 < 2 ^ 16 ∧ (50 = UNKNOWN_PERIOD ∨ 5 ≤ 50 < 256)) ∧
      is_u32 h ∧ getVrs h = PVER0 ∧ getCmd h = CMD_Q ∧
      wordSize h = (if 4 =? 0 then 16 else 4) ∧ memDepth h = 180 ∧
      (cvtPerNs h = UNKNOWN_PERIOD ↔ 50 = UNKNOWN_PERIOD ∨ 50 = 5) ∧
      (50 ≠ 5 → 100 * Z.abs (cvtPerNs h - 50) ≤ 2 * 50 + 50)
  | Throw e => (∃ msg, e = RuntimeErr msg) ∧ (PVER0 ≠ PVER0 ∨ 16 < 4 ∨ 2 ^ 16 ≤ 180 ∨ 256 ≤ 50)
  | Fault u => u = BadCast ∧ 1 ≤ 50 ≤ 4
  | NoFuel => False
  end.
Proof.
  split; [by vm_compute|]. apply (mkQueryReply_decode PVER0 4 180 50); unfold is_u32; lia.
Defined.
