(* ===== verification/Tap.v ===== *)
(** * The JTAG sniffer (jtagDump.h, jtagDump.cc)

    [JtagDumpCtx] follows the TAP controller of the target from the TMS
    bits that are sent to it, collects the bits shifted through the
    instruction and data registers and prints them when the TAP updates
    them.  The text on [stderr] is kept as the list [log_] of what the two
    Update states print. *)

From stdpp Require Import base numbers option list strings.
From Stdlib Require Import ZArith Lia Ascii.
From S2P Require Import Prelude.
#[local] Open Scope Z_scope.

(** ** Registers: a vector of 64-bit words filled from bit 0 *)

Record JtagRegType := mkReg { bitpos_ : Z; v_ : list Z }.

Definition JtagRegType_new : JtagRegType := mkReg 0 [0].
Definition reg_clear (r : JtagRegType) : JtagRegType := mkReg 0 [0].

Definition getNumBits (r : JtagRegType) : Z :=
  wrap32 ((zlen (v_ r) - 1) * 8 * 8 + bitpos_ r).

(** [1<<n] on [int]: bit 31 is the sign, larger counts are undefined. *)
Definition shl1_int (n : Z) : outcome Z :=
  if (0 <=? n) && (n <? 31) then Ret (2 ^ n)
  else if n =? 31 then Ret (- 2 ^ 31)
  else Fault BadShift.

Definition addBit (b : bool) (r : JtagRegType) : outcome JtagRegType :=
  v ← (if b then
         m ← shl1_int (bitpos_ r);
         match last (v_ r) with
         | Some w => Ret (<[pred (length (v_ r)) := Z.lor w (wrap64 m)]> (v_ r))
         | None => Fault OutOfBounds
         end
       else Ret (v_ r));
  let bp := bitpos_ r + 1 in
  Ret (if 64 <=? bp then mkReg 0 (v ++ [0]) else mkReg bp v).

(** [%llx] and [%016llx]. *)
Definition hex_digit (d : Z) : ascii :=
  ascii_of_N (Z.to_N (if d <? 10 then 48 + d else 87 + d)).

Fixpoint hex_pad (n : nat) (w : Z) : list ascii :=
  match n with
  | O => []
  | S n => hex_pad n (w / 16) ++ [hex_digit (w `mod` 16)]
  end.

Definition hex_width (w : Z) : nat := Z.to_nat (Z.log2 (Z.max 1 w) / 4 + 1).
Definition hex (w : Z) : list ascii := hex_pad (hex_width w) w.

Definition print (r : JtagRegType) : list ascii :=
  match reverse (v_ r) with
  | [] => []
  | it :: rest =>
      ["0"%char; "x"%char] ++ (if 0 <? bitpos_ r then hex it else []) ++
      concat (hex_pad 16 <$> rest)
  end.

(** ** The states of the TAP controller *)

Inductive JtagState :=
  | TestLogicReset | RunTestIdle
  | SelectDRScan | CaptureDR | ShiftDR | Exit1DR | PauseDR | Exit2DR | UpdateDR
  | SelectIRScan | CaptureIR | ShiftIR | Exit1IR | PauseIR | Exit2IR | UpdateIR.

#[export] Instance JtagState_eq_dec : EqDecision JtagState.
Proof. solve_decision. Defined.

(** What an Update state prints. *)
Inductive dump :=
  | DumpDR (ir : list ascii) (nbits : Z) (sent rcvd : list ascii)
  | DumpIR (sent recv : list ascii) (nbits : Z).

Record JtagDumpCtx := mkCtx {
  iri_ : JtagRegType; dri_ : JtagRegType;
  iro_ : JtagRegType; dro_ : JtagRegType;
  state_ : JtagState;
  log_ : list dump;
}.

Definition JtagDumpCtx_new : JtagDumpCtx :=
  mkCtx JtagRegType_new JtagRegType_new JtagRegType_new JtagRegType_new TestLogicReset [].

Abbreviation Dump := (M JtagDumpCtx).

Definition changeState (newState : JtagState) : Dump unit :=
  modify (λ c, mkCtx (iri_ c) (dri_ c) (iro_ c) (dro_ c) newState (log_ c)).
Definition clearDR : Dump unit :=
  modify (λ c, mkCtx (iri_ c) (reg_clear (dri_ c)) (iro_ c) (reg_clear (dro_ c)) (state_ c) (log_ c)).
Definition clearIR : Dump unit :=
  modify (λ c, mkCtx (reg_clear (iri_ c)) (dri_ c) (reg_clear (iro_ c)) (dro_ c) (state_ c) (log_ c)).
Definition getDRLen : Dump Z := gets (λ c, getNumBits (dri_ c)).
Definition getIRLen : Dump Z := gets (λ c, getNumBits (iri_ c)).
Definition emit (d : dump) : Dump unit :=
  modify (λ c, mkCtx (iri_ c) (dri_ c) (iro_ c) (dro_ c) (state_ c) (log_ c ++ [d])).

Definition set_dro (r : JtagRegType) (c : JtagDumpCtx) : JtagDumpCtx :=
  mkCtx (iri_ c) (dri_ c) (iro_ c) r (state_ c) (log_ c).
Definition set_dri (r : JtagRegType) (c : JtagDumpCtx) : JtagDumpCtx :=
  mkCtx (iri_ c) r (iro_ c) (dro_ c) (state_ c) (log_ c).
Definition set_iro (r : JtagRegType) (c : JtagDumpCtx) : JtagDumpCtx :=
  mkCtx (iri_ c) (dri_ c) r (dro_ c) (state_ c) (log_ c).
Definition set_iri (r : JtagRegType) (c : JtagDumpCtx) : JtagDumpCtx :=
  mkCtx r (dri_ c) (iro_ c) (dro_ c) (state_ c) (log_ c).

Definition shiftDR (tdo tdi : bool) : Dump unit :=
  zoom dro_ set_dro (upd (addBit tdo)) ;; zoom dri_ set_dri (upd (addBit tdi)).
Definition shiftIR (tdo tdi : bool) : Dump unit :=
  zoom iro_ set_iro (upd (addBit tdo)) ;; zoom iri_ set_iri (upd (addBit tdi)).

(** ** [advance] of each state *)

Definition advance_TestLogicReset (tms tdo tdi : bool) : Dump unit :=
  if negb tms then changeState RunTestIdle else mret tt.

Definition advance_RunTestIdle (tms tdo tdi : bool) : Dump unit :=
  if tms then changeState SelectDRScan else mret tt.

Definition advance_SelectDRScan (tms tdo tdi : bool) : Dump unit :=
  if tms then changeState SelectIRScan else changeState CaptureDR.

Definition advance_CaptureDR (tms tdo tdi : bool) : Dump unit :=
  clearDR ;; if tms then changeState Exit1DR else changeState ShiftDR.

Definition advance_ShiftDR (tms tdo tdi : bool) : Dump unit :=
  shiftDR tdo tdi ;; if tms then changeState Exit1DR else mret tt.

Definition advance_Exit1DR (tms tdo tdi : bool) : Dump unit :=
  if tms then changeState UpdateDR else changeState PauseDR.

Definition advance_PauseDR (tms tdo tdi : bool) : Dump unit :=
  if tms then changeState Exit2DR else mret tt.

Definition advance_Exit2DR (tms tdo tdi : bool) : Dump unit :=
  if tms then changeState UpdateDR else changeState ShiftDR.

Definition advance_UpdateDR (tms tdo tdi : bool) : Dump unit :=
  bits ← getDRLen;
  d ← gets (λ c, DumpDR (print (iro_ c)) bits (print (dro_ c)) (print (dri_ c)));
  emit d ;;
  if tms then changeState SelectDRScan else changeState RunTestIdle.

Definition advance_SelectIRScan (tms tdo tdi : bool) : Dump unit :=
  if tms then changeState TestLogicReset else changeState CaptureIR.

Definition advance_CaptureIR (tms tdo tdi : bool) : Dump unit :=
  clearIR ;; if tms then changeState Exit1IR else changeState ShiftIR.

Definition advance_ShiftIR (tms tdo tdi : bool) : Dump unit :=
  shiftIR tdo tdi ;; if tms then changeState Exit1IR else mret tt.

Definition advance_Exit1IR (tms tdo tdi : bool) : Dump unit :=
  if tms then changeState UpdateIR else changeState PauseIR.

Definition advance_PauseIR (tms tdo tdi : bool) : Dump unit :=
  if tms then changeState Exit2IR else mret tt.

Definition advance_Exit2IR (tms tdo tdi : bool) : Dump unit :=
  if tms then changeState UpdateIR else changeState ShiftIR.

Definition advance_UpdateIR (tms tdo tdi : bool) : Dump unit :=
  bits ← getIRLen;
  d ← gets (λ c, DumpIR (print (iro_ c)) (print (iri_ c)) bits);
  emit d ;;
  if tms then changeState SelectDRScan else changeState RunTestIdle.

(** The virtual call [state_->advance( this, tms, tdo, tdi )]. *)
Definition advance (tms tdo tdi : bool) : Dump unit :=
  st ← gets state_;
  match st with
  | TestLogicReset => advance_TestLogicReset
  | RunTestIdle => advance_RunTestIdle
  | SelectDRScan => advance_SelectDRScan
  | CaptureDR => advance_CaptureDR
  | ShiftDR => advance_ShiftDR
  | Exit1DR => advance_Exit1DR
  | PauseDR => advance_PauseDR
  | Exit2DR => advance_Exit2DR
  | UpdateDR => advance_UpdateDR
  | SelectIRScan => advance_SelectIRScan
  | CaptureIR => advance_CaptureIR
  | ShiftIR => advance_ShiftIR
  | Exit1IR => advance_Exit1IR
  | PauseIR => advance_PauseIR
  | Exit2IR => advance_Exit2IR
  | UpdateIR => advance_UpdateIR
  end tms tdo tdi.

(** ** [processBuf]

    The inner loop runs [m] through the powers of two below [n]; the bits
    that are left are returned when the state [until] is reached. *)

Definition byte_at (off : Z) (buf : list Z) : outcome Z :=
  bs ← rd off 1 buf; match bs with [b] => Ret b | _ => Fault OutOfBounds end.

Definition reached (until : option JtagState) : Dump bool :=
  gets (λ c, match until with Some u => bool_decide (state_ c = u) | None => false end).

(** The bits [m] of the byte at offset [k]; the result is [inl nbits] when
    the loop ran to its end and [inr nbits] when the function returns. *)
Fixpoint processByte (fuel : nat) (n m nbits k : Z) (tmsb tdob tdib : list Z)
    (until : option JtagState) : Dump (Z + Z) :=
  if m <? n then
    match fuel with
    | O => no_fuel
    | S fuel =>
        stop ← reached until;
        if stop : bool then mret (inr nbits)
        else
          tms ← lift (byte_at k tmsb);
          tdo ← lift (byte_at k tdob);
          tdi ← lift (byte_at k tdib);
          advance (negb (Z.land tms m =? 0)) (negb (Z.land tdo m =? 0))
                  (negb (Z.land tdi m =? 0)) ;;
          processByte fuel n (wrap32 (Z.shiftl m 1)) (nbits - 1) k tmsb tdob tdib until
    end
  else mret (inl nbits).

(** [k] is the offset of the pointers [tmsb], [tdob] and [tdib]. *)
Fixpoint processBuf_loop (fuel : nat) (k nbits : Z) (tmsb tdob tdib : list Z)
    (until : option JtagState) : Dump Z :=
  if 0 <? nbits then
    match fuel with
    | O => no_fuel
    | S fuel =>
        let n := Z.shiftl 1 (if nbits <? 8 then nbits else 8) in
        r ← processByte 8 n 1 nbits k tmsb tdob tdib until;
        match r with
        | inr rest => mret rest
        | inl nbits => processBuf_loop fuel (k + 1) nbits tmsb tdob tdib until
        end
    end
  else mret 0.

Definition processBuf (nbits : Z) (tmsb tdob tdib : list Z)
    (until : option JtagState) : Dump Z :=
  processBuf_loop (Z.to_nat ((nbits + 7) / 8)) 0 nbits tmsb tdob tdib until.


(** ** Registers hold the bits that were added *)

Fixpoint words_val (ws : list Z) : Z :=
  match ws with [] => 0 | w :: ws => w + 2 ^ 64 * words_val ws end.
Definition reg_val (r : JtagRegType) : Z := words_val (v_ r).
Definition reg_bits (r : JtagRegType) : Z := (zlen (v_ r) - 1) * 64 + bitpos_ r.

(** The vector ends in the word being filled, whose bits from [bitpos_]
    on are clear. *)
Definition reg_wf (r : JtagRegType) : Prop :=
  0 ≤ bitpos_ r < 64 ∧ ∃ ws w, v_ r = ws ++ [w] ∧ Forall (λ x, 0 ≤ x < 2 ^ 64) ws ∧
    0 ≤ w < 2 ^ bitpos_ r.

Lemma words_val_app ws ws' :
  words_val (ws ++ ws') = words_val ws + 2 ^ (64 * zlen ws) * words_val ws'.
Proof.
  induction ws as [|w ws IH]; [simpl words_val; simpl length; lia|].
  cbn [app words_val length]. rewrite IH, Nat2Z.inj_succ.
  replace (64 * Z.succ (zlen ws)) with (64 + 64 * zlen ws) by lia.
  rewrite Z.pow_add_r by lia. lia.
Qed.

Lemma reg_clear_wf r : reg_wf (reg_clear r).
Proof. split; [simpl; lia|]. exists [], 0. split_and!; [done|by constructor|simpl; lia..]. Qed.

(** What [addBit] computes, by position of the bit. *)
Lemma addBit_split bp ws w b : 0 ≤ bp < 64 → 0 ≤ w →
  addBit b (mkReg bp (ws ++ [w])) =
    (w' ← (if b then m ← shl1_int bp; Ret (Z.lor w (wrap64 m)) else Ret w);
     Ret (if 64 <=? bp + 1 then mkReg 0 ((ws ++ [w']) ++ [0]) else mkReg (bp + 1) (ws ++ [w']))).
Proof.
  intros Hbp Hw. unfold addBit. cbn [bitpos_ v_]. destruct b; [|done].
  destruct (shl1_int bp) as [m| | |]; try done. cbn [mbind outcome_bind].
  rewrite last_snoc, length_app, Nat.add_1_r. cbn [pred].
  by rewrite insert_app_r_alt, Nat.sub_diag by lia.
Qed.

Definition shift_ok (b : bool) (p : Z) : Prop := b = true → p `mod` 64 < 31.

Lemma addBit_ok b r : reg_wf r → shift_ok b (bitpos_ r) →
  ∃ r', addBit b r = Ret r' ∧ reg_wf r' ∧ reg_bits r' = reg_bits r + 1 ∧
    reg_val r' = reg_val r + Z.b2z b * 2 ^ reg_bits r.
Proof.
  intros [Hbp (ws & w & Hv & Hws & Hw)] Hok. destruct r as [bp v]. simpl in *. subst v.
  rewrite addBit_split by lia. set (w' := w + Z.b2z b * 2 ^ bp).
  assert (Hw' : 0 ≤ w' < 2 ^ (bp + 1)).
  { rewrite Z.pow_add_r by lia. subst w'. destruct b; simpl Z.b2z; lia. }
  replace (if b then _ else Ret w) with (Ret w'); cycle 1.
  { subst w'. destruct b; simpl Z.b2z; [|f_equal; lia].
    assert (bp < 31) by (specialize (Hok eq_refl); rewrite Z.mod_small in Hok; lia).
    unfold shl1_int. rewrite (proj2 (Z.leb_le 0 bp)), (proj2 (Z.ltb_lt bp 31)) by lia.
    cbn [andb mbind outcome_bind]. rewrite Z.mul_1_l. f_equal.
    assert (2 ^ bp < 2 ^ 31) by (apply Z.pow_lt_mono_r; lia).
    rewrite wrap64_small by lia. rewrite <-(Z.mul_1_l (2 ^ bp)), lor_add; lia. }
  cbn [mbind outcome_bind]. eexists. split; [done|].
  assert (Hval : reg_val (mkReg bp (ws ++ [w'])) =
    reg_val (mkReg bp (ws ++ [w])) + Z.b2z b * 2 ^ reg_bits (mkReg bp (ws ++ [w]))).
  { unfold reg_val, reg_bits. cbn [v_ bitpos_]. rewrite !words_val_app.
    cbn [words_val]. rewrite length_app. simpl (length [_]).
    replace ((Z.of_nat (length ws + 1) - 1) * 64 + bp) with (64 * zlen ws + bp) by lia.
    rewrite Z.pow_add_r by lia. subst w'. lia. }
  destruct (Z.leb_spec 64 (bp + 1)).
  - split_and!.
    + split; [simpl; lia|]. exists (ws ++ [w']), 0. split_and!; [done| |simpl; lia..].
      apply Forall_app. split; [done|]. replace (bp + 1) with 64 in Hw' by lia.
      by apply Forall_singleton.
    + unfold reg_bits. cbn [v_ bitpos_]. rewrite !length_app. simpl length. lia.
    + rewrite <-Hval. unfold reg_val. cbn [v_]. rewrite (words_val_app (ws ++ [w'])).
      simpl words_val. lia.
  - split_and!; [|unfold reg_bits; cbn [v_ bitpos_]; rewrite !length_app; simpl; lia|done].
    split; [simpl; lia|]. by exists ws, w'.
Qed.

(** ** [print] writes the value of the register *)

Definition hex_digit_val (c : ascii) : Z :=
  let n := Z.of_N (N_of_ascii c) in if n <? 58 then n - 48 else n - 87.
Definition hex_val_from (acc : Z) (l : list ascii) : Z :=
  foldl (λ acc c, acc * 16 + hex_digit_val c) acc l.

Lemma hex_val_app acc l1 l2 :
  hex_val_from acc (l1 ++ l2) = hex_val_from (hex_val_from acc l1) l2.
Proof. apply foldl_app. Qed.

Lemma hex_digit_val_digit d : 0 ≤ d < 16 → hex_digit_val (hex_digit d) = d.
Proof.
  intros Hd. assert (H : forallb (λ d, hex_digit_val (hex_digit d) =? d) (seqZ 0 16) = true)
    by by vm_compute.
  rewrite List.forallb_forall in H. apply Z.eqb_eq, H.
  apply list_elem_of_In, elem_of_seqZ. lia.
Qed.

Lemma hex_val_pad n w acc :
  hex_val_from acc (hex_pad n w) = acc * 16 ^ Z.of_nat n + w `mod` 16 ^ Z.of_nat n.
Proof.
  revert w acc. induction n as [|n IH]; intros w acc; [simpl; rewrite Z.mod_1_r; lia|].
  cbn [hex_pad]. rewrite hex_val_app, IH. cbn [hex_val_from foldl].
  rewrite hex_digit_val_digit by (apply Z.mod_pos_bound; lia).
  rewrite Nat2Z.inj_succ, Z.pow_succ_r, (Z.rem_mul_r w 16) by lia. lia.
Qed.

Lemma hex_val_hex w : 0 ≤ w → hex_val_from 0 (hex w) = w.
Proof.
  intros Hw. unfold hex. rewrite hex_val_pad, Z.mul_0_l, Z.add_0_l.
  apply Z.mod_small. split; [done|]. unfold hex_width.
  set (m := Z.max 1 w). pose proof (Z.log2_nonneg m) as Hn.
  pose proof (Z.log2_spec m ltac:(lia)) as [_ Hm].
  rewrite Z2Nat.id by (Z.div_mod_to_equations; lia).
  change 16 with (2 ^ 4). rewrite <-Z.pow_mul_r by (Z.div_mod_to_equations; lia).
  apply (Z.le_lt_trans _ m); [lia|]. eapply Z.lt_le_trans; [exact Hm|].
  apply Z.pow_le_mono_r; [lia|]. Z.div_mod_to_equations. lia.
Qed.

Lemma hex_val_words ws acc : Forall (λ x, 0 ≤ x < 2 ^ 64) ws →
  hex_val_from acc (concat (hex_pad 16 <$> reverse ws)) =
    acc * 2 ^ (64 * zlen ws) + words_val ws.
Proof.
  intros Hws. revert acc. induction Hws as [|w ws Hw Hws IH]; intros acc.
  - simpl. lia.
  - rewrite reverse_cons, fmap_app, concat_app. rewrite hex_val_app, IH.
    change (concat (hex_pad 16 <$> [w])) with (hex_pad 16 w ++ []).
    rewrite app_nil_r, hex_val_pad. change (16 ^ Z.of_nat 16) with (2 ^ 64).
    rewrite Z.mod_small by done. cbn [words_val length].
    rewrite Nat2Z.inj_succ. replace (64 * Z.succ (zlen ws)) with (64 + 64 * zlen ws) by lia.
    rewrite Z.pow_add_r by lia. lia.
Qed.

(** The text that [print] writes is "0x" followed by hexadecimal digits whose
    value is that of the register, whatever its number of words. *)
Lemma print_digits r : reg_wf r →
  ∃ l, print r = ["0"%char; "x"%char] ++ l ∧ hex_val_from 0 l = reg_val r.
Proof.
  intros [Hbp (ws & w & Hv & Hws & Hw)]. unfold print, reg_val. rewrite Hv.
  rewrite reverse_app, reverse_singleton. eexists. split; [reflexivity|].
  rewrite hex_val_app, hex_val_words, words_val_app by done. cbn [words_val].
  destruct (Z.ltb_spec 0 (bitpos_ r)).
  - rewrite hex_val_hex by lia. lia.
  - replace (bitpos_ r) with 0 in Hw by lia. simpl in Hw. cbn [hex_val_from foldl]. lia.
Qed.

(** ** The state diagram *)

Definition tap_next (s : JtagState) (tms : bool) : JtagState :=
  match s, tms with
  | TestLogicReset, true => TestLogicReset | TestLogicReset, false => RunTestIdle
  | RunTestIdle, true => SelectDRScan      | RunTestIdle, false => RunTestIdle
  | SelectDRScan, true => SelectIRScan     | SelectDRScan, false => CaptureDR
  | CaptureDR, true => Exit1DR             | CaptureDR, false => ShiftDR
  | ShiftDR, true => Exit1DR               | ShiftDR, false => ShiftDR
  | Exit1DR, true => UpdateDR              | Exit1DR, false => PauseDR
  | PauseDR, true => Exit2DR               | PauseDR, false => PauseDR
  | Exit2DR, true => UpdateDR              | Exit2DR, false => ShiftDR
  | UpdateDR, true => SelectDRScan         | UpdateDR, false => RunTestIdle
  | SelectIRScan, true => TestLogicReset   | SelectIRScan, false => CaptureIR
  | CaptureIR, true => Exit1IR             | CaptureIR, false => ShiftIR
  | ShiftIR, true => Exit1IR               | ShiftIR, false => ShiftIR
  | Exit1IR, true => UpdateIR              | Exit1IR, false => PauseIR
  | PauseIR, true => Exit2IR               | PauseIR, false => PauseIR
  | Exit2IR, true => UpdateIR              | Exit2IR, false => ShiftIR
  | UpdateIR, true => SelectDRScan         | UpdateIR, false => RunTestIdle
  end.

(** One clock of TCK. *)
Definition clock : Type := bool * bool * bool.

Fixpoint run (l : list clock) : Dump unit :=
  match l with
  | [] => mret tt
  | (tms, tdo, tdi) :: l => advance tms tdo tdi ;; run l
  end.

(** The sniffer follows the diagram whenever the call returns; otherwise
    the register update was undefined. *)
Lemma advance_next tms tdo tdi c :
  match advance tms tdo tdi c with
  | (Ret _, c') => state_ c' = tap_next (state_ c) tms
  | (Fault BadShift, _) | (Fault OutOfBounds, _) => state_ c = ShiftDR ∨ state_ c = ShiftIR
  | _ => False
  end.
Proof.
  assert (HA : ∀ b r, match addBit b r with
    Ret _ | Fault BadShift | Fault OutOfBounds => True | _ => False end).
  { intros b r. unfold addBit, shl1_int. destruct b; [|done].
    repeat (case_match; try done); simplify_eq/=; by destruct (last (v_ r)). }
  unfold advance. destruct c as [ii di io d_o st lg]. cbn.
  destruct st, tms; try done;
    unfold advance_ShiftDR, advance_ShiftIR, shiftDR, shiftIR, mbind, M_bind, zoom, upd; cbn;
    (match goal with |- context [addBit tdo ?r] =>
       pose proof (HA tdo r); destruct (addBit tdo r) as [|?|[]|] end); cbn; try done; auto;
    (match goal with |- context [addBit tdi ?r] =>
       pose proof (HA tdi r); destruct (addBit tdi r) as [|?|[]|] end); cbn; try done; auto.
Qed.

(** ** [processBuf] clocks the bits of the buffers in order *)

Definition clocks (tms tdo tdi : list Z) : list clock :=
  zip (zip (bits_of tms) (bits_of tdo)) (bits_of tdi).

(** Clock the bits of [l], of [nbits] that are left, and go on with [K];
    return what is left as soon as [until] is reached. *)
Fixpoint run_left (until : option JtagState) (l : list clock) (nbits : Z)
    (K : Z → Dump Z) : Dump Z :=
  match l with
  | [] => K nbits
  | (tms, tdo, tdi) :: l =>
      stop ← reached until;
      if stop : bool then mret nbits
      else advance tms tdo tdi ;; run_left until l (nbits - 1) K
  end.

Definition run_until (until : option JtagState) (l : list clock) : Dump Z :=
  run_left until l (zlen l) (λ _, mret 0).

Lemma run_left_ext until l nb K K' c :
  (∀ c, K (nb - zlen l) c = K' (nb - zlen l) c) →
  run_left until l nb K c = run_left until l nb K' c.
Proof.
  revert nb c. induction l as [|[[a b] d] l IH]; intros nb c HK; cbn [run_left].
  - specialize (HK c). by rewrite Z.sub_0_r in HK.
  - apply M_bind_ext; [done|]. intros [] s; [done|].
    apply M_bind_ext; [done|]. intros _ s'. apply IH. intros c'. specialize (HK c').
    cbn [length] in HK. by replace (nb - 1 - zlen l) with (nb - Z.of_nat (S (length l))) by lia.
Qed.

Lemma run_left_app until l l' nb K c :
  run_left until (l ++ l') nb K c =
    run_left until l nb (λ nb, run_left until l' nb K) c.
Proof.
  revert nb c. induction l as [|[[a b] d] l IH]; intros nb c; [done|].
  cbn [run_left app]. apply M_bind_ext; [done|]. intros [] s; [done|].
  apply M_bind_ext; [done|]. intros _ s'. apply IH.
Qed.

Lemma byte_at_ok k buf b : 0 ≤ k → buf !! Z.to_nat k = Some b → byte_at k buf = Ret b.
Proof.
  intros Hk Hb. pose proof (lookup_lt_Some _ _ _ Hb). unfold byte_at.
  rewrite rd_ok by lia. cbn [mbind outcome_bind].
  by rewrite (drop_S _ _ _ Hb).
Qed.

Definition byte_clocks (j d a b e : Z) : list clock :=
  zip (zip (Z.testbit a <$> seqZ j d) (Z.testbit b <$> seqZ j d)) (Z.testbit e <$> seqZ j d).

Lemma byte_clocks_S j d a b e : 0 < d →
  byte_clocks j d a b e =
    (Z.testbit a j, Z.testbit b j, Z.testbit e j) :: byte_clocks (j + 1) (d - 1) a b e.
Proof. intros Hd. unfold byte_clocks. by rewrite seqZ_cons. Qed.

Lemma byte_clocks_length j d a b e : 0 ≤ d → zlen (byte_clocks j d a b e) = d.
Proof.
  intros Hd. unfold byte_clocks. rewrite !length_zip_with, !length_fmap, !length_seqZ. lia.
Qed.

Section processByte_run.
Context (until : option JtagState) (k : Z) (tmsb tdob tdib : list Z) (a b e : Z).
Context (Ha : byte_at k tmsb = Ret a) (Hb : byte_at k tdob = Ret b)
  (He : byte_at k tdib = Ret e).

Lemma processByte_run K d : ∀ fuel j nbits c, (d ≤ fuel)%nat → 0 ≤ j →
  j + Z.of_nat d ≤ 8 →
  (processByte fuel (2 ^ (j + Z.of_nat d)) (2 ^ j) nbits k tmsb tdob tdib until ≫=
     λ r, match r with inr rest => mret rest | inl nb => K nb end) c =
  run_left until (byte_clocks j (Z.of_nat d) a b e) nbits K c.
Proof.
  induction d as [|d IH]; intros fuel j nbits c Hf Hj Hd.
  - rewrite Z.add_0_r. destruct fuel; cbn [processByte]; by rewrite Z.ltb_irrefl.
  - destruct fuel as [|fuel]; [lia|]. cbn [processByte].
    rewrite (proj2 (Z.ltb_lt _ _)) by (apply Z.pow_lt_mono_r; lia).
    rewrite byte_clocks_S by lia. cbv iota. rewrite M_bind_assoc. cbn [run_left].
    apply M_bind_ext; [done|]. intros [] s; [done|].
    rewrite Ha, Hb, He.
    rewrite <-(land_pow2 a j), <-(land_pow2 b j), <-(land_pow2 e j) by done.
    cbv [lift].
    match goal with |- _ = (?A ≫= _) ?s => change (((A ;; processByte fuel
      (2 ^ (j + Z.of_nat (S d))) (wrap32 (Z.shiftl (2 ^ j) 1)) (nbits - 1) k tmsb tdob tdib
      until) ≫= λ r, match r with inr rest => mret rest | inl nb => K nb end) s =
      (A ;; run_left until (byte_clocks (j + 1) (Z.of_nat (S d) - 1) a b e) (nbits - 1) K) s) end.
    rewrite M_bind_assoc. apply M_bind_ext; [done|]. intros _ s'.
    assert (2 ^ (j + 1) ≤ 2 ^ 8) by (apply Z.pow_le_mono_r; lia).
    rewrite Z.shiftl_mul_pow2, <-Z.pow_add_r, wrap32_small by (unfold is_u32; lia).
    replace (j + Z.of_nat (S d)) with (j + 1 + Z.of_nat d) by lia.
    replace (Z.of_nat (S d) - 1) with (Z.of_nat d) by lia.
    apply IH; lia.
Qed.
End processByte_run.

Lemma clocks_split k tmsb tdob tdib a b e :
  tmsb !! k = Some a → tdob !! k = Some b → tdib !! k = Some e →
  drop (8 * k) (clocks tmsb tdob tdib) =
    byte_clocks 0 8 a b e ++ drop (8 * S k) (clocks tmsb tdob tdib).
Proof.
  intros Ha Hb He. unfold clocks. rewrite !zip_with_drop, !bits_of_drop.
  rewrite (drop_S _ _ _ Ha), (drop_S _ _ _ Hb), (drop_S _ _ _ He), !bits_of_cons.
  by rewrite !zip_with_app by done.
Qed.

Lemma take_byte_clocks d a b e : (d ≤ 8)%nat →
  take d (byte_clocks 0 8 a b e) = byte_clocks 0 (Z.of_nat d) a b e.
Proof. intros Hd. do 9 (destruct d as [|d]; [done|]). lia. Qed.

Lemma processBuf_loop_run until tmsb tdob tdib fuel : ∀ k nbits c,
  (nbits ≤ 8 * (length tmsb - k))%nat → (nbits ≤ 8 * (length tdob - k))%nat →
  (nbits ≤ 8 * (length tdib - k))%nat → (nbits ≤ 8 * fuel)%nat →
  processBuf_loop fuel (Z.of_nat k) (Z.of_nat nbits) tmsb tdob tdib until c =
  run_left until (take nbits (drop (8 * k) (clocks tmsb tdob tdib))) (Z.of_nat nbits)
    (λ _, mret 0) c.
Proof.
  induction fuel as [|fuel IH]; intros k nbits c H1 H2 H3 Hf.
  - replace nbits with O by lia. done.
  - cbn [processBuf_loop]. destruct (Z.ltb_spec 0 (Z.of_nat nbits)); cycle 1.
    { replace nbits with O by lia. done. }
    destruct (lookup_lt_is_Some_2 tmsb k) as [a Ha]; [lia|].
    destruct (lookup_lt_is_Some_2 tdob k) as [b Hb]; [lia|].
    destruct (lookup_lt_is_Some_2 tdib k) as [e He]; [lia|].
    set (d := Nat.min nbits 8).
    replace (Z.shiftl 1 _) with (2 ^ (0 + Z.of_nat d)); cycle 1.
    { destruct (Z.ltb_spec (Z.of_nat nbits) 8); rewrite Z.shiftl_mul_pow2 by lia;
        rewrite Z.mul_1_l; f_equal; lia. }
    change 1 with (2 ^ 0) at 2.
    etrans; [apply (processByte_run until (Z.of_nat k) tmsb tdob tdib a b e);
      try (apply byte_at_ok; [lia|by rewrite Nat2Z.id]); lia|].
    rewrite (clocks_split k _ _ _ a b e), take_app by done.
    assert (Hl : length (byte_clocks 0 8 a b e) = 8%nat) by done.
    rewrite Hl, run_left_app.
    replace (take nbits (byte_clocks 0 8 a b e)) with (byte_clocks 0 (Z.of_nat d) a b e); cycle 1.
    { rewrite <-take_byte_clocks by lia. subst d.
      destruct (decide (nbits ≤ 8)%nat); [by rewrite Nat.min_l|].
      rewrite !take_ge; [done|lia..]. }
    apply run_left_ext. intros c'. rewrite byte_clocks_length by lia.
    replace (Z.of_nat nbits - Z.of_nat d) with (Z.of_nat (nbits - d)) by lia.
    replace (Z.of_nat k + 1) with (Z.of_nat (S k)) by lia.
    rewrite IH by lia. by replace (nbits - d)%nat with (nbits - 8)%nat by lia.
Qed.

(** [processBuf] as a run over the clocks of the buffers. *)
Lemma processBuf_clocks nbits tmsb tdob tdib until c :
  0 ≤ nbits → nbits ≤ 8 * zlen tmsb → nbits ≤ 8 * zlen tdob → nbits ≤ 8 * zlen tdib →
  processBuf nbits tmsb tdob tdib until c =
    run_until until (take (Z.to_nat nbits) (clocks tmsb tdob tdib)) c.
Proof.
  intros Hn H1 H2 H3. unfold processBuf, run_until.
  assert (E : zlen (take (Z.to_nat nbits) (clocks tmsb tdob tdib)) = nbits).
  { unfold clocks. rewrite length_take, !length_zip_with, !bits_of_length. lia. }
  rewrite E. rewrite <-(Z2Nat.id nbits) at 2 by done. change 0 with (Z.of_nat 0) at 1.
  rewrite processBuf_loop_run; [by rewrite drop_0, Z2Nat.id by done|lia..|].
  apply Nat2Z.inj_le. rewrite Nat2Z.inj_mul, !Z2Nat.id; Z.div_mod_to_equations; lia.
Qed.

(** C33: [processBuf] clocks exactly the first [nbits] bits of the three
    buffers, least significant bit of the lowest byte first, stopping in
    front of the first clock at which the TAP is in the state [until]; it
    returns the number of bits not clocked. *)
Theorem processBuf_run nbits tmsb tdob tdib until c :
  0 ≤ nbits → nbits ≤ 8 * zlen tmsb → nbits ≤ 8 * zlen tdob → nbits ≤ 8 * zlen tdib →
  processBuf nbits tmsb tdob tdib until c =
    run_until until (take (Z.to_nat nbits) (clocks tmsb tdob tdib)) c.
Proof. apply processBuf_clocks. Qed.

Lemma processBuf_run_witness :
  0 ≤ 11 ∧ 11 ≤ 8 * zlen [0x5f; 0x03] ∧ 11 ≤ 8 * zlen [0x00; 0x02] ∧ 11 ≤ 8 * zlen [0xff; 0x01] ∧
  processBuf 11 [0x5f; 0x03] [0x00; 0x02] [0xff; 0x01] (Some ShiftDR) JtagDumpCtx_new =
    run_until (Some ShiftDR) (take 11 (clocks [0x5f; 0x03] [0x00; 0x02] [0xff; 0x01]))
      JtagDumpCtx_new.
Proof.
  split_and!; [lia|simpl; lia..|].
  apply (processBuf_run 11 [0x5f; 0x03] [0x00; 0x02] [0xff; 0x01]); simpl; lia.
Defined.

(** ** A data register scan *)

Definition reg_holds (r : JtagRegType) (l : list bool) : Prop :=
  reg_wf r ∧ reg_bits r = zlen l ∧ reg_val r = bits_val l.

(** No bit is set in the upper 33 bits of a word, where [addBit] fails. *)
Definition all_ok (l : list bool) : Prop :=
  ∀ i b, l !! i = Some b → shift_ok b (Z.of_nat i).

#[export] Instance all_ok_dec l : Decision (all_ok l).
Proof.
  refine (cast_if (decide (Forall (λ p, snd p = false ∨ fst p `mod` 64 < 31)
    (imap (λ i b, (Z.of_nat i, b)) l)))).
  - intros i b Hi Hb. subst b.
    assert (Hin : imap (λ i b, (Z.of_nat i, b)) l !! i = Some (Z.of_nat i, true))
      by by rewrite list_lookup_imap, Hi.
    by destruct (Forall_lookup_1 _ _ _ _ f Hin).
  - intros Hok. apply n, Forall_lookup. intros i [z b].
    rewrite list_lookup_imap. destruct (l !! i) as [b'|] eqn:Hi; [|done].
    intros [= <- <-]. destruct b'; [right|by left]. by apply (Hok i true).
Defined.

Lemma reg_holds_clear r : reg_holds (reg_clear r) [].
Proof. split; [apply reg_clear_wf|done]. Qed.

Lemma addBit_holds b r l : reg_holds r l → shift_ok b (zlen l) →
  ∃ r', addBit b r = Ret r' ∧ reg_holds r' (l ++ [b]).
Proof.
  intros (Hwf & Hbits & Hval) Hok. destruct (addBit_ok b r) as (r' & E & Hwf' & Hb & Hv).
  - done.
  - intros Hb. specialize (Hok Hb). rewrite <-Hbits in Hok. destruct Hwf as [? _].
    unfold reg_bits in Hok. rewrite Z.add_comm, Z.mod_add in Hok by lia. done.
  - exists r'. split; [done|]. split; [done|]. rewrite bits_val_snoc, length_app, Hb, Hv, Hbits, Hval.
    simpl length. lia.
Qed.

Lemma reg_holds_numbits r l : reg_holds r l → zlen l < 2 ^ 32 → getNumBits r = zlen l.
Proof.
  intros (_ & Hb & _) Hl. unfold getNumBits. unfold reg_bits in Hb.
  replace (_ + bitpos_ r) with (zlen l) by lia. apply wrap32_small. unfold is_u32. lia.
Qed.

(** TMS is asserted with the last data bit. *)
Fixpoint shift_clocks (data : list (bool * bool)) : list clock :=
  match data with
  | [] => []
  | (o, i) :: data => ((match data with [] => true | _ => false end), o, i) :: shift_clocks data
  end.

(** The clocks in front of the data and behind them; whatever is on the
    data lines there does not matter. *)
Record around := mkAround { p1 : bool * bool; p2 : bool * bool; p3 : bool * bool; p4 : bool * bool; p5 : bool * bool }.
Definition at_rest : around := mkAround (false, false) (false, false) (false, false) (false, false) (false, false).
Definition tck (tms : bool) (p : bool * bool) : clock := (tms, fst p, snd p).

Definition dr_scan (x : around) (data : list (bool * bool)) : list clock :=
  [tck true (p1 x); tck false (p2 x); tck false (p3 x)] ++ shift_clocks data ++ [tck true (p4 x); tck false (p5 x)].

Lemma run_app l l' c : run (l ++ l') c = (run l ;; run l') c.
Proof.
  revert c. induction l as [|[[a b] d] l IH]; intros c; [done|].
  cbn [run app]. rewrite M_bind_assoc. apply M_bind_ext; [done|]. intros _ s. apply IH.
Qed.

Lemma advance_ShiftDR_ok ii ri io ro lg lo li tms o i :
  reg_holds ro lo → reg_holds ri li → shift_ok o (zlen lo) → shift_ok i (zlen li) →
  ∃ ro' ri', reg_holds ro' (lo ++ [o]) ∧ reg_holds ri' (li ++ [i]) ∧
    advance tms o i (mkCtx ii ri io ro ShiftDR lg) =
      (Ret tt, mkCtx ii ri' io ro' (if tms : bool then Exit1DR else ShiftDR) lg).
Proof.
  intros Ho Hi Hso Hsi.
  destruct (addBit_holds o ro lo Ho Hso) as (ro' & Eo & Ho').
  destruct (addBit_holds i ri li Hi Hsi) as (ri' & Ei & Hi').
  exists ro', ri'. split_and!; [done..|].
  unfold advance, advance_ShiftDR, shiftDR, mbind, M_bind, zoom, upd, gets. cbn.
  rewrite Eo. cbn. rewrite Ei. cbn. by destruct tms.
Qed.

Lemma shift_clocks_run data : ∀ ii ri io ro lg lo li, data ≠ [] →
  reg_holds ro lo → reg_holds ri li →
  all_ok (lo ++ data.*1) → all_ok (li ++ data.*2) →
  ∃ ro' ri', reg_holds ro' (lo ++ data.*1) ∧ reg_holds ri' (li ++ data.*2) ∧
    run (shift_clocks data) (mkCtx ii ri io ro ShiftDR lg) =
      (Ret tt, mkCtx ii ri' io ro' Exit1DR lg).
Proof.
  induction data as [|[o i] data IH]; intros ii ri io ro lg lo li Hne Ho Hi Hoko Hoki; [done|].
  simpl in Hoko, Hoki.
  destruct (advance_ShiftDR_ok ii ri io ro lg lo li
    (match data with [] => true | _ => false end) o i) as (ro1 & ri1 & Ho1 & Hi1 & E); [done|done| | |].
  { by apply Hoko, list_lookup_middle. }
  { by apply Hoki, list_lookup_middle. }
  cbn [shift_clocks run fmap list_fmap fst snd]. unfold mbind, M_bind. rewrite E.
  destruct data as [|d data]; [by exists ro1, ri1|].
  rewrite (cons_middle o) , (app_assoc lo) in Hoko. rewrite (cons_middle i), (app_assoc li) in Hoki.
  rewrite (cons_middle o), (app_assoc lo), (cons_middle i), (app_assoc li).
  by apply (IH ii ri1 io ro1 lg (lo ++ [o]) (li ++ [i])).
Qed.

Lemma update_dr_run x ii ri io ro lg :
  run [tck true (p4 x); tck false (p5 x)] (mkCtx ii ri io ro Exit1DR lg) =
    (Ret tt, mkCtx ii ri io ro RunTestIdle
      (lg ++ [DumpDR (print io) (getNumBits ri) (print ro) (print ri)])).
Proof. done. Qed.

(** A scan of the data register from Run-Test/Idle back to
    Run-Test/Idle prints one record: the instruction register as last
    scanned, the number of bits, and registers holding exactly the bits
    shifted out and in, in order.  Nothing else that
    is on the data lines matters.  The data may not have a bit set at a
    position that [addBit] cannot represent. *)
Lemma dr_scan_run x data c : state_ c = RunTestIdle → data ≠ [] → zlen data < 2 ^ 32 →
  all_ok data.*1 → all_ok data.*2 →
  ∃ c' ro ri, run (dr_scan x data) c = (Ret tt, c') ∧ state_ c' = RunTestIdle ∧
    reg_holds ro data.*1 ∧ reg_holds ri data.*2 ∧ iro_ c' = iro_ c ∧
    log_ c' = log_ c ++ [DumpDR (print (iro_ c)) (zlen data) (print ro) (print ri)].
Proof.
  destruct c as [ii di io d_o st lg]. cbn [state_ iro_ log_]. intros -> Hne Hl Ho Hi.
  destruct (shift_clocks_run data ii (reg_clear di) io (reg_clear d_o) lg [] [])
    as (ro & ri & Hro & Hri & E); auto using reg_holds_clear.
  exists (mkCtx ii ri io ro RunTestIdle
    (lg ++ [DumpDR (print io) (zlen data) (print ro) (print ri)])), ro, ri.
  cbn [app] in Hro, Hri. split_and!; try done.
  unfold dr_scan. rewrite run_app.
  change ((run _ ;; ?k) _) with (k (mkCtx ii (reg_clear di) io (reg_clear d_o) ShiftDR lg)).
  rewrite run_app. unfold mbind at 1, M_bind at 1. rewrite E.
  assert (Hn : getNumBits ri = zlen data).
  { rewrite (reg_holds_numbits ri data.*2), length_fmap by (by rewrite ?length_fmap). done. }
  rewrite update_dr_run. by rewrite Hn.
Qed.

(** Without a state to stop at, all clocks are run. *)
Lemma run_until_none l c : run_until None l c = (run l ;; mret 0) c.
Proof.
  unfold run_until. generalize (zlen l). revert c. induction l as [|[[a b] d] l IH]; intros c n; [done|].
  cbn [run_left run]. rewrite M_bind_assoc. unfold reached. unfold mbind at 1, M_bind at 1. cbn [gets].
  apply M_bind_ext; [done|]. intros _ s. apply IH.
Qed.

(** With the data lines low nothing can fail. *)
Lemma run_total l c : Forall (λ x, snd (fst x) = false ∧ snd x = false) l →
  ∃ c', run l c = (Ret tt, c') ∧
    state_ c' = foldl (λ s x, tap_next s (fst (fst x))) (state_ c) l.
Proof.
  intros Hl. revert c. induction Hl as [|[[a b] d] l [Hb Hd] Hl IH]; intros c; [by exists c|].
  simpl in Hb, Hd. subst b d. cbn [run foldl fst snd]. unfold mbind at 1, M_bind at 1.
  pose proof (advance_next a false false c) as Hn.
  destruct (advance a false false c) as [[[]|e|u|] c'] eqn:E; try done.
  - rewrite <-Hn. apply IH.
  - exfalso. revert E. clear. destruct c as [ii di io d_o st lg].
    destruct st, a; done.
Qed.

(** Five clocks with TMS asserted bring the TAP to Test-Logic-Reset
    from every state, and the sniffer never fails on them when nothing is
    driven on the data lines; four clocks do not suffice. *)
Theorem tms_reset c :
  (∃ c', run (replicate 5 (true, false, false)) c = (Ret tt, c') ∧ state_ c' = TestLogicReset) ∧
  (∃ c', state_ c' = ShiftDR ∧
     state_ (snd (run (replicate 4 (true, false, false)) c')) ≠ TestLogicReset).
Proof.
  split.
  - destruct (run_total (replicate 5 (true, false, false)) c) as (c' & E & Hs);
      [by repeat constructor|]. exists c'. split; [done|]. rewrite Hs. by destruct (state_ c).
  - by exists (mkCtx JtagRegType_new JtagRegType_new JtagRegType_new JtagRegType_new ShiftDR []).
Qed.

(** [addBit] loses bits: a set bit at position 31 of a word is stored
    as the bits 31 to 63, and a set bit at a higher position is a shift of
    [int] by 32 or more. *)
Theorem addBit_high r : reg_wf r →
  (bitpos_ r = 31 → ∃ r', addBit true r = Ret r' ∧ reg_bits r' = reg_bits r + 1 ∧
     reg_val r' = reg_val r + (2 ^ 33 - 1) * 2 ^ reg_bits r) ∧
  (32 ≤ bitpos_ r → addBit true r = Fault BadShift).
Proof.
  intros [Hbp (ws & w & Hv & Hws & Hw)]. destruct r as [bp v]. simpl in *. subst v. split.
  - intros ->. rewrite addBit_split by lia. exists (mkReg 32 (ws ++ [Z.lor w (wrap64 (- 2 ^ 31))])).
    split; [done|]. split.
    + unfold reg_bits. cbn [v_ bitpos_]. rewrite !length_app. simpl length. lia.
    + unfold reg_val, reg_bits. cbn [v_ bitpos_]. rewrite !words_val_app. cbn [words_val].
      rewrite length_app. simpl (length [_]).
      replace ((Z.of_nat (length ws + 1) - 1) * 64 + 31) with (64 * zlen ws + 31) by lia.
      change (wrap64 (- 2 ^ 31)) with ((2 ^ 33 - 1) * 2 ^ 31).
      rewrite lor_add, Z.pow_add_r by lia. lia.
  - intros H. rewrite addBit_split by lia. unfold shl1_int.
    rewrite (proj2 (Z.ltb_ge bp 31)), andb_false_r, (proj2 (Z.eqb_neq bp 31)) by lia. done.
Qed.

(** The registers of 31 bits, and of 40 bits, of a single word. *)
Lemma addBit_high_witness :
  reg_wf (mkReg 31 [5]) ∧
  (bitpos_ (mkReg 31 [5]) = 31 → ∃ r', addBit true (mkReg 31 [5]) = Ret r' ∧
     reg_bits r' = reg_bits (mkReg 31 [5]) + 1 ∧
     reg_val r' = reg_val (mkReg 31 [5]) + (2 ^ 33 - 1) * 2 ^ reg_bits (mkReg 31 [5])) ∧
  (32 ≤ bitpos_ (mkReg 31 [5]) → addBit true (mkReg 31 [5]) = Fault BadShift).
Proof.
  assert (H : reg_wf (mkReg 31 [5])).
  { split; [simpl; lia|]. exists [], 5. split_and!; [done|by constructor|simpl; lia..]. }
  split; [exact H|]. apply (addBit_high (mkReg 31 [5]) H).
Defined.
