(* ===== verification/Driver.v ===== *)
(** * The driver for the AxisToJtag firmware (classes [JtagDriver] and
    [JtagDriverAxisToJtag] of xvcDriver.h and xvcSrv.cc)

    [xferRel] transfers a message with retries, [query] obtains the
    parameters of the firmware and [sendVectors] ships a TMS/TDI vector
    pair in the word-interleaved format of the stream.  The virtual
    functions a transport overrides are the class [Transport]; what they
    have to respect is the class [TransportLaws]. *)

From stdpp Require Import base numbers option list strings pretty.
From Stdlib Require Import ZArith Lia.
From S2P Require Import Prelude Header Tap.
#[local] Open Scope Z_scope.

(** ** Class [JtagDriver] *)

Record JtagDriver := mkJtagDriver {
  debug_ : Z;
  drop_ : Z;
  drEn_ : bool;
  snif_ : JtagDumpCtx;
}.

Definition JtagDriver_new (debug : Z) : JtagDriver := mkJtagDriver debug 0 false JtagDumpCtx_new.

Definition setDebug (debug : Z) (d : JtagDriver) : JtagDriver :=
  mkJtagDriver debug (drop_ d) (drEn_ d) (snif_ d).
Definition setTestMode (flags : Z) (d : JtagDriver) : JtagDriver :=
  mkJtagDriver (debug_ d) (drop_ d) (negb (Z.land flags 1 =? 0)) (snif_ d).
Definition getDebug (d : JtagDriver) : Z := Z.land (debug_ d) 0xff.
Definition getSniff (d : JtagDriver) : bool := negb (Z.land (debug_ d) 0x100 =? 0).

Definition set_drop (n : Z) (d : JtagDriver) : JtagDriver :=
  mkJtagDriver (debug_ d) n (drEn_ d) (snif_ d).
Definition set_snif (c : JtagDumpCtx) (d : JtagDriver) : JtagDriver :=
  mkJtagDriver (debug_ d) (drop_ d) (drEn_ d) c.

(** ** Transports

    While [xfer] runs it owns the members of the base class, its own
    state, the header buffer and the receive buffer.  [txb] and [hdbuf] are
    the whole buffers the pointers point to. *)
Record io (T : Type) := mkIo {
  io_jd : JtagDriver;
  io_tp : T;
  io_hd : list Z;
  io_rx : list Z;
}.
Arguments mkIo {T}. Arguments io_jd {T}. Arguments io_tp {T}.
Arguments io_hd {T}. Arguments io_rx {T}.

Class Transport (T : Type) := {
  (** [xfer( txb, txBytes, hdbuf, hsize, rxb, size )] *)
  xfer : list Z → Z → Z → Z → M (io T) Z;
  (** [getMaxVectorSize()], which may consult [getWordSize()] *)
  getMaxVectorSize : Z → T → Z;
}.

(** ** Class [JtagDriverAxisToJtag] *)

Record JtagDriverAxisToJtag (T : Type) := mkAxis {
  jd : JtagDriver;
  wordSize_ : Z;
  memDepth_ : Z;
  txBuf_ : list Z;
  hdBuf_ : list Z;
  bufSz_ : Z;
  retry_ : Z;
  xid_ : Z;
  periodNs_ : Z;
  tp : T;
}.
Arguments mkAxis {T}. Arguments jd {T}. Arguments wordSize_ {T}. Arguments memDepth_ {T}.
Arguments txBuf_ {T}. Arguments hdBuf_ {T}. Arguments bufSz_ {T}. Arguments retry_ {T}.
Arguments xid_ {T}. Arguments periodNs_ {T}. Arguments tp {T}.

Definition hdBufMax : Z := 16.

Section axis.
Context `{Platform} {T : Type} `{Transport T}.
Abbreviation Axis := (JtagDriverAxisToJtag T).

(** The constructor leaves [xid_] indeterminate: [xid0] is what the
    memory held. *)
Definition JtagDriverAxisToJtag_new (debug xid0 : Z) (t : T) : Axis :=
  mkAxis (JtagDriver_new debug) 4 1 (fresh 2048) (replicate (Z.to_nat hdBufMax) 0)
    2048 5 xid0 UNKNOWN_PERIOD t.

Definition getWordSize (a : Axis) : Z := wordSize_ a.
Definition getMemDepth (a : Axis) : Z := memDepth_ a.
Definition getPeriodNs (a : Axis) : Z := periodNs_ a.

Definition set_txBuf (b : list Z) (a : Axis) : Axis :=
  mkAxis (jd a) (wordSize_ a) (memDepth_ a) b (hdBuf_ a) (bufSz_ a) (retry_ a) (xid_ a)
    (periodNs_ a) (tp a).
Definition set_xid (x : Z) (a : Axis) : Axis :=
  mkAxis (jd a) (wordSize_ a) (memDepth_ a) (txBuf_ a) (hdBuf_ a) (bufSz_ a) (retry_ a) x
    (periodNs_ a) (tp a).
Definition set_jd (j : JtagDriver) (a : Axis) : Axis :=
  mkAxis j (wordSize_ a) (memDepth_ a) (txBuf_ a) (hdBuf_ a) (bufSz_ a) (retry_ a) (xid_ a)
    (periodNs_ a) (tp a).
Definition set_wordSize (w : Z) (a : Axis) : Axis :=
  mkAxis (jd a) w (memDepth_ a) (txBuf_ a) (hdBuf_ a) (bufSz_ a) (retry_ a) (xid_ a)
    (periodNs_ a) (tp a).

(** *** [xferRel]

    The state is the driver and the buffer [rxb] points to. *)
Definition Rel : Type := Axis * list Z.

Definition call_xfer (txBytes sizeBytes : Z) : M Rel Z := λ s,
  zoom (λ s, mkIo (jd (fst s)) (tp (fst s)) (hdBuf_ (fst s)) (snd s))
    (λ i s, (mkAxis (io_jd i) (wordSize_ (fst s)) (memDepth_ (fst s)) (txBuf_ (fst s)) (io_hd i)
               (bufSz_ (fst s)) (retry_ (fst s)) (xid_ (fst s)) (periodNs_ (fst s)) (io_tp i),
             io_rx i))
    (xfer (txBuf_ (fst s)) txBytes (getWordSize (fst s)) sizeBytes) s.

Definition errorMessage (e : Z) : string :=
  "Got error response from server -- " +:+
    match getMsg e with Some msg => msg | None => "error " +:+ pretty e end.

(** The body of the [try] block: [None] when the reply belongs to
    another transaction. *)
Definition attempt (xid txBytes sizeBytes : Z) : M Rel (option (Z * Z)) :=
  got ← call_xfer txBytes sizeBytes;
  s ← gets id;
  hdr ← lift (getHdr (hdBuf_ (fst s)));
  let e := getErr hdr in
  if negb (e =? 0) then throw (ProtoErr (errorMessage e))
  else if (xid =? XID_ANY) || (xid =? getXid hdr) then mret (Some (got, hdr))
  else mret None.

(** [catch (TimeoutErr) {}] *)
Definition catch_timeout {S A} (m : M S A) (a : A) : M S A := λ s,
  match m s with
  | (Throw TimeoutErr, s') => (Ret a, s')
  | r => r
  end.

Fixpoint attempts (n : nat) (xid txBytes sizeBytes : Z) : M Rel (Z * Z) :=
  match n with
  | O => throw TimeoutErr
  | S n =>
      r ← catch_timeout (attempt xid txBytes sizeBytes) None;
      match r with
      | Some gh => mret gh
      | None => attempts n xid txBytes sizeBytes
      end
  end.

(** [for (attempt = 0; attempt <= retry_; attempt++ )]; the result is
    the return value and [*phdr]. *)
Definition xferRel (txBytes sizeBytes : Z) : M Rel (Z * Z) :=
  h ← (s ← gets id; lift (getHdr (txBuf_ (fst s))));
  n ← gets (λ s, Z.to_nat (retry_ (fst s) + 1));
  attempts n (getXid h) txBytes sizeBytes.

(** Run [xferRel] with the receive buffer [rxb]; its content is part of
    the result. *)
Definition with_rx {A} (rxb : list Z) (m : M Rel A) : M Axis (A * list Z) := λ a,
  match m (a, rxb) with
  | (Ret x, (a', rx)) => (Ret (x, rx), a')
  | (Throw e, (a', _)) => (Throw e, a')
  | (Fault u, (a', _)) => (Fault u, a')
  | (NoFuel, (a', _)) => (NoFuel, a')
  end.

Definition write_tx (f : list Z → outcome (list Z)) : M Axis unit :=
  b ← (a ← gets txBuf_; lift (f a)); modify (set_txBuf b).

(** *** [query] *)
Definition query : M Axis Z :=
  a ← gets id;
  write_tx (setHdr (getWordSize a) mkQuery) ;;
  r ← with_rx [] (xferRel (getWordSize a) 0);
  let hdr := snd (fst r) in
  modify (set_wordSize (wordSize hdr)) ;;
  if wordSize hdr <? 4 then throw (ProtoErr "Received invalid word size")
  else
    let siz := wrap32 ((2 * memDepth hdr + 1) * wordSize hdr) in
    modify (λ a,
      let grow := bufSz_ a <? siz in
      mkAxis (jd a) (wordSize_ a) (memDepth hdr)
        (if grow then fresh siz else txBuf_ a) (hdBuf_ a)
        (if grow then siz else bufSz_ a)
        (if 0 =? memDepth hdr then 0 else 5) (xid_ a) (cvtPerNs hdr) (tp a)) ;;
    mret (wrap32 (memDepth hdr * wordSize hdr)).

Definition init : M Axis unit := query ;; mret tt.

Definition setPeriodNs (requestedPeriod : Z) : M Axis Z :=
  currentPeriod ← gets getPeriodNs;
  if 0 =? requestedPeriod then mret currentPeriod
  else mret (if UNKNOWN_PERIOD =? currentPeriod then requestedPeriod else currentPeriod).

(** *** [sendVectors] *)

(** The loop that stores the TMS/TDI word pairs; the result is [idx],
    the offset [wp] and the buffer. *)
Fixpoint pack_words (fuel : nat) (wsz whole idx wp : Z) (tms tdi buf : list Z) :
    outcome (Z * Z * list Z) :=
  if idx <? whole then
    match fuel with
    | O => NoFuel
    | S fuel =>
        buf ← memcpy wp tms idx wsz buf;
        let wp := wp + wsz in
        buf ← memcpy wp tdi idx wsz buf;
        let wp := wp + wsz in
        pack_words fuel wsz whole (wrap32 (idx + wsz)) wp tms tdi buf
    end
  else Ret (idx, wp, buf).

(** The reformatting of the vectors into the transmit buffer. *)
Definition pack (wsz wholeWordBytes bytesLeft : Z) (tms tdi buf : list Z) : outcome (list Z) :=
  r ← pack_words (Z.to_nat wholeWordBytes) wsz wholeWordBytes 0 wsz tms tdi buf;
  let '(idx, wp, buf) := r in
  if negb (bytesLeft =? 0) then
    buf ← memcpy wp tms idx bytesLeft buf;
    memcpy (wp + wsz) tdi idx bytesLeft buf
  else Ret buf.

Definition int_of (z : Z) : Z := let w := wrap32 z in if w <? 2 ^ 31 then w else w - 2 ^ 32.

Definition sendVectors (bits : Z) (tms tdi tdo : list Z) : M Axis (list Z) :=
  wsz ← gets getWordSize;
  let bytesCeil := wrap64 (bits + 8 - 1) / 8 in
  let wholeWords := wrap32 (bytesCeil / wsz) in
  let wholeWordBytes := wrap32 (wholeWords * wsz) in
  let wordCeilBytes := wrap32 (wrap64 (wrap64 (bytesCeil + wsz - 1) / wsz * wsz)) in
  let bytesLeft := wrap32 (bytesCeil - wholeWordBytes) in
  let bytesTot := wrap32 (wsz + 2 * wordCeilBytes) in
  x ← gets xid_;
  let '(xid, hdr) := mkShift x (wrap32 bits) in
  modify (set_xid xid) ;;
  write_tx (setHdr wsz hdr) ;;
  write_tx (pack wsz wholeWordBytes bytesLeft tms tdi) ;;
  r ← with_rx tdo (xferRel bytesTot (wrap32 bytesCeil));
  let tdo := snd r in
  sniff ← gets (λ a, getSniff (jd a));
  (if sniff : bool then
     zoom (λ a, snif_ (jd a)) (λ c a, set_jd (set_snif c (jd a)) a)
       (processBuf (int_of bits) tms tdi tdo None) ;; mret tt
   else mret tt) ;;
  mret tdo.
End axis.

(** ** The layout of a packed message

    Byte [i] of the TMS vector goes to offset [pos wsz i] of the message,
    byte [i] of the TDI vector one word further. *)

Definition pos (wsz i : Z) : Z := wsz + 2 * wsz * (i / wsz) + i `mod` wsz.

(** [buf] holds the bytes [lo .. hi-1] of both vectors. *)
Definition packed (wsz lo hi : Z) (tms tdi buf : list Z) : Prop :=
  ∀ i, lo ≤ i < hi → ix buf (pos wsz i) = ix tms i ∧ ix buf (pos wsz i + wsz) = ix tdi i.

Lemma pos_word wsz j i : 0 < wsz → wsz * j ≤ i < wsz * j + wsz →
  pos wsz i = wsz + 2 * wsz * j + (i - wsz * j).
Proof.
  intros Hw Hi. unfold pos.
  rewrite <-(Z.div_unique i wsz j (i - wsz * j)), <-(Z.mod_unique i wsz j (i - wsz * j)); lia.
Qed.

(** Copying [n] bytes, at most a word, of both vectors. *)
Lemma pack_word_ok wsz j n tms tdi buf : 0 < wsz → 0 ≤ j → 0 ≤ n ≤ wsz →
  wsz * j + n ≤ zlen tms → wsz * j + n ≤ zlen tdi →
  wsz + 2 * wsz * j + wsz + n ≤ zlen buf →
  ∃ buf', (buf1 ← memcpy (wsz + 2 * wsz * j) tms (wsz * j) n buf;
           memcpy (wsz + 2 * wsz * j + wsz) tdi (wsz * j) n buf1) = Ret buf' ∧
    length buf' = length buf ∧
    packed wsz (wsz * j) (wsz * j + n) tms tdi buf' ∧
    (∀ p, p < wsz + 2 * wsz * j → ix buf' p = ix buf p) ∧
    (bytes tms → bytes tdi → bytes buf → bytes buf').
Proof.
  intros Hw Hj Hn Ht Hd Hb.
  destruct (memcpy_ix (wsz + 2 * wsz * j) tms (wsz * j) n buf) as (b1 & E1 & L1 & I1 & B1); [lia..|].
  destruct (memcpy_ix (wsz + 2 * wsz * j + wsz) tdi (wsz * j) n b1)
    as (b2 & E2 & L2 & I2 & B2); [lia..|].
  rewrite E1. cbn [mbind outcome_bind]. exists b2. split_and!; [done|lia| | |by auto].
  - intros i Hi. rewrite (pos_word wsz j i) by lia. rewrite !I2, !I1. zbool.
    split; f_equal; lia.
  - intros p Hp. rewrite I2, I1. by zbool.
Qed.

Lemma pos_lt wsz j i : 0 < wsz → 0 ≤ i < wsz * j → pos wsz i + wsz < wsz + 2 * wsz * j.
Proof.
  intros Hw Hi. unfold pos. pose proof (Z.div_mod i wsz ltac:(lia)).
  pose proof (Z.mod_pos_bound i wsz Hw). assert (i / wsz ≤ j - 1) by nia. nia.
Qed.

Lemma pack_words_ok wsz tms tdi n : ∀ fuel j buf, 0 < wsz → 0 ≤ j → (n ≤ fuel)%nat →
  wsz * (j + Z.of_nat n) < 2 ^ 32 - wsz →
  wsz * (j + Z.of_nat n) ≤ zlen tms → wsz * (j + Z.of_nat n) ≤ zlen tdi →
  wsz + 2 * wsz * (j + Z.of_nat n) ≤ zlen buf →
  ∃ buf', pack_words fuel wsz (wsz * (j + Z.of_nat n)) (wsz * j) (wsz + 2 * wsz * j) tms tdi buf =
      Ret (wsz * (j + Z.of_nat n), wsz + 2 * wsz * (j + Z.of_nat n), buf') ∧
    length buf' = length buf ∧
    packed wsz (wsz * j) (wsz * (j + Z.of_nat n)) tms tdi buf' ∧
    (∀ p, p < wsz + 2 * wsz * j → ix buf' p = ix buf p) ∧
    (bytes tms → bytes tdi → bytes buf → bytes buf').
Proof.
  induction n as [|n IH]; intros fuel j buf Hw Hj Hf Hov Ht Hd Hb.
  - rewrite Z.add_0_r. exists buf. split_and!; try done.
    + destruct fuel; cbn [pack_words]; by rewrite Z.ltb_irrefl.
    + intros i Hi. lia.
  - destruct fuel as [|fuel]; [lia|]. cbn [pack_words].
    rewrite (proj2 (Z.ltb_lt _ _)) by nia.
    destruct (pack_word_ok wsz j wsz tms tdi buf) as (b1 & E1 & L1 & P1 & K1 & B1); [nia..|].
    replace (j + Z.of_nat (S n)) with (j + 1 + Z.of_nat n) in * by lia.
    destruct (IH fuel (j + 1) b1) as (b2 & E2 & L2 & P2 & K2 & B2); [lia..|].
    exists b2. split_and!.
    + revert E1. unfold mbind, outcome_bind.
      destruct (memcpy _ tms _ _ buf) as [x| | |]; [|done..]. intros ->.
      rewrite wrap32_small by (unfold is_u32; nia).
      replace (wsz * j + wsz) with (wsz * (j + 1)) by lia.
      replace (wsz + 2 * wsz * j + wsz + wsz) with (wsz + 2 * wsz * (j + 1)) by lia. done.
    + lia.
    + intros i Hi. destruct (decide (wsz * (j + 1) ≤ i)) as [Hge|Hlt]; [apply P2; lia|].
      rewrite !K2 by (pose proof (pos_lt wsz (j + 1) i); lia). apply P1. lia.
    + intros p Hp. rewrite K2, K1 by lia. done.
    + auto.
Qed.

(** The buffer holds the header word [h], padded with zeros to [wsz] bytes. *)
Definition header_at (wsz h : Z) (buf : list Z) : Prop :=
  take 4 buf = le_bytes 4 h ∧ ∀ i, 4 ≤ i < wsz → ix buf i = Some 0.

Lemma ix_replicate n c i : 0 ≤ i < Z.of_nat n → ix (replicate n c) i = Some c.
Proof. intros Hi. unfold ix. rewrite (proj2 (Z.leb_le _ _)) by lia. apply lookup_replicate_2. lia. Qed.

Lemma take_ix n buf bs : length bs = n → (n ≤ length buf)%nat →
  (∀ i, 0 ≤ i < Z.of_nat n → ix buf i = ix bs i) → take n buf = bs.
Proof.
  intros Hl Hn Hi. apply list_eq. intros i. destruct (decide (i < n)%nat) as [H|H].
  - rewrite lookup_take_lt by done. rewrite <-!ix_nat. apply Hi. lia.
  - rewrite !lookup_ge_None_2 by (rewrite ?length_take; lia). done.
Qed.

Lemma header_at_frame wsz h buf buf' : 4 ≤ wsz ≤ zlen buf → length buf' = length buf →
  (∀ p, p < wsz → ix buf' p = ix buf p) → header_at wsz h buf → header_at wsz h buf'.
Proof.
  intros Hw Hl Hp [H1 H2]. split; [|intros i Hi; rewrite Hp by lia; auto].
  apply take_ix; [by rewrite le_bytes_length|lia|]. intros i Hi. rewrite Hp by lia.
  rewrite <-H1. unfold ix. destruct (0 <=? i); [|done]. by rewrite lookup_take_lt by lia.
Qed.

Lemma header_at_val wsz h buf : is_u32 h → header_at wsz h buf → le_val (take 4 buf) = h.
Proof. intros Hh [-> _]. rewrite le_val_le_bytes. by apply Z.mod_small. Qed.

Lemma setHdr_ok `{Platform} wsz h buf : is_u32 h → 4 ≤ wsz ≤ 16 → wsz ≤ zlen buf →
  ∃ buf', setHdr wsz h buf = Ret buf' ∧ length buf' = length buf ∧ header_at wsz h buf' ∧
    (∀ i, wsz ≤ i → ix buf' i = ix buf i) ∧ (bytes buf → bytes buf').
Proof.
  intros Hh Hw Hb. unfold setHdr. rewrite wrap64_small, wrap32_small by (unfold is_u32; lia).
  rewrite setw32_ok by (done || lia). change (take _ (le_bytes 4 h)) with (le_bytes 4 h).
  destruct (wr_ix 0 (le_bytes 4 h) buf) as (b1 & E1 & L1 & I1 & B1); [lia|len|].
  rewrite E1. cbn [mbind outcome_bind]. unfold memset.
  destruct (wr_ix 4 (replicate (Z.to_nat (wsz - 4)) 0) b1) as (b2 & E2 & L2 & I2 & B2);
    [lia|len|]. rewrite le_bytes_length in I1. rewrite length_replicate in I2.
  exists b2. split_and!; [done|lia|split| |].
  - apply take_ix; [by rewrite le_bytes_length|lia|]. intros i Hi. rewrite I2, I1. zbool.
    f_equal. lia.
  - intros i Hi. rewrite I2. zbool. apply ix_replicate. lia.
  - intros i Hi. rewrite I2, I1. by zbool.
  - intros Hby. apply B2, B1; [|apply le_bytes_bytes|done].
    apply Forall_replicate. unfold is_byte. lia.
Qed.

(** C23: the header of a shift message survives the way through memory: for
    a vector of 1 to 2^20 bits, any buffer of at least a word and either
    byte order of the host, what [setHdr] stores is read back by [getHdr] as
    a header with protocol version 0, the shift command, no error, the
    transaction ID just drawn and the length of the vector; the rest of the
    header word is zero and the buffer behind it is left alone. *)
Theorem shift_header_roundtrip `{Platform} wsz x len buf :
  4 ≤ wsz ≤ 16 → wsz ≤ zlen buf → bytes buf → is_byte x → 1 ≤ len ≤ 2 ^ 20 →
  let (xid, hdr) := mkShift x len in
  ∃ buf' h, setHdr wsz hdr buf = Ret buf' ∧ getHdr buf' = Ret h ∧
    getVrs h = PVER0 ∧ getCmd h = CMD_S ∧ getErr h = 0 ∧
    getXid h = xid ∧ xid = fst (newXid x) ∧ getLen h = Ret len ∧
    length buf' = length buf ∧ (∀ i, 4 ≤ i < wsz → ix buf' i = Some 0) ∧
    (∀ i, wsz ≤ i → ix buf' i = ix buf i).
Proof.
  intros Hw Hl Hb Hx Hn. pose proof (mkShift_fields x len Hx Hn) as Hf.
  destruct (mkShift x len) as [xid hdr]. destruct Hf as (Hu & Hv & Hc & He & Hi & Hd & Hg).
  destruct (setHdr_ok wsz hdr buf Hu Hw Hl) as (buf' & E & L & Hh & F & B).
  exists buf', hdr. split; [done|]. split.
  - unfold getHdr. rewrite getw32_ok by (auto || lia). by rewrite drop_0, (header_at_val wsz hdr).
  - destruct Hh. by split_and!.
Qed.

Lemma shift_header_roundtrip_witness :
  ∃ _ : Platform, (4 ≤ 8 ≤ 16) ∧ 8 ≤ zlen (replicate 12 7) ∧ bytes (replicate 12 7) ∧
  is_byte 255 ∧ (1 ≤ 43 ≤ 2 ^ 20) ∧
  let (xid, hdr) := mkShift 255 43 in
  ∃ buf' h, setHdr 8 hdr (replicate 12 7) = Ret buf' ∧ getHdr buf' = Ret h ∧
    getVrs h = PVER0 ∧ getCmd h = CMD_S ∧ getErr h = 0 ∧
    getXid h = xid ∧ xid = fst (newXid 255) ∧ getLen h = Ret 43 ∧
    length buf' = length (replicate 12 7) ∧ (∀ i, 4 ≤ i < 8 → ix buf' i = Some 0) ∧
    (∀ i, 8 ≤ i → ix buf' i = ix (replicate 12 7) i).
Proof.
  exists some_platform.
  assert (Hb : bytes (replicate 12 7)) by (apply Forall_replicate; unfold is_byte; lia).
  assert (Hx : is_byte 255) by (unfold is_byte; lia).
  split; [lia|]. split; [simpl; lia|]. split; [exact Hb|]. split; [exact Hx|]. split; [lia|].
  apply (@shift_header_roundtrip some_platform 8 255 43 (replicate 12 7));
    [lia|simpl; lia|exact Hb|exact Hx|lia].
Defined.

(** The number of bytes of [n] bytes rounded up to words. *)
Definition word_ceil (wsz n : Z) : Z := (n + wsz - 1) / wsz * wsz.

Lemma word_ceil_bounds wsz n : 0 < wsz → n ≤ word_ceil wsz n < n + wsz.
Proof. intros Hw. unfold word_ceil. Z.div_mod_to_equations. nia. Qed.

Lemma word_ceil_split wsz n : 0 < wsz → 0 ≤ n →
  word_ceil wsz n = wsz * (n / wsz) + (if n `mod` wsz =? 0 then 0 else wsz).
Proof.
  intros Hw Hn. unfold word_ceil. destruct (Z.eqb_spec (n `mod` wsz) 0) as [E|E].
  - rewrite <-(Z.div_unique (n + wsz - 1) wsz (n / wsz) (wsz - 1)); [lia|lia|].
    pose proof (Z.div_mod n wsz). lia.
  - rewrite <-(Z.div_unique (n + wsz - 1) wsz (n / wsz + 1) (n `mod` wsz - 1)); [lia| |].
    + pose proof (Z.mod_pos_bound n wsz). lia.
    + pose proof (Z.div_mod n wsz). lia.
Qed.

Lemma pack_ok wsz n tms tdi buf : 0 < wsz → 0 ≤ n → n + wsz < 2 ^ 32 →
  n ≤ zlen tms → n ≤ zlen tdi → wsz + 2 * word_ceil wsz n ≤ zlen buf →
  ∃ buf', pack wsz (wsz * (n / wsz)) (n `mod` wsz) tms tdi buf = Ret buf' ∧
    length buf' = length buf ∧ packed wsz 0 n tms tdi buf' ∧
    (∀ p, p < wsz → ix buf' p = ix buf p) ∧
    (bytes tms → bytes tdi → bytes buf → bytes buf').
Proof.
  intros Hw Hn Ho Ht Hd Hb. rewrite word_ceil_split in Hb by done.
  pose proof (Z.div_mod n wsz ltac:(lia)) as Hdm. pose proof (Z.mod_pos_bound n wsz Hw) as Hm.
  pose proof (Z.div_pos n wsz Hn Hw) as Hq. set (q := n / wsz) in *. set (r := n `mod` wsz) in *.
  assert (Hq0 : Z.of_nat (Z.to_nat q) = q) by lia.
  destruct (pack_words_ok wsz tms tdi (Z.to_nat q) (Z.to_nat (wsz * q)) 0 buf)
    as (b1 & E1 & L1 & P1 & K1 & B1); rewrite ?Hq0, ?Z.add_0_l, ?Z.mul_0_r, ?Z.add_0_r in *;
    [try nia; destruct (r =? 0); nia..|].
  unfold pack. rewrite E1. cbn [mbind outcome_bind]. destruct (Z.eqb_spec r 0) as [E|E]; simpl negb.
  - cbv iota. exists b1. split_and!; try done. intros i Hi. apply P1. lia.
  - cbv iota. destruct (pack_word_ok wsz q r tms tdi b1) as (b2 & E2 & L2 & P2 & K2 & B2); [lia..|].
    exists b2. split_and!; [exact E2|lia| | |by auto].
    + intros i Hi. destruct (decide (wsz * q ≤ i)); [apply P2; lia|].
      rewrite !K2 by (pose proof (pos_lt wsz q i); lia). apply P1. lia.
    + intros p Hp. rewrite K2, K1 by nia. done.
Qed.

(** ** What a transport has to respect *)

(** The header [mkShift( 0 )] makes: the length field overflows into all
    others. *)
Definition no_bits : Z := 2 ^ 32 - 1.

(** The kinds of messages the driver sends: a query of one word, a shift
    whose length field agrees with the size of the reply, or what becomes of
    a shift of no bits. *)
Definition message_ok (wsz txBytes size : Z) (txb : list Z) : Prop :=
  wsz ≤ txBytes ≤ zlen txb ∧ bytes txb ∧
  let h := le_val (take 4 txb) in
  (h = mkQuery ∧ txBytes = wsz ∨
   h = no_bits ∧ txBytes = wsz ∧ size = 0 ∨
   getVrs h = PVER0 ∧
   getCmd h = CMD_S ∧ ∃ bits, getLen h = Ret bits ∧ size = (bits + 7) / 8 ∧
     txBytes = wsz + 2 * (((size + wsz - 1) / wsz) * wsz)).

Definition buffers_ok (size : Z) (hd rx : list Z) : Prop :=
  zlen hd = 16 ∧ bytes hd ∧ 0 ≤ size ≤ zlen rx ∧ bytes rx.

(** Only the first [size] bytes of the receive buffer may change. *)
Definition rx_frame (size : Z) (rx rx' : list Z) : Prop :=
  length rx' = length rx ∧ ∀ i, size ≤ i → ix rx' i = ix rx i.

Lemma rx_frame_refl size rx : rx_frame size rx rx.
Proof. done. Qed.
Lemma rx_frame_trans size a b c : rx_frame size a b → rx_frame size b c → rx_frame size a c.
Proof. intros [L1 H1] [L2 H2]. split; [congruence|]. intros i Hi. by rewrite H2, H1. Qed.
(** A reply of [nb] bytes at the start of the receive buffer. *)
Lemma reply_frame nb A rx : 0 ≤ nb ≤ zlen A → nb ≤ zlen rx →
  rx_frame nb rx (take (Z.to_nat nb) A ++ drop (Z.to_nat nb) rx).
Proof.
  intros Hn Hr. split; [len|]. intros i Hi. unfold ix. zbool.
  rewrite lookup_app_r, length_take, lookup_drop by len. f_equal. lia.
Qed.
#[export] Hint Resolve rx_frame_refl rx_frame_trans : xvc.

(** A call never runs into undefined behaviour, keeps the invariant
    [tp_ok] also when it throws, and stays within the buffers.  [word_ok]
    are the word sizes that the transport can announce in the reply to a
    query and that it is then used with. *)
Class TransportLaws (T : Type) `{Platform} `{Transport T} := {
  tp_ok : T → Prop;
  word_ok : Z → Prop;
  word_ok_init : word_ok 4;
  xfer_safe txb txBytes hsize size (s : io T) :
    4 ≤ hsize ≤ 16 → word_ok hsize → message_ok hsize txBytes size txb →
    buffers_ok size (io_hd s) (io_rx s) → tp_ok (io_tp s) →
    let (o, s') := xfer txb txBytes hsize size s in
    match o with
    | Ret _ => le_val (take 4 txb) = mkQuery →
        let w := wordSize (le_val (take 4 (io_hd s'))) in w < 4 ∨ word_ok w
    | Throw _ => True
    | _ => False
    end ∧
    buffers_ok size (io_hd s') (io_rx s') ∧ tp_ok (io_tp s') ∧
    rx_frame size (io_rx s) (io_rx s') ∧ debug_ (io_jd s') = debug_ (io_jd s);
  max_unsigned w t : tp_ok t → 0 ≤ getMaxVectorSize w t;
}.

Section axis_proofs.
Context `{Platform} {T : Type} `{Transport T} `{!TransportLaws T}.
Abbreviation Axis := (JtagDriverAxisToJtag T).

Record axis_ok (a : Axis) : Prop := {
  ok_wordSize : 4 ≤ wordSize_ a ≤ 16;
  ok_word : word_ok (wordSize_ a);
  ok_memDepth : 0 ≤ memDepth_ a < 2 ^ 16;
  ok_txBuf : bytes (txBuf_ a) ∧ zlen (txBuf_ a) = bufSz_ a;
  ok_hdBuf : bytes (hdBuf_ a) ∧ zlen (hdBuf_ a) = 16;
  ok_bufSz : 2048 ≤ bufSz_ a ≤ 2 ^ 21;
  ok_retry : 0 ≤ retry_ a ≤ 5;
  ok_xid : is_byte (xid_ a);
  ok_tp : tp_ok (tp a);
}.

(** Everything but the transport, the base class and the header buffer
    is the same. *)
Definition same_params (a a' : Axis) : Prop :=
  wordSize_ a' = wordSize_ a ∧ memDepth_ a' = memDepth_ a ∧ txBuf_ a' = txBuf_ a ∧
  bufSz_ a' = bufSz_ a ∧ retry_ a' = retry_ a ∧ xid_ a' = xid_ a ∧
  periodNs_ a' = periodNs_ a ∧ debug_ (jd a') = debug_ (jd a).

(** One step of a transfer of [size] reply bytes. *)
Definition rel_step (size : Z) (s s' : Rel) : Prop :=
  same_params (fst s) (fst s') ∧ axis_ok (fst s') ∧ rx_frame size (snd s) (snd s') ∧
  bytes (snd s').

Definition rel_pre (txBytes size : Z) (s : Rel) : Prop :=
  axis_ok (fst s) ∧ message_ok (wordSize_ (fst s)) txBytes size (txBuf_ (fst s)) ∧
  0 ≤ size ≤ zlen (snd s) ∧ bytes (snd s).

Lemma rel_step_trans size s1 s2 s3 :
  rel_step size s1 s2 → rel_step size s2 s3 → rel_step size s1 s3.
Proof.
  intros (P1 & A1 & F1 & B1) (P2 & A2 & F2 & B2).
  split; [|split; [done|split; [by eapply rx_frame_trans|done]]].
  destruct P1 as (?&?&?&?&?&?&?&?), P2 as (?&?&?&?&?&?&?&?).
  repeat split; congruence.
Qed.

Lemma rel_pre_step txBytes size s s' :
  rel_pre txBytes size s → rel_step size s s' → rel_pre txBytes size s'.
Proof.
  unfold rel_pre, rel_step, same_params.
  intros (A & M & L & B) ((W & D & X & Z & R & I & P & G) & A' & [FL F] & B').
  rewrite W, X, FL. done.
Qed.

Definition total {S A} (m : M S A) (s : S) (R : S → S → Prop) : Prop :=
  match m s with (Ret _, s') | (Throw _, s') => R s s' | _ => False end.

Lemma call_xfer_ok txBytes size s : rel_pre txBytes size s →
  total (call_xfer txBytes size) s (rel_step size).
Proof.
  destruct s as [a rx]. intros (A & M & L & B). cbn [fst snd] in *.
  unfold total, call_xfer, zoom, getWordSize. cbn [fst snd].
  pose proof (xfer_safe (txBuf_ a) txBytes (wordSize_ a) size
    (mkIo (jd a) (tp a) (hdBuf_ a) rx)) as Hx.
  destruct A. destruct (xfer _ _ _ _ _) as [o s'] eqn:E.
  destruct Hx as (Ho & (Hh & Hhb & Hr & Hrb) & Ht & Hf & Hd); try done.
  { destruct ok_hdBuf0. split_and!; simpl; done || lia. }
  assert (rel_step size (a, rx) (mkAxis (io_jd s') (wordSize_ a) (memDepth_ a) (txBuf_ a)
    (io_hd s') (bufSz_ a) (retry_ a) (xid_ a) (periodNs_ a) (io_tp s'), io_rx s')).
  { split; [done|]. split; [by split|]. by split. }
  by destruct o.
Qed.

Lemma call_xfer_query txBytes size s got s' : rel_pre txBytes size s →
  le_val (take 4 (txBuf_ (fst s))) = mkQuery →
  call_xfer txBytes size s = (Ret got, s') →
  let w := wordSize (le_val (take 4 (hdBuf_ (fst s')))) in w < 4 ∨ word_ok w.
Proof.
  destruct s as [a rx]. intros (A & M & L & B) Hq. cbn [fst snd] in *.
  unfold call_xfer, zoom, getWordSize. cbn [fst snd].
  pose proof (xfer_safe (txBuf_ a) txBytes (wordSize_ a) size
    (mkIo (jd a) (tp a) (hdBuf_ a) rx)) as Hx.
  destruct A. destruct (xfer _ _ _ _ _) as [o si] eqn:E. intros [= -> <-].
  destruct Hx as (Ho & _); try done; [|by apply Ho].
  destruct ok_hdBuf0. split_and!; simpl; done || lia.
Qed.

Lemma catch_timeout_total {S A} (m : M S A) a s R :
  total m s R → total (catch_timeout m a) s R.
Proof. unfold total, catch_timeout. by destruct (m s) as [[?|[]| |] ?]. Qed.

Lemma attempt_ok xid txBytes size s : rel_pre txBytes size s →
  total (attempt xid txBytes size) s (rel_step size).
Proof.
  intros Hs. pose proof (call_xfer_ok txBytes size s Hs) as Hc.
  unfold total, attempt, mbind, M_bind in *.
  destruct (call_xfer _ _ s) as [[got|e|u|] s']; try done.
  cbn [gets id lift]. pose proof Hc as (_ & Ha & _ & _).
  destruct (ok_hdBuf _ Ha). unfold getHdr. rewrite getw32_ok by (done || lia).
  by destruct (negb _); [|destruct (_ || _)].
Qed.

Lemma attempts_ok n xid txBytes size : ∀ s, rel_pre txBytes size s →
  total (attempts n xid txBytes size) s (rel_step size).
Proof.
  induction n as [|n IH]; intros s Hs.
  - destruct Hs as (A & M & L & B). by split; [|split_and!].
  - cbn [attempts]. pose proof (catch_timeout_total _ None s _ (attempt_ok xid txBytes size s Hs)) as Ht.
    unfold total, mbind, M_bind in *. destruct (catch_timeout _ _ _) as [[[gh|]|e|u|] s']; try done.
    specialize (IH s' (rel_pre_step _ _ _ _ Hs Ht)). unfold total in IH.
    destruct (attempts _ _ _ _ s') as [[?|?| |] s2]; try done; by eapply rel_step_trans.
Qed.

Lemma xferRel_ok txBytes size s : rel_pre txBytes size s →
  total (xferRel txBytes size) s (rel_step size).
Proof.
  intros Hs. unfold total, xferRel, mbind, M_bind. cbn [gets id lift].
  pose proof Hs as (A & (Hw & Hb & Hm) & L & B). destruct (ok_txBuf _ A), (ok_wordSize _ A).
  unfold getHdr. rewrite getw32_ok by (done || lia).
  by apply (attempts_ok _ _ txBytes size s).
Qed.

(** The sizes [sendVectors] computes do not wrap for vectors of up to
    2^20 bits. *)
Lemma send_sizes bits wsz : 1 ≤ bits ≤ 2 ^ 20 → 4 ≤ wsz ≤ 16 →
  let n := (bits + 7) / 8 in
  wrap64 (bits + 8 - 1) / 8 = n ∧ wrap32 bits = bits ∧ wrap32 n = n ∧
  wrap32 (wrap32 (n / wsz) * wsz) = wsz * (n / wsz) ∧
  wrap32 (wrap64 (wrap64 (n + wsz - 1) / wsz * wsz)) = word_ceil wsz n ∧
  wrap32 (n - wsz * (n / wsz)) = n `mod` wsz ∧
  wrap32 (wsz + 2 * word_ceil wsz n) = wsz + 2 * word_ceil wsz n ∧ 1 ≤ n ≤ 2 ^ 17.
Proof.
  intros Hb Hw n.
  assert (Hn : 1 ≤ n ≤ 2 ^ 17) by (subst n; Z.div_mod_to_equations; lia).
  pose proof (word_ceil_bounds wsz n ltac:(lia)) as Hc.
  pose proof (Z.div_mod n wsz ltac:(lia)). pose proof (Z.mod_pos_bound n wsz ltac:(lia)).
  assert (0 ≤ n / wsz ≤ n) by (split; [apply Z.div_pos; lia|nia]).
  split; [by rewrite wrap64_small by lia; subst n; do 2 f_equal; lia|].
  rewrite !(wrap32_small n), !(wrap32_small bits), (wrap64_small (n + wsz - 1)),
    (wrap32_small (n / wsz)) by (unfold is_u32; lia). fold (word_ceil wsz n).
  rewrite wrap64_small, !wrap32_small by (unfold is_u32; nia). split_and!; try done; lia.
Qed.

Definition shift_header (a : Axis) (bits : Z) : Z := snd (mkShift (xid_ a) bits).
Definition shift_xid (a : Axis) : Z := fst (newXid (xid_ a)).

(** The second half of [sendVectors], after the message was built. *)
Definition transfer (bits : Z) (tms tdi tdo : list Z) : M Axis (list Z) :=
  wsz ← gets getWordSize;
  let n := (bits + 7) / 8 in
  r ← with_rx tdo (xferRel (wsz + 2 * word_ceil wsz n) n);
  sniff ← gets (λ a, getSniff (jd a));
  (if sniff : bool then
     zoom (λ a, snif_ (jd a)) (λ c a, set_jd (set_snif c (jd a)) a)
       (processBuf bits tms tdi (snd r) None) ;; mret tt
   else mret tt) ;;
  mret (snd r).

Lemma write_tx_ok f b (a : Axis) : f (txBuf_ a) = Ret b → write_tx f a = (Ret tt, set_txBuf b a).
Proof. intros E. unfold write_tx, mbind, M_bind. cbn [gets lift]. by rewrite E. Qed.

(** The message of a shift. *)
Definition build (bits : Z) (tms tdi : list Z) (a : Axis) : outcome (list Z) :=
  let n := (bits + 7) / 8 in let wsz := wordSize_ a in
  b ← setHdr wsz (shift_header a bits) (txBuf_ a);
  pack wsz (wsz * (n / wsz)) (n `mod` wsz) tms tdi b.

Lemma send_build bits tms tdi tdo a : axis_ok a → 1 ≤ bits ≤ 2 ^ 20 →
  let n := (bits + 7) / 8 in
  n ≤ zlen tms → n ≤ zlen tdi → wordSize_ a + 2 * word_ceil (wordSize_ a) n ≤ bufSz_ a →
  ∃ msg, build bits tms tdi a = Ret msg ∧
    sendVectors bits tms tdi tdo a =
      transfer bits tms tdi tdo (set_txBuf msg (set_xid (shift_xid a) a)) ∧
    zlen msg = bufSz_ a ∧ header_at (wordSize_ a) (shift_header a bits) msg ∧
    packed (wordSize_ a) 0 n tms tdi msg ∧
    (bytes tms → bytes tdi → bytes msg).
Proof.
  intros A Hb n Ht Hd Hf. destruct (ok_txBuf _ A) as [Htb Htl], (ok_xid _ A).
  pose proof (ok_wordSize _ A) as Hw. pose proof (ok_xid _ A) as Hx.
  destruct (send_sizes bits (wordSize_ a) Hb Hw) as (E1 & E2 & E3 & E4 & E5 & E6 & E7 & Hn).
  pose proof (word_ceil_bounds (wordSize_ a) n ltac:(lia)).
  assert (Hh : is_u32 (shift_header a bits)).
  { unfold shift_header. pose proof (mkShift_fields (xid_ a) bits Hx Hb) as Hs.
    destruct (mkShift _ _). by destruct Hs. }
  destruct (setHdr_ok (wordSize_ a) (shift_header a bits) (txBuf_ a))
    as (b1 & Es & L1 & Hh1 & F1 & B1); [done|done|lia|].
  destruct (pack_ok (wordSize_ a) n tms tdi b1) as (b2 & Ep & L2 & P2 & F2 & B2); [lia..|].
  exists b2. split; [unfold build; rewrite Es; exact Ep|].
  split_and!; [|lia|eapply header_at_frame; eauto; lia|done|auto].
  unfold sendVectors, mbind, M_bind. cbn [gets].
  change (getWordSize a) with (wordSize_ a).
  fold n in E1. rewrite E1, E2. fold n in E3, E4, E5, E6, E7. rewrite E3, E4, E5, E6, E7.
  assert (Hm : mkShift (xid_ a) bits = (shift_xid a, shift_header a bits)).
  { unfold shift_xid, shift_header, mkShift. by destruct (newXid _). }
  rewrite Hm. cbn [modify].
  rewrite (write_tx_ok _ b1 (set_xid (shift_xid a) a)) by exact Es.
  rewrite (write_tx_ok _ b2 (set_txBuf b1 _)) by exact Ep.
  unfold transfer, mbind, M_bind. cbn [gets]. fold n.
  change (set_txBuf b2 (set_txBuf b1 ?a)) with (set_txBuf b2 a).
  change (getWordSize _) with (wordSize_ a).
  replace (int_of bits) with bits; [done|].
  unfold int_of. rewrite wrap32_small by (unfold is_u32; lia). by zbool.
Qed.

Lemma send_layout bits tms tdi tdo a : axis_ok a → 1 ≤ bits ≤ 2 ^ 20 →
  let n := (bits + 7) / 8 in
  n ≤ zlen tms → n ≤ zlen tdi → wordSize_ a + 2 * word_ceil (wordSize_ a) n ≤ bufSz_ a →
  ∃ msg,
    sendVectors bits tms tdi tdo a =
      transfer bits tms tdi tdo (set_txBuf msg (set_xid (shift_xid a) a)) ∧
    zlen msg = bufSz_ a ∧ header_at (wordSize_ a) (shift_header a bits) msg ∧
    packed (wordSize_ a) 0 n tms tdi msg ∧
    (bytes tms → bytes tdi → bytes msg).
Proof.
  intros A Hb n Ht Hd Hf. destruct (send_build bits tms tdi tdo a A Hb Ht Hd Hf) as (msg & _ & H1).
  by exists msg.
Qed.

(** What the firmware has to do to recover the vectors. *)
Definition unpack (wsz n : Z) (msg : list Z) : list (option Z) * list (option Z) :=
  ((λ i, ix msg (pos wsz i)) <$> seqZ 0 n, (λ i, ix msg (pos wsz i + wsz)) <$> seqZ 0 n).

Lemma fmap_ix n l : 0 ≤ n ≤ zlen l → ix l <$> seqZ 0 n = Some <$> take (Z.to_nat n) l.
Proof.
  intros Hn. apply list_eq. intros i. rewrite !list_lookup_fmap.
  destruct (decide (Z.of_nat i < n)).
  - rewrite lookup_seqZ_lt, lookup_take_lt by lia. cbn [fmap option_fmap option_map].
    rewrite Z.add_0_l, ix_nat. destruct (lookup_lt_is_Some_2 l i) as [x ->]; [lia|done].
  - rewrite lookup_seqZ_ge, lookup_take_ge by lia. done.
Qed.

Lemma packed_unpack wsz n tms tdi msg : 0 ≤ n → n ≤ zlen tms → n ≤ zlen tdi →
  packed wsz 0 n tms tdi msg →
  unpack wsz n msg = (Some <$> take (Z.to_nat n) tms, Some <$> take (Z.to_nat n) tdi).
Proof.
  intros Hn Ht Hd Hp. unfold unpack. rewrite <-!fmap_ix by lia.
  f_equal; apply list_fmap_ext; intros i x [Hx1 Hx2]%lookup_seqZ; apply Hp; lia.
Qed.

(** C10: the message [sendVectors] hands to the transport: for a vector
    pair of 1 to 2^20 bits whose message fits the transmit buffer, the
    buffer starts with the shift header carrying a fresh transaction ID
    and the length, and un-interleaving the words that follow it gives
    back exactly the bytes of the TMS and TDI vectors. *)
Theorem sendVectors_message bits tms tdi tdo a : axis_ok a → 1 ≤ bits ≤ 2 ^ 20 →
  let n := (bits + 7) / 8 in let wsz := wordSize_ a in
  n ≤ zlen tms → n ≤ zlen tdi → wsz + 2 * word_ceil wsz n ≤ bufSz_ a →
  ∃ msg,
    sendVectors bits tms tdi tdo a =
      transfer bits tms tdi tdo (set_txBuf msg (set_xid (fst (newXid (xid_ a))) a)) ∧
    zlen msg = bufSz_ a ∧ le_val (take 4 msg) = snd (mkShift (xid_ a) bits) ∧
    (∀ i, 4 ≤ i < wsz → ix msg i = Some 0) ∧
    unpack wsz n msg = (Some <$> take (Z.to_nat n) tms, Some <$> take (Z.to_nat n) tdi).
Proof.
  intros A Hb n wsz Ht Hd Hf. pose proof (mkShift_fields (xid_ a) bits (ok_xid _ A) Hb) as Hh.
  destruct (send_layout bits tms tdi tdo a A Hb Ht Hd Hf) as (msg & E & L & H1 & P & B).
  exists msg. split; [done|]. split; [done|]. split.
  { apply (header_at_val wsz); [|done]. destruct (mkShift _ _). by destruct Hh. }
  split; [apply H1|]. apply packed_unpack; [|done..].
  subst n. Z.div_mod_to_equations. lia.
Qed.

Lemma set_tx_axis_ok msg x a : axis_ok a → zlen msg = bufSz_ a → bytes msg → is_byte x →
  axis_ok (set_txBuf msg (set_xid x a)).
Proof. intros [] Hl Hb Hx. by split. Qed.

Lemma shift_message_ok bits a msg : axis_ok a → 1 ≤ bits ≤ 2 ^ 20 →
  let n := (bits + 7) / 8 in let wsz := wordSize_ a in
  wsz + 2 * word_ceil wsz n ≤ bufSz_ a → zlen msg = bufSz_ a → bytes msg →
  header_at wsz (shift_header a bits) msg →
  message_ok wsz (wsz + 2 * word_ceil wsz n) n msg.
Proof.
  intros A Hb n wsz Hf Hl Hby Hh. unfold message_ok.
  pose proof (mkShift_fields (xid_ a) bits (ok_xid _ A) Hb) as Hs. unfold shift_header in Hh.
  destruct (mkShift _ _) as [xid h]. cbn [snd] in Hh. destruct Hs as (Hu & Hv & Hc & He & Hi & _ & Hg).
  rewrite (header_at_val wsz h) by done. pose proof (ok_wordSize _ A).
  assert (0 ≤ n) by (subst n; Z.div_mod_to_equations; lia).
  pose proof (word_ceil_bounds wsz n ltac:(lia)).
  split_and!; [lia|lia|done|]. right; right. split; [done|]. split; [done|]. by exists bits.
Qed.

(** What stays the same over a shift. *)
Definition same_geometry (a a' : Axis) : Prop :=
  wordSize_ a' = wordSize_ a ∧ memDepth_ a' = memDepth_ a ∧ bufSz_ a' = bufSz_ a ∧
  retry_ a' = retry_ a ∧ periodNs_ a' = periodNs_ a ∧ debug_ (jd a') = debug_ (jd a).

Lemma transfer_ok bits tms tdi tdo a : axis_ok a → getSniff (jd a) = false →
  let n := (bits + 7) / 8 in let wsz := wordSize_ a in
  message_ok wsz (wsz + 2 * word_ceil wsz n) n (txBuf_ a) → 0 ≤ n ≤ zlen tdo → bytes tdo →
  let (o, a') := transfer bits tms tdi tdo a in
  match o with
  | Ret tdo' => rx_frame n tdo tdo' ∧ bytes tdo'
  | Throw _ => True
  | _ => False
  end ∧ axis_ok a' ∧ same_params a a'.
Proof.
  intros A Hs n wsz Hm Hl Hb. unfold transfer, mbind, M_bind. cbn [gets]. unfold with_rx.
  change (getWordSize a) with wsz. fold n.
  pose proof (xferRel_ok (wsz + 2 * word_ceil wsz n) n (a, tdo) ltac:(done)) as Hx.
  unfold total in Hx. destruct (xferRel _ _ (a, tdo)) as [[gh|e|u|] [a' rx]];
    try done; destruct Hx as (Hp & Ha & Hf & Hby); cbn [fst snd] in *; [|done].
  assert (Hsn : getSniff (jd a') = false).
  { unfold getSniff in *. by destruct Hp as (_ & _ & _ & _ & _ & _ & _ & ->). }
  rewrite Hsn. done.
Qed.

Lemma send_ok bits tms tdi tdo a :
  axis_ok a → getSniff (jd a) = false → 1 ≤ bits ≤ 2 ^ 20 →
  bytes tms → bytes tdi → bytes tdo →
  let n := (bits + 7) / 8 in let wsz := wordSize_ a in
  n ≤ zlen tms → n ≤ zlen tdi → n ≤ zlen tdo → wsz + 2 * word_ceil wsz n ≤ bufSz_ a →
  let (o, a') := sendVectors bits tms tdi tdo a in
  match o with
  | Ret tdo' => rx_frame n tdo tdo' ∧ bytes tdo'
  | Throw _ => True
  | _ => False
  end ∧ axis_ok a' ∧ same_geometry a a' ∧ xid_ a' = fst (newXid (xid_ a)).
Proof.
  intros A Hs Hb Bt Bd Bo n wsz Ht Hd Ho Hf.
  destruct (send_layout bits tms tdi tdo a A Hb Ht Hd Hf) as (msg & E & L & H1 & P & B).
  rewrite E. set (a1 := set_txBuf _ _).
  assert (A1 : axis_ok a1).
  { apply set_tx_axis_ok; [done|done|by apply B|].
    pose proof (newXid_range (xid_ a) (ok_xid _ A)). unfold is_byte, shift_xid. lia. }
  pose proof (transfer_ok bits tms tdi tdo a1 A1 Hs) as Ht1. cbv zeta in Ht1.
  change (wordSize_ a1) with (wordSize_ a) in Ht1.
  destruct (transfer bits tms tdi tdo a1) as [o a']. fold n wsz in Ht1.
  assert (0 ≤ n) by (subst n; Z.div_mod_to_equations; lia).
  destruct Ht1 as (Ho1 & A' & (S1 & S2 & S3 & S4 & S5 & S6 & S7 & S8)).
  - by apply shift_message_ok; auto.
  - done.
  - done.
  - by split_and!.
Qed.

(** A shift of no bits (which the connection asks for when the length of a
    vector wraps around) sends a message of one word with nonsense in it. *)
Lemma mkShift_none x : is_byte x → mkShift x 0 = (fst (newXid x), no_bits).
Proof.
  intros Hx. unfold mkShift. rewrite newXid_next by done. cbn [fst]. f_equal.
  assert (0 ≤ x `mod` 255 < 255) by (apply Z.mod_pos_bound; lia). change (Z.lor PVERS CMD_S) with (2 ^ 28).
  change (wrap32 (Z.shiftl (wrap32 (0 - 1)) LEN_SHIFT)) with (Z.ones 32). change no_bits with (Z.ones 32).
  assert (Hu : 0 ≤ Z.lor (2 ^ 28) ((x `mod` 255 + 1) * 2 ^ 20)) by (apply Z.lor_nonneg; lia).
  apply Z.lor_ones_low; [done|].
  rewrite Z.log2_lor by lia. apply Z.max_lub_lt; [done|]. apply Z.log2_lt_pow2; lia.
Qed.

Lemma word_ceil_0 wsz : 4 ≤ wsz ≤ 16 → 2 * word_ceil wsz 0 = 0.
Proof. intros Hw. unfold word_ceil. rewrite Z.div_small; lia. Qed.

Lemma send_none tdo a : axis_ok a → ∃ msg,
  (∀ tms tdi, sendVectors 0 tms tdi tdo a = transfer 0 tms tdi tdo (set_txBuf msg (set_xid (shift_xid a) a))) ∧
  message_ok (wordSize_ a) (wordSize_ a) 0 msg ∧ zlen msg = bufSz_ a ∧ bytes msg.
Proof.
  intros A. pose proof (ok_wordSize _ A) as Hw. destruct (ok_txBuf _ A) as [Htb Htl]. pose proof (ok_bufSz _ A).
  destruct (setHdr_ok (wordSize_ a) no_bits (txBuf_ a)) as (b & Es & L & Hh & _ & B); [done|done|lia|].
  exists b. split; [|split; [|split; [lia|auto]]].
  - intros tms tdi. unfold sendVectors, mbind, M_bind. cbn [gets]. change (getWordSize a) with (wordSize_ a).
    change (wrap64 (0 + 8 - 1) / 8) with 0. rewrite Z.div_0_l by lia. change (wrap32 (wrap32 0 * wordSize_ a)) with 0.
    change (wrap32 (0 - 0)) with 0. change (wrap32 0) with 0. rewrite (mkShift_none (xid_ a)) by apply A.
    assert (E0 : wrap32 (wrap64 (wrap64 (0 + wordSize_ a - 1) / wordSize_ a * wordSize_ a)) = 0).
    { rewrite (wrap64_small (0 + _ - 1)), (Z.div_small (0 + _ - 1)) by lia. done. }
    rewrite E0, wrap32_small by (unfold is_u32; lia). cbn [modify].
    rewrite (write_tx_ok _ b (set_xid _ a)) by exact Es. rewrite (write_tx_ok _ b (set_txBuf b _)) by done.
    unfold transfer, mbind, M_bind. cbn [gets]. change ((0 + 7) / 8) with 0.
    change (set_txBuf b (set_txBuf b ?a)) with (set_txBuf b a). change (getWordSize _) with (wordSize_ a).
    by rewrite word_ceil_0.
  - unfold message_ok. rewrite (header_at_val (wordSize_ a) no_bits) by done.
    split_and!; [lia|lia|auto|]. right; left. done.
Qed.

Lemma send_any_ok bits tms tdi tdo a :
  axis_ok a → getSniff (jd a) = false → 0 ≤ bits ≤ 2 ^ 20 →
  bytes tms → bytes tdi → bytes tdo →
  let n := (bits + 7) / 8 in let wsz := wordSize_ a in
  n ≤ zlen tms → n ≤ zlen tdi → n ≤ zlen tdo → wsz + 2 * word_ceil wsz n ≤ bufSz_ a →
  let (o, a') := sendVectors bits tms tdi tdo a in
  match o with
  | Ret tdo' => rx_frame n tdo tdo' ∧ bytes tdo'
  | Throw _ => True
  | _ => False
  end ∧ axis_ok a' ∧ same_geometry a a' ∧ xid_ a' = fst (newXid (xid_ a)).
Proof.
  intros A Hs Hb Bt Bd Bo n wsz. destruct (Z.eq_dec bits 0) as [->|]; [|apply send_ok; (done || lia)]. intros _ _ _ _.
  destruct (send_none tdo a A) as (msg & -> & Hm & L & B). set (a1 := set_txBuf _ _).
  assert (A1 : axis_ok a1).
  { apply set_tx_axis_ok; [done..|]. pose proof (newXid_range (xid_ a) (ok_xid _ A)). unfold is_byte, shift_xid. lia. }
  pose proof (transfer_ok 0 tms tdi tdo a1 A1 Hs) as Ht. cbv zeta in Ht. change ((0 + 7) / 8) with 0 in *.
  rewrite word_ceil_0 in Ht by apply A1. rewrite Z.add_0_r in Ht. specialize (Ht Hm ltac:(lia) Bo).
  destruct (transfer 0 tms tdi tdo a1) as [o a']. destruct Ht as (Ho & A' & (S1 & S2 & S3 & S4 & S5 & S6 & S7 & S8)).
  by split_and!.
Qed.

(** C11: [sendVectors] is memory safe and total: with the sniffer off, and
    vectors of up to 2^20 bits that the caller's three buffers and the
    transmit buffer can hold, no access leaves a buffer, only the bytes
    of the vector are written to the TDO buffer, and whether it returns
    or throws the driver stays well formed with unchanged geometry and
    the next transaction ID.  (Beyond these limits it is not safe:
    [sendVectors_overflow], [bridge_init_overflow], [streaming_overflow].) *)
Theorem sendVectors_safe bits tms tdi tdo a :
  axis_ok a → getSniff (jd a) = false → 0 ≤ bits ≤ 2 ^ 20 →
  bytes tms → bytes tdi → bytes tdo →
  let n := (bits + 7) / 8 in let wsz := wordSize_ a in
  n ≤ zlen tms → n ≤ zlen tdi → n ≤ zlen tdo → wsz + 2 * word_ceil wsz n ≤ bufSz_ a →
  let (o, a') := sendVectors bits tms tdi tdo a in
  match o with
  | Ret tdo' => rx_frame n tdo tdo' ∧ bytes tdo'
  | Throw _ => True
  | _ => False
  end ∧ axis_ok a' ∧ same_geometry a a' ∧ xid_ a' = fst (newXid (xid_ a)).
Proof. apply send_any_ok. Qed.

(** *** Vectors that do not fit *)

Lemma memcpy_cases doff src soff n dst : 0 ≤ n →
  memcpy doff src soff n dst = Fault OutOfBounds ∨
  ∃ dst', memcpy doff src soff n dst = Ret dst' ∧ length dst' = length dst ∧ doff + n ≤ zlen dst.
Proof.
  intros Hn. destruct (decide (zlen dst < doff + n)); [left; by apply memcpy_oob|].
  unfold memcpy. destruct (rd soff n src) as [bs| | |] eqn:E; cbn [mbind outcome_bind];
    try (unfold rd in E; by case_match).
  - destruct (wr doff bs dst) as [d| | |] eqn:E'; try (unfold wr in E'; by case_match).
    + right. exists d. split_and!; [done|by eapply wr_length|lia].
    + left. unfold wr in E'. case_match; by simplify_eq.
  - left. unfold rd in E. case_match; by simplify_eq.
Qed.

Lemma pack_words_oob wsz tms tdi n : ∀ fuel j buf, 0 < wsz → 0 ≤ j → (n ≤ fuel)%nat →
  wsz * (j + Z.of_nat n) < 2 ^ 32 - wsz → wsz + 2 * wsz * j ≤ zlen buf →
  zlen buf < wsz + 2 * wsz * (j + Z.of_nat n) →
  pack_words fuel wsz (wsz * (j + Z.of_nat n)) (wsz * j) (wsz + 2 * wsz * j) tms tdi buf =
    Fault OutOfBounds.
Proof.
  induction n as [|n IH]; intros fuel j buf Hw Hj Hf Ho Hl Hb; [lia|].
  destruct fuel as [|fuel]; [lia|]. cbn [pack_words]. rewrite (proj2 (Z.ltb_lt _ _)) by nia.
  destruct (memcpy_cases (wsz + 2 * wsz * j) tms (wsz * j) wsz buf) as [->|(b1 & -> & L1 & _)];
    [lia|done|]. cbn [mbind outcome_bind].
  destruct (memcpy_cases (wsz + 2 * wsz * j + wsz) tdi (wsz * j) wsz b1) as [->|(b2 & -> & L2 & F2)];
    [lia|done|]. cbn [mbind outcome_bind].
  rewrite wrap32_small by (unfold is_u32; nia).
  replace (wsz * j + wsz) with (wsz * (j + 1)) by lia.
  replace (wsz + 2 * wsz * j + wsz + wsz) with (wsz + 2 * wsz * (j + 1)) by lia.
  replace (j + Z.of_nat (S n)) with (j + 1 + Z.of_nat n) in * by lia.
  apply IH; lia.
Qed.

Lemma send_overflow bits tms tdi tdo a : axis_ok a → 1 ≤ bits ≤ 2 ^ 20 →
  let n := (bits + 7) / 8 in let wsz := wordSize_ a in
  bufSz_ a < wsz + 2 * (wsz * (n / wsz)) →
  fst (sendVectors bits tms tdi tdo a) = Fault OutOfBounds.
Proof.
  intros A Hb n wsz Hf. pose proof (ok_wordSize _ A) as Hw. pose proof (ok_bufSz _ A).
  destruct (ok_txBuf _ A) as [Htb Htl].
  destruct (send_sizes bits (wordSize_ a) Hb Hw) as (E1 & E2 & E3 & E4 & E5 & E6 & E7 & Hn).
  pose proof (mkShift_fields (xid_ a) bits (ok_xid _ A) Hb) as Hh.
  fold n in E1, E3, E4, E5, E6, E7, Hn.
  unfold sendVectors, mbind, M_bind. cbn [gets]. change (getWordSize a) with (wordSize_ a).
  rewrite E1, E2, E3, E4, E5, E6, E7. destruct (mkShift (xid_ a) bits) as [xid hdr].
  destruct Hh as [Hu _]. cbn [modify].
  destruct (setHdr_ok (wordSize_ a) hdr (txBuf_ a)) as (b1 & Es & L1 & _); [done|done|lia|].
  rewrite (write_tx_ok _ b1 (set_xid xid a)) by exact Es.
  unfold write_tx, mbind, M_bind. cbn [gets lift txBuf_ set_txBuf].
  unfold pack. assert (0 ≤ n / wsz) by (apply Z.div_pos; lia).
  assert (n / wsz * wsz ≤ n) by (rewrite Z.mul_comm; apply Z.mul_div_le; lia).
  pose proof (pack_words_oob wsz tms tdi (Z.to_nat (n / wsz)) (Z.to_nat (wsz * (n / wsz))) 0 b1) as Hp.
  rewrite Z.add_0_l, Z2Nat.id, !Z.mul_0_r, Z.add_0_r in Hp by done. fold wsz.
  rewrite Hp; [done|nia..].
Qed.

(** Nothing in [sendVectors] checks the vector against the transmit
    buffer: when the whole words of the message do not fit, the copy runs
    over its end, whatever the target. *)
Theorem sendVectors_overflow bits tms tdi tdo a : axis_ok a → 1 ≤ bits ≤ 2 ^ 20 →
  let n := (bits + 7) / 8 in let wsz := wordSize_ a in
  bufSz_ a < wsz + 2 * (wsz * (n / wsz)) →
  fst (sendVectors bits tms tdi tdo a) = Fault OutOfBounds.
Proof. apply send_overflow. Qed.

(** *** Retries *)

Abbreviation after_calls k txBytes size :=
  (Nat.iter k (λ s, snd (call_xfer txBytes size s))).

Lemma attempts_timeout n xid txBytes size : ∀ s,
  (∀ k, (k < n)%nat → fst (call_xfer txBytes size (after_calls k txBytes size s)) = Throw TimeoutErr) →
  attempts n xid txBytes size s = (Throw TimeoutErr, after_calls n txBytes size s).
Proof.
  induction n as [|n IH]; intros s Hc; [done|]. cbn [attempts].
  pose proof (Hc O ltac:(lia)) as H0'. cbn [Nat.iter nat_rect] in H0'.
  rewrite Nat.iter_succ_r. unfold mbind at 1, M_bind at 1, catch_timeout, attempt.
  unfold mbind at 1, M_bind at 1. destruct (call_xfer txBytes size s) as [o s1] eqn:E.
  cbn [fst] in H0'. subst o. cbn [snd]. apply IH. intros k Hk.
  specialize (Hc (S k) ltac:(lia)). rewrite Nat.iter_succ_r, E in Hc. exact Hc.
Qed.

Lemma attempts_reply n xid txBytes size got hdr : ∀ s s',
  attempts n xid txBytes size s = (Ret (got, hdr), s') →
  getHdr (hdBuf_ (fst s')) = Ret hdr ∧ getErr hdr = 0 ∧ (xid = XID_ANY ∨ getXid hdr = xid) ∧
  ∃ k, (k < n)%nat ∧ call_xfer txBytes size (after_calls k txBytes size s) = (Ret got, s').
Proof.
  induction n as [|n IH]; intros s s'; [done|]. cbn [attempts].
  unfold mbind at 1, M_bind at 1, catch_timeout, attempt.
  assert (Hlater : ∀ s1, snd (call_xfer txBytes size s) = s1 →
    attempts n xid txBytes size s1 = (Ret (got, hdr), s') →
    getHdr (hdBuf_ (fst s')) = Ret hdr ∧ getErr hdr = 0 ∧ (xid = XID_ANY ∨ getXid hdr = xid) ∧
    ∃ k, (k < S n)%nat ∧ call_xfer txBytes size (after_calls k txBytes size s) = (Ret got, s')).
  { intros s1 Es (? & ? & ? & k & Hk & Hc)%IH. split_and!; [done..|]. exists (S k).
    split; [lia|]. rewrite Nat.iter_succ_r, Es. done. }
  unfold mbind, M_bind. destruct (call_xfer txBytes size s) as [[g|[]|u|] s1] eqn:E; try done; cycle 1.
  { by apply Hlater. }
  cbn [gets id lift]. destruct (getHdr (hdBuf_ (fst s1))) as [h|[]|u|] eqn:Eh; try done; cycle 1.
  { by apply Hlater. }
  destruct (negb _) eqn:Ee; [done|]. apply negb_false_iff, Z.eqb_eq in Ee.
  destruct (_ || _) eqn:Ex; [|by apply Hlater].
  intros [= -> -> ->]. apply orb_true_iff in Ex as [Ex%Z.eqb_eq|Ex%Z.eqb_eq];
    (split_and!; [done..|by auto|]; exists O; split; [lia|done]).
Qed.

Lemma after_calls_ok txBytes size s k : rel_pre txBytes size s →
  rel_pre txBytes size (after_calls k txBytes size s) ∧
  txBuf_ (fst (after_calls k txBytes size s)) = txBuf_ (fst s).
Proof.
  intros Hs. induction k as [|k [IH1 IH2]]; [done|].
  change (after_calls (S k) txBytes size s) with
    (snd (call_xfer txBytes size (after_calls k txBytes size s))).
  pose proof (call_xfer_ok _ _ _ IH1) as Hc. unfold total in Hc.
  destruct (call_xfer _ _ _) as [[?|?| |] s1]; try done; cbn [snd].
  all: split; [by eapply rel_pre_step|].
  all: destruct Hc as ((_ & _ & Ht & _) & _); congruence.
Qed.

(** The word size of the reply to a query. *)
Lemma xferRel_query txBytes size s got hdr s' : rel_pre txBytes size s →
  le_val (take 4 (txBuf_ (fst s))) = mkQuery →
  xferRel txBytes size s = (Ret (got, hdr), s') → wordSize hdr < 4 ∨ word_ok (wordSize hdr).
Proof.
  intros Hs Hq Hx. pose proof (xferRel_ok _ _ _ Hs) as Ht. unfold total in Ht. rewrite Hx in Ht.
  destruct Ht as (_ & A' & _). destruct (ok_hdBuf _ A') as [Hhb Hhl].
  pose proof Hs as (A & _). destruct (ok_txBuf _ A). pose proof (ok_bufSz _ A).
  unfold xferRel, mbind, M_bind in Hx. cbn [gets id lift] in Hx. unfold getHdr at 1 in Hx.
  rewrite getw32_ok in Hx by (done || lia).
  apply attempts_reply in Hx as (Hh & _ & _ & k & _ & Hc).
  destruct (after_calls_ok txBytes size s k Hs) as [Hk1 Hk2].
  pose proof (call_xfer_query _ _ _ _ _ Hk1 ltac:(by rewrite Hk2) Hc) as Hw. cbv zeta in Hw.
  unfold getHdr in Hh. rewrite getw32_ok in Hh by (done || lia). rewrite drop_0 in Hh.
  by injection Hh as <-.
Qed.

(** C20: a transfer that returns has got a reply that it may take for the one
    to its request: the header it reports is the one in the header buffer
    and carries no error; when the request has a transaction ID, as shifts
    have, the reply carries the same ID, while the reply to a request
    without one (a query has XID_ANY) may carry any ([late_reply_misread]);
    and the reply came with one of at most [retry_ + 1] transmissions. *)
Theorem xferRel_reply txBytes size s got hdr s' :
  bytes (txBuf_ (fst s)) → 4 ≤ zlen (txBuf_ (fst s)) →
  xferRel txBytes size s = (Ret (got, hdr), s') →
  let xid := getXid (le_val (take 4 (txBuf_ (fst s)))) in
  getHdr (hdBuf_ (fst s')) = Ret hdr ∧ getErr hdr = 0 ∧ (xid = XID_ANY ∨ getXid hdr = xid) ∧
  ∃ k, (k < Z.to_nat (retry_ (fst s) + 1))%nat ∧
    call_xfer txBytes size (after_calls k txBytes size s) = (Ret got, s').
Proof.
  intros Hb Hl. unfold xferRel, mbind, M_bind. cbn [gets id lift]. unfold getHdr at 1.
  rewrite getw32_ok by (done || lia). rewrite drop_0. apply attempts_reply.
Qed.

(** C21: when the target stays silent, [xferRel] transmits the message
    exactly [retry_ + 1] times and then throws [TimeoutErr]. *)
Theorem xferRel_timeout txBytes size s :
  bytes (txBuf_ (fst s)) → 4 ≤ zlen (txBuf_ (fst s)) →
  let n := Z.to_nat (retry_ (fst s) + 1) in
  (∀ k, (k < n)%nat → fst (call_xfer txBytes size (after_calls k txBytes size s)) = Throw TimeoutErr) →
  xferRel txBytes size s = (Throw TimeoutErr, after_calls n txBytes size s).
Proof.
  intros Hb Hl. unfold xferRel, mbind, M_bind. cbn [gets id lift]. unfold getHdr at 1.
  rewrite getw32_ok by (done || lia). apply attempts_timeout.
Qed.

(** *** The query *)

Lemma mkQuery_message wsz buf : 4 ≤ wsz ≤ zlen buf → bytes buf → header_at wsz mkQuery buf →
  message_ok wsz wsz 0 buf.
Proof.
  intros Hw Hb Hh. unfold message_ok. rewrite (header_at_val wsz mkQuery) by done.
  split_and!; [lia|lia|done|by left].
Qed.

(** The transmit buffer after a query holds every vector of up to
    [memDepth_] words. *)
Lemma query_room depth wsz size k : 4 ≤ wsz ≤ 16 → 0 ≤ k ≤ depth * wsz →
  (2 * depth + 1) * wsz ≤ size → wsz + 2 * word_ceil wsz k ≤ size.
Proof.
  intros Hw Hk Hs. assert (word_ceil wsz k ≤ depth * wsz); [|lia].
  unfold word_ceil. apply Z.mul_le_mono_nonneg_r; [lia|].
  apply Z.lt_succ_r, Z.div_lt_upper_bound; lia.
Qed.

(** [query] is one transfer; what it does with the header [h] of the reply. *)
Definition after_query (h : Z) (a : Axis) : Axis :=
  let a := set_wordSize (wordSize h) a in
  if wordSize h <? 4 then a
  else
    let siz := wrap32 ((2 * memDepth h + 1) * wordSize h) in
    let grow := bufSz_ a <? siz in
    mkAxis (jd a) (wordSize h) (memDepth h) (if grow then fresh siz else txBuf_ a) (hdBuf_ a)
      (if grow then siz else bufSz_ a) (if 0 =? memDepth h then 0 else 5) (xid_ a) (cvtPerNs h) (tp a).

Definition query_result (h : Z) : outcome Z :=
  if wordSize h <? 4 then Throw (ProtoErr "Received invalid word size") else Ret (wrap32 (memDepth h * wordSize h)).

Lemma query_by a : axis_ok a → ∃ b, let a1 := set_txBuf b a in
  axis_ok a1 ∧ rel_pre (wordSize_ a) 0 (a1, []) ∧ header_at (wordSize_ a) mkQuery b ∧ bytes b ∧ length b = length (txBuf_ a) ∧
  query a = let (o, s) := xferRel (wordSize_ a) 0 (a1, []) in
    match o with
    | Ret gh => (query_result (snd gh), after_query (snd gh) (fst s))
    | Throw e => (Throw e, fst s)
    | Fault u => (Fault u, fst s)
    | NoFuel => (NoFuel, fst s)
    end.
Proof.
  intros A. pose proof (ok_wordSize _ A) as Hw. destruct (ok_txBuf _ A) as [Htb Htl]. pose proof (ok_bufSz _ A) as Hbz.
  destruct (setHdr_ok (wordSize_ a) mkQuery (txBuf_ a)) as (b & Es & L & Hh & _ & B); [done|done|lia|].
  exists b. intros a1. assert (A1 : axis_ok a1) by (destruct A; split; try done; simpl; split; [auto|lia]).
  split; [done|]. split; [split; [done|]; split; [apply mkQuery_message; simpl; auto; lia|by split; [|constructor]]|].
  split; [done|]. split; [auto|]. split; [done|].
  unfold query, mbind, M_bind. cbn [gets id]. change (getWordSize a) with (wordSize_ a).
  rewrite (write_tx_ok _ b a) by exact Es. fold a1. unfold with_rx.
  destruct (xferRel _ _ _) as [[[g h]|e|u|] [a2 rx]]; try done. cbn [fst snd modify].
  unfold query_result, after_query. by destruct (wordSize h <? 4).
Qed.

Lemma query_ok a : axis_ok a →
  let (o, a') := query a in
  match o with
  | Ret n => axis_ok a' ∧ n = memDepth_ a' * wordSize_ a' ∧
      retry_ a' = (if 0 =? memDepth_ a' then 0 else 5) ∧
      debug_ (jd a') = debug_ (jd a) ∧ xid_ a' = xid_ a ∧ bufSz_ a ≤ bufSz_ a' ∧
      (∀ k, 0 < n → 0 ≤ k ≤ n → wordSize_ a' + 2 * word_ceil (wordSize_ a') k ≤ bufSz_ a')
  | Throw e => axis_ok a' ∧ debug_ (jd a') = debug_ (jd a) ∨
      e = ProtoErr "Received invalid word size" ∧ 1 ≤ wordSize_ a' < 4
  | _ => False
  end.
Proof.
  intros A. pose proof (ok_bufSz _ A) as Hbz. destruct (query_by a A) as (b1 & A1 & Hpre & H1 & _ & _ & ->). set (a1 := set_txBuf b1 a) in *.
  pose proof (xferRel_ok _ _ _ Hpre) as Hx. unfold total in Hx.
  destruct (xferRel _ _ (a1, [])) as [[[g hdr]|e|u|] [a2 rx]] eqn:Exr; try done; cbn [fst snd] in *; cycle 1.
  { left. destruct Hx as ((_ & _ & _ & _ & _ & _ & _ & Hd) & ? & _). done. }
  destruct Hx as ((S1 & S2 & S3 & S4 & S5 & S6 & S7 & S8) & A2 & _ & _). cbn [fst snd].
  pose proof (wordSize_bounds hdr) as Hws. pose proof (memDepth_bounds hdr) as Hmd.
  assert (Hwo : wordSize hdr < 4 ∨ word_ok (wordSize hdr)).
  { eapply xferRel_query; [exact Hpre| |exact Exr]. by apply (header_at_val (wordSize_ a) mkQuery). }
  unfold query_result, after_query.
  destruct (Z.ltb_spec (wordSize hdr) 4); [right; simpl; split; [done|lia]|].
  cbn. rewrite !wrap32_small by (unfold is_u32; nia).
  assert (Hz : bufSz_ a2 = bufSz_ a) by exact S4.
  split; [|split; [done|split; [done|split; [done|split; [done|split]]]]].
  - destruct A2. split; simpl; try done; try nia.
    + destruct Hwo; [lia|done].
    + destruct (Z.ltb_spec (bufSz_ a2) ((2 * memDepth hdr + 1) * wordSize hdr)); [|done].
      split; [apply fresh_bytes|]. rewrite fresh_length. lia.
    + case_match; nia.
    + case_match; lia.
  - case_match; lia.
  - intros k Hn Hk. eapply query_room; [lia|done|]. case_match; lia.
Qed.

(** C22: [query] establishes the invariant that [sendVectors] needs: it
    never fails otherwise than by an exception; when it returns, the
    driver is well formed, the result is the size in bytes of the memory
    the firmware announces, a target without memory gets no retries, and
    for a target with memory every vector of up to that size fits the
    transmit buffer.  When it throws, the driver is well formed too or
    was refused because the firmware announced words of less than four
    bytes. *)
Theorem query_establishes a : axis_ok a →
  let (o, a') := query a in
  match o with
  | Ret n => axis_ok a' ∧ n = memDepth_ a' * wordSize_ a' ∧
      retry_ a' = (if 0 =? memDepth_ a' then 0 else 5) ∧
      xid_ a' = xid_ a ∧ bufSz_ a ≤ bufSz_ a' ∧
      (∀ k, 0 < n → 0 ≤ k ≤ n → wordSize_ a' + 2 * word_ceil (wordSize_ a') k ≤ bufSz_ a')
  | Throw e => axis_ok a' ∨
      e = ProtoErr "Received invalid word size" ∧ 1 ≤ wordSize_ a' < 4
  | _ => False
  end.
Proof.
  intros A. pose proof (query_ok a A) as Hq. destruct (query a) as [[n|e|u|] a']; try done.
  - by destruct Hq as (? & ? & ? & _ & ?).
  - destruct Hq as [[? _]|?]; [by left|by right].
Qed.

(** The constructor leaves a well-formed driver. *)
Lemma axis_new_ok debug xid0 (t : T) : is_byte xid0 → tp_ok t →
  axis_ok (JtagDriverAxisToJtag_new debug xid0 t).
Proof.
  intros Hx Ht. split; try done; cbn -[Z.pow]; try lia.
  - apply word_ok_init.
  - split; [apply fresh_bytes|]. by rewrite fresh_length.
  - split; [|done]. repeat constructor; unfold is_byte; lia.
Qed.
End axis_proofs.

(** *** Exchanges that succeed at once *)

Section exchange.
Context `{Platform} {T : Type} `{Transport T}.
Implicit Types a : JtagDriverAxisToJtag T.

(** One attempt is enough when the reply carries the transaction ID. *)
Lemma attempts_first n xid txBytes size got s s' h :
  call_xfer txBytes size s = (Ret got, s') → bytes (hdBuf_ (fst s')) → 4 ≤ zlen (hdBuf_ (fst s')) →
  le_val (take 4 (hdBuf_ (fst s'))) = h → getErr h = 0 → xid = XID_ANY ∨ getXid h = xid →
  attempts (S n) xid txBytes size s = (Ret (got, h), s').
Proof.
  intros Hc Hb Hl Eh He Hx. cbn [attempts]. unfold mbind at 1, M_bind at 1, catch_timeout, attempt.
  unfold mbind, M_bind. rewrite Hc. cbn [gets id lift]. unfold getHdr.
  rewrite getw32_ok by (done || lia). rewrite drop_0, Eh, He.
  change (negb (0 =? 0)) with false. cbv iota. by destruct Hx as [-> | ->]; rewrite ?Z.eqb_refl, ?orb_true_r.
Qed.

Lemma xferRel_first txBytes size got s s' h :
  bytes (txBuf_ (fst s)) → 4 ≤ zlen (txBuf_ (fst s)) → 0 ≤ retry_ (fst s) →
  call_xfer txBytes size s = (Ret got, s') → bytes (hdBuf_ (fst s')) → 4 ≤ zlen (hdBuf_ (fst s')) →
  le_val (take 4 (hdBuf_ (fst s'))) = h → getErr h = 0 →
  (let xid := getXid (le_val (take 4 (txBuf_ (fst s)))) in xid = XID_ANY ∨ getXid h = xid) →
  xferRel txBytes size s = (Ret (got, h), s').
Proof.
  intros Hb Hl Hr Hx Hb1 Hl1 Eh He Hxid. unfold xferRel, mbind, M_bind. cbn [gets id lift].
  unfold getHdr. rewrite getw32_ok by (done || lia). rewrite drop_0.
  destruct (Z.to_nat (retry_ (fst s) + 1)) as [|m] eqn:Em; [lia|].
  by apply (attempts_first m _ _ _ _ _ _ h Hx).
Qed.

Lemma transfer_first bits tms tdi tdo a a1 got tdo' :
  let n := (bits + 7) / 8 in let wsz := wordSize_ a in
  let h := le_val (take 4 (txBuf_ a)) in
  bytes (txBuf_ a) → 4 ≤ zlen (txBuf_ a) → 0 ≤ retry_ a → getErr h = 0 →
  call_xfer (wsz + 2 * word_ceil wsz n) n (a, tdo) = (Ret got, (a1, tdo')) →
  bytes (hdBuf_ a1) → 4 ≤ zlen (hdBuf_ a1) → take 4 (hdBuf_ a1) = take 4 (txBuf_ a) →
  getSniff (jd a1) = false → transfer bits tms tdi tdo a = (Ret tdo', a1).
Proof.
  intros n wsz h Hb Hl Hr He Hx Hb1 Hl1 Heq Hs. unfold transfer, mbind, M_bind. cbn [gets].
  change (getWordSize a) with wsz. fold n. unfold with_rx.
  rewrite (xferRel_first _ _ got _ (a1, tdo') h) by (cbn [fst]; rewrite ?Heq; try done; by right).
  cbn [snd]. by rewrite Hs.
Qed.

(** An exception of the transport other than a timeout is not caught. *)
Lemma transfer_throws bits tms tdi tdo a e s1 :
  let n := (bits + 7) / 8 in let wsz := wordSize_ a in
  bytes (txBuf_ a) → 4 ≤ zlen (txBuf_ a) → 0 ≤ retry_ a → e ≠ TimeoutErr →
  call_xfer (wsz + 2 * word_ceil wsz n) n (a, tdo) = (Throw e, s1) → transfer bits tms tdi tdo a = (Throw e, fst s1).
Proof.
  intros n wsz Hb Hl Hr He Hx. unfold transfer, mbind, M_bind. cbn [gets].
  change (getWordSize a) with wsz. fold n. unfold with_rx, xferRel, mbind, M_bind. cbn [gets id lift fst].
  unfold getHdr at 1. rewrite getw32_ok by (done || lia).
  destruct (Z.to_nat (retry_ a + 1)) as [|m] eqn:Em; [lia|]. cbn [attempts].
  unfold mbind at 1, M_bind at 1, catch_timeout, attempt. unfold mbind, M_bind. rewrite Hx. by destruct e, s1.
Qed.

(** The message that [sendVectors] hands to the transport. *)
Lemma send_built `{!TransportLaws T} bits tms tdi tdo a : axis_ok a → 1 ≤ bits ≤ 2 ^ 20 → bytes tms → bytes tdi →
  let n := (bits + 7) / 8 in let wsz := wordSize_ a in
  n ≤ zlen tms → n ≤ zlen tdi → wsz + 2 * word_ceil wsz n ≤ bufSz_ a →
  ∃ msg, let h := le_val (take 4 msg) in
    sendVectors bits tms tdi tdo a = transfer bits tms tdi tdo (set_txBuf msg (set_xid (shift_xid a) a)) ∧
    bytes msg ∧ zlen msg = bufSz_ a ∧ packed wsz 0 n tms tdi msg ∧
    getVrs h = PVER0 ∧ getCmd h = CMD_S ∧ getLen h = Ret bits ∧ getErr h = 0 ∧ getXid h = shift_xid a.
Proof.
  intros A Hb Bt Bd n wsz Ht Hd Hf.
  destruct (send_layout bits tms tdi tdo a A Hb Ht Hd Hf) as (msg & E & L & H1 & P & B). specialize (B Bt Bd).
  pose proof (mkShift_fields (xid_ a) bits (ok_xid _ A) Hb) as Hs. unfold shift_header in H1.
  destruct (mkShift _ _) as [xid h]. cbn [snd] in H1. destruct Hs as (Hu & Hv & Hc & He & Hx & -> & Hg).
  exists msg. by rewrite (header_at_val _ h msg Hu H1).
Qed.

(** A transport that refuses the message. *)
Lemma sendVectors_throws `{!TransportLaws T} bits tms tdi tdo a (Q : exn → Prop) :
  axis_ok a → 1 ≤ bits ≤ 2 ^ 20 → bytes tms → bytes tdi → ¬ Q TimeoutErr →
  let n := (bits + 7) / 8 in let wsz := wordSize_ a in let txBytes := wsz + 2 * word_ceil wsz n in
  n ≤ zlen tms → n ≤ zlen tdi → txBytes ≤ bufSz_ a →
  (∀ msg, bytes msg → txBytes ≤ zlen msg → packed wsz 0 n tms tdi msg →
    let h := le_val (take 4 msg) in getVrs h = PVER0 → getCmd h = CMD_S → getLen h = Ret bits →
    ∃ e s', xfer msg txBytes wsz n (mkIo (jd a) (tp a) (hdBuf_ a) tdo) = (Throw e, s') ∧ Q e) →
  ∃ e a', sendVectors bits tms tdi tdo a = (Throw e, a') ∧ Q e.
Proof.
  intros A Hb Bt Bd Hne n wsz txBytes Ht Hd Hf Hx. pose proof (ok_retry _ A). pose proof (ok_bufSz _ A).
  destruct (send_built bits tms tdi tdo a A Hb Bt Bd Ht Hd Hf) as (msg & E & B & L & P & Hv & Hc & Hg & _).
  destruct (Hx msg B ltac:(lia) P Hv Hc Hg) as (e & s' & Ex & HQ). rewrite E. eexists _, _. split; [|exact HQ].
  eapply transfer_throws; cbn [txBuf_ set_txBuf retry_ set_xid]; [done|lia|lia|by intros ->|].
  unfold call_xfer, zoom. cbn [fst snd]. unfold getWordSize.
  cbn [txBuf_ set_txBuf jd tp hdBuf_ set_xid wordSize_ memDepth_ bufSz_ retry_ xid_ periodNs_].
  fold n wsz txBytes. by rewrite Ex.
Qed.

(** [sendVectors] over a transport that echoes the header: what the
    transport makes of the message is what comes out. *)
Lemma sendVectors_tagged `{!TransportLaws T} bits tms tdi tdo a (Q : io T → Prop) :
  axis_ok a → getSniff (jd a) = false → 1 ≤ bits ≤ 2 ^ 20 → bytes tms → bytes tdi →
  let n := (bits + 7) / 8 in let wsz := wordSize_ a in let txBytes := wsz + 2 * word_ceil wsz n in
  n ≤ zlen tms → n ≤ zlen tdi → txBytes ≤ bufSz_ a →
  (∀ msg, bytes msg → txBytes ≤ zlen msg → packed wsz 0 n tms tdi msg →
    let h := le_val (take 4 msg) in getVrs h = PVER0 → getCmd h = CMD_S → getLen h = Ret bits → getXid h = shift_xid a →
    ∃ s', xfer msg txBytes wsz n (mkIo (jd a) (tp a) (hdBuf_ a) tdo) = (Ret n, s') ∧
      io_jd s' = jd a ∧ take 4 (io_hd s') = take 4 msg ∧ length (io_hd s') = length (hdBuf_ a) ∧
      (bytes (hdBuf_ a) → bytes (io_hd s')) ∧ Q s') →
  ∃ s' a', sendVectors bits tms tdi tdo a = (Ret (io_rx s'), a') ∧ tp a' = io_tp s' ∧ Q s' ∧
    jd a' = jd a ∧ wordSize_ a' = wsz ∧ xid_ a' = shift_xid a.
Proof.
  intros A Hsn Hb Bt Bd n wsz txBytes Ht Hd Hf Hx.
  destruct (send_built bits tms tdi tdo a A Hb Bt Bd Ht Hd Hf) as (msg & E & B & L & P & Hv & Hc & Hg & He & Hxid).
  destruct (ok_hdBuf _ A) as [Hhb Hhl]. pose proof (ok_retry _ A). pose proof (ok_bufSz _ A).
  destruct (Hx msg B ltac:(lia) P Hv Hc Hg Hxid) as (s' & Ex & Ej & Eh & Lh & Bh & HQ).
  rewrite E. exists s', (mkAxis (io_jd s') (wordSize_ a) (memDepth_ a) msg (io_hd s') (bufSz_ a) (retry_ a) (shift_xid a)
    (periodNs_ a) (io_tp s')). split; [|done].
  apply (transfer_first _ _ _ _ _ _ n); cbn [txBuf_ set_txBuf retry_ set_xid hdBuf_ jd];
    [done|lia|lia|done| |by apply Bh|lia|done|by rewrite Ej].
  unfold call_xfer, zoom. cbn [fst snd]. unfold getWordSize.
  cbn [txBuf_ set_txBuf jd tp hdBuf_ set_xid wordSize_ memDepth_ bufSz_ retry_ xid_ periodNs_].
  fold n wsz txBytes. by rewrite Ex.
Qed.

(** The same when the transaction ID does not matter. *)
Lemma sendVectors_by `{!TransportLaws T} bits tms tdi tdo a (Q : io T → Prop) :
  axis_ok a → getSniff (jd a) = false → 1 ≤ bits ≤ 2 ^ 20 → bytes tms → bytes tdi →
  let n := (bits + 7) / 8 in let wsz := wordSize_ a in let txBytes := wsz + 2 * word_ceil wsz n in
  n ≤ zlen tms → n ≤ zlen tdi → txBytes ≤ bufSz_ a →
  (∀ msg, bytes msg → txBytes ≤ zlen msg → packed wsz 0 n tms tdi msg →
    let h := le_val (take 4 msg) in getVrs h = PVER0 → getCmd h = CMD_S → getLen h = Ret bits →
    ∃ s', xfer msg txBytes wsz n (mkIo (jd a) (tp a) (hdBuf_ a) tdo) = (Ret n, s') ∧
      io_jd s' = jd a ∧ take 4 (io_hd s') = take 4 msg ∧ length (io_hd s') = length (hdBuf_ a) ∧
      (bytes (hdBuf_ a) → bytes (io_hd s')) ∧ Q s') →
  ∃ s' a', sendVectors bits tms tdi tdo a = (Ret (io_rx s'), a') ∧ tp a' = io_tp s' ∧ Q s' ∧
    jd a' = jd a ∧ wordSize_ a' = wsz.
Proof.
  intros A Hsn Hb Bt Bd n wsz txBytes Ht Hd Hf Hx.
  destruct (sendVectors_tagged bits tms tdi tdo a Q A Hsn Hb Bt Bd) as (s' & a' & E & Et & HQ & Ej & Ew & _);
    [done..|by intros; apply Hx|by exists s', a'].
Qed.

(** A target with words of four bytes that answers with the header [h]: the
    query succeeds, whatever the transport [xfer] does otherwise. *)
Lemma query_announced `{!TransportLaws T} a got h (Q : T → Prop) : axis_ok a → wordSize_ a = 4 →
  wordSize h = 4 → getErr h = 0 →
  (∀ txb, bytes txb → 4 ≤ zlen txb → le_val (take 4 txb) = mkQuery →
    ∃ s', xfer txb 4 4 0 (mkIo (jd a) (tp a) (hdBuf_ a) []) = (Ret got, s') ∧ io_jd s' = jd a ∧
      bytes (io_hd s') ∧ 4 ≤ zlen (io_hd s') ∧ le_val (take 4 (io_hd s')) = h ∧ Q (io_tp s')) →
  ∃ a', query a = (Ret (4 * memDepth h), a') ∧ wordSize_ a' = 4 ∧ memDepth_ a' = memDepth h ∧
    retry_ a' = (if 0 =? memDepth h then 0 else 5) ∧ periodNs_ a' = cvtPerNs h ∧ xid_ a' = xid_ a ∧
    bufSz_ a' = Z.max (bufSz_ a) (4 * (2 * memDepth h + 1)) ∧ jd a' = jd a ∧ Q (tp a').
Proof.
  intros A Hw Hwh He0 Hxf. pose proof (ok_bufSz _ A) as Hbz. destruct (ok_txBuf _ A) as [_ Htl].
  destruct (query_by a A) as (b & A1 & _ & Hh & B & L & Eq). rewrite Hw in *.
  pose proof (header_at_val 4 mkQuery b ltac:(done) Hh) as Hm.
  destruct (Hxf b B ltac:(lia) Hm) as (s' & Ex & Ej & Bh & Lh & H3 & HQ).
  set (a1 := mkAxis (io_jd s') 4 (memDepth_ a) b (io_hd s') (bufSz_ a) (retry_ a) (xid_ a) (periodNs_ a) (io_tp s')).
  assert (Hx : call_xfer 4 0 (set_txBuf b a, []) = (Ret got, (a1, io_rx s'))).
  { unfold call_xfer, zoom. cbn [fst snd]. unfold getWordSize.
    cbn [txBuf_ set_txBuf jd tp hdBuf_ wordSize_ memDepth_ bufSz_ retry_ xid_ periodNs_].
    rewrite Hw, Ex. done. }
  pose proof (memDepth_bounds h) as Hmd.
  rewrite (xferRel_first 4 0 got _ (a1, io_rx s') h) in Eq;
    [|done|cbn [fst txBuf_ set_txBuf]; lia|apply (ok_retry _ A)|done..|cbn [fst txBuf_ set_txBuf]; rewrite Hm; by left].
  cbn [fst snd] in Eq. unfold query_result, after_query in Eq. rewrite Hwh in Eq. change (4 <? 4) with false in Eq. cbv iota in Eq.
  rewrite !wrap32_small in Eq by (unfold is_u32; lia). rewrite (Z.mul_comm _ 4) in Eq.
  eexists. split; [exact Eq|]. cbn. split_and!; try done.
  destruct (Z.ltb_spec (bufSz_ a) ((2 * memDepth h + 1) * 4)); lia.
Qed.

(** A target without memory that says nothing about its period: the query
    succeeds, whatever the transport [xfer] does otherwise. *)
Lemma query_default `{!TransportLaws T} a got (Q : T → Prop) : axis_ok a → wordSize_ a = 4 →
  (∀ txb, bytes txb → 4 ≤ zlen txb → le_val (take 4 txb) = mkQuery →
    ∃ s', xfer txb 4 4 0 (mkIo (jd a) (tp a) (hdBuf_ a) []) = (Ret got, s') ∧ io_jd s' = jd a ∧
      bytes (io_hd s') ∧ 4 ≤ zlen (io_hd s') ∧ le_val (take 4 (io_hd s')) = 3 ∧ Q (io_tp s')) →
  ∃ a', query a = (Ret 0, a') ∧ wordSize_ a' = 4 ∧ memDepth_ a' = 0 ∧ retry_ a' = 0 ∧
    periodNs_ a' = UNKNOWN_PERIOD ∧ bufSz_ a' = bufSz_ a ∧ jd a' = jd a ∧ Q (tp a').
Proof.
  intros A Hw Hxf. pose proof (ok_bufSz _ A) as Hbz.
  destruct (query_announced a got 3 Q A Hw) as (a' & E & Ew & Ed & Er & Ep & _ & Eb & Ej & HQ); [done..|].
  change (memDepth 3) with 0 in *. exists a'. split_and!; try done. lia.
Qed.
End exchange.

(** *** A target that never answers *)

Module Silent.
#[local] Existing Instance some_platform.
#[local] Instance silent : Transport unit := {
  xfer _ _ _ _ := throw TimeoutErr;
  getMaxVectorSize _ _ := 0;
}.
Definition target : @Rel unit := (JtagDriverAxisToJtag_new 0 3 tt, []).

Lemma xferRel_timeout_witness :
  xferRel 4 0 target =
    (Throw TimeoutErr, Nat.iter 6 (λ s, snd (call_xfer 4 0 s)) target).
Proof.
  apply (xferRel_timeout 4 0 target).
  - apply fresh_bytes.
  - vm_compute. congruence.
  - intros k Hk. vm_compute in Hk. do 6 (destruct k as [|k]; [reflexivity|]). lia.
Defined.
End Silent.
