(* ===== verification/LoopBack.v ===== *)
(** * The loop-back driver (class [JtagDriverLoopBack], xvcDrvLoopBack.cc)

    A transport that answers the messages itself.  It loops TDI back to
    TDO, or checks TMS and TDI against a recorded file and plays back the
    TDO words of the file.  The file shows that the driver satisfies the
    interface [TransportLaws] and that, without a file and driven by
    [sendVectors], it returns the TDI vector; the playback is in Player.v. *)

From stdpp Require Import base numbers option list strings pretty.
From Stdlib Require Import ZArith Lia.
From S2P Require Import Prelude Header Tap Driver.
#[local] Open Scope Z_scope.

(** ** Text *)

Definition isspace (c : Z) : bool := ((9 <=? c) && (c <=? 13)) || (c =? 32).

Fixpoint skip_ws (l : list Z) : list Z :=
  match l with
  | c :: l' => if isspace c then skip_ws l' else l
  | [] => []
  end.

(** The value of a digit, in any base. *)
Definition digit (c : Z) : Z :=
  if (48 <=? c) && (c <=? 57) then c - 48
  else if (97 <=? c) && (c <=? 122) then c - 87
  else if (65 <=? c) && (c <=? 90) then c - 55
  else 255.

Fixpoint digits (base acc : Z) (l : list Z) : Z :=
  match l with
  | c :: l' => if digit c <? base then digits base (acc * base + digit c) l' else acc
  | [] => acc
  end.

(** At least one digit is needed. *)
Definition digits1 (base : Z) (l : list Z) : option Z :=
  match l with
  | c :: _ => if digit c <? base then Some (digits base 0 l) else None
  | [] => None
  end.

(** The number a [%li] conversion reads: an optional sign, the prefixes of
    C for the base, the value clamped to [long]. *)
Definition scan_unsigned (l : list Z) : option Z :=
  match l with
  | 48 :: 120 :: l' | 48 :: 88 :: l' => digits1 16 l'
  | 48 :: _ => digits1 8 l
  | _ => digits1 10 l
  end.

Definition scan_li (l : list Z) : option Z :=
  match skip_ws l with
  | 45 :: l' => v ← scan_unsigned l'; Some (Z.max (- 2 ^ 63) (- v))
  | 43 :: l' => v ← scan_unsigned l'; Some (Z.min (2 ^ 63 - 1) v)
  | l' => v ← scan_unsigned l'; Some (Z.min (2 ^ 63 - 1) v)
  end.

(** [sscanf( inp, fmt, &cmp )] for a format that has [%li] as its only
    conversion; [None] when the return value is not 1. *)
Fixpoint sscanf (inp fmt : list Z) : option Z :=
  match fmt with
  | [] => None
  | c :: fmt' =>
      if isspace c then sscanf (skip_ws inp) fmt'
      else if c =? 37 then scan_li inp
      else match inp with
           | i :: inp' => if i =? c then sscanf inp' fmt' else None
           | [] => None
           end
  end.

(** [fgets( buf, n + 1, f )]: the characters up to and including a
    newline, at most [n]; and the rest. *)
Fixpoint fgets (n : nat) (l : list Z) : list Z * list Z :=
  match n, l with
  | S n, c :: l' =>
      if c =? 10 then ([c], l') else let (a, b) := fgets n l' in (c :: a, b)
  | _, _ => ([], l)
  end.

(** The string in a character buffer ends with the first NUL. *)
Fixpoint c_str (l : list Z) : list Z :=
  match l with
  | c :: l' => if c =? 0 then [] else c :: c_str l'
  | [] => []
  end.

Fixpoint hex_digits (fuel : nat) (v : Z) (acc : string) : string :=
  match fuel with
  | O => acc
  | S fuel =>
      let d := v `mod` 16 in
      let c := Ascii.ascii_of_N (Z.to_N (if d <? 10 then 48 + d else 87 + d)) in
      if v / 16 =? 0 then String.String c acc else hex_digits fuel (v / 16) (String.String c acc)
  end.
(** [%lx] *)
Definition hex (v : Z) : string := hex_digits 16 v String.EmptyString.

(** ** The driver *)

(** [f_] is null, an open stream (its content and what is left to read),
    or, when no file name was given, whatever the memory held. *)
Inductive FILE_ptr :=
  | FNull
  | FOpen (content rest : list Z)
  | FWild.

Record JtagDriverLoopBack := mkLoopBack {
  f_ : FILE_ptr;
  skip_ : bool;
  tdoOnly_ : bool;
  line_ : Z;
}.

Definition set_f (f : FILE_ptr) (d : JtagDriverLoopBack) : JtagDriverLoopBack :=
  mkLoopBack f (skip_ d) (tdoOnly_ d) (line_ d).
Definition set_skip (b : bool) (d : JtagDriverLoopBack) : JtagDriverLoopBack :=
  mkLoopBack (f_ d) b (tdoOnly_ d) (line_ d).
Definition set_line (n : Z) (d : JtagDriverLoopBack) : JtagDriverLoopBack :=
  mkLoopBack (f_ d) (skip_ d) (tdoOnly_ d) n.

(** [strstr( s, pat ) != 0] *)
Fixpoint strstr (s pat : list Z) : bool :=
  bool_decide (take (length pat) s = pat) ||
  match s with [] => false | _ :: s' => strstr s' pat end.

(** [fnam] is the argument (empty stands for a null pointer too), [file]
    what [fopen] finds under this name, [f0] the indeterminate content of
    [f_]. *)
Definition JtagDriverLoopBack_new (fnam : string) (file : option (list Z)) (f0 : FILE_ptr) :
    outcome JtagDriverLoopBack :=
  match text fnam with
  | [] => Ret (mkLoopBack f0 true false 1)
  | _ =>
      match file with
      | None => Throw (SysErr fnam)
      | Some content => Ret (mkLoopBack (FOpen content content) false
          (strstr (text fnam) (text "TdoOnly")) 1)
      end
  end.

Abbreviation LB := (M JtagDriverLoopBack).

(** The line that was read, or [None]. *)
Definition rdl (bufsz : Z) : LB (option (list Z)) := λ d,
  if skip_ d then (Ret None, d)
  else
    match f_ d with
    | FOpen content [] => (Ret None, set_skip true d)
    | FOpen content rest =>
        let (l, rest') := fgets (Z.to_nat (bufsz - 1)) rest in
        (Ret (Some l), set_f (FOpen content rest') d)
    | FNull | FWild => (Fault OutOfBounds, d)
    end.

Definition check (val : Z) (fmt : string) (rdOnly : bool) : LB Z :=
  cbuf ← rdl 512;
  match cbuf with
  | None => mret 0
  | Some cbuf =>
      line ← gets line_;
      match sscanf (c_str cbuf) (text fmt) with
      | None => throw (RuntimeErr ("Unable to scan (format " +:+ fmt +:+ "; line " +:+ pretty line +:+ ")"))
      | Some v =>
          let cmp := wrap64 v in
          if negb rdOnly && negb (cmp =? val) then
            throw (RuntimeErr ("value mismatch -- got 0x" +:+ hex val +:+ "; expected 0x" +:+ hex cmp +:+
              " (@line " +:+ pretty line +:+ ")"))
          else
            modify (set_line (wrap64 (line + 1))) ;; mret cmp
      end
  end.

Definition checkTDI (val : Z) : LB unit :=
  o ← gets tdoOnly_; if negb o then check val "TDI : %li" false ;; mret tt else mret tt.
Definition checkTMS (val : Z) : LB unit :=
  o ← gets tdoOnly_; if negb o then check val "TMS : %li" false ;; mret tt else mret tt.
Definition checkLEN (val : Z) : LB unit :=
  o ← gets tdoOnly_; if negb o then check val "LENBITS: %li" false ;; mret tt else mret tt.
Definition getTDO : LB Z := check 0 "TDO : %li" true.

(** [getValLE( &buf[off], wsz )] *)
Definition getValLE (off wsz : Z) (buf : list Z) : outcome Z :=
  bs ← rd off wsz buf;
  Ret (foldr (λ b rval, Z.lor (wrap64 (Z.shiftl rval 8)) b) 0 bs).

(** [setValLE( val, &buf[off], wsz )] *)
Definition setValLE (val off wsz : Z) (buf : list Z) : outcome (list Z) :=
  wr off (le_bytes (Z.to_nat wsz) val) buf.

Definition emulWordSize : Z := 4.
Definition emulMemDepth : Z := 0.

(** *** [xfer] *)

Abbreviation XF := (M (io JtagDriverLoopBack)).

Definition lb {A} (m : LB A) : XF A :=
  zoom io_tp (λ d s, mkIo (io_jd s) d (io_hd s) (io_rx s)) m.
Definition set_rx (rx : list Z) (s : io JtagDriverLoopBack) : io JtagDriverLoopBack :=
  mkIo (io_jd s) (io_tp s) (io_hd s) rx.
Definition set_hd (hd : list Z) (s : io JtagDriverLoopBack) : io JtagDriverLoopBack :=
  mkIo (io_jd s) (io_tp s) hd (io_rx s).

(** Check [n] bytes of TMS and TDI at [i] and loop TDI back to [j] when
    there is no file to play. *)
Definition loop_word (txb : list Z) (wsz i j n : Z) : XF unit :=
  tms ← lift (getValLE (wsz + i) n txb);
  lb (checkTMS tms) ;;
  tdi ← lift (getValLE (wsz + wsz + i) n txb);
  lb (checkTDI tdi) ;;
  s ← gets id;
  if skip_ (io_tp s) then
    rx ← lift (memcpy j txb (wsz + wsz + i) n (io_rx s));
    modify (set_rx rx)
  else mret tt.

(** [for ( j = i = 0; i < 2*wbytes; i += 2*wsz, j += wsz )]; the result is
    the final [i] and [j]. *)
Fixpoint loop_words (fuel : nat) (txb : list Z) (wsz wbytes i j : Z) : XF (Z * Z) :=
  if i <? 2 * wbytes then
    match fuel with
    | O => no_fuel
    | S fuel => loop_word txb wsz i j wsz ;; loop_words fuel txb wsz wbytes (i + 2 * wsz) (j + wsz)
    end
  else mret (i, j).

(** [for ( i = 0; i < bytes; i+=wsz )]: play the TDO words back. *)
Fixpoint play_words (fuel : nat) (wsz bytes i : Z) : XF unit :=
  if i <? bytes then
    match fuel with
    | O => no_fuel
    | S fuel =>
        let l := bytes - i in
        let l := if 4 <? l then 4 else l in
        v ← lb getTDO;
        s ← gets id;
        rx ← lift (setValLE v i l (io_rx s));
        modify (set_rx rx) ;;
        play_words fuel wsz bytes (i + wsz)
    end
  else mret tt.

Section xfer.
Context `{Platform}.

(** [memcpy(hdbuf, &h, 4)] *)
Definition put_header (h : Z) : XF unit :=
  s ← gets id;
  hd ← lift (memcpy 0 (store32 h) 0 4 (io_hd s));
  modify (set_hd hd).

(** The version of [emulMemDepth()] of the subclass is [dpt]. *)
Definition loopback_xfer (dpt : Z) (txb : list Z) (txBytes hsize size : Z) : XF Z :=
  let wsz := emulWordSize in
  if txBytes <? 4 then mret 0
  else
    hb ← lift (rd 0 4 txb);
    let h := le_val hb in
    if negb (getVrs h =? PVER0) then
      put_header (Z.lor (Z.land h (Z.lxor (2 ^ 32 - 1) (Z.lor CMD_MASK LEN_MASK))) (Z.lor CMD_E 2)) ;;
      mret 0
    else if getCmd h =? CMD_Q then
      d ← gets io_tp;
      (match f_ d with
       | FNull => mret tt
       | FOpen content _ => lb (modify (set_f (FOpen content content)) ;; modify (set_skip false))
       | FWild => undefined OutOfBounds
       end) ;;
      put_header (Z.lor h (Z.lor (wrap32 (Z.shiftl (Z.land dpt 0xfffff) 4)) (wsz - 1))) ;;
      mret 0
    else if getCmd h =? CMD_S then
      bits ← lift (getLen h);
      lb (checkLEN bits) ;;
      let bytes := (bits + 7) / 8 in
      let wbytes := bytes / wsz * wsz in
      if txBytes <? wsz + 2 * bytes then throw (RuntimeErr "Not enough TX bytes??")
      else
        ij ← loop_words (Z.to_nat wbytes) txb wsz wbytes 0 0;
        (if negb (bytes - wbytes =? 0)
         then loop_word txb wsz (fst ij) (snd ij) (bytes - wbytes)
         else mret tt) ;;
        skip ← gets (λ s, skip_ (io_tp s));
        (if negb skip then play_words (Z.to_nat bytes) wsz bytes 0 else mret tt) ;;
        put_header h ;;
        mret bytes
    else
      put_header (Z.lor (Z.land h (Z.lxor (2 ^ 32 - 1) (Z.lor CMD_MASK LEN_MASK))) (Z.lor CMD_E 1)) ;;
      mret 0.

#[export] Instance loopback_transport : Transport JtagDriverLoopBack := {
  xfer := loopback_xfer emulMemDepth;
  getMaxVectorSize _ _ := 0;
}.
End xfer.

(** ** Safety *)

(** No file was given and the memory of [f_] was zero, or the file is open. *)
Definition lb_ok (d : JtagDriverLoopBack) : Prop :=
  match f_ d with FNull => skip_ d = true | FOpen _ _ => True | FWild => False end.

Lemma rdl_ok n : keeps lb_ok (rdl n).
Proof.
  intros [f sk to li] Hd. unfold lb_ok, rdl in *. cbn [skip_ f_] in *.
  destruct sk; [done|]. destruct f as [|c [|x r]|]; try done.
  by destruct (fgets _ _).
Qed.

Lemma check_ok v fmt ro : keeps lb_ok (check v fmt ro).
Proof.
  apply keeps_bind; [apply rdl_ok|]. intros [l|]; [|apply keeps_ret].
  apply keeps_gets'. intros line. case_match; [|apply keeps_throw]. cbv zeta.
  case_match; [apply keeps_throw|].
  apply keeps_bind; [by apply keeps_modify|intros; apply keeps_ret].
Qed.

Lemma check_unless_ok v fmt :
  keeps lb_ok (o ← gets tdoOnly_; if negb o then check v fmt false ;; mret tt else mret tt).
Proof.
  apply keeps_gets'. intros []; [apply keeps_ret|].
  apply keeps_bind; [apply check_ok|intros; apply keeps_ret].
Qed.

(** What a call of [xfer] keeps: [rx0] is the receive buffer it started
    with, of which [size] bytes may change; the header buffer has [hl]. *)
Definition io_ok (hl size : Z) (rx0 : list Z) (dbg : Z) (s : io JtagDriverLoopBack) : Prop :=
  lb_ok (io_tp s) ∧ (zlen (io_hd s) = hl ∧ bytes (io_hd s)) ∧ bytes (io_rx s) ∧
  rx_frame size rx0 (io_rx s) ∧ debug_ (io_jd s) = dbg.

Section safety.
Context (hl size : Z) (rx0 : list Z) (dbg : Z).
Context (Hhl : 4 ≤ hl) (Hsize : 0 ≤ size ≤ zlen rx0).
Abbreviation I := (io_ok hl size rx0 dbg).

Lemma lb_keeps {A} (m : LB A) : keeps lb_ok m → keeps I (lb m).
Proof.
  intros Hm s (H1 & H2). specialize (Hm _ H1). unfold lb, zoom.
  by destruct (m (io_tp s)) as [[a|e|u|] d].
Qed.

(** Storing bytes at the front of the receive buffer. *)
Lemma set_rx_ok s rx off n : I s → 0 ≤ off → off + n ≤ size → bytes rx →
  length rx = length (io_rx s) →
  (∀ i, off + n ≤ i → ix rx i = ix (io_rx s) i) → I (set_rx rx s).
Proof.
  intros (H1 & H2 & H3 & [L F] & H5) Ho Hn Hb Hl Hi.
  split; [done|]. split; [done|]. split; [done|]. split; [|done].
  split; [cbn; lia|]. intros i Hge. cbn. rewrite Hi by lia. by apply F.
Qed.

Lemma getValLE_ok off n buf : 0 ≤ off → 0 ≤ n → off + n ≤ zlen buf →
  ∃ v, getValLE off n buf = Ret v.
Proof.
  intros. unfold getValLE. destruct (rd_ix off n buf) as (l & -> & _); [done..|].
  by eexists.
Qed.

Lemma loop_word_ok txb wsz i j n : bytes txb → 0 < wsz → 0 ≤ i → 0 ≤ j → 0 ≤ n →
  wsz + wsz + i + n ≤ zlen txb → j + n ≤ size → keeps I (loop_word txb wsz i j n).
Proof.
  intros Hb Hw Hi Hj Hn Ht Hs. unfold loop_word.
  destruct (getValLE_ok (wsz + i) n txb) as [v1 ->]; [lia..|].
  destruct (getValLE_ok (wsz + wsz + i) n txb) as [v2 ->]; [lia..|].
  apply keeps_lift, keeps_bind; [apply lb_keeps, check_unless_ok|]. intros _.
  apply keeps_lift, keeps_bind; [apply lb_keeps, check_unless_ok|]. intros _.
  apply keeps_gets. intros s Hsi ? ->. cbn [id]. destruct (skip_ _); [|done].
  pose proof Hsi as (_ & _ & Hrb & [Hl _] & _).
  destruct (memcpy_ix j txb (wsz + wsz + i) n (io_rx s)) as (rx & -> & L & Ix & B); [lia..|].
  unfold mbind, M_bind, lift, modify.
  eapply set_rx_ok; [done|exact Hj|exact Hs|by auto|done|].
  intros k Hk. rewrite Ix. by zbool.
Qed.

Lemma loop_words_ok txb wsz : ∀ m k fuel, bytes txb → 0 < wsz → 0 ≤ k → (m ≤ fuel)%nat →
  wsz + 2 * (wsz * (k + Z.of_nat m)) ≤ zlen txb → wsz * (k + Z.of_nat m) ≤ size →
  triple I (loop_words fuel txb wsz (wsz * (k + Z.of_nat m)) (2 * (wsz * k)) (wsz * k))
    (λ r s, I s ∧ r = (2 * (wsz * (k + Z.of_nat m)), wsz * (k + Z.of_nat m))) (λ _, I).
Proof.
  induction m as [|m IH]; intros k fuel Hb Hw Hk Hf Ht Hs.
  - rewrite Z.add_0_r. intros s HI. destruct fuel; cbn [loop_words]; by rewrite Z.ltb_irrefl.
  - destruct fuel as [|fuel]; [lia|]. cbn [loop_words]. rewrite (proj2 (Z.ltb_lt _ _)) by nia.
    eapply triple_bind; [apply loop_word_ok; [done|nia..]|]. intros ?. cbv beta.
    replace (2 * (wsz * k) + 2 * wsz) with (2 * (wsz * (k + 1))) by lia.
    replace (wsz * k + wsz) with (wsz * (k + 1)) by lia.
    replace (k + Z.of_nat (S m)) with (k + 1 + Z.of_nat m) in * by lia. apply IH; lia || done.
Qed.

Lemma play_words_ok wsz n : ∀ fuel i, 0 < wsz → 0 ≤ i → n - i ≤ Z.of_nat fuel → n ≤ size →
  keeps I (play_words fuel wsz n i).
Proof.
  induction fuel as [|fuel IH]; intros i Hw Hi Hf Hn; cbn [play_words];
    (destruct (Z.ltb_spec i n); [|apply keeps_ret]); [lia|].
  apply keeps_bind; [apply lb_keeps, check_ok|]. intros v.
  apply keeps_gets. intros s Hs ? ->. cbn [id]. set (l := if 4 <? n - i then 4 else n - i).
  assert (0 < l ≤ n - i) by (subst l; destruct (Z.ltb_spec 4 (n - i)); lia).
  pose proof Hs as (_ & _ & Hrb & [Hl _] & _). unfold setValLE.
  destruct (wr_ix i (le_bytes (Z.to_nat l) v) (io_rx s)) as (rx & -> & L & Ix & B); [lia|len|].
  unfold mbind at 1, M_bind at 1, lift. unfold mbind, M_bind, modify.
  apply IH; [lia..|]. rewrite le_bytes_length in Ix.
  eapply (set_rx_ok _ _ i l); [done|lia|lia|apply B; [apply le_bytes_bytes|done]|done|].
  intros k Hk. rewrite Ix. by zbool.
Qed.

Context `{Platform}.

Lemma put_header_ok h : keeps I (put_header h).
Proof.
  apply keeps_gets. intros s Hs ? ->. cbn [id].
  pose proof Hs as (H1 & [Hl Hb] & H3).
  destruct (memcpy_ix 0 (store32 h) 0 4 (io_hd s)) as (hd & -> & L & _ & B);
    [lia..|rewrite store32_length; lia|lia|].
  unfold mbind, M_bind, lift, modify. split; [done|]. split; [|done]. cbn. split; [lia|].
  apply B; [|done]. unfold store32.
  destruct isLE; [apply le_bytes_bytes|apply List.Forall_rev, le_bytes_bytes].
Qed.

(** A shift of [n] bytes, in a message padded to words of four bytes. *)
Lemma shift_loop_ok txb n : bytes txb → 0 ≤ n ≤ size → 4 + 2 * word_ceil 4 n ≤ zlen txb →
  let wbytes := n / 4 * 4 in
  keeps I (ij ← loop_words (Z.to_nat wbytes) txb 4 wbytes 0 0;
           (if negb (n - wbytes =? 0) then loop_word txb 4 (fst ij) (snd ij) (n - wbytes)
            else mret tt)).
Proof.
  intros Hb Hn Ht wbytes. pose proof (Z.div_mod n 4 ltac:(lia)).
  pose proof (Z.mod_pos_bound n 4 ltac:(lia)). rewrite word_ceil_split in Ht by lia.
  pose proof (Z.div_pos n 4 ltac:(lia) ltac:(lia)). subst wbytes. rewrite (Z.mul_comm (n / 4)).
  pose proof (loop_words_ok txb 4 (Z.to_nat (n / 4)) 0 (Z.to_nat (4 * (n / 4))) Hb) as Hl.
  rewrite Z.add_0_l, Z2Nat.id, !Z.mul_0_r in Hl by done.
  eapply triple_bind; [apply Hl; [lia..| |lia]; destruct (_ =? 0); lia|].
  intros r s [HI ->]. cbn [fst snd]. replace (n - 4 * (n / 4)) with (n `mod` 4) by lia.
  destruct (Z.eqb_spec (n `mod` 4) 0); [done|]. revert s HI. apply loop_word_ok; [done|lia..].
Qed.

(** [xfer] of a well-formed message. *)
Lemma loopback_xfer_ok dpt txb txBytes hsize :
  message_ok 4 txBytes size txb → keeps I (loopback_xfer dpt txb txBytes hsize size).
Proof.
  intros (Ht & Hb & Hc). unfold loopback_xfer, emulWordSize.
  rewrite (proj2 (Z.ltb_ge _ _)), rd_ok by lia.
  change (Z.to_nat 4) with 4%nat. rewrite drop_0. apply keeps_lift.
  set (h := le_val (take 4 txb)) in *.
  destruct (Z.eqb_spec (getVrs h) PVER0) as [Hv|Hv]; cbn [negb]; cycle 1.
  { apply keeps_bind; [apply put_header_ok|intros; apply keeps_ret]. }
  destruct Hc as [[-> _]|[[Hz _]|(_ & -> & bits & -> & Hsz & Htx)]]; [|by rewrite Hz in Hv|].
  - change (getCmd mkQuery =? CMD_Q) with true. cbv iota. apply keeps_gets. intros s Hs.
    assert (Hk : keeps I (match f_ (io_tp s) with
      | FNull => mret tt
      | FOpen content _ => lb (modify (set_f (FOpen content content)) ;; modify (set_skip false))
      | FWild => undefined OutOfBounds end)).
    { destruct Hs as (Hl & _). unfold lb_ok in Hl. destruct (f_ _); [apply keeps_ret| |done].
      intros s' Hs'. destruct Hs' as (Hl' & ?). done. }
    intros ? ->. revert s Hs Hk. intros s Hs Hk.
    refine (keeps_bind I _ _ Hk _ s Hs). intros _.
    apply keeps_bind; [apply put_header_ok|intros; apply keeps_ret].
  - change (CMD_S =? CMD_Q) with false. change (CMD_S =? CMD_S) with true. cbv iota zeta.
    apply keeps_lift, keeps_bind; [apply lb_keeps, check_unless_ok|]. intros _.
    rewrite <-Hsz. fold (word_ceil 4 size) in Htx.
    destruct (Z.ltb_spec txBytes (4 + 2 * size)); [apply keeps_throw|].
    apply (keeps_assoc I _ (λ ij, if negb (size - size / 4 * 4 =? 0)
      then loop_word txb 4 (fst ij) (snd ij) (size - size / 4 * 4) else mret tt)).
    apply keeps_bind; [apply shift_loop_ok; [done|lia..]|]. intros _.
    apply keeps_gets'. intros skip. apply keeps_bind; [|intros _].
    + destruct skip; [apply keeps_ret|]. apply play_words_ok; lia.
    + apply keeps_bind; [apply put_header_ok|intros; apply keeps_ret].
Qed.
End safety.

(** The header of the reply to a query. *)
Lemma loopback_query_word `{Platform} dpt txb txBytes hsize size s :
  4 ≤ txBytes ≤ zlen txb → le_val (take 4 txb) = mkQuery → 4 ≤ zlen (io_hd s) →
  let (o, s') := loopback_xfer dpt txb txBytes hsize size s in
  match o with
  | Ret _ => take 4 (io_hd s') =
      store32 (Z.lor mkQuery (Z.lor (wrap32 (Z.shiftl (Z.land dpt 0xfffff) 4)) 3))
  | _ => True
  end.
Proof.
  intros Ht Hq Hd. unfold loopback_xfer, emulWordSize.
  rewrite (proj2 (Z.ltb_ge _ _)), rd_ok by lia.
  change (Z.to_nat 4) with 4%nat. rewrite drop_0. unfold mbind at 1, M_bind at 1, lift. cbn zeta.
  rewrite Hq. change (negb (getVrs mkQuery =? PVER0)) with false.
  change (getCmd mkQuery =? CMD_Q) with true. cbv iota.
  unfold mbind at 1, M_bind at 1. cbn [gets]. unfold mbind at 1, M_bind at 1.
  set (h := Z.lor mkQuery _).
  assert (Hh : ∀ s1, io_hd s1 = io_hd s → ∃ s2, put_header h s1 = (Ret tt, s2) ∧
    take 4 (io_hd s2) = store32 h).
  { intros s1 E. unfold put_header, mbind, M_bind, gets, lift, modify. cbn [id].
    destruct (memcpy_ix 0 (store32 h) 0 4 (io_hd s1)) as (hd & -> & L & Ix & _);
      rewrite ?store32_length, ?E; try lia.
    eexists. split; [done|]. cbn. apply take_ix; [apply store32_length|rewrite E in L; lia|].
    intros i Hi. rewrite Ix. zbool. f_equal. lia. }
  destruct (f_ (io_tp s)); cbn -[put_header]; [|..|done].
  all: unfold mbind, M_bind; cbn -[put_header]; edestruct Hh as (s2 & -> & E2); [|exact E2]; done.
Qed.

(** The loop-back driver as a transport: it works with words of four
    bytes.  (On a big-endian host it announces words of one byte, which
    [query] refuses.) *)
#[export] Program Instance loopback_laws `{Platform} : TransportLaws JtagDriverLoopBack := {
  tp_ok := lb_ok;
  word_ok w := w = 4;
}.
Next Obligation. done. Qed.
Next Obligation.
  intros ? txb txBytes hsize size s _ -> Hm (Hh & Hhb & Hs & Hr) Hd.
  pose proof Hm as ([Ht1 Ht2] & _).
  pose proof (loopback_xfer_ok 16 size (io_rx s) (debug_ (io_jd s)) ltac:(lia) Hs emulMemDepth txb txBytes 4 Hm s) as Hk.
  pose proof (loopback_query_word emulMemDepth txb txBytes 4 size s) as Hq.
  unfold xfer, loopback_transport.
  destruct (loopback_xfer _ _ _ _ _ _) as [o s'].
  assert (Hio : io_ok 16 size (io_rx s) (debug_ (io_jd s)) s).
  { by split_and!. }
  specialize (Hk Hio).
  assert (HI : io_ok 16 size (io_rx s) (debug_ (io_jd s)) s') by by destruct o.
  destruct HI as (H1 & (H2 & H3) & H4 & H5 & H6). pose proof H5 as [H5' _].
  split; [|by rewrite <-H5' in Hs; split_and!].
  destruct o; try done.
  intros E. rewrite Hq by (done || lia). unfold store32. destruct isLE; [by right|by left].
Qed.
Next Obligation. done. Qed.

(** ** TDI is looped back *)

Lemma check_skip v fmt ro d : skip_ d = true → check v fmt ro d = (Ret 0, d).
Proof. intros Hs. unfold check, mbind, M_bind, rdl. by rewrite Hs. Qed.

Lemma check_unless_skip v fmt d : skip_ d = true →
  (o ← gets tdoOnly_; if negb o then check v fmt false ;; mret tt else mret tt : LB unit) d = (Ret tt, d).
Proof.
  intros Hs. unfold mbind, M_bind, gets. destruct (tdoOnly_ d); cbn -[check]; [done|].
  by rewrite check_skip.
Qed.

Section loops.
Context `{Platform} (txb : list Z) (s0 : io JtagDriverLoopBack).
Context (Htx : bytes txb) (Hskip : skip_ (io_tp s0) = true).

(** The first [j] bytes of the receive buffer are those of TDI in the
    message, nothing else changed. *)
Definition looped (j : Z) (s : io JtagDriverLoopBack) : Prop :=
  s = set_rx (io_rx s) s0 ∧ length (io_rx s) = length (io_rx s0) ∧
  (∀ i, ix (io_rx s) i = if (0 <=? i) && (i <? j) then ix txb (pos 4 i + 4) else ix (io_rx s0) i) ∧
  (bytes (io_rx s0) → bytes (io_rx s)).

Abbreviation never := (λ (_ : exn) (_ : io JtagDriverLoopBack), False).

Lemma lb_skip {A} (m : LB A) a s j : looped j s → (∀ d, skip_ d = true → m d = (Ret a, d)) →
  lb m s = (Ret a, s).
Proof.
  intros [Hs _] Hm. unfold lb, zoom. rewrite Hm by by rewrite Hs. by destruct s.
Qed.

Lemma loop_word_looped k n : 0 ≤ k → 0 ≤ n ≤ 4 → 8 + 8 * k + n ≤ zlen txb →
  4 * k + n ≤ zlen (io_rx s0) →
  triple (looped (4 * k)) (loop_word txb 4 (8 * k) (4 * k) n) (λ _, looped (4 * k + n)) never.
Proof.
  intros Hk Hn Ht Hr s Hs. unfold loop_word.
  destruct (getValLE_ok (4 + 8 * k) n txb) as [v1 ->]; [lia..|].
  destruct (getValLE_ok (4 + 4 + 8 * k) n txb) as [v2 ->]; [lia..|].
  unfold mbind, M_bind, lift, gets.
  rewrite (lb_skip (checkTMS v1) tt s (4 * k) Hs (λ d, check_unless_skip v1 _ d)).
  rewrite (lb_skip (checkTDI v2) tt s (4 * k) Hs (λ d, check_unless_skip v2 _ d)).
  destruct Hs as (Es & L & Ix & B). cbn [id].
  assert (skip_ (io_tp s) = true) as -> by (by rewrite Es).
  destruct (memcpy_ix (4 * k) txb (4 + 4 + 8 * k) n (io_rx s)) as (rx & -> & L' & Ix' & B'); [lia..|].
  split_and!; [by rewrite Es|cbn; lia| |by auto].
  cbn. intros i. rewrite Ix', Ix.
  destruct (Z.leb_spec (4 * k) i); destruct (Z.ltb_spec i (4 * k + n)); cbn [andb].
  - zbool. rewrite (pos_word 4 k) by lia. f_equal. lia.
  - by zbool.
  - destruct (Z.leb_spec 0 i); [|done]. by zbool.
  - lia.
Qed.

Lemma loop_words_looped : ∀ m k fuel, 0 ≤ k → (m ≤ fuel)%nat →
  4 + 8 * (k + Z.of_nat m) ≤ zlen txb → 4 * (k + Z.of_nat m) ≤ zlen (io_rx s0) →
  triple (looped (4 * k)) (loop_words fuel txb 4 (4 * (k + Z.of_nat m)) (8 * k) (4 * k))
    (λ r s, r = (8 * (k + Z.of_nat m), 4 * (k + Z.of_nat m)) ∧ looped (4 * (k + Z.of_nat m)) s) never.
Proof.
  induction m as [|m IH]; intros k fuel Hk Hf Ht Hr.
  - rewrite Z.add_0_r. intros s Hs. destruct fuel; cbn [loop_words]; by zbool.
  - destruct fuel as [|fuel]; [lia|]. cbn [loop_words]. rewrite (proj2 (Z.ltb_lt _ _)) by lia.
    eapply triple_bind; [apply loop_word_looped; lia|]. intros ?. cbv beta.
    replace (8 * k + 2 * 4) with (8 * (k + 1)) by lia.
    replace (4 * k + 4) with (4 * (k + 1)) by lia.
    replace (k + Z.of_nat (S m)) with (k + 1 + Z.of_nat m) in * by lia. apply IH; lia.
Qed.

Lemma shift_looped n : 0 ≤ n ≤ zlen (io_rx s0) → 4 + 2 * word_ceil 4 n ≤ zlen txb →
  let wbytes := n / 4 * 4 in
  triple (looped 0)
    (ij ← loop_words (Z.to_nat wbytes) txb 4 wbytes 0 0;
     (if negb (n - wbytes =? 0) then loop_word txb 4 (fst ij) (snd ij) (n - wbytes) else mret tt))
    (λ _, looped n) never.
Proof.
  intros Hn Ht wbytes. pose proof (Z.div_mod n 4 ltac:(lia)).
  pose proof (Z.mod_pos_bound n 4 ltac:(lia)). rewrite word_ceil_split in Ht by lia.
  pose proof (Z.div_pos n 4 ltac:(lia) ltac:(lia)). subst wbytes. rewrite (Z.mul_comm (n / 4)).
  pose proof (loop_words_looped (Z.to_nat (n / 4)) 0 (Z.to_nat (4 * (n / 4)))) as Hl.
  rewrite Z.add_0_l, Z2Nat.id, !Z.mul_0_r in Hl by done.
  eapply triple_bind; [apply Hl; [lia..| |lia]; destruct (_ =? 0); lia|].
  intros r s [-> HI]. cbn [fst snd]. replace (n - 4 * (n / 4)) with (n `mod` 4) by lia.
  destruct (Z.eqb_spec (n `mod` 4) 0) as [E|E].
  - replace (4 * (n / 4)) with n in HI by lia. done.
  - pose proof (loop_word_looped (n / 4) (n `mod` 4)) as Hw.
    replace (4 * (n / 4) + n `mod` 4) with n in Hw by lia.
    apply Hw; [lia..|done].
Qed.
End loops.

Lemma put_header_run `{Platform} h s : 4 ≤ zlen (io_hd s) →
  ∃ hd, put_header h s = (Ret tt, set_hd hd s) ∧ take 4 hd = store32 h ∧ length hd = length (io_hd s) ∧
    (bytes (io_hd s) → bytes hd).
Proof.
  intros Hl. unfold put_header, mbind, M_bind, gets, lift, modify. cbn [id].
  destruct (memcpy_ix 0 (store32 h) 0 4 (io_hd s)) as (hd & -> & L & Ix & B);
    rewrite ?store32_length; try lia.
  exists hd. split; [done|]. split; [|split; [done|]].
  - apply take_ix; [apply store32_length|lia|]. intros i Hi. rewrite Ix. zbool. f_equal. lia.
  - apply B. unfold store32.
    destruct isLE; [apply le_bytes_bytes|apply List.Forall_rev, le_bytes_bytes].
Qed.

(** *** A shift, once its header has been read *)

(** The words of TMS and TDI, of [n] bytes each, are looked at. *)
Definition look (txb : list Z) (n : Z) : XF unit :=
  let wbytes := n / 4 * 4 in
  ij ← loop_words (Z.to_nat wbytes) txb 4 wbytes 0 0;
  if negb (n - wbytes =? 0) then loop_word txb 4 (fst ij) (snd ij) (n - wbytes) else mret tt.

Lemma xfer_shift `{Platform} dpt txb txBytes hsize size s bits : let h := le_val (take 4 txb) in let n := (bits + 7) / 8 in
  4 + 2 * n ≤ txBytes → 4 ≤ txBytes → 4 ≤ zlen txb → getVrs h = PVER0 → getCmd h = CMD_S → getLen h = Ret bits →
  loopback_xfer dpt txb txBytes hsize size s =
    (lb (checkLEN bits) ;; look txb n ;;
     skip ← gets (λ s, skip_ (io_tp s));
     (if negb skip then play_words (Z.to_nat n) 4 n 0 else mret tt) ;;
     put_header h ;; mret n) s.
Proof.
  intros h n Ht H4 Hl Hv Hc Hg. unfold loopback_xfer, emulWordSize. rewrite (proj2 (Z.ltb_ge txBytes 4)), rd_ok by lia.
  change (Z.to_nat 4) with 4%nat. rewrite drop_0. cbn zeta. fold h. unfold mbind at 1, M_bind at 1, lift at 1.
  fold h. rewrite Hv, Hc, Hg. change (negb (PVER0 =? PVER0)) with false.
  change (CMD_S =? CMD_Q) with false. change (CMD_S =? CMD_S) with true. cbv iota.
  unfold mbind at 1, M_bind at 1, lift at 1. fold n. rewrite (proj2 (Z.ltb_ge txBytes _)) by lia.
  apply M_bind_ext; [done|]. intros _ s1. unfold look. by rewrite M_bind_assoc.
Qed.

Lemma loopback_shift `{Platform} dpt txb txBytes hsize size s bits :
  let h := le_val (take 4 txb) in let n := (bits + 7) / 8 in
  bytes txb → getVrs h = PVER0 → getCmd h = CMD_S → getLen h = Ret bits → 1 ≤ bits →
  4 + 2 * word_ceil 4 n ≤ txBytes ≤ zlen txb → n ≤ zlen (io_rx s) → 4 ≤ zlen (io_hd s) →
  skip_ (io_tp s) = true →
  ∃ s' hd, loopback_xfer dpt txb txBytes hsize size s = (Ret n, set_hd hd s') ∧
    looped txb s n s' ∧ take 4 hd = store32 h ∧ length hd = length (io_hd s) ∧
    (bytes (io_hd s) → bytes hd).
Proof.
  intros h n Hb Hv Hc Hg Hbits Ht Hr Hh Hskip.
  assert (Hn : 0 ≤ n) by (subst n; Z.div_mod_to_equations; lia).
  pose proof (word_ceil_bounds 4 n ltac:(lia)) as Hwc.
  rewrite (xfer_shift dpt txb txBytes hsize size s bits) by (done || lia). fold n h.
  assert (H0' : looped txb s 0 s).
  { split_and!; [by destruct s|done| |done]. intros i. destruct (Z.leb_spec 0 i); [|done]. by zbool. }
  unfold mbind at 1, M_bind at 1.
  rewrite (lb_skip txb s Hskip (checkLEN bits) tt s 0 H0' (λ d, check_unless_skip bits _ d)).
  pose proof (shift_looped txb s Hb Hskip n ltac:(lia) ltac:(lia) s H0') as Hl. cbv zeta in Hl.
  change ((ij ← loop_words (Z.to_nat (n / 4 * 4)) txb 4 (n / 4 * 4) 0 0;
    (if negb (n - n / 4 * 4 =? 0) then loop_word txb 4 (fst ij) (snd ij) (n - n / 4 * 4) else mret tt)) s) with (look txb n s) in Hl.
  destruct (look txb n s) as [[r|?|?|] s'] eqn:El in Hl; try done.
  rewrite (M_bind_ret _ _ _ _ _ El).
  unfold mbind at 1, M_bind at 1. cbn [gets].
  assert (skip_ (io_tp s') = true) as -> by (destruct Hl as [-> _]; done).
  cbn [negb]. unfold mbind at 1, M_bind at 1. cbn [mret M_ret].
  destruct (put_header_run h s') as (hd & E & T4 & L & B).
  { destruct Hl as [-> _]. done. }
  unfold mbind at 1, M_bind at 1. rewrite E. exists s', hd. split_and!; [done..| |].
  - destruct Hl as [Es _]. rewrite L, Es. done.
  - destruct Hl as [Es _]. intros Hbh. apply B. by rewrite Es.
Qed.

Section loopback_driver.
Context `{Platform} (HLE : isLE = true).
Abbreviation Axis := (JtagDriverAxisToJtag JtagDriverLoopBack).

Lemma looped_take txb s n s' tdi msg_tms : 0 ≤ n → n ≤ zlen tdi → n ≤ zlen (io_rx s) →
  looped txb s n s' → packed 4 0 n msg_tms tdi txb →
  take (Z.to_nat n) (io_rx s') = take (Z.to_nat n) tdi ∧ rx_frame n (io_rx s) (io_rx s').
Proof.
  intros Hn Hd Hr (Es & L & Ix & B) Hp. split.
  - apply take_ix; [rewrite length_take; lia|lia|]. intros i Hi.
    rewrite Ix. zbool. destruct (Hp i) as [_ ->]; [lia|].
    unfold ix. zbool. by rewrite lookup_take_lt by lia.
  - split; [done|]. intros i Hi. rewrite Ix. destruct (Z.leb_spec 0 i); [|done]. by zbool.
Qed.

(** The transfer of a shift message to the loop-back driver. *)
Lemma loopback_transfer (a : Axis) bits tms tdi tdo : axis_ok a →
  skip_ (tp a) = true → getSniff (jd a) = false → 1 ≤ bits ≤ 2 ^ 20 →
  let n := (bits + 7) / 8 in
  n ≤ zlen tms → n ≤ zlen tdi → n ≤ zlen tdo → bytes (txBuf_ a) →
  4 + 2 * word_ceil 4 n ≤ bufSz_ a →
  let h := le_val (take 4 (txBuf_ a)) in
  getVrs h = PVER0 → getCmd h = CMD_S → getLen h = Ret bits →
  packed 4 0 n tms tdi (txBuf_ a) →
  ∃ tdo' a', transfer bits tms tdi tdo a = (Ret tdo', a') ∧
    take (Z.to_nat n) tdo' = take (Z.to_nat n) tdi ∧ rx_frame n tdo tdo' ∧
    tp a' = tp a ∧ xid_ a' = xid_ a ∧ periodNs_ a' = periodNs_ a.
Proof.
  intros A Hsk Hsn Hb n Ht Hd Ho Hbt Hf h Hv Hc Hg Hp.
  pose proof (ok_word _ A) as Hw. cbn in Hw. destruct (ok_txBuf _ A) as [_ Htl].
  destruct (ok_hdBuf _ A) as [Hhb Hhl].
  assert (Hn : 1 ≤ n) by (subst n; Z.div_mod_to_equations; lia).
  pose proof (word_ceil_bounds 4 n ltac:(lia)) as Hwc.
  destruct (loopback_shift emulMemDepth (txBuf_ a) (4 + 2 * word_ceil 4 n) 4 n
    (mkIo (jd a) (tp a) (hdBuf_ a) tdo) bits) as (s' & hd & Ex & Hl & T4 & Lh & Bh);
    try done; [lia|fold n; lia|cbn [io_hd]; lia|].
  edestruct (looped_take (txBuf_ a) (mkIo (jd a) (tp a) (hdBuf_ a) tdo) n s' tdi tms)
    as [Htake Hframe]; try done; [lia|].
  pose proof Hl as (Es & _).
  assert (Hx : call_xfer (4 + 2 * word_ceil 4 n) n (a, tdo) = (Ret n,
    (mkAxis (jd a) (wordSize_ a) (memDepth_ a) (txBuf_ a) hd (bufSz_ a) (retry_ a) (xid_ a)
       (periodNs_ a) (tp a), io_rx s'))).
  { unfold call_xfer, zoom. cbn [fst snd xfer loopback_transport].
    change (getWordSize a) with (wordSize_ a). rewrite Hw. fold n in Ex. rewrite Ex.
    rewrite Es. done. }
  assert (Hh4 : take 4 hd = take 4 (txBuf_ a)).
  { rewrite T4. unfold store32. rewrite HLE. replace 4%nat with (length (take 4 (txBuf_ a))) at 1
      by (rewrite length_take; lia). by apply le_bytes_le_val, bytes_take. }
  eexists _, _. split; [eapply transfer_first; rewrite ?Hw; try exact Hx; try done; cbn [hdBuf_ jd]; auto|done].
  - lia.
  - apply (ok_retry _ A).
  - apply getErr_no_error. fold h. by rewrite Hc.
  - rewrite Lh; cbn [io_hd]; lia.
Qed.

Lemma loopback_send (a : Axis) bits tms tdi tdo : axis_ok a →
  skip_ (tp a) = true → getSniff (jd a) = false → 1 ≤ bits ≤ 2 ^ 20 →
  bytes tms → bytes tdi →
  let n := (bits + 7) / 8 in
  n ≤ zlen tms → n ≤ zlen tdi → n ≤ zlen tdo → 4 + 2 * word_ceil 4 n ≤ bufSz_ a →
  ∃ tdo' a', sendVectors bits tms tdi tdo a = (Ret tdo', a') ∧
    take (Z.to_nat n) tdo' = take (Z.to_nat n) tdi ∧ rx_frame n tdo tdo' ∧
    tp a' = tp a ∧ xid_ a' = fst (newXid (xid_ a)) ∧ periodNs_ a' = periodNs_ a.
Proof.
  intros A Hsk Hsn Hb Bt Bd n Ht Hd Ho Hf. pose proof (ok_word _ A) as Hw. cbn in Hw.
  destruct (send_layout bits tms tdi tdo a A Hb Ht Hd) as (msg & E & L & H1 & P & B).
  { by rewrite Hw. }
  rewrite E. rewrite Hw in H1, P.
  pose proof (mkShift_fields (xid_ a) bits (ok_xid _ A) Hb) as Hs. unfold shift_header in H1.
  destruct (mkShift _ _) as [xid h]. cbn [snd] in H1. destruct Hs as (Hu & Hv & Hc & _ & _ & _ & Hg).
  pose proof (header_at_val 4 h msg Hu H1) as Hm.
  assert (A1 : axis_ok (set_txBuf msg (set_xid (shift_xid a) a))).
  { apply set_tx_axis_ok; [done|done|by apply B|].
    pose proof (newXid_range (xid_ a) (ok_xid _ A)). unfold is_byte, shift_xid. lia. }
  destruct (loopback_transfer _ bits tms tdi tdo A1 Hsk Hsn Hb Ht Hd Ho)
    as (tdo' & a' & E' & Htk & Hfr & Htp & Hxid & Hper); cbn [txBuf_ set_txBuf bufSz_];
    rewrite ?Hm; auto.
  exists tdo', a'. by rewrite E'.
Qed.
(** End to end through the message format, the loop-back driver
    returns the TDI vector: for a vector pair of 1 to 2^20 bits that fits
    the transmit buffer, [sendVectors] returns, the TDO buffer starts
    with exactly the bytes of the TDI vector, the rest of the buffer is
    untouched. *)
Theorem loopback_tdo_is_tdi (a : Axis) bits tms tdi tdo : axis_ok a →
  skip_ (tp a) = true → getSniff (jd a) = false → 1 ≤ bits ≤ 2 ^ 20 →
  bytes tms → bytes tdi →
  let n := (bits + 7) / 8 in
  n ≤ zlen tms → n ≤ zlen tdi → n ≤ zlen tdo → 4 + 2 * word_ceil 4 n ≤ bufSz_ a →
  ∃ tdo' a', sendVectors bits tms tdi tdo a = (Ret tdo', a') ∧
    take (Z.to_nat n) tdo' = take (Z.to_nat n) tdi ∧ rx_frame n tdo tdo' ∧
    tp a' = tp a ∧ xid_ a' = fst (newXid (xid_ a)).
Proof.
  intros A Hsk Hsn Hb Bt Bd n Ht Hd Ho Hf.
  destruct (loopback_send a bits tms tdi tdo A Hsk Hsn Hb Bt Bd Ht Hd Ho Hf)
    as (tdo' & a' & ? & ? & ? & ? & ? & _). by exists tdo', a'.
Qed.

(** A query to the driver that has no file. *)
Lemma loopback_query (a : Axis) : axis_ok a → f_ (tp a) = FNull →
  ∃ a', query a = (Ret 0, a') ∧ tp a' = tp a ∧ periodNs_ a' = UNKNOWN_PERIOD.
Proof.
  intros A Hf. pose proof (ok_word _ A) as Hw. cbn in Hw. destruct (ok_hdBuf _ A) as [Hhb Hhl].
  destruct (query_default a 0 (λ t, t = tp a) A Hw) as (a' & E & _ & _ & _ & Ep & _ & _ & Et); [|by exists a'].
  intros txb Hb Hl Hm.
  destruct (put_header_run 3 (mkIo (jd a) (tp a) (hdBuf_ a) [])) as (hd & Ep & T4 & Lh & Bh);
    [cbn [io_hd]; lia|]. cbn [io_hd] in Lh, Bh. exists (mkIo (jd a) (tp a) hd []). split.
  - cbn [xfer loopback_transport]. unfold loopback_xfer, emulWordSize. rewrite Z.ltb_irrefl, rd_ok by lia.
    change (Z.to_nat 4) with 4%nat. rewrite drop_0.
    unfold mbind at 1, M_bind at 1, lift at 1. cbn zeta. rewrite Hm.
    change (negb (getVrs mkQuery =? PVER0)) with false.
    change (getCmd mkQuery =? CMD_Q) with true. cbv iota.
    unfold mbind, M_bind. cbn [gets io_tp]. rewrite Hf. cbn [mret M_ret].
    change (Z.lor mkQuery _) with 3. by rewrite Ep.
  - cbn [io_jd io_hd io_tp]. split_and!; [done|auto|lia| |done]. rewrite T4. unfold store32. by rewrite HLE.
Qed.
End loopback_driver.

(** ** An instance: the driver right after construction *)

Module Fresh.
#[local] Existing Instance le_platform.

Definition drv : JtagDriverAxisToJtag JtagDriverLoopBack :=
  JtagDriverAxisToJtag_new 0 254 (mkLoopBack FNull true false 1).

Lemma fresh_drv_ok : axis_ok drv.
Proof. apply axis_new_ok; [unfold is_byte; lia|done]. Qed.

Definition tms : list Z := [1; 2; 3; 4; 5; 6].
Definition tdi : list Z := [10; 20; 30; 40; 50; 3].

Ltac concrete := first [exact fresh_drv_ok | reflexivity | (vm_compute; congruence)
  | (vm_compute; split; congruence) | (repeat constructor; unfold is_byte; lia)].

Lemma loopback_tdo_is_tdi_witness :
  ∃ tdo' a', sendVectors 43 tms tdi (replicate 8 0) drv = (Ret tdo', a') ∧
    take 6 tdo' = take 6 tdi ∧ rx_frame 6 (replicate 8 0) tdo' ∧
    tp a' = tp drv ∧ xid_ a' = 255.
Proof. apply (@loopback_tdo_is_tdi le_platform eq_refl drv 43 tms tdi (replicate 8 0)); concrete. Defined.

Lemma sendVectors_message_witness :
  ∃ msg,
    sendVectors 43 tms tdi (replicate 8 0) drv =
      transfer 43 tms tdi (replicate 8 0) (set_txBuf msg (set_xid 255 drv)) ∧
    zlen msg = 2048 ∧ le_val (take 4 msg) = snd (mkShift 254 43) ∧
    (∀ i, 4 ≤ i < 4 → ix msg i = Some 0) ∧
    unpack 4 6 msg = (Some <$> take 6 tms, Some <$> take 6 tdi).
Proof. apply (sendVectors_message 43 tms tdi (replicate 8 0) drv); concrete. Defined.

Lemma sendVectors_safe_witness :
  let (o, a') := sendVectors 43 tms tdi (replicate 8 0) drv in
  match o with
  | Ret tdo' => rx_frame 6 (replicate 8 0) tdo' ∧ bytes tdo'
  | Throw _ => True
  | _ => False
  end ∧ axis_ok a' ∧ same_geometry drv a' ∧ xid_ a' = 255.
Proof. apply (sendVectors_safe 43 tms tdi (replicate 8 0) drv); concrete. Defined.

(** 1024 bytes, the default of the debug bridge driver, on the initial
    buffer of 2048 bytes. *)
Lemma sendVectors_overflow_witness :
  fst (sendVectors 8192 (replicate 1024 0) (replicate 1024 0) (replicate 1024 0) drv) =
    Fault OutOfBounds.
Proof.
  apply (sendVectors_overflow 8192 (replicate 1024 0) (replicate 1024 0) (replicate 1024 0) drv);
    concrete.
Defined.

Lemma query_establishes_witness :
  let (o, a') := query drv in
  match o with
  | Ret n => axis_ok a' ∧ n = memDepth_ a' * wordSize_ a' ∧
      retry_ a' = (if 0 =? memDepth_ a' then 0 else 5) ∧
      xid_ a' = xid_ drv ∧ bufSz_ drv ≤ bufSz_ a' ∧
      (∀ k, 0 < n → 0 ≤ k ≤ n → wordSize_ a' + 2 * word_ceil (wordSize_ a') k ≤ bufSz_ a')
  | Throw e => axis_ok a' ∨
      e = ProtoErr "Received invalid word size" ∧ 1 ≤ wordSize_ a' < 4
  | _ => False
  end.
Proof. apply (query_establishes drv), fresh_drv_ok. Defined.

Definition start : @Rel JtagDriverLoopBack := (drv, []).
Definition after_query : @Rel JtagDriverLoopBack := snd (xferRel 4 0 start).

(** A query goes through at once. *)
Lemma xferRel_reply_witness :
  let hdr := 3 in
  getHdr (hdBuf_ (fst after_query)) = Ret hdr ∧ getErr hdr = 0 ∧
  (getXid (le_val (take 4 (txBuf_ (fst start)))) = XID_ANY ∨
   getXid hdr = getXid (le_val (take 4 (txBuf_ (fst start))))) ∧
  ∃ k, (k < 6)%nat ∧
    call_xfer 4 0 (Nat.iter k (λ s, snd (call_xfer 4 0 s)) start) = (Ret 0, after_query).
Proof.
  apply (xferRel_reply 4 0 start 0 3 after_query);
    [apply fresh_bytes|concrete|vm_compute; reflexivity].
Defined.
End Fresh.
