(* ===== verification/Foo.v ===== *)
(** * The skeleton of a driver (class [JtagDriverFoo], xvcDrvFoo.cc)

    The example a new driver starts from: its [xfer] does nothing and claims
    to have received no payload, and vectors may have any size.  As it never
    writes the header of a reply, the AxisToJtag driver finds zeros there:
    the first query fails, and the program ends before it serves. *)

From stdpp Require Import base numbers option list strings.
From Stdlib Require Import ZArith Lia.
From S2P Require Import Prelude Header Driver.
#[local] Open Scope Z_scope.

Definition JtagDriverFoo : Type := unit.

Definition foo_xfer (txb : list Z) (txBytes hsize size : Z) : M (io JtagDriverFoo) Z := mret 0.
Definition foo_getMaxVectorSize (wsz : Z) (d : JtagDriverFoo) : Z := 0.

#[export] Instance foo_transport : Transport JtagDriverFoo := {
  xfer := foo_xfer;
  getMaxVectorSize := foo_getMaxVectorSize;
}.

(** [JtagDriverFoo( argc, argv, devnam )] *)
Definition foo_new `{Platform} (xid0 : Z) : JtagDriverAxisToJtag JtagDriverFoo := JtagDriverAxisToJtag_new 0 xid0 tt.

Section foo.
Context `{Platform}.
Abbreviation Axis := (JtagDriverAxisToJtag JtagDriverFoo).

(** Whatever word size it is asked for, the header buffer is what it was. *)
#[export] Program Instance foo_laws : TransportLaws JtagDriverFoo := {
  tp_ok _ := True;
  word_ok _ := True;
}.
Next Obligation. done. Qed.
Next Obligation.
  intros txb txBytes hsize size s Hh _ _ Hb _. cbn. split; [|by split; [|split; [|split; [apply rx_frame_refl|]]]].
  intros _. destruct (Z.lt_ge_cases (wordSize (le_val (take 4 (io_hd s)))) 4); [by left|by right].
Qed.
Next Obligation. done. Qed.

(** One attempt is enough to take the header buffer for a reply. *)
Lemma foo_call txBytes size (s : @Rel JtagDriverFoo) : call_xfer txBytes size s = (Ret 0, s).
Proof. by destruct s as [[] rx]. Qed.

(** The driver is refused by [init]: zeros announce words of one byte. *)
Theorem foo_never_starts xid0 : is_byte xid0 →
  ∃ a, init (foo_new xid0) = (Throw (ProtoErr "Received invalid word size"), a) ∧ wordSize_ a = 1.
Proof.
  intros Hx. pose proof (axis_new_ok (T := JtagDriverFoo) 0 xid0 tt Hx I : axis_ok (foo_new xid0)) as A.
  destruct (query_by _ A) as (b & _ & _ & Hh & B & L & Eq).
  change (wordSize_ (foo_new xid0)) with 4 in *. pose proof (header_at_val 4 mkQuery b ltac:(done) Hh) as Hm.
  assert (Lb : 4 ≤ zlen b) by (rewrite L; cbn [txBuf_ foo_new JtagDriverAxisToJtag_new]; rewrite fresh_length; lia).
  set (s := (set_txBuf b (foo_new xid0), [] : list Z)) in *.
  rewrite (xferRel_first 4 0 0 s s 0 B Lb) in Eq;
    [|done|apply foo_call|by repeat constructor|done|done|done|cbn [fst s txBuf_ set_txBuf]; rewrite Hm; by left].
  unfold init. eexists. unfold mbind, M_bind. rewrite Eq. split; reflexivity.
Qed.

End foo.

Lemma foo_never_starts_witness :
  ∃ a, @init some_platform _ _ (@foo_new some_platform 5) = (Throw (ProtoErr "Received invalid word size"), a) ∧ wordSize_ a = 1.
Proof. apply (@foo_never_starts some_platform 5). unfold is_byte. lia. Defined.
