(* ===== verification/Udp.v ===== *)
(** * The UDP driver (class [JtagDriverUdp], xvcDrvUdp.cc) and its test
    peer (class [UdpLoopBack], xvcDrvLoopBack.cc)

    The driver sends a message as a datagram and waits for one reply.  The
    network is a list of what the system calls will say; it may lose,
    delay, duplicate and corrupt datagrams.  The driver is shown to respect
    the transport interface for every such list; the peer is shown to shift
    each vector once however often it is sent. *)

From stdpp Require Import base numbers option list strings pretty.
From Stdlib Require Import ZArith Lia.
From S2P Require Import Prelude Header Tap Driver LoopBack.
#[local] Open Scope Z_scope.

(** ** The driver *)

(** What one call of [xfer] meets: a failing [write], a failing [poll],
    silence, or events with the datagram that [readv] then returns ([None]:
    it fails). *)
Inductive udp_event :=
  | WriteFails (emsgsize : bool)
  | PollFails
  | Silence
  | Revents (revents : Z) (datagram : option (list Z)).

Record JtagDriverUdp := mkUdp {
  timeoutMs_ : Z;
  mtu_ : Z;
  events : list udp_event;
  sent : list (list Z);
}.

Definition POLLIN : Z := 1.
Definition POLLERR : Z := 8.
Definition POLLNVAL : Z := 32.

(** *** The constructor

    [opts] are the results of [getopt] with their arguments; the other
    arguments are what the system calls return. *)
Definition DFLT_PORT : string := "2542".
Definition MAXL : Z := 256.

(** [sscanf( optarg, "%i", i_p )] *)
Definition scan_i (arg : list Z) : option Z := v ← scan_li arg; Some (wrap32 v).

(** The options: [mtu_], [userMtu] and [frag]. *)
Fixpoint udp_options (opts : list (Z * list Z)) (mtu : Z) (userMtu frag : bool) :
    outcome (Z * bool * bool) :=
  match opts with
  | [] => Ret (mtu, userMtu, frag)
  | (opt, arg) :: opts =>
      if opt =? 109 (* m *) then
        match scan_i arg with
        | Some v => udp_options opts v true frag
        | None => Throw (RuntimeErr "Unable to scan option argument")
        end
      else if opt =? 102 (* f *) then udp_options opts mtu userMtu true
      else Throw (RuntimeErr "Unknown driver option")
  end.

(** [strchr( s, ':' )]: what is in front of the colon and behind it. *)
Fixpoint split_colon (s : list Z) : option (list Z * list Z) :=
  match s with
  | [] => None
  | c :: s' =>
      if c =? 58 then Some ([], s')
      else match split_colon s' with Some (a, b) => Some (c :: a, b) | None => None end
  end.

(** Host and port of the target. *)
Definition udp_target (target : list Z) : outcome (list Z * list Z) :=
  match split_colon target with
  | Some (host, port) =>
      if MAXL <? zlen host + 1
      then Throw (RuntimeErr "Internal error - not supporting target string lengths > 256")
      else Ret (host, port)
  | None => Ret (target, text DFLT_PORT)
  end.

(** The MTU after the system was asked for it ([None]: it does not know). *)
Definition clip_mtu (mtu_ : Z) (userMtu : bool) (ip_mtu : option Z) : Z :=
  match ip_mtu with
  | None => mtu_
  | Some mtu => if mtu <? mtu_ then mtu else if negb userMtu then mtu else mtu_
  end.

Definition JtagDriverUdp_new (opts : list (Z * list Z)) (target : list Z)
    (resolve : list Z → list Z → option string) (connect_ok : bool) (ip_mtu : option Z)
    (dontfrag_ok : bool) (evs : list udp_event) : outcome JtagDriverUdp :=
  o ← udp_options opts 1450 false false;
  let '(mtu, userMtu, frag) := o in
  hp ← udp_target target;
  match resolve (fst hp) (snd hp) with
  | Some msg => Throw (RuntimeErr msg)
  | None =>
      if negb connect_ok then Throw (SysErr "Unable to connect UDP socket")
      else
        let mtu := clip_mtu mtu userMtu ip_mtu in
        if negb frag && negb dontfrag_ok
        then Throw (SysErr "Unable to set IP_MTU_DISCOVER to IP_PMTUDISC_DO (enforce DF)")
        else Ret (mkUdp 500 mtu evs [])
  end.

(** *** [xfer] *)

Abbreviation UX := (M (io JtagDriverUdp)).

(** [write( fd, txb, txBytes )] and the event it leads to. *)
Definition udp_send (bs : list Z) : UX udp_event := λ s,
  let d := io_tp s in
  (Ret (default Silence (head (events d))),
   mkIo (io_jd s) (mkUdp (timeoutMs_ d) (mtu_ d) (tail (events d)) (sent d ++ [bs])) (io_hd s) (io_rx s)).

(** [readv] into the header and the receive buffer. *)
Definition readv (dgram : list Z) (hsize size : Z) : UX Z :=
  s ← gets id;
  hd ← lift (wr 0 (take (Z.to_nat hsize) dgram) (io_hd s));
  let pld := take (Z.to_nat size) (drop (Z.to_nat hsize) dgram) in
  rx ← lift (wr 0 pld (io_rx s));
  modify (λ s, mkIo (io_jd s) (io_tp s) hd rx) ;;
  mret (zlen (take (Z.to_nat hsize) dgram) + zlen pld).

Definition udp_xfer (txb : list Z) (txBytes hsize size : Z) : UX Z :=
  bs ← lift (rd 0 txBytes txb);
  ev ← udp_send bs;
  match ev with
  | WriteFails _ => throw (SysErr "JtagDriverUdp: unable to send")
  | PollFails => throw (SysErr "JtagDriverUdp: poll failed")
  | Silence => throw TimeoutErr
  | Revents revents dgram =>
      if negb (Z.land revents (Z.lor POLLERR POLLNVAL) =? 0) then
        throw (RuntimeErr "JtagDriverUdp -- internal error; poll has POLLERR or POLLNVAL set")
      else if Z.land revents POLLIN =? 0 then
        throw (RuntimeErr "JtagDriverUdp -- poll with no data?")
      else
        match dgram with
        | None => throw (SysErr "JtagDriverUdp -- recvmsg failed")
        | Some dgram =>
            got ← readv dgram hsize size;
            let got := got - hsize in
            if got <? 0 then throw (ProtoErr "JtagDriverUdp -- not enough header data received")
            else mret got
        end
  end.

(** [(mtu_ - getWordSize()) / 2] on [unsigned]. *)
Definition udp_getMaxVectorSize (wsz : Z) (d : JtagDriverUdp) : Z := wrap32 (mtu_ d - wsz) / 2.

#[export] Instance udp_transport : Transport JtagDriverUdp := {
  xfer := udp_xfer;
  getMaxVectorSize := udp_getMaxVectorSize;
}.

(** [init]: a target without memory is only warned about. *)
Definition udp_init `{Platform} : M (JtagDriverAxisToJtag JtagDriverUdp) unit :=
  init ;; d ← gets getMemDepth; mret tt.

(** ** The driver is safe on every network *)

(** The octets of the datagrams are octets. *)
Definition event_ok (e : udp_event) : Prop :=
  match e with Revents _ (Some dgram) => bytes dgram | _ => True end.
Definition udp_ok (d : JtagDriverUdp) : Prop := Forall event_ok (events d).

Lemma wr_front bs buf : zlen bs ≤ zlen buf → bytes bs → bytes buf →
  ∃ b, wr 0 bs buf = Ret b ∧ length b = length buf ∧ bytes b ∧
    (∀ i, zlen bs ≤ i → ix b i = ix buf i).
Proof.
  intros Hl Hb Hbuf. destruct (wr_ix 0 bs buf) as (b & E & L & Ix & B); [lia..|].
  exists b. split_and!; auto. intros i Hi. rewrite Ix. by zbool.
Qed.

Lemma readv_ok dgram hsize size s : bytes dgram → 4 ≤ hsize ≤ 16 →
  buffers_ok size (io_hd s) (io_rx s) →
  ∃ got s', readv dgram hsize size s = (Ret got, s') ∧ buffers_ok size (io_hd s') (io_rx s') ∧
    io_tp s' = io_tp s ∧ io_jd s' = io_jd s ∧ rx_frame size (io_rx s) (io_rx s') ∧ got ≤ hsize + size.
Proof.
  intros Hd Hh (Hl & Hb & Hs & Hr). unfold readv, mbind, M_bind. cbn [gets id lift].
  assert (zlen (take (Z.to_nat hsize) dgram) ≤ hsize) by (rewrite length_take; lia).
  assert (zlen (take (Z.to_nat size) (drop (Z.to_nat hsize) dgram)) ≤ size) by (rewrite length_take; lia).
  destruct (wr_front (take (Z.to_nat hsize) dgram) (io_hd s)) as (hd & -> & Lh & Bh & _);
    [lia|by auto with xvc|done|].
  destruct (wr_front (take (Z.to_nat size) (drop (Z.to_nat hsize) dgram)) (io_rx s)) as (rx & -> & Lr & Br & Ir);
    [lia|by auto with xvc|done|].
  eexists _, _. split; [reflexivity|]. cbn. split; [split_and!; (done || lia)|].
  split; [done|]. split; [done|]. split; [|lia]. split; [done|]. intros i Hi. apply Ir. lia.
Qed.

#[export] Program Instance udp_laws `{Platform} : TransportLaws JtagDriverUdp := {
  tp_ok := udp_ok;
  word_ok _ := True;
}.
Next Obligation. done. Qed.
Next Obligation.
  intros ? txb txBytes hsize size s Hh _ (Ht & Hb & _) Hbuf Hok.
  unfold xfer, udp_transport, udp_xfer, mbind, M_bind. cbn [lift].
  rewrite rd_ok by lia. unfold udp_send.
  set (d := io_tp s) in *. set (s1 := mkIo (io_jd s) _ (io_hd s) (io_rx s)).
  assert (Hok1 : udp_ok (io_tp s1)).
  { unfold udp_ok in *. cbn. destruct (events d); [constructor|]. by inversion Hok. }
  assert (Hev : event_ok (default Silence (head (events d)))).
  { unfold udp_ok in Hok. destruct (events d); [done|]. by inversion Hok. }
  destruct (default Silence (head (events d))) as [b| | |r dg]; try (by split_and!).
  destruct (negb _); [by split_and!|]. destruct (_ =? 0); [by split_and!|].
  destruct dg as [dg|]; [|by split_and!].
  destruct (readv_ok dg hsize size s1 Hev Hh) as (got & s2 & -> & Hb2 & Et & Ej & Hf & _); [done|].
  rewrite <-Et in Hok1.
  destruct (got - hsize <? 0); (split; [by auto|split; [done|split; [done|split; [done|by rewrite Ej]]]]).
Qed.
Next Obligation. intros ? w d _. apply Z.div_pos; [apply wrap32_u32|lia]. Qed.

(** ** The size of the messages *)

(** [getMaxVectorSize] promises more than fits the MTU: the message of
    a vector of this size, which is padded to words, respects the MTU only
    when the size is a multiple of the word size. *)
Theorem udp_max_message wsz d : 1 ≤ wsz ≤ 16 → wsz ≤ mtu_ d < 2 ^ 32 →
  let n := udp_getMaxVectorSize wsz d in
  wsz + 2 * word_ceil wsz n ≤ mtu_ d ↔ n `mod` wsz = 0.
Proof.
  intros Hw Hm n. subst n. unfold udp_getMaxVectorSize.
  rewrite wrap32_small by (unfold is_u32; lia). set (n := (mtu_ d - wsz) / 2).
  assert (Hn : 2 * n ≤ mtu_ d - wsz ≤ 2 * n + 1) by (subst n; Z.div_mod_to_equations; lia).
  assert (0 ≤ n) by lia. pose proof (word_ceil_split wsz n ltac:(lia) ltac:(lia)) as Hc.
  pose proof (Z.div_mod n wsz ltac:(lia)) as Hd. pose proof (Z.mod_pos_bound n wsz ltac:(lia)).
  destruct (Z.eqb_spec (n `mod` wsz) 0); lia.
Qed.

(** The default: 1450 octets, words of four. *)
Lemma udp_max_message_witness :
  let d := mkUdp 500 1450 [] [] in
  (4 + 2 * word_ceil 4 (udp_getMaxVectorSize 4 d) ≤ mtu_ d ↔ udp_getMaxVectorSize 4 d `mod` 4 = 0) ∧
  udp_getMaxVectorSize 4 d `mod` 4 ≠ 0.
Proof. split; [apply (udp_max_message 4 (mkUdp 500 1450 [] [])); simpl; lia|done]. Defined.

(** The MTU the constructor settles on never exceeds what the system
    knows; a limit set by the user can only be lowered, the default is
    replaced. *)
Theorem udp_mtu opts target resolve ok ip df evs d :
  JtagDriverUdp_new opts target resolve ok (Some ip) df evs = Ret d →
  ∃ mtu user frag, udp_options opts 1450 false false = Ret (mtu, user, frag) ∧
    mtu_ d = (if user then Z.min mtu ip else ip) ∧ (frag = true ∨ df = true).
Proof.
  unfold JtagDriverUdp_new. destruct (udp_options opts 1450 false false) as [[[mtu user] frag]| | |]; try done.
  cbn [mbind outcome_bind]. destruct (udp_target target) as [hp| | |]; try done. cbn [mbind outcome_bind].
  destruct (resolve _ _); [done|]. destruct ok; [|done]. cbn [negb].
  destruct (negb frag && negb df) eqn:E; [done|]. intros [= <-]. exists mtu, user, frag.
  split; [done|]. split.
  - cbn. destruct (Z.ltb_spec ip mtu), user; simpl; lia.
  - destruct frag; [by left|]. destruct df; [by right|done].
Qed.

Lemma udp_mtu_witness :
  let d := mkUdp 500 1400 [] [] in
  JtagDriverUdp_new [(109, text "1400")] (text "localhost:2542") (λ _ _, None) true (Some 65536) true [] = Ret d ∧
  ∃ mtu user frag, udp_options [(109, text "1400")] 1450 false false = Ret (mtu, user, frag) ∧
    mtu_ d = (if user then Z.min mtu 65536 else 65536) ∧ (frag = true ∨ true = true).
Proof.
  split; [reflexivity|].
  apply (udp_mtu [(109, text "1400")] (text "localhost:2542") (λ _ _, None) true 65536 true []
    (mkUdp 500 1400 [] [])). reflexivity.
Defined.

(** ** Retries *)

Lemma readv_run dgram hsize size s : bytes dgram → 4 ≤ hsize ≤ 16 → hsize ≤ zlen dgram →
  buffers_ok size (io_hd s) (io_rx s) →
  ∃ s', let k := Z.min size (zlen dgram - hsize) in
    readv dgram hsize size s = (Ret (hsize + k), s') ∧ buffers_ok size (io_hd s') (io_rx s') ∧
    io_tp s' = io_tp s ∧ io_jd s' = io_jd s ∧ take 4 (io_hd s') = take 4 dgram ∧
    rx_frame k (io_rx s) (io_rx s') ∧
    take (Z.to_nat k) (io_rx s') = take (Z.to_nat k) (drop (Z.to_nat hsize) dgram).
Proof.
  intros Hd Hh Hl (Hhl & Hhb & Hs & Hr). set (k := Z.min size (zlen dgram - hsize)).
  unfold readv, mbind, M_bind. cbn [gets id lift].
  assert (L1 : zlen (take (Z.to_nat hsize) dgram) = hsize) by (rewrite length_take; lia).
  assert (L2 : zlen (take (Z.to_nat size) (drop (Z.to_nat hsize) dgram)) = k)
    by (rewrite length_take, length_drop; lia).
  destruct (wr_ix 0 (take (Z.to_nat hsize) dgram) (io_hd s)) as (hd & -> & Lh & Ih & Bh); [lia..|].
  destruct (wr_ix 0 (take (Z.to_nat size) (drop (Z.to_nat hsize) dgram)) (io_rx s))
    as (rx & -> & Lr & Ir & Br); [lia..|].
  eexists. split; [cbn [modify mret M_ret]; by rewrite L1, L2|]. cbn [io_hd io_rx io_tp io_jd].
  split; [split_and!; [lia|by auto with xvc|lia|lia|by auto with xvc]|].
  split; [done|]. split; [done|]. split; [|split; [split; [done|]|]].
  - apply take_ix; [rewrite length_take; lia|lia|]. intros i Hi. rewrite Ih. zbool.
    unfold ix. zbool. rewrite !lookup_take_lt by lia. f_equal. lia.
  - intros i Hi. rewrite Ir, L2. destruct (Z.leb_spec 0 i); [|done]. by zbool.
  - apply take_ix; [rewrite length_take, length_drop; lia|lia|]. intros i Hi. rewrite Ir, L2. zbool.
    unfold ix. zbool. rewrite !lookup_take_lt by lia. f_equal. lia.
Qed.

(** What one exchange comes to: nothing, or one datagram. *)
Lemma udp_xfer_run txb txBytes hsize size s e evs : 0 ≤ txBytes ≤ zlen txb → 4 ≤ hsize ≤ 16 →
  buffers_ok size (io_hd s) (io_rx s) → events (io_tp s) = e :: evs →
  let d := io_tp s in
  let d' := mkUdp (timeoutMs_ d) (mtu_ d) evs (sent d ++ [take (Z.to_nat txBytes) txb]) in
  match e with
  | Silence => udp_xfer txb txBytes hsize size s = (Throw TimeoutErr, mkIo (io_jd s) d' (io_hd s) (io_rx s))
  | Revents 1 (Some dg) => bytes dg → hsize ≤ zlen dg →
      let k := Z.min size (zlen dg - hsize) in
      ∃ s', udp_xfer txb txBytes hsize size s = (Ret k, s') ∧ io_jd s' = io_jd s ∧ io_tp s' = d' ∧
        buffers_ok size (io_hd s') (io_rx s') ∧ take 4 (io_hd s') = take 4 dg ∧ rx_frame k (io_rx s) (io_rx s') ∧
        take (Z.to_nat k) (io_rx s') = take (Z.to_nat k) (drop (Z.to_nat hsize) dg)
  | _ => True
  end.
Proof.
  intros Ht Hh Hb He d d'. unfold udp_xfer, mbind, M_bind. cbn [lift]. rewrite rd_ok by lia.
  change (drop (Z.to_nat 0) txb) with txb. unfold udp_send. subst d d'. cbv beta zeta. rewrite He. cbn [head tail default]. unfold default, id.
  destruct e as [b| | |r dg]; [done|done|done|].
  destruct r as [|[r|r|]|r]; try done. destruct dg as [dg|]; [|done]. intros Bd Hl.
  change (negb (Z.land 1 (Z.lor POLLERR POLLNVAL) =? 0)) with false. change (Z.land 1 POLLIN =? 0) with false. cbv iota beta.
  set (s1 := mkIo (io_jd s) _ (io_hd s) (io_rx s)).
  destruct (readv_run dg hsize size s1 Bd Hh Hl Hb) as (s2 & E & Hb2 & Et & Ej & H4 & Hf & Hk). cbv zeta in E.
  rewrite E, Z.add_simpl_l, (proj2 (Z.ltb_ge _ 0)) by (destruct Hb as (_ & _ & ? & _); lia).
  exists s2. split; [done|]. by rewrite Et, Ej.
Qed.

Section retries.
Context `{Platform}.
Abbreviation Axis := (JtagDriverAxisToJtag JtagDriverUdp).

(** Nothing, or the late reply to another transaction. *)
Definition benign (wsz xid : Z) (e : udp_event) : Prop :=
  match e with
  | Silence => True
  | Revents 1 (Some dg) =>
      bytes dg ∧ wsz ≤ zlen dg ∧ getErr (le_val (take 4 dg)) = 0 ∧
      getXid (le_val (take 4 dg)) ≠ xid
  | _ => False
  end.

(** One transmission takes one event off the list. *)
Definition took (e : udp_event) (msg : list Z) (s s' : Rel) : Prop :=
  events (tp (fst s)) = e :: events (tp (fst s')) ∧
  sent (tp (fst s')) = sent (tp (fst s)) ++ [msg] ∧ same_params (fst s) (fst s').

Lemma call_udp e txBytes size (s : @Rel JtagDriverUdp) : rel_pre txBytes size s →
  head (events (tp (fst s))) = Some e →
  let msg := take (Z.to_nat txBytes) (txBuf_ (fst s)) in
  match e with
  | Silence => ∃ s', call_xfer txBytes size s = (Throw TimeoutErr, s') ∧ took e msg s s' ∧ snd s' = snd s
  | Revents 1 (Some dg) =>
      wordSize_ (fst s) ≤ zlen dg →
      let k := Z.min size (zlen dg - wordSize_ (fst s)) in
      ∃ s', call_xfer txBytes size s = (Ret k, s') ∧ took e msg s s' ∧
        getHdr (hdBuf_ (fst s')) = Ret (le_val (take 4 dg)) ∧
        rx_frame k (snd s) (snd s') ∧
        take (Z.to_nat k) (snd s') = take (Z.to_nat k) (drop (Z.to_nat (wordSize_ (fst s))) dg)
  | _ => True
  end.
Proof.
  destruct s as [a rx]. intros (A & (Ht & Hb & _) & Hl & Hr) He. cbn [fst snd] in *.
  pose proof (ok_wordSize _ A) as Hw. destruct (ok_hdBuf _ A) as [Hhb Hhl].
  pose proof (ok_tp _ A) as Hok. cbn in Hok. unfold udp_ok in Hok.
  destruct (events (tp a)) as [|e' evs] eqn:Ee; [done|]. injection He as ->.
  inversion Hok as [|? ? Hev Hevs]; subst.
  unfold call_xfer, zoom. cbn [fst snd xfer udp_transport]. change (getWordSize a) with (wordSize_ a).
  pose proof (udp_xfer_run (txBuf_ a) txBytes (wordSize_ a) size (mkIo (jd a) (tp a) (hdBuf_ a) rx) e evs ltac:(lia) Hw
    (conj Hhl (conj Hhb (conj Hl Hr))) Ee) as Hx. cbv zeta in Hx. cbn [io_jd io_tp io_hd io_rx] in Hx.
  destruct e as [b| | |r dg]; try done.
  - rewrite Hx. eexists. split; [reflexivity|]. split; [|done]. split; cbn; [by rewrite Ee|]. done.
  - destruct r as [|[r|r|]|r]; try done. destruct dg as [dg|]; [|done]. intros Hdl.
    destruct (Hx Hev Hdl) as (s2 & -> & Ej & Et & (B1 & B2 & _) & Hh & Hf & Hk). eexists. split; [reflexivity|].
    cbn [fst snd hdBuf_]. split; [|split; [|done]].
    + split; cbn [fst tp]; rewrite Et; cbn; [by rewrite Ee|]. split; [done|]. by split_and!; rewrite ?Ej.
    + unfold getHdr. rewrite getw32_ok by (done || lia). by rewrite drop_0, Hh.
Qed.

(** An attempt that meets silence or a late reply to another transaction. *)
Lemma attempt_benign e txBytes size xid (s : @Rel JtagDriverUdp) : rel_pre txBytes size s →
  head (events (tp (fst s))) = Some e → benign (wordSize_ (fst s)) xid e → xid ≠ XID_ANY →
  ∃ s1, catch_timeout (attempt xid txBytes size) None s = (Ret None, s1) ∧
    took e (take (Z.to_nat txBytes) (txBuf_ (fst s))) s s1 ∧ rel_step size s s1.
Proof.
  intros Hs Hev He Hx. pose proof (call_udp e txBytes size s Hs Hev) as Hc.
  pose proof (call_xfer_ok txBytes size s Hs) as Ht. unfold total in Ht.
  destruct e as [b| | |r [d|]]; try done; [|destruct r as [|[]|]; try done..].
  - destruct Hc as (s1 & E & Tk & _). rewrite E in Ht. exists s1. split; [|done].
    unfold catch_timeout, attempt, mbind, M_bind. by rewrite E.
  - destruct He as (Hb1 & Hl1 & He1 & Hx1). destruct (Hc Hl1) as (s1 & E & Tk & Eh & _).
    rewrite E in Ht. exists s1. split; [|done].
    unfold catch_timeout, attempt, mbind, M_bind. rewrite E. cbn [gets id lift]. rewrite Eh, He1.
    cbn [negb]. rewrite (proj2 (Z.eqb_neq _ XID_ANY) Hx).
    rewrite (proj2 (Z.eqb_neq xid _)) by congruence. done.
Qed.

Lemma attempts_udp txBytes size xid dg rest evs : ∀ n (s : @Rel JtagDriverUdp), rel_pre txBytes size s →
  let wsz := wordSize_ (fst s) in let msg := take (Z.to_nat txBytes) (txBuf_ (fst s)) in
  events (tp (fst s)) = evs ++ Revents 1 (Some dg) :: rest →
  Forall (benign wsz xid) evs → (length evs ≤ n)%nat → xid ≠ XID_ANY →
  zlen dg = wsz + size → getErr (le_val (take 4 dg)) = 0 → getXid (le_val (take 4 dg)) = xid →
  ∃ s', attempts (S n) xid txBytes size s = (Ret (size, le_val (take 4 dg)), s') ∧
    events (tp (fst s')) = rest ∧
    sent (tp (fst s')) = sent (tp (fst s)) ++ replicate (S (length evs)) msg ∧
    same_params (fst s) (fst s') ∧ rx_frame size (snd s) (snd s') ∧
    take (Z.to_nat size) (snd s') = drop (Z.to_nat wsz) dg.
Proof.
  induction evs as [|e evs IH]; intros n s Hs wsz msg Hev Hben Hn Hx Hdl He Hxid.
  - assert (Hge : 0 ≤ size ∧ wordSize_ (fst s) ≤ zlen dg)
      by (pose proof Hs as (_ & _ & ? & _); subst wsz; lia).
    destruct (call_udp _ txBytes size s Hs (f_equal head Hev) (proj2 Hge))
      as (s' & E & (T1 & T2 & T3) & Eh & Hf & Htk).
    fold wsz in E, Hf, Htk. rewrite Z.min_l in E, Hf, Htk by lia.
    exists s'. split; [|split; [|split; [|split; [done|split; [done|]]]]].
    + cbn [attempts]. unfold mbind at 1, M_bind at 1, catch_timeout, attempt.
      unfold mbind, M_bind. rewrite E. cbn [gets id lift]. rewrite Eh, He. cbn [negb].
      rewrite Hxid, !Z.eqb_refl, orb_true_r. done.
    + rewrite T1 in Hev. by injection Hev as ->.
    + done.
    + rewrite Htk. apply take_ge. rewrite length_drop. pose proof Hs as (A & _).
      pose proof (ok_wordSize _ A). subst wsz. lia.
  - inversion Hben as [|? ? He1 Hben']; subst. destruct n as [|n]; [simpl in Hn; lia|].
    destruct (attempt_benign e txBytes size (getXid (le_val (take 4 dg))) s Hs (f_equal head Hev) He1 Hx)
      as (s1 & E1 & (T1 & T2 & T3) & R1).
    pose proof T3 as (W & _ & X & _).
    assert (Hev1 : events (tp (fst s1)) = evs ++ Revents 1 (Some dg) :: rest).
    { rewrite T1 in Hev. by injection Hev. }
    destruct (IH n s1) as (s2 & E2 & P1 & P2 & P3 & P4 & P5); rewrite ?W; try done.
    { by eapply rel_pre_step. } { simpl in Hn. lia. }
    exists s2. split; [|split; [done|split; [|split; [|split]]]].
    + change (attempts (S (S n)) ?x txBytes size s) with
        ((r ← catch_timeout (attempt x txBytes size) None;
          match r with Some gh => mret gh | None => attempts (S n) x txBytes size end) s).
      rewrite (M_bind_ret _ _ _ _ _ E1). exact E2.
    + rewrite P2, T2, X, <-app_assoc. done.
    + destruct T3 as (?&?&?&?&?&?&?&?), P3 as (?&?&?&?&?&?&?&?). repeat split; congruence.
    + destruct R1 as (_ & _ & F1 & _). by eapply rx_frame_trans.
    + rewrite P5. by rewrite W.
Qed.

(** C16: a shift over UDP survives an unreliable network: if among the
    first [retry_ + 1] transmissions one is answered, the earlier ones
    having met silence or late replies to other transactions, then
    [sendVectors] returns, the TDO buffer holds the payload of that
    answer, and the very same message was transmitted once per attempt. *)
Theorem udp_shift_delivered (a : Axis) bits tms tdi tdo evs dg rest :
  axis_ok a → getSniff (jd a) = false → 1 ≤ bits ≤ 2 ^ 20 →
  bytes tms → bytes tdi → bytes tdo →
  let n := (bits + 7) / 8 in let wsz := wordSize_ a in let xid := fst (newXid (xid_ a)) in
  n ≤ zlen tms → n ≤ zlen tdi → n ≤ zlen tdo → wsz + 2 * word_ceil wsz n ≤ bufSz_ a →
  events (tp a) = evs ++ Revents 1 (Some dg) :: rest →
  Forall (benign wsz xid) evs → zlen evs ≤ retry_ a →
  zlen dg = wsz + n → getErr (le_val (take 4 dg)) = 0 → getXid (le_val (take 4 dg)) = xid →
  ∃ tdo' a' msg, sendVectors bits tms tdi tdo a = (Ret tdo', a') ∧
    take (Z.to_nat n) tdo' = drop (Z.to_nat wsz) dg ∧ rx_frame n tdo tdo' ∧
    zlen msg = wsz + 2 * word_ceil wsz n ∧
    sent (tp a') = sent (tp a) ++ replicate (S (length evs)) msg ∧ events (tp a') = rest.
Proof.
  intros A Hsn Hb Bt Bd Bo n wsz xid Ht Hd Ho Hf Hev Hben Hre Hdl He Hxid.
  destruct (send_layout bits tms tdi tdo a A Hb Ht Hd Hf) as (m & E & L & H1 & P & B).
  rewrite E. set (a1 := set_txBuf m (set_xid (shift_xid a) a)).
  pose proof (newXid_range (xid_ a) (ok_xid _ A)) as Hxr.
  assert (A1 : axis_ok a1).
  { apply set_tx_axis_ok; [done|done|by apply B|]. unfold is_byte, shift_xid. lia. }
  assert (Hn0 : 0 ≤ n) by (subst n; Z.div_mod_to_equations; lia).
  pose proof (ok_wordSize _ A) as Hw. pose proof (word_ceil_bounds wsz n ltac:(subst wsz; lia)) as Hwc.
  assert (Hpre : rel_pre (wsz + 2 * word_ceil wsz n) n (a1, tdo)).
  { split; [done|]. split; [|done]. apply (shift_message_ok bits a m); auto. }
  pose proof (mkShift_fields (xid_ a) bits (ok_xid _ A) Hb) as Hs. unfold shift_header in H1.
  destruct (mkShift _ _) as [x h]. cbn [snd] in H1. destruct Hs as (Hu & _ & _ & _ & Hgx & Hx & _).
  pose proof (header_at_val wsz h m Hu H1) as Hm.
  pose proof (ok_retry _ A) as Hrt.
  destruct (Z.to_nat (retry_ a + 1)) as [|k] eqn:Ek; [lia|].
  destruct (attempts_udp (wsz + 2 * word_ceil wsz n) n xid dg rest evs k (a1, tdo) Hpre)
    as (s' & Ea & P1 & P2 & P3 & P4 & P5); try done; [lia|unfold XID_ANY; lia|].
  unfold transfer, mbind, M_bind. cbn [gets]. unfold with_rx, xferRel, mbind, M_bind.
  cbn [gets id lift fst]. change (getWordSize a1) with wsz. fold n.
  change (txBuf_ a1) with m. unfold getHdr.
  rewrite getw32_ok; [|by apply B|lia|lia]. rewrite drop_0, Hm, Hgx, Hx. fold xid.
  change (retry_ a1) with (retry_ a). rewrite Ek, Ea. destruct s' as [a' rx]. cbn [fst snd] in *.
  assert (getSniff (jd a') = false) as ->.
  { unfold getSniff in *. destruct P3 as (_ & _ & _ & _ & _ & _ & _ & ->). done. }
  eexists rx, a', (take (Z.to_nat (wsz + 2 * word_ceil wsz n)) m).
  split; [done|]. split; [done|]. split; [done|]. split; [rewrite length_take; lia|]. done.
Qed.

(** What [query] makes of any datagram that is not an error. *)
Lemma query_udp (a : Axis) dg evs : axis_ok a → events (tp a) = Revents 1 (Some dg) :: evs →
  wordSize_ a ≤ zlen dg → getErr (le_val (take 4 dg)) = 0 →
  let h := le_val (take 4 dg) in
  ∃ a', wordSize_ a' = wordSize h ∧
    query a = (if wordSize h <? 4 then Throw (ProtoErr "Received invalid word size")
               else Ret (wrap32 (memDepth h * wordSize h)), a') ∧
    (4 ≤ wordSize h → memDepth_ a' = memDepth h ∧ retry_ a' = if 0 =? memDepth h then 0 else 5).
Proof.
  intros A Hev Hl He h. destruct (query_by a A) as (b & _ & Hpre & Hh & B & L & Eq).
  pose proof (header_at_val _ mkQuery b ltac:(done) Hh) as Hm. pose proof (ok_retry _ A) as Hrt.
  pose proof (ok_bufSz _ A) as Hbz. destruct (ok_txBuf _ A) as [_ Htl].
  destruct (call_udp _ (wordSize_ a) 0 _ Hpre (f_equal head Hev) Hl) as ([a2 rx] & E & _ & Eh & _). cbn [fst snd] in *.
  assert (Ex : xferRel (wordSize_ a) 0 (set_txBuf b a, []) = (Ret (0 `min` (zlen dg - wordSize_ a), h), (a2, rx))).
  { unfold xferRel, mbind, M_bind. cbn [gets id lift fst]. unfold getHdr at 1.
    change (txBuf_ (set_txBuf b a)) with b. rewrite getw32_ok, drop_0, Hm by (done || lia).
    change (retry_ (set_txBuf b a)) with (retry_ a). destruct (Z.to_nat (retry_ a + 1)) as [|k] eqn:Ek; [lia|].
    cbn [attempts]. unfold mbind at 1, M_bind at 1, catch_timeout, attempt. unfold mbind, M_bind. rewrite E.
    cbn [gets id lift fst]. by rewrite Eh, He. }
  rewrite Ex in Eq. exists (after_query h a2). split; [|split; [exact Eq|]]; unfold after_query;
    destruct (Z.ltb_spec (wordSize h) 4); done || lia.
Qed.

(** C27: a query takes whatever datagram comes first for its answer, also
    the late reply to a shift (of [len] bits, in an earlier transaction).
    The length is then read as the geometry of the target: words of
    [(len-1) mod 16 + 1] bytes, of which it has room for [(len-1) / 16];
    when that makes less than four bytes, [query] throws, and the
    connection that made the query ends the server. *)
Theorem late_reply_misread (a : Axis) x len pld evs :
  axis_ok a → is_byte x → 1 ≤ len ≤ 2 ^ 20 → bytes pld → wordSize_ a ≤ 4 + zlen pld →
  events (tp a) = Revents 1 (Some (le_bytes 4 (snd (mkShift x len)) ++ pld)) :: evs →
  let w := (len - 1) `mod` 16 + 1 in
  ∃ a', wordSize_ a' = w ∧
    query a = (if w <? 4 then Throw (ProtoErr "Received invalid word size") else Ret ((len - 1) / 16 * w), a') ∧
    (4 ≤ w → memDepth_ a' = (len - 1) / 16).
Proof.
  intros A Hx Hlen Bp Hl Hev w. pose proof (mkShift_fields x len Hx Hlen) as Hs. pose proof (mkShift_sum x len Hx Hlen) as Hsum.
  destruct (mkShift x len) as [xid h]. cbn [snd] in *. injection Hsum as _ Hh. destruct Hs as (Hu & _ & _ & He & _).
  assert (E4 : le_val (take 4 (le_bytes 4 h ++ pld)) = h).
  { rewrite take_app_length' by (by rewrite le_bytes_length). rewrite le_val_le_bytes. by apply Z.mod_small. }
  destruct (query_udp a _ evs A Hev) as (a' & E1 & E2 & E3); [len|by rewrite E4|]. rewrite E4 in *.
  assert (Ew : wordSize h = w).
  { rewrite wordSize_digit. subst w h. unfold CMD_S. clear. Z.div_mod_to_equations. lia. }
  assert (Em : memDepth h = (len - 1) / 16).
  { rewrite memDepth_digit. subst h. unfold CMD_S. change (2 ^ 4) with 16. clear - Hlen. Z.div_mod_to_equations. lia. }
  rewrite Ew, Em in *. exists a'. split; [done|]. split; [|by intros Hge; apply E3].
  rewrite E2. rewrite wrap32_small; [done|]. unfold is_u32.
  assert (1 ≤ w ≤ 16 ∧ 0 ≤ (len - 1) / 16 < 2 ^ 16) by (subst w; Z.div_mod_to_equations; lia). nia.
Qed.
End retries.

(** ** The test peer (class [UdpLoopBack]) *)

Record UdpLoopBack := mkUdpLB {
  u_jd : JtagDriver;
  u_lb : JtagDriverLoopBack;
  rbuf_ : list Z;
  tbuf_ : list Z;
  tsiz_ : Z;
}.

Section peer.
Context `{Platform}.

Definition UdpLoopBack_new (d : JtagDriverLoopBack) : UdpLoopBack :=
  mkUdpLB (JtagDriver_new 0) d (fresh 1500) (fresh 1500) (-1).

(** [1450/2/emulWordSize() - 1] *)
Definition udp_emulMemDepth : Z := 1450 / 2 / emulWordSize - 1.

(** [JtagDriverLoopBack::xfer( txb, txBytes, &tbuf_[0], hsize, &tbuf_[4], size )] *)
Definition peer_loopback (txb : list Z) (txBytes hsize size : Z) : M UdpLoopBack Z := λ u,
  let (o, s) := loopback_xfer udp_emulMemDepth txb txBytes hsize size
    (mkIo (u_jd u) (u_lb u) (take 4 (tbuf_ u)) (drop 4 (tbuf_ u))) in
  (o, mkUdpLB (io_jd s) (io_tp s) (rbuf_ u) (io_hd s ++ io_rx s) (tsiz_ u)).

Definition set_tsiz (n : Z) (u : UdpLoopBack) : UdpLoopBack :=
  mkUdpLB (u_jd u) (u_lb u) (rbuf_ u) (tbuf_ u) n.

(** [xfer] as [run] calls it, with [hdbuf] and [rxb] in [tbuf_]. *)
Definition peer_xfer (txb : list Z) (txBytes hsize size : Z) : M UdpLoopBack Z :=
  txh ← lift (getHdr txb);
  u ← gets id;
  rxh ← lift (getHdr (tbuf_ u));
  if getCmd txh =? CMD_Q then
    modify (set_tsiz (-1)) ;;
    peer_loopback txb txBytes hsize size
  else if getCmd txh =? CMD_S then
    if getXid txh =? getXid rxh then
      if tsiz_ u <? 0
      then throw (RuntimeErr "ERROR: UdpLoopBack - attempted retry but have no valid message!")
      else mret (tsiz_ u)
    else
      got ← peer_loopback txb txBytes hsize size;
      modify (set_tsiz got) ;;
      mret got
  else peer_loopback txb txBytes hsize size.

Definition set_rbuf (b : list Z) (u : UdpLoopBack) : UdpLoopBack :=
  mkUdpLB (u_jd u) (u_lb u) b (tbuf_ u) (tsiz_ u).
Definition count_drop (u : UdpLoopBack) : UdpLoopBack :=
  mkUdpLB (set_drop (wrap32 (drop_ (u_jd u) + 1)) (u_jd u)) (u_lb u) (rbuf_ u) (tbuf_ u) (tsiz_ u).

(** One round of [run]: what [recvfrom] returns, a datagram or an error
    ([None]), and whether [sendto] succeeds.  The result is the reply, if it
    is not dropped on purpose. *)
Definition peer_serve (recv : option (list Z)) (send_ok : bool) : M UdpLoopBack (option (list Z)) :=
  match recv with
  | None => throw (SysErr "UdpLoopBack: unable to read from socket!")
  | Some dgram =>
      let dgram := take 1500 dgram in
      u ← gets id;
      b ← lift (wr 0 dgram (rbuf_ u));
      modify (set_rbuf b) ;;
      if zlen dgram <? 4 then throw (ProtoErr "UdpLoopBack: got no header!")
      else
        (if drEn_ (u_jd u) then modify count_drop else mret tt) ;;
        u ← gets id;
        if drEn_ (u_jd u) && (Z.land (drop_ (u_jd u)) 0xff =? 0) then mret None
        else
          pld ← peer_xfer b (zlen dgram) 4 (1500 - 4);
          u ← gets id;
          r ← lift (rd 0 (pld + 4) (tbuf_ u));
          if send_ok then mret (Some r)
          else throw (SysErr "UdpLoopBack: unable to send from socket")
  end.
End peer.

(** ** Retries are idempotent *)

Section idempotence.
Context `{Platform} (HLE : isLE = true).

Lemma getHdr_LE buf : 4 ≤ zlen buf → getHdr buf = Ret (le_val (take 4 buf)).
Proof.
  intros Hl. unfold getHdr, getw32. rewrite rd_ok by lia. cbn [mbind outcome_bind].
  unfold load32. by rewrite HLE.
Qed.

Lemma put_header_returns h s :
  returns (put_header h) s (λ _ s', take 4 (io_hd s') = le_bytes 4 h ∧ io_jd s' = io_jd s).
Proof.
  unfold returns, put_header, mbind, M_bind. cbn [gets id lift].
  destruct (memcpy _ _ _ _ _) as [hd| | |] eqn:E; try done. cbn [modify io_hd set_hd].
  unfold memcpy in E. rewrite rd_ok in E by (rewrite ?store32_length; lia).
  cbn [mbind outcome_bind] in E. unfold store32 in E. rewrite HLE in E.
  change (take (Z.to_nat 4) _) with (le_bytes 4 h) in E.
  unfold wr in E. destruct (_ && _); [|done]. injection E as <-.
  done.
Qed.

(** The base class is not touched. *)
Definition jd_kept {A} (m : XF A) : Prop := ∀ s, returns m s (λ _ s', io_jd s' = io_jd s).

Lemma jd_kept_bind {A B} (m : XF A) (k : A → XF B) :
  jd_kept m → (∀ a, jd_kept (k a)) → jd_kept (m ≫= k).
Proof.
  intros Hm Hk s. apply returns_bind. eapply returns_mono; [apply Hm|].
  intros a s1 E1. eapply returns_mono; [apply Hk|]. intros b s2 E2. cbv beta in *. congruence.
Qed.
Lemma jd_kept_lift {A} (o : outcome A) : jd_kept (lift o).
Proof. intros s. by destruct o. Qed.
Lemma jd_kept_lb {A} (m : LB A) : jd_kept (lb m).
Proof. intros s. unfold returns, lb, zoom. by destruct (m (io_tp s)) as [[]]. Qed.

Lemma loop_word_jd txb wsz i j n : jd_kept (loop_word txb wsz i j n).
Proof.
  unfold loop_word. repeat (apply jd_kept_bind; [first [apply jd_kept_lift|apply jd_kept_lb|done]|intros ?]).
  destruct (skip_ _); [|done]. apply jd_kept_bind; [apply jd_kept_lift|done].
Qed.
Lemma loop_words_jd txb wsz wb fuel : ∀ i j, jd_kept (loop_words fuel txb wsz wb i j).
Proof.
  induction fuel as [|fuel IH]; intros i j; cbn [loop_words]; destruct (_ <? _); try done.
  apply jd_kept_bind; [apply loop_word_jd|intros; apply IH].
Qed.
Lemma play_words_jd wsz n fuel : ∀ i, jd_kept (play_words fuel wsz n i).
Proof.
  induction fuel as [|fuel IH]; intros i; cbn [play_words]; destruct (_ <? _); try done.
  repeat (apply jd_kept_bind; [first [apply jd_kept_lift|apply jd_kept_lb|done]|intros ?]). apply IH.
Qed.

(** A shift that returns has left its header, and a size that is not
    negative. *)
Lemma loopback_shift_returns dpt txb txBytes hsize size s :
  let h := le_val (take 4 txb) in
  4 ≤ txBytes → 4 ≤ zlen txb → getVrs h = PVER0 → getCmd h = CMD_S →
  returns (loopback_xfer dpt txb txBytes hsize size) s
    (λ n s', take 4 (io_hd s') = le_bytes 4 h ∧ 0 ≤ n ∧ io_jd s' = io_jd s).
Proof.
  intros h Ht Hl Hv Hc. unfold loopback_xfer, emulWordSize.
  rewrite (proj2 (Z.ltb_ge _ _)), rd_ok by lia. change (Z.to_nat 4) with 4%nat. rewrite drop_0.
  apply returns_bind. unfold returns at 1, lift. cbv beta iota zeta. fold h. rewrite Hv, Hc.
  change (negb (PVER0 =? PVER0)) with false. change (CMD_S =? CMD_Q) with false.
  change (CMD_S =? CMD_S) with true. cbv iota.
  rewrite getLen_digit by done. apply returns_bind. unfold returns at 1, lift. cbv beta iota.
  pose proof (Z.mod_pos_bound h (2 ^ 20) ltac:(lia)). set (bits := h `mod` 2 ^ 20 + 1) in *.
  apply returns_bind. eapply returns_mono; [apply jd_kept_lb|]. intros ? s1 E1.
  destruct (txBytes <? _); [done|].
  apply returns_bind. eapply returns_mono; [apply loop_words_jd|]. intros ij s2 E2.
  apply returns_bind. eapply (returns_mono _ _ (λ _ s', io_jd s' = io_jd s2)).
  { destruct (negb _); [apply loop_word_jd|done]. }
  intros ? s3 E3. apply returns_bind. unfold returns at 1, gets. cbv beta iota.
  apply returns_bind. eapply (returns_mono _ _ (λ _ s', io_jd s' = io_jd s3)).
  { destruct (negb _); [apply play_words_jd|done]. }
  intros ? s5 E5. apply returns_bind. eapply returns_mono; [apply put_header_returns|]. intros ? s6 [Hh E6].
  split; [exact Hh|]. split; [apply Z.div_pos; lia|]. congruence.
Qed.

Lemma wr_again dg b b' : wr 0 dg b = Ret b' → wr 0 dg b' = Ret b' ∧ ∃ rest, b' = dg ++ rest.
Proof.
  intros E. pose proof (wr_length _ _ _ _ E) as HL. unfold wr in E.
  destruct (_ && _) eqn:Ec; [|done]. apply andb_true_iff in Ec as [_ Ec%Z.leb_le].
  change (take (Z.to_nat 0) b) with (@nil Z) in E. rewrite app_nil_l in E. injection E as <-.
  split; [|by eexists]. rewrite wr_ok by (try rewrite HL; lia).
  change (take (Z.to_nat 0) ?l) with (@nil Z). rewrite app_nil_l.
  change (Z.to_nat 0 + length dg)%nat with (length dg). by rewrite drop_app_length.
Qed.

(** The peer has got the shift [dg] and has its reply [r] in the transmit
    buffer. *)
Record remembers (dg r : list Z) (u : UdpLoopBack) : Prop := {
  rm_rbuf : wr 0 (take 1500 dg) (rbuf_ u) = Ret (rbuf_ u);
  rm_same : ∃ h rxh, getHdr (rbuf_ u) = Ret h ∧ getCmd h = CMD_S ∧ getHdr (tbuf_ u) = Ret rxh ∧ getXid h = getXid rxh;
  rm_reply : 0 ≤ tsiz_ u ∧ rd 0 (tsiz_ u + 4) (tbuf_ u) = Ret r;
}.

Lemma remembers_serve dg r u : remembers dg r u → 4 ≤ zlen dg →
  let u1 := if drEn_ (u_jd u) then count_drop u else u in
  peer_serve (Some dg) true u = (Ret (if drEn_ (u_jd u) && (Z.land (drop_ (u_jd u1)) 0xff =? 0) then None else Some r), u1) ∧
  remembers dg r u1.
Proof.
  intros [Hr (h & rxh & Eh & Hc & Ex & Hx) [Ht Hrd]] Hl u1. split; [|by subst u1; destruct (drEn_ _); split; try exists h, rxh].
  assert (Eu : set_rbuf (rbuf_ u) u = u) by (by destruct u). assert (Hd : 4 ≤ zlen (take 1500 dg)) by (rewrite length_take; lia).
  unfold peer_serve, mbind, M_bind. cbn [gets id lift]. rewrite Hr. cbn [modify]. rewrite Eu, (proj2 (Z.ltb_ge _ _)) by done.
  assert (Hp : ∀ v, rbuf_ v = rbuf_ u → tbuf_ v = tbuf_ u → tsiz_ v = tsiz_ u →
    peer_xfer (rbuf_ u) (zlen (take 1500 dg)) 4 (1500 - 4) v = (Ret (tsiz_ u), v)).
  { intros v Er Et Es. unfold peer_xfer, mbind, M_bind. cbn [lift gets id]. rewrite Et, Es, Eh, Ex, Hc.
    change (CMD_S =? CMD_Q) with false. change (CMD_S =? CMD_S) with true. cbv iota.
    by rewrite Hx, Z.eqb_refl, (proj2 (Z.ltb_ge _ _)). }
  subst u1. destruct (drEn_ (u_jd u)) eqn:Ed.
  - cbn [modify gets id]. change (drEn_ (u_jd (count_drop u))) with (drEn_ (u_jd u)). rewrite Ed. cbn [andb].
    destruct (_ =? 0); [done|].
    rewrite Hp by done. cbn [gets id lift count_drop tbuf_]. by rewrite Hrd.
  - cbn [mret M_ret gets id]. rewrite Ed. cbn [andb]. rewrite Hp by done. cbn [gets id lift]. by rewrite Hrd.
Qed.

(** What [peer_xfer] leaves after a shift. *)
Lemma peer_xfer_stores txb txBytes hsize size u n u' :
  let h := le_val (take 4 txb) in
  4 ≤ txBytes → 4 ≤ zlen txb → is_u32 h → getVrs h = PVER0 → getCmd h = CMD_S →
  peer_xfer txb txBytes hsize size u = (Ret n, u') →
  (∃ rxh, getHdr (tbuf_ u') = Ret rxh ∧ getXid h = getXid rxh) ∧ tsiz_ u' = n ∧ 0 ≤ n ∧ rbuf_ u' = rbuf_ u ∧ u_jd u' = u_jd u.
Proof.
  intros h Ht Hl Hu Hv Hc. unfold peer_xfer at 1, mbind, M_bind. cbn [lift gets id].
  rewrite getHdr_LE by done. fold h. rewrite Hc. change (CMD_S =? CMD_Q) with false.
  change (CMD_S =? CMD_S) with true. cbv iota.
  destruct (getHdr (tbuf_ u)) as [rxh| | |] eqn:Er; try done.
  destruct (Z.eqb_spec (getXid h) (getXid rxh)) as [Ex|Ex].
  - destruct (Z.ltb_spec (tsiz_ u) 0); [done|]. intros [= <- <-]. split; [by exists rxh|done].
  - unfold peer_loopback. set (s0 := mkIo _ _ _ _).
    pose proof (loopback_shift_returns udp_emulMemDepth txb txBytes hsize size s0 Ht Hl Hv Hc) as Hr.
    unfold returns in Hr. destruct (loopback_xfer _ _ _ _ _ s0) as [[got|e|w|] s1]; try done.
    destruct Hr as (Hh & Hg & Ej). cbn [modify]. intros [= <- <-]. split; [|by rewrite Ej].
    assert (L4 : length (take 4 (io_hd s1)) = 4%nat) by (rewrite Hh; apply le_bytes_length).
    rewrite length_take in L4. exists h. split; [|done]. cbn [tbuf_ set_tsiz].
    rewrite getHdr_LE by (rewrite length_app; lia). rewrite take_app_le by lia.
    rewrite Hh, le_val_le_bytes. f_equal. by apply Z.mod_small.
Qed.

Lemma served_remembers dg ok u r u' : bytes dg → 4 ≤ zlen dg →
  getVrs (le_val (take 4 dg)) = PVER0 → getCmd (le_val (take 4 dg)) = CMD_S →
  peer_serve (Some dg) ok u = (Ret (Some r), u') → remembers dg r u' ∧ drEn_ (u_jd u') = drEn_ (u_jd u).
Proof.
  intros Hb Hl Hv Hc. unfold peer_serve, mbind, M_bind. cbn [gets id lift].
  set (d := take 1500 dg). assert (Hd : 4 ≤ zlen d) by (subst d; rewrite length_take; lia).
  assert (Hd4 : take 4 d = take 4 dg) by (subst d; rewrite take_take; f_equal).
  destruct (wr 0 d (rbuf_ u)) as [b| | |] eqn:Ew; try done. cbn [modify].
  rewrite (proj2 (Z.ltb_ge _ _)) by done.
  destruct (wr_again d _ _ Ew) as (Ew2 & rest & Eb).
  assert (Hb4 : take 4 b = take 4 dg) by (rewrite Eb, take_app_le, Hd4 by lia; done).
  set (v := if drEn_ (u_jd u) then count_drop (set_rbuf b u) else set_rbuf b u).
  replace ((if drEn_ (u_jd u) then modify count_drop else mret tt) (set_rbuf b u)) with (Ret tt, v) by (subst v; by destruct (drEn_ _)).
  assert (Hj : rbuf_ v = b ∧ drEn_ (u_jd v) = drEn_ (u_jd u)) by (subst v; by destruct (drEn_ (u_jd u)) eqn:E).
  destruct Hj as [Erb Edr]. cbn [gets id]. destruct (_ && _); [done|].
  destruct (peer_xfer b _ _ _ v) as [[pld|e|w|] u1] eqn:Ex; try done.
  pose proof (peer_xfer_stores b (zlen d) 4 1496 v pld u1) as Ha. cbv zeta in Ha. rewrite Hb4 in Ha.
  assert (Hbl : 4 ≤ zlen b) by (rewrite Eb, length_app; lia).
  destruct Ha as ((rxh & Ehx & Exx) & Ets & Hp & Er & Ej); [done|done| |done|done|exact Ex|].
  { pose proof (le_val_bounds (take 4 dg) (bytes_take _ _ Hb)) as Hbd.
    rewrite length_take, Nat.min_l in Hbd by lia. exact Hbd. }
  cbn [lift]. destruct (rd 0 (pld + 4) (tbuf_ u1)) as [r'| | |] eqn:Erd; try done. destruct ok; [|done]. intros [= -> ->].
  split; [|by rewrite Ej]. rewrite Erb in Er. split; rewrite ?Er; [done| |by rewrite Ets].
  exists (le_val (take 4 dg)), rxh. split; [by rewrite getHdr_LE, Hb4|done].
Qed.

(** C19: the peer executes a shift once.  Once it has answered a shift with
    [r], every further copy of the datagram (the driver sends the same one
    again when the reply was lost) leaves its playback position, its stored
    reply and its buffers as they are, and is answered with the very same
    [r].  Only the counter of the drop test advances, if that is enabled
    (which the program does): the copies at which its low byte is zero, one
    of 256, are not answered. *)
Theorem peer_retry dg ok u r u' k : bytes dg → 4 ≤ zlen dg →
  getVrs (le_val (take 4 dg)) = PVER0 → getCmd (le_val (take 4 dg)) = CMD_S →
  peer_serve (Some dg) ok u = (Ret (Some r), u') →
  let v := Nat.iter k (λ u, snd (peer_serve (Some dg) true u)) u' in
  let (o, v') := peer_serve (Some dg) true v in
  o = Ret (if drEn_ (u_jd u) && (Z.land (drop_ (u_jd v')) 0xff =? 0) then None else Some r) ∧
  v' = (if drEn_ (u_jd u) then
          mkUdpLB (set_drop (wrap32 (drop_ (u_jd u') + Z.of_nat (S k))) (u_jd u')) (u_lb u') (rbuf_ u') (tbuf_ u') (tsiz_ u')
        else u').
Proof.
  intros Hb Hl Hv Hc Hs v. destruct (served_remembers dg ok u r u' Hb Hl Hv Hc Hs) as [Hr Hd]. rewrite <-Hd.
  set (counted := λ n : Z, if drEn_ (u_jd u') then
    mkUdpLB (set_drop (wrap32 (drop_ (u_jd u') + n)) (u_jd u')) (u_lb u') (rbuf_ u') (tbuf_ u') (tsiz_ u') else u').
  assert (Hn : ∀ n w, remembers dg r w → (w = u' ∧ n = 0 ∨ w = counted n) →
    let w1 := if drEn_ (u_jd w) then count_drop w else w in w1 = counted (n + 1) ∧ drEn_ (u_jd w) = drEn_ (u_jd u')).
  { intros n w _ Hw. subst counted. cbv beta zeta in *. destruct (drEn_ (u_jd u')) eqn:Ed.
    - destruct Hw as [[-> ->] | ->]; cbn; rewrite ?Ed; [done|]. unfold count_drop, set_drop. cbn. rewrite ?Ed. split; [|done].
      do 2 f_equal. unfold wrap32. rewrite Z.add_mod_idemp_l by lia. f_equal. lia.
    - destruct Hw as [[-> _] | ->]; by rewrite ?Ed. }
  assert (Hv' : remembers dg r v ∧ (v = u' ∧ Z.of_nat k = 0 ∨ v = counted (Z.of_nat k))).
  { subst v. clear Hs. induction k as [|k [IH1 IH2]]; [split; [done|by left]|].
    change (Nat.iter (S k) ?f u') with (f (Nat.iter k f u')). cbv beta.
    destruct (remembers_serve dg r _ IH1 Hl) as [-> Hm]. cbn [snd]. split; [exact Hm|]. right.
    destruct (Hn _ _ IH1 IH2) as [-> _]. f_equal. lia. }
  destruct Hv' as [Hm Hc']. destruct (remembers_serve dg r v Hm Hl) as [-> _]. destruct (Hn _ _ Hm Hc') as [Ew Ed].
  cbv zeta in *. rewrite Ew, Ed. split; [done|]. subst counted. cbv beta. by replace (Z.of_nat k + 1) with (Z.of_nat (S k)) by lia.
Qed.
End idempotence.

(** ** Instances *)

Module Lossy.
#[local] Existing Instance le_platform.

(** Silence, the reply to another transaction, the reply. *)
Definition stale : list Z := le_bytes 4 (snd (mkShift 9 20)) ++ [9; 9; 9].
Definition reply : list Z := le_bytes 4 (snd (mkShift 254 20)) ++ [7; 8; 9].
Definition drv : JtagDriverAxisToJtag JtagDriverUdp :=
  JtagDriverAxisToJtag_new 0 254
    (mkUdp 500 1450 [Silence; Revents 1 (Some stale); Revents 1 (Some reply); PollFails] []).

Lemma stale_bytes : bytes stale.
Proof. apply bytes_app. split; [apply le_bytes_bytes|repeat constructor; unfold is_byte; lia]. Qed.
Lemma reply_bytes : bytes reply.
Proof. apply bytes_app. split; [apply le_bytes_bytes|repeat constructor; unfold is_byte; lia]. Qed.

Lemma lossy_drv_ok : axis_ok drv.
Proof.
  apply axis_new_ok; [unfold is_byte; lia|].
  apply Forall_cons; split; [done|]. apply Forall_cons; split; [exact stale_bytes|].
  apply Forall_cons; split; [exact reply_bytes|]. by repeat constructor.
Qed.

Lemma benign_events : Forall (benign 4 255) [Silence; Revents 1 (Some stale)].
Proof.
  apply Forall_cons; split; [done|]. apply Forall_cons; split; [|done].
  split; [exact stale_bytes|]. split_and!; vm_compute; congruence.
Qed.

Lemma udp_shift_delivered_witness :
  ∃ tdo' a' msg, sendVectors 20 [1; 2; 3] [4; 5; 6] [0; 0; 0; 0] drv = (Ret tdo', a') ∧
    take 3 tdo' = [7; 8; 9] ∧ rx_frame 3 [0; 0; 0; 0] tdo' ∧ zlen msg = 12 ∧
    sent (tp a') = [] ++ replicate 3 msg ∧ events (tp a') = [PollFails].
Proof.
  apply (udp_shift_delivered drv 20 [1; 2; 3] [4; 5; 6] [0; 0; 0; 0]
    [Silence; Revents 1 (Some stale)] reply [PollFails]);
    first [exact lossy_drv_ok | exact benign_events | lia | (repeat constructor; unfold is_byte; lia)
      | reflexivity | (vm_compute; congruence)].
Defined.

(** The reply to a shift of 20 bits is still in the queue: the next query
    finds a target with one word of four bytes. *)
Lemma late_reply_misread_witness :
  let a := JtagDriverAxisToJtag_new 0 254 (mkUdp 500 1450 [Revents 1 (Some (le_bytes 4 (snd (mkShift 254 20)) ++ [7; 8; 9]))] []) in
  ∃ a', wordSize_ a' = 4 ∧ query a = (Ret 4, a') ∧ (4 ≤ 4 → memDepth_ a' = 1).
Proof.
  intros a. apply (late_reply_misread a 254 20 [7; 8; 9] []); [|unfold is_byte; lia|lia| |simpl; lia|reflexivity].
  - apply axis_new_ok; [unfold is_byte; lia|]. apply Forall_cons; split; [exact reply_bytes|constructor].
  - repeat constructor; unfold is_byte; lia.
Defined.

(** The message of a shift of 20 bits, to a peer without a file. *)
Definition shift_dgram : list Z := le_bytes 4 (snd (mkShift 254 20)) ++ [1; 2; 3; 0; 4; 5; 6; 0].
Lemma shift_bytes : bytes shift_dgram.
Proof. apply bytes_app. split; [apply le_bytes_bytes|repeat constructor; unfold is_byte; lia]. Qed.
(** In test mode, as the program runs it; the third copy is not answered. *)
Definition peer : UdpLoopBack :=
  let u := UdpLoopBack_new (mkLoopBack FNull true false 1) in
  mkUdpLB (set_drop 252 (setTestMode 1 (u_jd u))) (u_lb u) (rbuf_ u) (tbuf_ u) (tsiz_ u).
Abbreviation served := (peer_serve (Some shift_dgram) true peer).
Definition echoed : list Z := le_bytes 4 (snd (mkShift 254 20)) ++ [4; 5; 6].

Lemma third_copy :
  let (o, v') := peer_serve (Some shift_dgram) true (Nat.iter 2 (λ u, snd (peer_serve (Some shift_dgram) true u)) (snd served)) in
  drop_ (u_jd v') = 256 ∧ o = Ret None.
Proof. by vm_compute. Qed.
Lemma first_reply : fst served = Ret (Some echoed).
Proof. by vm_compute. Qed.
Lemma first_copy : served = (Ret (Some echoed), snd served).
Proof. rewrite <-first_reply. apply surjective_pairing. Qed.

Lemma peer_retry_witness :
  let v := Nat.iter 2 (λ u, snd (peer_serve (Some shift_dgram) true u)) (snd served) in
  let (o, v') := peer_serve (Some shift_dgram) true v in
  o = Ret (if drEn_ (u_jd peer) && (Z.land (drop_ (u_jd v')) 0xff =? 0) then None else Some echoed) ∧
  v' = (if drEn_ (u_jd peer) then
          mkUdpLB (set_drop (wrap32 (drop_ (u_jd (snd served)) + Z.of_nat 3)) (u_jd (snd served))) (u_lb (snd served))
            (rbuf_ (snd served)) (tbuf_ (snd served)) (tsiz_ (snd served))
        else snd served).
Proof.
  apply (@peer_retry le_platform eq_refl shift_dgram true peer echoed (snd served) 2 shift_bytes);
    [vm_compute; congruence|reflexivity|reflexivity|exact first_copy].
Defined.
End Lossy.
