(* ===== verification/Mmio.v ===== *)
(** * Memory mapped devices (mmioHelper.h)

    The window that [MemMap] maps for a device and the access to the
    registers in it.  The device itself is an argument of the drivers: the
    class [Mmio]. *)

From stdpp Require Import base numbers option list strings.
From Stdlib Require Import ZArith Lia.
From S2P Require Import Prelude Header Tap Driver LoopBack Udp.
#[local] Open Scope Z_scope.

(** ** The name of the device: [<file>[:<offset>]] *)

(** [strtoul( s, &end, 0 )] without sign: the value and what is left at
    [end]; [None] when nothing was converted. *)
Fixpoint digits_rest (base acc : Z) (l : list Z) : Z * list Z :=
  match l with
  | c :: l' => if digit c <? base then digits_rest base (acc * base + digit c) l' else (acc, l)
  | [] => (acc, [])
  end.

Definition strtoul_digits (l : list Z) : option (Z * list Z) :=
  match l with
  | 48 :: 120 :: c :: l' | 48 :: 88 :: c :: l' =>
      if digit c <? 16 then Some (digits_rest 16 0 (c :: l')) else Some (digits_rest 8 0 l)
  | 48 :: _ => Some (digits_rest 8 0 l)
  | c :: _ => if digit c <? 10 then Some (digits_rest 10 0 l) else None
  | [] => None
  end.

(** The value is clamped to [ULONG_MAX] and negated after a minus sign. *)
Definition strtoul (l : list Z) : option (Z * list Z) :=
  let clamp v := Z.min (2 ^ 64 - 1) v in
  match skip_ws l with
  | 45 :: l' => match strtoul_digits l' with
                | Some (v, r) => Some (wrap64 (- clamp v), r)
                | None => None
                end
  | 43 :: l' => match strtoul_digits l' with Some (v, r) => Some (clamp v, r) | None => None end
  | l' => match strtoul_digits l' with Some (v, r) => Some (clamp v, r) | None => None end
  end.

(** The file and the offset. *)
Definition parse_devnam (devnam : list Z) : outcome (list Z * Z) :=
  match split_colon devnam with
  | None => Ret (devnam, 0)
  | Some (file, []) => Ret (file, 0)
  | Some (file, col) =>
      match strtoul col with
      | Some (off, []) => Ret (file, off)
      | _ => Throw (RuntimeErr "MemMap Invalid name; expected <filen>[:<offset>]")
      end
  end.

(** ** The mapping *)

(** [fileOff] and [mapSiz_] are the arguments of [mmap]; [devOff] is the
    distance of [devMem_] from [mapBas_]. *)
Record MemMap := mkMap {
  fileOff : Z;
  mapSiz_ : Z;
  devOff : Z;
}.

(** [open_ok] and [mmap_ok] are what the system calls say. *)
Definition MemMap_new (devnam : list Z) (siz pgsz : Z) (open_ok mmap_ok : bool) : outcome MemMap :=
  fo ← parse_devnam devnam;
  let off := snd fo in
  if negb open_ok then Throw (SysErr "Unable to open FIFO device file")
  else
    let mapOff := Z.land off (wrap64 (pgsz - 1)) in
    let mapSiz := wrap64 (wrap64 (mapOff + siz + pgsz - 1) / pgsz * pgsz) in
    if negb mmap_ok then Throw (SysErr "Unable to mmap device")
    else Ret (mkMap (wrap64 (off - mapOff)) mapSiz mapOff).

(** The register [idx] of four bytes is within the mapping. *)
Definition mapped (m : MemMap) (idx : Z) : bool :=
  (0 <=? idx) && (devOff m + 4 * idx + 4 <=? mapSiz_ m).

Lemma mapped_below m i j : mapped m j = true → 0 ≤ i ≤ j → mapped m i = true.
Proof.
  unfold mapped. intros [?%Z.leb_le ?%Z.leb_le]%andb_true_iff Hi. by zbool.
Qed.

Class Mmio (Dev : Type) := {
  dev_rd : Z → Dev → Z * Dev;
  dev_wr : Z → Z → Dev → Dev;
}.

(** [map_.rd( idx )] and [map_.wr( idx, v )] on a device [d]. *)
Definition map_rd `{Mmio Dev} (m : MemMap) (idx : Z) : M Dev Z := λ d,
  if mapped m idx then let (v, d') := dev_rd idx d in (Ret v, d') else (Fault OutOfBounds, d).
Definition map_wr `{Mmio Dev} (m : MemMap) (idx v : Z) : M Dev unit := λ d,
  if mapped m idx then (Ret tt, dev_wr idx v d) else (Fault OutOfBounds, d).

(** ** The window covers the registers *)

Lemma land_page x k : 0 ≤ k → Z.land x (2 ^ k - 1) = x `mod` 2 ^ k.
Proof. intros Hk. rewrite <-Z.land_ones by done. f_equal. rewrite Z.ones_equiv. lia. Qed.

(** For a page size that is a power of two, what is mapped is page
    aligned on both sides and contains the [siz] bytes of the device, with
    less than a page to spare behind them; every 32-bit register within
    [siz] is mapped. *)
Theorem MemMap_window devnam siz k m : 1 ≤ siz ≤ 2 ^ 32 → 0 ≤ k ≤ 30 →
  MemMap_new devnam siz (2 ^ k) true true = Ret m →
  ∃ file off, parse_devnam devnam = Ret (file, off) ∧
    (0 ≤ off < 2 ^ 64 → fileOff m + devOff m = off ∧ fileOff m `mod` 2 ^ k = 0) ∧
    mapSiz_ m `mod` 2 ^ k = 0 ∧ 0 ≤ devOff m < 2 ^ k ∧
    devOff m + siz ≤ mapSiz_ m < devOff m + siz + 2 ^ k ∧
    (∀ idx, 0 ≤ idx → 4 * idx + 4 ≤ siz → mapped m idx = true).
Proof.
  intros Hs Hk. unfold MemMap_new. destruct (parse_devnam devnam) as [[file off]| | |]; try done.
  cbn [mbind outcome_bind negb snd]. intros [= <-]. exists file, off. split; [done|]. cbn [fileOff devOff mapSiz_].
  assert (Hp : 1 ≤ 2 ^ k ≤ 2 ^ 30) by (split; [apply (Z.pow_le_mono_r 2 0 k); lia|apply Z.pow_le_mono_r; lia]).
  rewrite !(wrap64_small (2 ^ k - 1)) by lia. rewrite !land_page by lia.
  pose proof (Z.mod_pos_bound off (2 ^ k) ltac:(lia)) as Hm. set (p := 2 ^ k) in *. set (mo := off `mod` p) in *.
  rewrite (wrap64_small (mo + siz + p - 1)) by lia.
  pose proof (Z.div_mod (mo + siz + p - 1) p ltac:(lia)) as Hd.
  pose proof (Z.mod_pos_bound (mo + siz + p - 1) p ltac:(lia)) as Hr.
  set (q := (mo + siz + p - 1) / p) in *.
  rewrite (wrap64_small (q * p)) by lia. split; [|split; [apply Z.mod_mul; lia|]]; cycle 1.
  { split; [lia|]. split; [lia|]. intros idx Hi Hl. unfold mapped. cbn [devOff mapSiz_]. by zbool. }
  intros Hoff. pose proof (Z.div_mod off p ltac:(lia)) as Ho. fold mo in Ho.
  assert (0 ≤ off / p) by (apply Z.div_pos; lia).
  rewrite wrap64_small by nia. split; [lia|].
  replace (off - mo) with (off / p * p) by lia. apply Z.mod_mul. lia.
Qed.

Lemma MemMap_window_witness :
  MemMap_new (text "/dev/mem:0x43c00010") 0x14 (2 ^ 12) true true = Ret (mkMap 0x43c00000 4096 16) ∧
  ∃ file off, parse_devnam (text "/dev/mem:0x43c00010") = Ret (file, off) ∧
    (0 ≤ off < 2 ^ 64 → 0x43c00000 + 16 = off ∧ 0x43c00000 `mod` 2 ^ 12 = 0) ∧
    4096 `mod` 2 ^ 12 = 0 ∧ (0 ≤ 16 < 2 ^ 12) ∧ 16 + 0x14 ≤ 4096 < 16 + 0x14 + 2 ^ 12 ∧
    (∀ idx, 0 ≤ idx → 4 * idx + 4 ≤ 0x14 → mapped (mkMap 0x43c00000 4096 16) idx = true).
Proof.
  split; [reflexivity|].
  apply (MemMap_window (text "/dev/mem:0x43c00010") 0x14 12 (mkMap 0x43c00000 4096 16)); [lia|lia|reflexivity].
Defined.
