(* ===== verification/Vectors.v ===== *)
(** * Vectors, shifts and answers

    The bits of a TMS/TDI vector pair, the shifts of at most 32 bits that a
    message of word pairs asks for, and the bytes that the answers to them
    make up, also as the image of the bits a scan chain shows.  Shared by the
    drivers that decode the messages themselves
    (DbgBridge.v, TmemSpec.v). *)

From stdpp Require Import base numbers option list strings.
From Stdlib Require Import ZArith Lia.
From S2P Require Import Prelude Header Tap Driver LoopBack.
#[local] Open Scope Z_scope.

(** ** Vectors as bits *)

Definition bit_at (l : list Z) (j : Z) : bool := Z.testbit (default 0 (ix l (j / 8))) (j `mod` 8).

Lemma bit_at_low b l j : 0 ≤ j < 8 → bit_at (b :: l) j = Z.testbit b j.
Proof. intros Hj. unfold bit_at. by rewrite Z.div_small, Z.mod_small by lia. Qed.
Lemma bit_at_high b l j : 0 ≤ j → bit_at (b :: l) (8 + j) = bit_at l j.
Proof.
  intros Hj. unfold bit_at. replace (8 + j) with (j + 1 * 8) by lia.
  rewrite Z.div_add, Z_mod_plus_full by lia. do 2 f_equal. unfold ix.
  pose proof (Z.div_pos j 8 Hj ltac:(lia)). zbool. by replace (Z.to_nat (j / 8 + 1)) with (S (Z.to_nat (j / 8))) by lia.
Qed.

Lemma seqZ_split n m : 0 ≤ n → 0 ≤ m → seqZ 0 (n + m) = seqZ 0 n ++ (Z.add n <$> seqZ 0 m).
Proof. intros Hn Hm. by rewrite seqZ_app, fmap_add_seqZ, !Z.add_0_l, Z.add_0_r by lia. Qed.

Lemma bits_of_seq l : bits_of l = bit_at l <$> seqZ 0 (8 * zlen l).
Proof.
  induction l as [|b l IH]; [done|]. rewrite bits_of_cons.
  replace (8 * zlen (b :: l)) with (8 + 8 * zlen l) by len.
  rewrite seqZ_split, fmap_app, IH, <-list_fmap_compose by lia. f_equal.
  apply list_fmap_ext. intros i j [-> Hj]%lookup_seqZ. unfold compose. by rewrite bit_at_high by lia.
Qed.

Lemma take_bits l n : 0 ≤ n ≤ 8 * zlen l → take (Z.to_nat n) (bits_of l) = bit_at l <$> seqZ 0 n.
Proof.
  intros Hn. rewrite bits_of_seq. replace (8 * zlen l) with (n + (8 * zlen l - n)) by lia.
  rewrite seqZ_split, fmap_app by lia. apply take_app_length'. by rewrite length_fmap, length_seqZ.
Qed.

Lemma le_val_bits l j : bytes l → 0 ≤ j → Z.testbit (le_val l) j = bit_at l j.
Proof.
  intros Hl. revert j. induction Hl as [|b l Hb Hl IH]; intros j Hj.
  - unfold bit_at, ix. destruct (0 <=? j / 8); by rewrite !Z.bits_0.
  - cbn [le_val]. rewrite (Z.mul_comm 256). change 256 with (2 ^ 8).
    rewrite <-lor_add, Z.lor_spec by (unfold is_byte in Hb; lia).
    destruct (decide (j < 8)) as [Hlt|Hge].
    + rewrite Z.mul_pow2_bits_low, orb_false_r, bit_at_low by lia. done.
    + rewrite Z.mul_pow2_bits by lia. replace j with (8 + (j - 8)) at 3 by lia.
      rewrite bit_at_high, IH by lia.
      replace b with (b `mod` 2 ^ 8) by (apply Z.mod_small; unfold is_byte in Hb; lia).
      by rewrite Z.mod_pow2_bits_high by lia.
Qed.

Lemma zip_fmap {A B C} (f : A → B) (g : A → C) l : zip (f <$> l) (g <$> l) = (λ x, (f x, g x)) <$> l.
Proof. induction l as [|x l IH]; [done|]. cbn. by rewrite IH. Qed.

(** ** Shifts *)

(** The little-endian word at offset [off] of a message. *)
Definition word_at (txb : list Z) (off : Z) : Z := le_val (take 4 (drop (Z.to_nat off) txb)).

(** The shifts a message asks for: the length, the TMS and the TDI word of
    each of [n] word pairs from offset [pi]. *)
Fixpoint asked (n : nat) (txb : list Z) (bits pi : Z) : list (Z * Z * Z) :=
  match n with
  | O => []
  | S n => (Z.min 32 bits, word_at txb pi, word_at txb (pi + 4)) :: asked n txb (bits - 32) (pi + 8)
  end.

(** The pairs of a TMS and a TDI bit that a shift clocks into the chain. *)
Definition scan_of (x : Z * Z * Z) : list (bool * bool) :=
  (λ j, (Z.testbit (snd (fst x)) j, Z.testbit (snd x) j)) <$> seqZ 0 (fst (fst x)).
Definition scan_bits (l : list (Z * Z * Z)) : list (bool * bool) := concat (scan_of <$> l).

Lemma word_at_bit txb off j : bytes txb → 0 ≤ off → off + 4 ≤ zlen txb → 0 ≤ j < 32 →
  Z.testbit (word_at txb off) j = Z.testbit (default 0 (ix txb (off + j / 8))) (j `mod` 8).
Proof.
  intros Hb Ho Hl Hj. unfold word_at. rewrite le_val_bits by (auto with xvc || lia).
  unfold bit_at. do 2 f_equal. assert (0 ≤ j / 8 < 4) by (Z.div_mod_to_equations; lia).
  unfold ix. zbool. rewrite lookup_take_lt, lookup_drop by lia. f_equal. lia.
Qed.

(** On a message in the layout of [sendVectors] these are the bits of the
    vectors. *)
Lemma asked_scan txb tms tdi n : ∀ k bits, bytes txb → 0 ≤ k → 0 ≤ bits →
  Z.of_nat n = (bits + 31) / 32 → 4 + 8 * (k + Z.of_nat n) ≤ zlen txb →
  packed 4 0 (4 * k + (bits + 7) / 8) tms tdi txb →
  scan_bits (asked n txb bits (4 + 8 * k)) =
    (λ j, (bit_at tms (32 * k + j), bit_at tdi (32 * k + j))) <$> seqZ 0 bits.
Proof.
  induction n as [|n IH]; intros k bits Hb Hk Hn Hw Hl Hp.
  - assert (bits = 0) as -> by (Z.div_mod_to_equations; lia). done.
  - cbn [asked]. unfold scan_bits. rewrite fmap_cons. cbn [concat].
    set (m := Z.min 32 bits). assert (Hm : 0 < m ≤ 32) by (subst m; clear IH; Z.div_mod_to_equations; lia).
    replace (seqZ 0 bits) with (seqZ 0 m ++ (Z.add m <$> seqZ 0 (bits - m)))
      by (rewrite <-seqZ_split by lia; f_equal; lia).
    rewrite fmap_app. f_equal.
    + unfold scan_of. cbn [fst snd]. apply list_fmap_ext. intros i j [E Hj]%lookup_seqZ.
      assert (Hj0 : 0 ≤ j < m) by lia. clear E Hj i. rewrite !word_at_bit by (done || lia).
      assert (Hji : 0 ≤ j / 8 < 4) by (Z.div_mod_to_equations; lia).
      destruct (Hp (4 * k + j / 8)) as [Hp1 Hp2]; [clear IH; Z.div_mod_to_equations; lia|].
      rewrite (pos_word 4 k) in Hp1, Hp2 by lia. unfold bit_at.
      replace (32 * k + j) with (j + 4 * k * 8) by lia. rewrite Z.div_add, Z_mod_plus_full by lia.
      rewrite (Z.add_comm (j / 8)), <-Hp1, <-Hp2. do 3 f_equal; f_equal; lia.
    + destruct (Z.le_gt_cases bits 32) as [Hle|Hgt].
      * assert (n = O) as -> by (Z.div_mod_to_equations; lia). replace (bits - m) with 0 by lia. done.
      * replace m with 32 by lia. replace (4 + 8 * k + 8) with (4 + 8 * (k + 1)) by lia.
        change (concat (scan_of <$> ?l)) with (scan_bits l). rewrite IH; [|done|lia|lia| |lia|].
        -- rewrite <-list_fmap_compose. apply list_fmap_ext. intros i j _. unfold compose.
           by replace (32 * k + (32 + j)) with (32 * (k + 1) + j) by lia.
        -- clear IH. Z.div_mod_to_equations. lia.
        -- intros i Hi. apply Hp. clear IH. Z.div_mod_to_equations. lia.
Qed.

Lemma message_scan txb tms tdi bits : bytes txb → 0 ≤ bits → let n := (bits + 7) / 8 in
  n ≤ zlen tms → n ≤ zlen tdi → 4 + 2 * word_ceil 4 n ≤ zlen txb → packed 4 0 n tms tdi txb →
  scan_bits (asked (Z.to_nat ((bits + 31) / 32)) txb bits 4) =
    zip (take (Z.to_nat bits) (bits_of tms)) (take (Z.to_nat bits) (bits_of tdi)).
Proof.
  intros Bt Hb n Ht Hd Hl Hp. set (nw := Z.to_nat ((bits + 31) / 32)).
  assert (Hnw : Z.of_nat nw = (bits + 31) / 32) by (subst nw; Z.div_mod_to_equations; lia).
  assert (Hwc : word_ceil 4 n = 4 * Z.of_nat nw) by (subst n; unfold word_ceil; Z.div_mod_to_equations; lia).
  rewrite (asked_scan txb tms tdi nw 0); [|done|lia|lia|done|lia|by rewrite Z.mul_0_r, Z.add_0_l].
  by rewrite !take_bits, zip_fmap by (subst n; Z.div_mod_to_equations; lia).
Qed.

(** What a scan chain with the history [log] answers to them. *)
Fixpoint answers (resp : list (Z * Z * Z) → Z) (log l : list (Z * Z * Z)) : list Z :=
  match l with
  | [] => []
  | x :: l => resp (log ++ [x]) :: answers resp (log ++ [x]) l
  end.

Lemma asked_length n : ∀ txb bits pi, length (asked n txb bits pi) = n.
Proof. induction n; intros; cbn; auto. Qed.

(** ** A scan chain

    [chain log] is the TDO signal after the TMS/TDI pairs [log] have been
    clocked in. *)
Fixpoint tdo_of (chain : list (bool * bool) → bool) (log l : list (bool * bool)) : list bool :=
  match l with
  | [] => []
  | x :: l => chain log :: tdo_of chain (log ++ [x]) l
  end.

Lemma tdo_of_length chain l : ∀ log, length (tdo_of chain log l) = length l.
Proof. induction l; intros; cbn; auto. Qed.
Lemma tdo_of_app chain l l' : ∀ log, tdo_of chain log (l ++ l') = tdo_of chain log l ++ tdo_of chain (log ++ l) l'.
Proof.
  induction l as [|x l IH]; intros log; [by rewrite app_nil_r|]. cbn. by rewrite IH, <-app_assoc.
Qed.

Lemma le_bytes_split a b : ∀ v w, 0 ≤ v < 256 ^ Z.of_nat a →
  le_bytes (a + b) (v + 256 ^ Z.of_nat a * w) = le_bytes a v ++ le_bytes b w.
Proof.
  induction a as [|a IH]; intros v w Hv.
  - change (256 ^ Z.of_nat 0) with 1 in *. cbn. f_equal. lia.
  - rewrite Nat2Z.inj_succ, Z.pow_succ_r in * by lia. cbn [Nat.add le_bytes app].
    replace (v + 256 * 256 ^ Z.of_nat a * w) with (v + (256 ^ Z.of_nat a * w) * 256) by lia.
    unfold wrap8. rewrite Z.mod_add, Z.div_add by lia. f_equal.
    apply IH. split; [apply Z.div_pos; lia|]. apply Z.div_lt_upper_bound; lia.
Qed.

Lemma le_bytes_take n : ∀ m v, (n ≤ m)%nat → take n (le_bytes m v) = le_bytes n v.
Proof.
  induction n as [|n IH]; intros [|m] v Hn; try done; [lia|]. cbn [le_bytes take]. by rewrite IH by lia.
Qed.

(** ** Words of a message and of a reply *)

Section words.
Context `{Platform}.

Lemma setw32_split pre old w n : is_u32 w → 0 ≤ n ≤ 4 → n ≤ zlen old →
  setw32 (zlen pre) w n (pre ++ old) =
    Ret (pre ++ take (Z.to_nat n) (le_bytes 4 w) ++ drop (Z.to_nat n) old).
Proof.
  intros Hw Hn Ho. rewrite setw32_ok by (done || len). rewrite Z.min_l by lia.
  rewrite <-(take_drop (Z.to_nat n) old) at 1. apply wr_split. len.
Qed.

Lemma take_answer n N w (C : list Z) : 0 ≤ n ≤ 4 → n ≤ N → (n = 4 ∨ N = n) →
  take (Z.to_nat N) (le_bytes 4 w ++ C) = take (Z.to_nat n) (le_bytes 4 w) ++ take (Z.to_nat (N - n)) C.
Proof.
  intros Hn HN Hc. rewrite take_app, le_bytes_length. f_equal.
  - destruct Hc as [->| ->]; [|done]. rewrite !take_ge by (rewrite le_bytes_length; lia). done.
  - f_equal. lia.
Qed.

Lemma getLen_bounds h bits : getCmd h = CMD_S → getLen h = Ret bits → 1 ≤ bits ≤ 2 ^ 20.
Proof.
  intros Hc. rewrite getLen_digit by done. intros [= <-]. pose proof (Z.mod_pos_bound h (2 ^ 20)). lia.
Qed.

Lemma query_reply_word : mkQueryReply PVER0 4 0 UNKNOWN_PERIOD = Ret 3.
Proof. reflexivity. Qed.

End words.

(** ** The TDO bytes *)

(** The bytes of the TDO bits. *)
Section image.
Context (chain : list (bool * bool) → bool).

Definition tdo_image (n : Z) (log ps : list (bool * bool)) : list Z :=
  le_bytes (Z.to_nat n) (bits_val (tdo_of chain log ps)).

Lemma tdo_image_app log ps ps' nb n : length ps = (8 * Z.to_nat nb)%nat → 0 ≤ nb ≤ n →
  tdo_image n log (ps ++ ps') = tdo_image nb log ps ++ tdo_image (n - nb) (log ++ ps) ps'.
Proof.
  intros Hl Hn. unfold tdo_image. rewrite tdo_of_app, bits_val_app.
  replace (Z.to_nat n) with (Z.to_nat nb + Z.to_nat (n - nb))%nat by lia.
  pose proof (bits_val_bounds (tdo_of chain log ps)) as Hb. rewrite tdo_of_length, Hl in Hb |- *.
  replace (2 ^ Z.of_nat (8 * Z.to_nat nb)) with (256 ^ Z.of_nat (Z.to_nat nb)) in *
    by (change 256 with (2 ^ 8); rewrite <-Z.pow_mul_r by lia; f_equal; lia).
  by apply le_bytes_split.
Qed.
Lemma scan_of_length l tms tdi : 0 ≤ l → zlen (scan_of (l, tms, tdi)) = l.
Proof. intros Hl. unfold scan_of. rewrite length_fmap, length_seqZ. cbn. lia. Qed.

(** The first word and the others. *)
Lemma tdo_image_step n txb nbits pi log : 0 < nbits → 32 ≤ nbits ∨ nbits ≤ 32 ∧ n = O →
  let m := Z.min 32 nbits in
  let sc := scan_of (m, word_at txb pi, word_at txb (pi + 4)) in
  let rest := scan_bits (asked n txb (nbits - m) (pi + 8)) in
  scan_bits (asked (S n) txb nbits pi) = sc ++ rest ∧
  tdo_image ((nbits + 7) / 8) log (sc ++ rest) =
    tdo_image ((m + 7) / 8) log sc ++ tdo_image ((nbits - m + 7) / 8) (log ++ sc) rest.
Proof.
  intros Hp Hc m sc rest.
  assert (Eps : scan_bits (asked (S n) txb nbits pi) = sc ++ scan_bits (asked n txb (nbits - 32) (pi + 8))) by done.
  pose proof (scan_of_length m (word_at txb pi) (word_at txb (pi + 4)) ltac:(subst m; lia)) as Hx. fold sc in Hx.
  destruct Hc as [Hge|[Hle ->]].
  - assert (m = 32) as Em by (subst m; lia). split; [rewrite Eps; subst rest; by rewrite Em|].
    replace ((nbits - m + 7) / 8) with ((nbits + 7) / 8 - (m + 7) / 8) by (rewrite Em; clear -Hge; Z.div_mod_to_equations; lia).
    apply tdo_image_app; [|rewrite Em; clear -Hge; Z.div_mod_to_equations; lia].
    change (length sc = (8 * Z.to_nat ((m + 7) / 8))%nat). apply Nat2Z.inj. by rewrite Hx, Em.
  - assert (m = nbits) as Em by (subst m; lia). split; [by rewrite Eps|]. subst rest. cbn [asked].
    rewrite Em, Z.sub_diag. unfold tdo_image at 3. change (scan_bits []) with (@nil (bool * bool)). by rewrite !app_nil_r.
Qed.

(** A device that answers a shift with the TDO bits of the chain as a
    word, to the history [log] of shifts. *)
Definition word_resp (log : list (Z * Z * Z)) : Z :=
  match last log with
  | Some x => bits_val (take 32 (tdo_of chain (scan_bits (take (pred (length log)) log)) (scan_of x)))
  | None => 0
  end.

Lemma word_resp_u32 log : is_u32 (word_resp log).
Proof.
  unfold word_resp. destruct (last log) as [x|]; [|done].
  set (l := take 32 _). pose proof (bits_val_bounds l) as Hb. assert (zlen l ≤ 32) by (subst l; rewrite length_take; lia).
  pose proof (Z.pow_le_mono_r 2 (zlen l) 32 ltac:(lia) ltac:(lia)). unfold is_u32. lia.
Qed.
Lemma word_resp_snoc log x : fst (fst x) ≤ 32 →
  word_resp (log ++ [x]) = bits_val (tdo_of chain (scan_bits log) (scan_of x)).
Proof.
  intros Hx. unfold word_resp. rewrite last_snoc, length_app, Nat.add_comm. cbn [length Nat.add pred].
  rewrite take_app_length, take_ge; [done|]. rewrite tdo_of_length. unfold scan_of. rewrite length_fmap, length_seqZ. lia.
Qed.
Lemma scan_bits_snoc log x : scan_bits (log ++ [x]) = scan_bits log ++ scan_of x.
Proof. unfold scan_bits. rewrite fmap_app, concat_app. cbn. by rewrite app_nil_r. Qed.

(** Its words make up the bytes of the TDO bits. *)
Lemma answers_image txb n : ∀ bits pi log, 0 ≤ bits → Z.of_nat n = (bits + 31) / 32 →
  take (Z.to_nat ((bits + 7) / 8)) (concat (le_bytes 4 <$> answers word_resp log (asked n txb bits pi))) =
    tdo_image ((bits + 7) / 8) (scan_bits log) (scan_bits (asked n txb bits pi)).
Proof.
  induction n as [|n IH]; intros bits pi log Hb Hn.
  - assert (bits = 0) as -> by (Z.div_mod_to_equations; lia). done.
  - assert (Hp : 0 < bits) by (clear IH; Z.div_mod_to_equations; lia).
    destruct (tdo_image_step n txb bits pi (scan_bits log) Hp) as [Ep Ei]; [clear IH; Z.div_mod_to_equations; lia|].
    rewrite Ep, Ei. clear Ep Ei. cbn [asked answers fmap list_fmap concat].
    set (m := Z.min 32 bits). set (x := (m, word_at txb pi, word_at txb (pi + 4))).
    rewrite word_resp_snoc by (cbn; lia). rewrite <-scan_bits_snoc.
    assert (Hm : 0 < m ≤ 32 ∧ m ≤ bits ∧ (m = 32 ∨ m = bits)) by (subst m; lia).
    rewrite (take_answer ((m + 7) / 8)) by (clear -Hm Hp; clearbody m; Z.div_mod_to_equations; lia).
    rewrite le_bytes_take by (clear -Hm; clearbody m; Z.div_mod_to_equations; lia). f_equal.
    destruct Hm as (_ & _ & [Em|Em]).
    + replace ((bits + 7) / 8 - (m + 7) / 8) with ((bits - m + 7) / 8) by (rewrite Em; clear; Z.div_mod_to_equations; lia).
      rewrite <-Em. apply IH; [lia|]. rewrite Em. clear -Hn. Z.div_mod_to_equations. lia.
    + rewrite Em, Z.sub_diag, Z.sub_diag. done.
Qed.
End image.
