(* ===== verification/DbgBridge.v ===== *)
(** * The driver for the AXI debug bridge IP (class
    [JtagDriverZynqAxiDbgBridgeIP], xvcDrvAxiDbgBridgeIP.cc)

    This firmware does not understand the message format; the driver
    decodes the header itself and shifts the vectors word by word through
    the registers of the IP.  It is shown to perform exactly the shifts of
    the message on every device that behaves as documented. *)

From stdpp Require Import base numbers option list strings.
From Stdlib Require Import ZArith Lia.
From S2P Require Import Prelude Header Tap Driver LoopBack Mmio Vectors.
#[local] Open Scope Z_scope.

Definition LENGTH_IDX : Z := 0.
Definition TMSVEC_IDX : Z := 1.
Definition TDIVEC_IDX : Z := 2.
Definition TDOVEC_IDX : Z := 3.
Definition CSR_IDX : Z := 4.
Definition CSR_RUN : Z := 1.
Definition MAP_SIZE : Z := 0x14.
Definition MIN_SLEEP_NS : Z := 20 * 1000 * 1000.

(** [clock_] are the times, in nanoseconds, that [clock_gettime] will say;
    [slept_] counts the calls of [nanosleep]. *)
Record JtagDriverZynqAxiDbgBridgeIP (Dev : Type) := mkBridge {
  map_ : MemMap;
  dev : Dev;
  maxVec_ : Z;
  wrdSiz_ : Z;
  pollTime_ : Z;
  doSleep_ : bool;
  measure_ : Z;
  maxPollDelayUs_ : Z;
  clock_ : list Z;
  slept_ : Z;
}.
Arguments mkBridge {Dev}. Arguments map_ {Dev}. Arguments dev {Dev}. Arguments maxVec_ {Dev}.
Arguments wrdSiz_ {Dev}. Arguments pollTime_ {Dev}. Arguments doSleep_ {Dev}. Arguments measure_ {Dev}.
Arguments maxPollDelayUs_ {Dev}. Arguments clock_ {Dev}. Arguments slept_ {Dev}.

Section bridge.
Context `{Platform} {Dev : Type} `{Mmio Dev}.
Abbreviation DB := (JtagDriverZynqAxiDbgBridgeIP Dev).

(** The options are results of [getopt] with their arguments. *)
Fixpoint bridge_options (opts : list (Z * list Z)) (maxBytes : Z) : outcome Z :=
  match opts with
  | [] => Ret maxBytes
  | (opt, arg) :: opts =>
      if opt =? 77 (* M *) then
        match scan_li arg with
        | Some v => bridge_options opts (wrap64 v)
        | None => Throw (RuntimeErr "Invalid scan driver option value")
        end
      else Throw (RuntimeErr "Unknown driver option")
  end.

(** The constructor: the registers are mapped, then the options are
    read.  [d] is the device behind the mapping. *)
Definition bridge_new (opts : list (Z * list Z)) (devnam : list Z) (pgsz : Z) (open_ok mmap_ok : bool)
    (d : Dev) (clk : list Z) : outcome DB :=
  m ← MemMap_new devnam MAP_SIZE pgsz open_ok mmap_ok;
  maxBytes ← bridge_options opts 1024;
  Ret (mkBridge m d maxBytes 4 0 false 100 0 clk 0).

Definition bridge_getMaxVectorSize (b : DB) : Z := maxVec_ b.

Abbreviation BX := (M (io DB)).

Definition bd_set_dev (d : Dev) (b : DB) : DB :=
  mkBridge (map_ b) d (maxVec_ b) (wrdSiz_ b) (pollTime_ b) (doSleep_ b) (measure_ b)
    (maxPollDelayUs_ b) (clock_ b) (slept_ b).
Definition tp_upd (f : DB → DB) : BX unit :=
  modify (λ s, mkIo (io_jd s) (f (io_tp s)) (io_hd s) (io_rx s)).

Definition i32 (idx : Z) : BX Z := λ s,
  let (o, d) := map_rd (map_ (io_tp s)) idx (dev (io_tp s)) in
  (o, mkIo (io_jd s) (bd_set_dev d (io_tp s)) (io_hd s) (io_rx s)).
Definition o32 (idx v : Z) : BX unit := λ s,
  let (o, d) := map_wr (map_ (io_tp s)) idx v (dev (io_tp s)) in
  (o, mkIo (io_jd s) (bd_set_dev d (io_tp s)) (io_hd s) (io_rx s)).

Definition wait : BX unit :=
  tp_upd (λ b, if doSleep_ b
    then mkBridge (map_ b) (dev b) (maxVec_ b) (wrdSiz_ b) (pollTime_ b) (doSleep_ b) (measure_ b)
           (maxPollDelayUs_ b) (clock_ b) (slept_ b + 1)
    else b).

(** [while ( i32(CSR_IDX) & CSR_RUN ) { wait(); }]; [fuel] bounds the
    number of polls. *)
Fixpoint poll (fuel : nat) : BX unit :=
  match fuel with
  | O => no_fuel
  | S fuel =>
      w ← i32 CSR_IDX;
      if negb (Z.land w CSR_RUN =? 0) then wait ;; poll fuel else mret tt
  end.

(** [clock_gettime] *)
Definition get_time (b : DB) : Z * DB :=
  (default 0 (head (clock_ b)),
   mkBridge (map_ b) (dev b) (maxVec_ b) (wrdSiz_ b) (pollTime_ b) (doSleep_ b) (measure_ b)
     (maxPollDelayUs_ b) (tail (clock_ b)) (slept_ b)).

(** [if ( measure_ )] before the poll. *)
Definition measure_start : BX Z := λ s,
  let b := io_tp s in
  if negb (measure_ b =? 0) then
    let (t, b) := get_time b in
    (Ret t, mkIo (io_jd s)
      (mkBridge (map_ b) (dev b) (maxVec_ b) (wrdSiz_ b) (pollTime_ b) false (measure_ b)
         (maxPollDelayUs_ b) (clock_ b) (slept_ b)) (io_hd s) (io_rx s))
  else (Ret 0, s).

(** [if ( measure_ )] after the poll. *)
Definition measure_end (then_ : Z) : BX unit :=
  tp_upd (λ b,
    if negb (measure_ b =? 0) then
      let (now, b) := get_time b in
      let diffNs := wrap64 (now - then_) in
      let '(pt, ds, ms) := if MIN_SLEEP_NS <=? diffNs then (diffNs, true, 0)
                           else (pollTime_ b, doSleep_ b, wrap32 (measure_ b - 1)) in
      let diffUs := diffNs / 1000 in
      mkBridge (map_ b) (dev b) (maxVec_ b) (wrdSiz_ b) pt ds ms
        (if maxPollDelayUs_ b <? diffUs then diffUs else maxPollDelayUs_ b) (clock_ b) (slept_ b)
    else b).

Definition put_rx (off w l : Z) : BX unit :=
  s ← gets id;
  rx ← lift (setw32 off w l (io_rx s));
  modify (λ s, mkIo (io_jd s) (io_tp s) (io_hd s) rx).

(** [while ( nbits > 0 )]; [pi] and [po] are offsets into [txb] and
    [rxb], [polls] bounds the polls of one word. *)
Fixpoint shift_words (polls fuel : nat) (txb : list Z) (nbits pi po l lb : Z) : BX unit :=
  if 0 <? nbits then
    match fuel with
    | O => no_fuel
    | S fuel =>
        w ← lift (getw32 pi txb);
        o32 TMSVEC_IDX w ;;
        w ← lift (getw32 (pi + 4) txb);
        o32 TDIVEC_IDX w ;;
        let l := if nbits <? 8 * 4 then nbits else l in
        let lb' := if nbits <? 8 * 4 then (l + 7) / 8 else lb in
        (if nbits <? 8 * 4 then o32 LENGTH_IDX l else mret tt) ;;
        w ← i32 CSR_IDX;
        o32 CSR_IDX (Z.lor w CSR_RUN) ;;
        t ← measure_start;
        poll polls ;;
        w ← i32 TDOVEC_IDX;
        put_rx po w lb' ;;
        measure_end t ;;
        shift_words polls fuel txb (wrap32 (nbits - l)) (pi + 8) (po + lb') l lb'
    end
  else mret tt.

Definition set_hdr (wsz hdr : Z) : BX unit :=
  s ← gets id;
  hd ← lift (setHdr wsz hdr (io_hd s));
  modify (λ s, mkIo (io_jd s) (io_tp s) hd (io_rx s)).

Definition bridge_xfer (polls : nat) (txb : list Z) (txBytes hsize size : Z) : BX Z :=
  let wsz := hsize in
  hdr ← lift (getHdr txb);
  if negb (getVrs hdr =? PVER0) then
    throw (RuntimeErr "AxiDbgBridgeIP driver: xfer() found unexpected version")
  else if negb (hsize =? 4) then
    throw (RuntimeErr "AxiDbgBridgeIP driver: xfer() found unexpected header size")
  else if getCmd hdr =? CMD_Q then
    h ← lift (mkQueryReply PVER0 4 0 UNKNOWN_PERIOD);
    set_hdr wsz h ;;
    mret 4
  else if negb (getCmd hdr =? CMD_S) then
    throw (RuntimeErr "AxiDbgBridgeIP driver: xfer() found unexpected command")
  else
    nbits ← lift (getLen hdr);
    let nbytes := (nbits + 7) / 8 in
    let nwords := (nbytes + wsz - 1) / wsz in
    if txBytes <? nwords * 2 * wsz then
      throw (RuntimeErr "AXI-DebugBridge IP: not enough input data")
    else if size <? nbytes then
      throw (RuntimeErr "AXI-DebugBridge IP: output buffer too small")
    else
      set_hdr wsz hdr ;;
      o32 LENGTH_IDX (8 * 4) ;;
      shift_words polls (Z.to_nat nwords) txb nbits wsz 0 (8 * 4) 4 ;;
      mret nbytes.

(** [init]: the word size of the firmware is verified. *)
Definition bridge_init `{Transport DB} : M (JtagDriverAxisToJtag DB) unit :=
  init ;;
  a ← gets id;
  if negb (getWordSize a =? wrdSiz_ (tp a)) then
    throw (RuntimeErr "ERROR: firmware misconfigured -- AXI-IP word size /= JTAG stream word size")
  else mret tt.
End bridge.

(** ** The device as documented

    The registers of the IP; a write to the control register with the run
    bit shifts [length] bits, which takes a number of polls.  What the scan
    chain answers, [resp], and how long it takes, [busy], may depend on
    everything that was shifted before. *)
Record ip := mkIp {
  ip_len : Z; ip_tms : Z; ip_tdi : Z; ip_tdo : Z;
  ip_busy : nat;
  ip_log : list (Z * Z * Z);
}.

Section device.
Context (resp : list (Z * Z * Z) → Z) (busy : list (Z * Z * Z) → nat).

Definition ip_wr (idx v : Z) (d : ip) : ip :=
  if idx =? LENGTH_IDX then mkIp v (ip_tms d) (ip_tdi d) (ip_tdo d) (ip_busy d) (ip_log d)
  else if idx =? TMSVEC_IDX then mkIp (ip_len d) v (ip_tdi d) (ip_tdo d) (ip_busy d) (ip_log d)
  else if idx =? TDIVEC_IDX then mkIp (ip_len d) (ip_tms d) v (ip_tdo d) (ip_busy d) (ip_log d)
  else if (idx =? CSR_IDX) && Z.odd v then
    let log := ip_log d ++ [(ip_len d, ip_tms d, ip_tdi d)] in
    mkIp (ip_len d) (ip_tms d) (ip_tdi d) (resp log) (busy log) log
  else d.

Definition ip_rd (idx : Z) (d : ip) : Z * ip :=
  if idx =? LENGTH_IDX then (ip_len d, d)
  else if idx =? TMSVEC_IDX then (ip_tms d, d)
  else if idx =? TDIVEC_IDX then (ip_tdi d, d)
  else if idx =? TDOVEC_IDX then (ip_tdo d, d)
  else if idx =? CSR_IDX then
    match ip_busy d with
    | O => (0, d)
    | S k => (1, mkIp (ip_len d) (ip_tms d) (ip_tdi d) (ip_tdo d) k (ip_log d))
    end
  else (0, d).

Definition ip_mmio : Mmio ip := {| dev_rd := ip_rd; dev_wr := ip_wr |}.
End device.

(** ** The driver on the documented device *)

(** The part of the state that does not depend on the time. *)
Record View := mkView {
  v_jd : JtagDriver; v_hd : list Z; v_rx : list Z; v_map : MemMap; v_max : Z; v_wsz : Z; v_dev : ip
}.

Section bridge_proofs.
Context `{Platform} (resp : list (Z * Z * Z) → Z) (busy : list (Z * Z * Z) → nat).
Abbreviation St := (io (JtagDriverZynqAxiDbgBridgeIP ip)).
#[local] Instance the_ip : Mmio ip := ip_mmio resp busy.

Definition view (s : St) : View :=
  mkView (io_jd s) (io_hd s) (io_rx s) (map_ (io_tp s)) (maxVec_ (io_tp s)) (wrdSiz_ (io_tp s)) (dev (io_tp s)).
Definition v_set_dev (d : ip) (v : View) : View :=
  mkView (v_jd v) (v_hd v) (v_rx v) (v_map v) (v_max v) (v_wsz v) d.
Definition v_set_rx (rx : list Z) (v : View) : View :=
  mkView (v_jd v) (v_hd v) rx (v_map v) (v_max v) (v_wsz v) (v_dev v).
Definition v_set_hd (hd : list Z) (v : View) : View :=
  mkView (v_jd v) hd (v_rx v) (v_map v) (v_max v) (v_wsz v) (v_dev v).

Abbreviation does := (runs view).

Lemma o32_does v idx w : mapped (v_map v) idx = true →
  does v (o32 idx w) tt (v_set_dev (ip_wr resp busy idx w (v_dev v)) v).
Proof.
  intros Hm s <-. unfold o32, map_wr. change (v_map (view s)) with (map_ (io_tp s)) in Hm.
  rewrite Hm. by eexists.
Qed.
Lemma i32_does v idx : mapped (v_map v) idx = true →
  does v (i32 idx) (fst (ip_rd idx (v_dev v))) (v_set_dev (snd (ip_rd idx (v_dev v))) v).
Proof.
  intros Hm s <-. unfold i32, map_rd. change (v_map (view s)) with (map_ (io_tp s)) in Hm.
  rewrite Hm. change (v_dev (view s)) with (dev (io_tp s)). cbn [dev_rd the_ip ip_mmio].
  destruct (ip_rd idx (dev (io_tp s))). by eexists.
Qed.

Lemma wait_does v : does v wait tt v.
Proof.
  intros s <-. unfold wait, tp_upd. eexists. split; [done|]. unfold view. cbn [io_tp io_jd io_hd io_rx].
  by destruct (doSleep_ _).
Qed.
(** The time that is measured does not matter. *)
Lemma measure_start_does {A} v (k : Z → M St A) b w :
  (∀ t, does v (k t) b w) → does v (measure_start ≫= k) b w.
Proof.
  intros Hk s <-. unfold mbind, M_bind, measure_start.
  destruct (negb _); [|by apply Hk]. destruct (get_time (io_tp s)) as [t b'] eqn:E.
  apply Hk. unfold get_time in E. by simplify_eq.
Qed.
Lemma measure_end_does v t : does v (measure_end t) tt v.
Proof.
  intros s <-. unfold measure_end, tp_upd. eexists. split; [done|]. unfold view. cbn [io_tp io_jd io_hd io_rx].
  destruct (negb _); [|done]. unfold get_time. by destruct (MIN_SLEEP_NS <=? _).
Qed.

Lemma bridge_put_rx_does v off w l rx : setw32 off w l (v_rx v) = Ret rx →
  does v (put_rx off w l) tt (v_set_rx rx v).
Proof.
  intros E s <-. change (v_rx (view s)) with (io_rx s) in E. unfold put_rx, mbind, M_bind, gets, id, lift.
  rewrite E. by eexists.
Qed.
Lemma set_hdr_does v wsz h hd : setHdr wsz h (v_hd v) = Ret hd →
  does v (set_hdr wsz h) tt (v_set_hd hd v).
Proof.
  intros E s <-. change (v_hd (view s)) with (io_hd s) in E. unfold set_hdr, mbind, M_bind, gets, id, lift.
  rewrite E. by eexists.
Qed.

Definition idle (d : ip) : ip := mkIp (ip_len d) (ip_tms d) (ip_tdi d) (ip_tdo d) 0 (ip_log d).

Lemma poll_does n : ∀ v, mapped (v_map v) CSR_IDX = true → (ip_busy (v_dev v) < n)%nat →
  does v (poll n) tt (v_set_dev (idle (v_dev v)) v).
Proof.
  induction n as [|n IH]; intros v Hm Hb; [lia|]. cbn [poll].
  eapply runs_bind; [by apply i32_does|]. destruct v as [j hd rx m mx wz [ln tms tdi tdo bz lg]].
  unfold ip_rd. cbn in Hb |- *. destruct bz as [|bz]; cbn; [apply runs_ret|].
  eapply runs_bind; [apply wait_does|]. eapply (IH (mkView j hd rx m mx wz (mkIp ln tms tdi tdo bz lg))); [done|].
  cbn. lia.
Qed.

(** The body of the loop, followed by [k]. *)
Definition one_word (polls : nat) (txb : list Z) (nbits pi po l lb : Z) (k : M St unit) : M St unit :=
  w ← lift (getw32 pi txb);
  o32 TMSVEC_IDX w ;;
  w ← lift (getw32 (pi + 4) txb);
  o32 TDIVEC_IDX w ;;
  (if nbits <? 8 * 4 then o32 LENGTH_IDX (if nbits <? 8 * 4 then nbits else l) else mret tt) ;;
  w ← i32 CSR_IDX;
  o32 CSR_IDX (Z.lor w CSR_RUN) ;;
  t ← measure_start;
  poll polls ;;
  w ← i32 TDOVEC_IDX;
  put_rx po w (if nbits <? 8 * 4 then ((if nbits <? 8 * 4 then nbits else l) + 7) / 8 else lb) ;;
  measure_end t ;;
  k.

(** The registers after a shift that has completed. *)
Definition after (x : Z * Z * Z) (d : ip) : ip :=
  let log := ip_log d ++ [x] in mkIp (fst (fst x)) (snd (fst x)) (snd x) (resp log) 0 log.

Lemma run_bit d : Z.odd (Z.lor (fst (ip_rd CSR_IDX d)) CSR_RUN) = true.
Proof. unfold ip_rd. cbn. by destruct (ip_busy d). Qed.

Lemma one_word_does polls txb nbits pi po l lb k b w v :
  mapped (v_map v) CSR_IDX = true → (∀ log, (busy log < polls)%nat) →
  bytes txb → 0 ≤ pi → pi + 8 ≤ zlen txb → ip_len (v_dev v) = 32 → l = 32 → lb = 4 → 0 < nbits →
  let x := (Z.min 32 nbits, word_at txb pi, word_at txb (pi + 4)) in
  let n := (Z.min 32 nbits + 7) / 8 in
  ∀ rx, setw32 po (resp (ip_log (v_dev v) ++ [x])) n (v_rx v) = Ret rx →
  does (v_set_rx rx (v_set_dev (after x (v_dev v)) v)) k b w →
  does v (one_word polls txb nbits pi po l lb k) b w.
Proof.
  intros Hm Hp Hb Hpi Hl Hlen -> -> Hn x n rx Hrx Hk.
  assert (Hmi : ∀ i, 0 ≤ i ≤ 4 → mapped (v_map v) i = true) by (intros i Hi; by apply (mapped_below _ i 4)).
  destruct v as [j hd rx0 m mx wz [ln tms tdi tdo bz lg]]. cbn in Hlen, Hrx, Hk, Hmi. subst ln.
  unfold one_word. eapply runs_bind; [apply runs_lift, getw32_ok; (done || lia)|].
  eapply runs_bind; [apply o32_does, (Hmi 1); lia|].
  eapply runs_bind; [apply runs_lift, getw32_ok; (done || lia)|].
  eapply runs_bind; [apply o32_does, (Hmi 2); lia|]. cbn -[Z.ltb Z.min Z.div Z.add Z.lor Z.odd Z.mul].
  assert (E1 : (if nbits <? 32 then nbits else 32) = Z.min 32 nbits) by (destruct (Z.ltb_spec nbits 32); lia).
  assert (E2 : (if nbits <? 32 then (Z.min 32 nbits + 7) / 8 else 4) = n).
  { subst n. destruct (Z.ltb_spec nbits 32); [done|]. by replace (Z.min 32 nbits) with 32 by lia. }
  change (8 * 4) with 32. rewrite !E1, E2. clear E2.
  eapply (runs_bind _ _ (mkView j hd rx0 m mx wz
    (mkIp (Z.min 32 nbits) (word_at txb pi) (word_at txb (pi + 4)) tdo bz lg)) _ _ tt).
  { destruct (Z.ltb_spec nbits 32); [apply o32_does, (Hmi 0); lia|].
    replace (Z.min 32 nbits) with 32 by lia. apply runs_ret. }
  eapply runs_bind; [apply i32_does, (Hmi 4); lia|].
  eapply runs_bind; [apply o32_does, (Hmi 4); lia|].
  unfold v_set_dev. cbn [v_jd v_hd v_rx v_map v_max v_wsz v_dev].
  set (d := mkIp _ _ _ tdo bz lg). pose proof (run_bit d) as Hrun.
  replace (ip_wr _ _ _ _ _) with (mkIp (Z.min 32 nbits) (word_at txb pi) (word_at txb (pi + 4))
    (resp (lg ++ [x])) (busy (lg ++ [x])) (lg ++ [x])); cycle 1.
  { unfold ip_wr. cbn -[ip_rd Z.odd Z.lor]. rewrite Hrun. unfold ip_rd. cbn. by destruct bz. }
  clear Hrun d. apply measure_start_does. intros t.
  eapply runs_bind; [apply poll_does; [done|apply Hp]|].
  eapply runs_bind; [apply i32_does, (Hmi 3); lia|].
  eapply runs_bind; [by apply bridge_put_rx_does|].
  eapply runs_bind; [apply measure_end_does|]. exact Hk.
Qed.

(** The bytes that the answers to [asked] leave in the receive buffer. *)
Definition tdo_bytes (log l : list (Z * Z * Z)) : list Z := concat (le_bytes 4 <$> answers resp log l).

Lemma tdo_bytes_cons log x l :
  tdo_bytes log (x :: l) = le_bytes 4 (resp (log ++ [x])) ++ tdo_bytes (log ++ [x]) l.
Proof. done. Qed.

Context (polls : nat) (Hresp : ∀ log, is_u32 (resp log)) (Hbusy : ∀ log, (busy log < polls)%nat).

(** The bytes of the first word and those of the others. *)
Lemma tdo_bytes_step pre old nb N log x l : 0 ≤ nb ≤ 4 → nb ≤ N → nb = 4 ∨ N = nb →
  pre ++ take (Z.to_nat N) (tdo_bytes log (x :: l)) ++ drop (Z.to_nat N) old =
    (pre ++ take (Z.to_nat nb) (le_bytes 4 (resp (log ++ [x])))) ++
    take (Z.to_nat (N - nb)) (tdo_bytes (log ++ [x]) l) ++ drop (Z.to_nat (N - nb)) (drop (Z.to_nat nb) old).
Proof.
  intros Hnb HN Hc. rewrite tdo_bytes_cons, (take_answer nb), drop_drop, <-!app_assoc by done. do 4 f_equal. lia.
Qed.

Lemma shift_words_does txb n : ∀ fuel nbits pi pre old l lb v,
  bytes txb → mapped (v_map v) CSR_IDX = true → (n ≤ fuel)%nat →
  0 ≤ nbits < 2 ^ 32 → Z.of_nat n = (nbits + 31) / 32 → 0 ≤ pi → pi + 8 * Z.of_nat n ≤ zlen txb →
  v_rx v = pre ++ old → (nbits + 7) / 8 ≤ zlen old → (n ≠ O → ip_len (v_dev v) = 32 ∧ l = 32 ∧ lb = 4) →
  let ws := asked n txb nbits pi in
  let N := Z.to_nat ((nbits + 7) / 8) in
  ∃ d', ip_log d' = ip_log (v_dev v) ++ ws ∧
    does v (shift_words polls fuel txb nbits pi (zlen pre) l lb) tt
      (v_set_rx (pre ++ take N (tdo_bytes (ip_log (v_dev v)) ws) ++ drop N old) (v_set_dev d' v)).
Proof.
  induction n as [|n IH]; intros fuel nbits pi pre old l lb v Hb Hm Hf Hn Hw Hpi Htx Hrx Hold Hl ws N.
  - assert (nbits = 0) as -> by (Z.div_mod_to_equations; lia). exists (v_dev v).
    split; [subst ws; cbn; by rewrite app_nil_r|]. subst N ws. change (Z.to_nat ((0 + 7) / 8)) with O.
    rewrite take_0, drop_0, app_nil_l, <-Hrx.
    destruct fuel; destruct v; apply runs_ret.
  - destruct fuel as [|fuel]; [lia|]. destruct (Hl ltac:(done)) as (Hlen & -> & ->).
    set (m := Z.min 32 nbits). set (nb := (m + 7) / 8).
    set (x := (m, word_at txb pi, word_at txb (pi + 4))). set (w := resp (ip_log (v_dev v) ++ [x])).
    assert (Hnb : 0 ≤ nb ≤ 4 ∧ nb ≤ (nbits + 7) / 8 ∧ (nbits + 7) / 8 - nb = (nbits - m + 7) / 8 ∧
                  (nb = 4 ∨ (nbits + 7) / 8 = nb) ∧
                  (32 < nbits ∧ nb = 4 ∧ m = 32 ∨ nbits = m ∧ n = O))
      by (subst nb m; clear IH; Z.div_mod_to_equations; lia).
    destruct Hnb as (Hnb & HN & Hrest & Hfull & Hcase).
    pose proof (setw32_split pre old w nb (Hresp _) Hnb ltac:(lia)) as Hset.
    set (pre' := pre ++ take (Z.to_nat nb) (le_bytes 4 w)). set (old' := drop (Z.to_nat nb) old).
    destruct (IH fuel (nbits - m) (pi + 8) pre' old' m nb
      (v_set_rx (pre' ++ old') (v_set_dev (after x (v_dev v)) v)))
      as (d' & Hlog & Hdo); [done|done|lia|lia|Z.div_mod_to_equations; lia|lia|lia|done|subst old'; len| |].
    { intros Hne. destruct Hcase as [(_ & -> & ->)|(_ & ?)]; [done|lia]. }
    clear IH. cbn [v_dev v_set_dev v_set_rx after ip_log] in Hlog, Hdo. exists d'.
    assert (Easked : asked n txb (nbits - m) (pi + 8) = asked n txb (nbits - 32) (pi + 8))
      by (destruct Hcase as [(_ & _ & ->)|(_ & ->)]; done).
    rewrite Easked in Hlog, Hdo. split; [rewrite Hlog; subst ws; cbn [asked]; by rewrite <-app_assoc|].
    assert (Hpos : 0 < nbits) by (Z.div_mod_to_equations; lia).
    cbn [shift_words]. rewrite (proj2 (Z.ltb_lt 0 nbits) Hpos).
    change (does v (one_word polls txb nbits pi (zlen pre) 32 4
      (shift_words polls fuel txb (wrap32 (nbits - (if nbits <? 8 * 4 then nbits else 32))) (pi + 8)
        (zlen pre + (if nbits <? 8 * 4 then ((if nbits <? 8 * 4 then nbits else 32) + 7) / 8 else 4))
        (if nbits <? 8 * 4 then nbits else 32)
        (if nbits <? 8 * 4 then ((if nbits <? 8 * 4 then nbits else 32) + 7) / 8 else 4))) tt
      (v_set_rx (pre ++ take N (tdo_bytes (ip_log (v_dev v)) ws) ++ drop N old) (v_set_dev d' v))).
    change (8 * 4) with 32.
    assert (E1 : (if nbits <? 32 then nbits else 32) = m) by (subst m; destruct (Z.ltb_spec nbits 32); lia).
    assert (E2 : (if nbits <? 32 then (m + 7) / 8 else 4) = nb)
      by (subst nb m; destruct (Z.ltb_spec nbits 32); [done|]; by replace (Z.min 32 nbits) with 32 by lia).
    rewrite !E1, !E2, wrap32_small by (unfold is_u32; lia).
    eapply one_word_does; [done|done|done|lia|lia|done|done|done|lia| |].
    { rewrite Hrx. exact Hset. }
    replace (zlen pre + nb) with (zlen pre') by (subst pre'; len).
    change (pre ++ take _ (le_bytes 4 _) ++ drop _ old) with (pre ++ take (Z.to_nat nb) (le_bytes 4 w) ++ old').
    rewrite app_assoc. fold pre'. destruct v as [j hd rx mp mx wz d]. cbn [v_dev v_set_dev v_set_rx v_jd v_hd v_rx v_map v_max v_wsz ip_log] in Hdo |- *.
    rewrite <-Hrest in Hdo. subst ws N. cbn [asked v_dev] in *. by rewrite (tdo_bytes_step pre old nb) by (done || lia).
Qed.

(** A shift message. *)
Lemma bridge_shift_does txb txBytes size v bits :
  let h := le_val (take 4 txb) in
  let nb := (bits + 7) / 8 in let nw := Z.to_nat ((bits + 31) / 32) in
  mapped (v_map v) CSR_IDX = true → bytes txb →
  getVrs h = PVER0 → getCmd h = CMD_S → getLen h = Ret bits →
  8 * Z.of_nat nw ≤ txBytes → 4 + 8 * Z.of_nat nw ≤ zlen txb →
  nb ≤ size → nb ≤ zlen (v_rx v) → 4 ≤ zlen (v_hd v) →
  let ws := asked nw txb bits 4 in
  ∃ d hd, ip_log d = ip_log (v_dev v) ++ ws ∧ take 4 hd = take 4 txb ∧ length hd = length (v_hd v) ∧
    (bytes (v_hd v) → bytes hd) ∧
    does v (bridge_xfer polls txb txBytes 4 size) nb
      (v_set_rx (take (Z.to_nat nb) (tdo_bytes (ip_log (v_dev v)) ws) ++ drop (Z.to_nat nb) (v_rx v))
         (v_set_hd hd (v_set_dev d v))).
Proof.
  intros h nb nw Hm Hb Hv Hc Hg Htx Hl Hs Hr Hh ws. pose proof (getLen_bounds h bits Hc Hg) as Hbits.
  assert (Hnw : Z.of_nat nw = (bits + 31) / 32) by (subst nw; Z.div_mod_to_equations; lia).
  assert (Hnw' : (nb + 4 - 1) / 4 = Z.of_nat nw) by (rewrite Hnw; subst nb; Z.div_mod_to_equations; lia).
  assert (Hu : is_u32 h).
  { pose proof (le_val_bounds (take 4 txb) (bytes_take _ _ Hb)) as Hu.
    rewrite length_take, Nat.min_l in Hu by lia. exact Hu. }
  destruct (setHdr_ok 4 h (v_hd v)) as (hd & Eh & Lh & [Hh4 _] & _ & Bh); [done|lia|lia|].
  set (d0 := ip_wr resp busy LENGTH_IDX 32 (v_dev v)).
  destruct (shift_words_does txb nw nw bits 4 [] (v_rx v) 32 4 (v_set_dev d0 (v_set_hd hd v)))
    as (d' & Hlog & Hdo); [done..|lia|done|lia|lia|done|done|done|]. cbn [app v_dev v_set_dev] in Hlog, Hdo.
  change (ip_log d0) with (ip_log (v_dev v)) in Hlog, Hdo.
  exists d', hd. split; [done|]. split.
  { rewrite Hh4. subst h. replace 4%nat with (length (take 4 txb)) at 1 by (rewrite length_take; lia).
    by apply le_bytes_le_val, bytes_take. }
  split; [done|]. split; [by intros ?; apply Bh|]. unfold bridge_xfer. eapply runs_bind.
  { apply runs_lift. unfold getHdr. rewrite getw32_ok by (done || lia). by rewrite drop_0. }
  fold h. rewrite Hv, Hc, !Z.eqb_refl. change (CMD_S =? CMD_Q) with false. cbn [negb].
  eapply runs_bind; [by apply runs_lift|]. fold nb. rewrite Hnw'. zbool.
  eapply runs_bind; [by apply set_hdr_does|].
  eapply runs_bind; [by apply o32_does, (mapped_below _ _ 4)|].
  eapply runs_bind; [|apply runs_ret]. rewrite Nat2Z.id. destruct v as [j hd0 rx mp mx wz d]. exact Hdo.
Qed.

(** On a debug bridge that behaves as documented, whatever the scan
    chain answers and however long it takes, provided every register is
    mapped and the polling is long enough, [xfer] of a shift message
    returns the number of reply bytes; the device has then performed, one
    after the other, exactly the shifts the message asks for (32 bits
    each, the last one shorter), the header is echoed, and the receive
    buffer holds the little-endian TDO words cut to that number of bytes,
    with the rest of the buffer untouched. *)
Theorem bridge_shift txb txBytes size (s : St) bits :
  let h := le_val (take 4 txb) in
  let nb := (bits + 7) / 8 in let nw := Z.to_nat ((bits + 31) / 32) in
  mapped (map_ (io_tp s)) CSR_IDX = true → bytes txb →
  getVrs h = PVER0 → getCmd h = CMD_S → getLen h = Ret bits →
  8 * Z.of_nat nw ≤ txBytes → 4 + 8 * Z.of_nat nw ≤ zlen txb →
  nb ≤ size → nb ≤ zlen (io_rx s) → 4 ≤ zlen (io_hd s) →
  let log := ip_log (dev (io_tp s)) in let ws := asked nw txb bits 4 in
  ∃ s', bridge_xfer polls txb txBytes 4 size s = (Ret nb, s') ∧
    ip_log (dev (io_tp s')) = log ++ ws ∧ take 4 (io_hd s') = take 4 txb ∧
    io_rx s' = take (Z.to_nat nb) (concat (le_bytes 4 <$> answers resp log ws)) ++ drop (Z.to_nat nb) (io_rx s).
Proof.
  intros h nb nw Hm Hb Hv Hc Hg Htx Hl Hs Hr Hh log ws.
  destruct (bridge_shift_does txb txBytes size (view s) bits) as (d & hd & Elog & Ehd & _ & _ & Hdo); try done.
  destruct (Hdo s eq_refl) as (s' & E & Hview). exists s'. split; [done|].
  injection Hview as _ Hhd Hrx _ _ _ Hdev. rewrite Hdev, Hhd, Hrx. by split_and!.
Qed.

(** *** As a transport of [JtagDriverAxisToJtag] *)

#[local] Instance bridge_transport : Transport (JtagDriverZynqAxiDbgBridgeIP ip) := {
  xfer := bridge_xfer polls;
  getMaxVectorSize _ := bridge_getMaxVectorSize;
}.

Lemma tdo_bytes_length l : ∀ log, length (tdo_bytes log l) = (4 * length l)%nat.
Proof. induction l as [|x l IH]; intros log; [done|]. rewrite tdo_bytes_cons. len. rewrite IH. lia. Qed.
Lemma tdo_bytes_bytes l : ∀ log, bytes (tdo_bytes log l).
Proof.
  induction l as [|x l IH]; intros log; [constructor|]. rewrite tdo_bytes_cons. apply bytes_app.
  split; [apply le_bytes_bytes|apply IH].
Qed.

Lemma bridge_query_does txb txBytes size v hd : le_val (take 4 txb) = mkQuery →
  bytes txb → 4 ≤ zlen txb → setHdr 4 3 (v_hd v) = Ret hd →
  does v (bridge_xfer polls txb txBytes 4 size) 4 (v_set_hd hd v).
Proof.
  intros Hq Hb Hl Eh. unfold bridge_xfer. eapply runs_bind.
  { apply runs_lift. unfold getHdr. rewrite getw32_ok by (done || lia). by rewrite drop_0, Hq. }
  change (negb (getVrs mkQuery =? PVER0)) with false. change (getCmd mkQuery =? CMD_Q) with true.
  cbn [negb Z.eqb Pos.eqb]. cbv iota. rewrite query_reply_word.
  eapply runs_bind; [by apply runs_lift|]. eapply runs_bind; [by apply set_hdr_does|]. apply runs_ret.
Qed.

#[local] Program Instance bridge_laws : TransportLaws (JtagDriverZynqAxiDbgBridgeIP ip) := {
  tp_ok b := mapped (map_ b) CSR_IDX = true ∧ 0 ≤ maxVec_ b;
  word_ok w := w = 4;
}.
Next Obligation. done. Qed.
Next Obligation.
  intros txb txBytes hsize size s _ -> (Htx & Hb & Hm) (Hhd & Hhb & Hsz & Hrb) [Hmap Hmx].
  cbn [xfer bridge_transport]. destruct Hm as [[Hq _]|[(Hq & _)|(Hv & Hc & bits & Hg & Es & Et)]].
  - destruct (setHdr_ok 4 3 (io_hd s)) as (hd & Eh & Lh & Hh & _ & Bh); [done|lia|lia|].
    destruct (bridge_query_does txb txBytes size (view s) hd Hq Hb ltac:(lia) Eh s eq_refl) as (s' & -> & Hw).
    injection Hw as -> -> -> Hmap' -> _ _. rewrite Hmap'. split.
    { intros _. right. rewrite (header_at_val 4 3 hd) by done. done. }
    split; [unfold buffers_ok; rewrite Lh; auto|]. split; [done|]. split; [done|done].
  - unfold bridge_xfer, getHdr. rewrite getw32_ok by (done || lia). rewrite drop_0, Hq. by split_and!.
  - pose proof (getLen_bounds _ bits Hc Hg) as Hbits.
    assert (Hnw : 4 * ((size + 4 - 1) / 4) = 4 * Z.of_nat (Z.to_nat ((bits + 31) / 32)))
      by (subst size; Z.div_mod_to_equations; lia).
    destruct (bridge_shift_does txb txBytes size (view s) bits) as (d & hd & _ & Ehd & Lh & Bh & Hdo);
      try done; [lia|lia|lia|cbn; lia|cbn; lia|].
    destruct (Hdo s eq_refl) as (s' & -> & Hw). injection Hw as Hj Hhd' Hrx Hmap' Hmx' _ _.
    rewrite Hhd', Hrx, Hmap', Hmx', Hj. cbn [v_hd v_rx view] in *. rewrite <-Es in *.
    split; [intros Hq; by rewrite Hq in Hc|].
    assert (Hf : rx_frame size (io_rx s) (take (Z.to_nat size) (tdo_bytes (ip_log (dev (io_tp s)))
      (asked (Z.to_nat ((bits + 31) / 32)) txb bits 4)) ++ drop (Z.to_nat size) (io_rx s))).
    { apply reply_frame; [|lia]. rewrite tdo_bytes_length, asked_length. Z.div_mod_to_equations; lia. }
    split; [|split; [done|split; [exact Hf|done]]]. pose proof Hf as [Lf _]. unfold buffers_ok.
    split; [by rewrite Lh|]. split; [by apply Bh|]. split; [rewrite Lf; lia|].
    apply bytes_app. auto using tdo_bytes_bytes with xvc.
Qed.
Next Obligation. by intros w b [_ ?]. Qed.

Abbreviation Axis := (JtagDriverAxisToJtag (JtagDriverZynqAxiDbgBridgeIP ip)).

(** The shifts that [sendVectors] makes the device perform. *)
Lemma bridge_send (a : Axis) bits tms tdi tdo :
  axis_ok a → getSniff (jd a) = false → 1 ≤ bits ≤ 2 ^ 20 → bytes tms → bytes tdi →
  let n := (bits + 7) / 8 in
  n ≤ zlen tms → n ≤ zlen tdi → n ≤ zlen tdo → 4 + 2 * word_ceil 4 n ≤ bufSz_ a →
  let log := ip_log (dev (tp a)) in
  ∃ msg tdo' a', let l := asked (Z.to_nat ((bits + 31) / 32)) msg bits 4 in
    sendVectors bits tms tdi tdo a = (Ret tdo', a') ∧ maxVec_ (tp a') = maxVec_ (tp a) ∧
    ip_log (dev (tp a')) = log ++ l ∧
    scan_bits l = zip (take (Z.to_nat bits) (bits_of tms)) (take (Z.to_nat bits) (bits_of tdi)) ∧
    tdo' = take (Z.to_nat n) (tdo_bytes log l) ++ drop (Z.to_nat n) tdo.
Proof.
  intros A Hsn Hb Bt Bd n Ht Hd Ho Hf log. pose proof (ok_word _ A) as Hw. cbn in Hw.
  destruct (ok_hdBuf _ A) as [Hhb Hhl]. pose proof (word_ceil_bounds 4 n ltac:(lia)) as Hwc.
  set (nw := Z.to_nat ((bits + 31) / 32)).
  assert (Hnw : word_ceil 4 n = 4 * Z.of_nat nw) by (subst n nw; unfold word_ceil; Z.div_mod_to_equations; lia).
  assert (Hnw' : Z.of_nat nw = (bits + 31) / 32) by (subst nw; Z.div_mod_to_equations; lia).
  destruct (sendVectors_by bits tms tdi tdo a (λ s', ∃ msg, let l := asked nw msg bits 4 in
    maxVec_ (io_tp s') = maxVec_ (tp a) ∧ ip_log (dev (io_tp s')) = log ++ l ∧
    scan_bits l = zip (take (Z.to_nat bits) (bits_of tms)) (take (Z.to_nat bits) (bits_of tdi)) ∧
    io_rx s' = take (Z.to_nat n) (tdo_bytes log l) ++ drop (Z.to_nat n) tdo) A Hsn Hb Bt Bd Ht Hd)
    as (s' & a' & E & Et & (msg & Em & El & Eb & Er) & _); [by rewrite Hw| |].
  - rewrite Hw. fold n. intros msg B L P h Hv Hc Hg.
    destruct (bridge_shift_does msg (4 + 2 * word_ceil 4 n) n (view (mkIo (jd a) (tp a) (hdBuf_ a) tdo)) bits)
      as (d & hd & Elog & Ehd & Lh & Bh & Hdo); [apply (ok_tp _ A)|done..|fold nw; lia|fold nw; lia|lia|cbn; lia|cbn; lia|].
    destruct (Hdo _ eq_refl) as (s' & Ex & Hview). injection Hview as Ej Ehd' Erx _ Emx _ Edev.
    exists s'. rewrite Ehd'. split_and!; [exact Ex|done..|]. exists msg. rewrite Edev. split_and!; [done|done| |done].
    apply message_scan; (done || lia).
  - exists msg, (io_rx s'), a'. rewrite Et. done.
Qed.

(** C14: end to end on a debug bridge that behaves as documented: for a
    vector pair of 1 to 2^20 bits that fits the transmit buffer,
    [sendVectors] returns; the pairs of TMS and TDI bits the device has
    clocked into the scan chain are exactly the first [bits] bits of the
    two vectors in order, and the TDO vector holds the answers of the scan
    chain, word by word and least significant byte first, with nothing
    written behind its last byte. *)
Theorem bridge_scan (a : Axis) bits tms tdi tdo :
  axis_ok a → getSniff (jd a) = false → 1 ≤ bits ≤ 2 ^ 20 → bytes tms → bytes tdi → bytes tdo →
  let n := (bits + 7) / 8 in
  n ≤ zlen tms → n ≤ zlen tdi → n ≤ zlen tdo → 4 + 2 * word_ceil 4 n ≤ bufSz_ a →
  let log := ip_log (dev (tp a)) in
  ∃ l tdo' a', sendVectors bits tms tdi tdo a = (Ret tdo', a') ∧
    ip_log (dev (tp a')) = log ++ l ∧
    scan_bits l = zip (take (Z.to_nat bits) (bits_of tms)) (take (Z.to_nat bits) (bits_of tdi)) ∧
    tdo' = take (Z.to_nat n) (concat (le_bytes 4 <$> answers resp log l)) ++ drop (Z.to_nat n) tdo.
Proof.
  intros A Hsn Hb Bt Bd Bo n Ht Hd Ho Hf log.
  destruct (bridge_send a bits tms tdi tdo A Hsn Hb Bt Bd Ht Hd Ho Hf) as (msg & tdo' & a' & E & _ & El & Es & Ed).
  by eexists _, tdo', a'.
Qed.

Lemma bridge_query (a : Axis) : axis_ok a →
  ∃ a', query a = (Ret 0, a') ∧ wordSize_ a' = 4 ∧ memDepth_ a' = 0 ∧ retry_ a' = 0 ∧
    periodNs_ a' = UNKNOWN_PERIOD ∧ bufSz_ a' = bufSz_ a ∧ jd a' = jd a ∧
    maxVec_ (tp a') = maxVec_ (tp a) ∧ wrdSiz_ (tp a') = wrdSiz_ (tp a) ∧ dev (tp a') = dev (tp a).
Proof.
  intros A. pose proof (ok_word _ A) as Hw. cbn in Hw. destruct (ok_hdBuf _ A) as [Hhb Hhl].
  apply (query_default a 4 (λ b, maxVec_ b = maxVec_ (tp a) ∧ wrdSiz_ b = wrdSiz_ (tp a) ∧ dev b = dev (tp a)) A Hw).
  intros txb Hb Hl Hm. destruct (setHdr_ok 4 3 (hdBuf_ a)) as (hd & Eh & Lh & Hh & _ & Bh); [done|done|lia|].
  destruct (bridge_query_does txb 4 0 (view (mkIo (jd a) (tp a) (hdBuf_ a) [])) hd Hm Hb Hl Eh _ eq_refl)
    as (s' & Ex & Hview). injection Hview as Ej Ehd _ _ Emx Ewz Ed.
  exists s'. rewrite Ehd. split_and!; [exact Ex|done|by apply Bh|lia|by apply (header_at_val 4 3 hd)|done..].
Qed.

(** C37: the limit that the driver announces is not protected by its
    buffer.  On the documented device [init] always succeeds and
    announces a target without memory, so that the transmit buffer keeps
    its size; when two vectors of [getMaxVectorSize] bytes and the header
    do not fit it (the default limit of 1024 bytes does not fit the
    initial 2048), a shift of exactly that size, which the server passes
    on, writes past its end. *)
Theorem bridge_init_overflow (a : Axis) tms tdi tdo : axis_ok a → wrdSiz_ (tp a) = 4 →
  let size := maxVec_ (tp a) in
  4 ≤ size ≤ 2 ^ 17 → size `mod` 4 = 0 → bufSz_ a < 4 + 2 * size →
  ∃ a', bridge_init a = (Ret tt, a') ∧ memDepth_ a' = 0 ∧
    getMaxVectorSize (wordSize_ a') (tp a') = size ∧
    fst (sendVectors (8 * size) tms tdi tdo a') = Fault OutOfBounds.
Proof.
  intros A Hz size Hs Hm Hb. destruct (bridge_query a A) as (a' & Eq & Hw & Hd & _ & _ & Hbs & _ & Hmx & Hwz & _).
  pose proof (query_ok a A) as Hq. rewrite Eq in Hq. destruct Hq as (A' & _).
  exists a'. split.
  { unfold bridge_init. rewrite (M_bind_ret _ _ _ tt a') by (unfold init; by rewrite (M_bind_ret _ _ _ _ _ Eq)).
    unfold mbind, M_bind. cbn [gets id]. unfold getWordSize. by rewrite Hw, Hwz, Hz. }
  split; [done|]. split; [done|]. apply send_overflow; [done|lia|]. rewrite Hw, Hbs.
  Z.div_mod_to_equations. lia.
Qed.
End bridge_proofs.

(** ** Instances: a chain that answers with the TDI word inverted, busy for
    up to two polls *)

Module Inverter.
#[local] Existing Instance some_platform.

Definition resp (log : list (Z * Z * Z)) : Z :=
  match last log with Some (_, _, d) => wrap32 (Z.lnot d) | None => 0 end.
Definition busy (log : list (Z * Z * Z)) : nat := (length log mod 3)%nat.

Lemma resp_u32 log : is_u32 (resp log).
Proof. unfold resp. destruct (last log) as [[[? ?] d]|]; [apply wrap32_u32|done]. Qed.
Lemma busy_polls log : (busy log < 3)%nat.
Proof. by apply Nat.mod_upper_bound. Qed.

Definition bridge : JtagDriverZynqAxiDbgBridgeIP ip :=
  mkBridge (mkMap 0x43c00000 4096 0) (mkIp 0 0 0 0 0 []) 1024 4 0 false 100 0 [5; 9; 11] 0.

Lemma constructed :
  bridge_new [] (text "/dev/mem:0x43c00000") 4096 true true (mkIp 0 0 0 0 0 []) [5; 9; 11] = Ret bridge.
Proof. reflexivity. Qed.

(** A message of 43 bits: two word pairs, the second of 11 bits. *)
Definition message : list Z := le_bytes 4 (snd (mkShift 7 43)) ++ seqZ 1 16.
Definition state : io (JtagDriverZynqAxiDbgBridgeIP ip) :=
  mkIo (JtagDriver_new 0) bridge (replicate 16 0) (replicate 8 7).

Lemma bridge_shift_witness :
  let ws := [(32, 0x04030201, 0x08070605); (11, 0x0c0b0a09, 0x100f0e0d)] in
  ∃ s', @bridge_xfer _ _ (ip_mmio resp busy) 3 message 20 4 6 state = (Ret 6, s') ∧
    ip_log (dev (io_tp s')) = [] ++ ws ∧ take 4 (io_hd s') = take 4 message ∧
    io_rx s' = take 6 (concat (le_bytes 4 <$> answers resp [] ws)) ++ [7; 7].
Proof.
  apply (bridge_shift resp busy 3 resp_u32 busy_polls message 20 6 state 43);
    first [reflexivity | (vm_compute; congruence) | (apply (bool_decide_unpack _); vm_compute; exact I)].
Defined.

Definition drv : JtagDriverAxisToJtag (JtagDriverZynqAxiDbgBridgeIP ip) :=
  JtagDriverAxisToJtag_new 0 254 bridge.
Definition tms : list Z := [1; 2; 3; 4; 5; 6].
Definition tdi : list Z := [10; 20; 30; 40; 50; 3].

Lemma inverter_drv_ok : @axis_ok _ _ _ (bridge_laws resp busy 3 resp_u32 busy_polls) drv.
Proof. apply axis_new_ok; [unfold is_byte; lia|done]. Qed.

Lemma bridge_scan_witness :
  ∃ l tdo' a',
    @sendVectors _ _ (bridge_transport resp busy 3) 43 tms tdi (replicate 8 0) drv = (Ret tdo', a') ∧
    ip_log (dev (tp a')) = [] ++ l ∧
    scan_bits l = zip (take 43 (bits_of tms)) (take 43 (bits_of tdi)) ∧
    tdo' = take 6 (concat (le_bytes 4 <$> answers resp [] l)) ++ [0; 0].
Proof.
  apply (bridge_scan resp busy 3 resp_u32 busy_polls drv 43 tms tdi (replicate 8 0));
    first [exact inverter_drv_ok | reflexivity | (vm_compute; congruence) | (vm_compute; split; congruence)
      | (apply (bool_decide_unpack _); vm_compute; exact I)].
Defined.

Lemma bridge_init_overflow_witness :
  2048 < 4 + 2 * 1024 ∧
  ∃ a', @bridge_init _ _ (bridge_transport resp busy 3) drv = (Ret tt, a') ∧ memDepth_ a' = 0 ∧
    bridge_getMaxVectorSize (tp a') = 1024 ∧
    fst (@sendVectors _ _ (bridge_transport resp busy 3) (8 * 1024) (replicate 1024 0) (replicate 1024 0)
           (replicate 1024 0) a') = Fault OutOfBounds.
Proof.
  split; [lia|].
  apply (bridge_init_overflow resp busy 3 resp_u32 busy_polls drv (replicate 1024 0) (replicate 1024 0)
    (replicate 1024 0) inverter_drv_ok); first [reflexivity | simpl; lia].
Defined.
End Inverter.
