(* ===== verification/Stream.v ===== *)
(** * What the drivers of word FIFOs share (parts of xvcDrvAxisFifo.cc and
    xvcDrvAxisTmem.cc)

    Both drivers push the message word by word, wait, and pull the reply:
    the header, the payload, and what is in excess.  The loops are
    parameterised by the access to the FIFO, which is a register at a
    different place and in a different byte order, and so are their
    theorems. *)

From stdpp Require Import base numbers option list strings.
From Stdlib Require Import ZArith Lia.
From S2P Require Import Prelude Header Tap Driver.
#[local] Open Scope Z_scope.

(** What an interrupt descriptor does: the events that are read from it,
    or a failure of one of the two system calls. *)
Inductive irq := Irq (evs : Z) | IrqWriteFails | IrqReadFails.

Definition irq_good (e : irq) : bool := match e with Irq _ => true | _ => false end.

(** ** The buffers of a transfer *)

(** Run an action on the state of the transport. *)
Definition on_tp {T A} (m : M T A) : M (io T) A :=
  zoom io_tp (λ b s, mkIo (io_jd s) b (io_hd s) (io_rx s)) m.

Section buffers.
Context `{Platform} {T : Type}.
Abbreviation X := (M (io T)).

(** [memcpy( &w, &buf[off], 4 )] *)
Definition load_at (off : Z) (buf : list Z) : outcome Z := bs ← rd off 4 buf; Ret (load32 bs).
(** [memcpy( &buf[off], &w, n )] *)
Definition store_at (off w n : Z) (buf : list Z) : outcome (list Z) := memcpy off (store32 w) 0 n buf.

Definition put_hd (f : list Z → outcome (list Z)) : X unit :=
  s ← gets id; hd ← lift (f (io_hd s));
  modify (λ s, mkIo (io_jd s) (io_tp s) hd (io_rx s)).
Definition put_rx (f : list Z → outcome (list Z)) : X unit :=
  s ← gets id; rx ← lift (f (io_rx s));
  modify (λ s, mkIo (io_jd s) (io_tp s) (io_hd s) rx).

(** Drop a reply now and then, when this is enabled. *)
Definition drop_reply : X unit :=
  en ← gets (λ s, drEn_ (io_jd s));
  if en : bool then
    modify (λ s, mkIo (set_drop (wrap32 (drop_ (io_jd s) + 1)) (io_jd s)) (io_tp s) (io_hd s) (io_rx s)) ;;
    n ← gets (λ s, drop_ (io_jd s));
    if Z.land n 0xff =? 0 then throw TimeoutErr else mret tt
  else mret tt.

(** ** Sending: [push] writes a word to the transmit FIFO. *)
Section push.
Context (push : Z → M T unit).

(** [for ( i=0; i<txWords; i++ )] *)
Fixpoint push_words (fuel : nat) (txb : list Z) (txWords i : Z) : X unit :=
  if i <? txWords then
    match fuel with
    | O => no_fuel
    | S fuel =>
        w ← lift (load_at (4 * i) txb);
        on_tp (push w) ;;
        push_words fuel txb txWords (i + 1)
    end
  else mret tt.
End push.

(** ** Receiving: [pull] reads a word from the receive FIFO. *)
Section pull.
Context (pull : M T Z).

(** [for ( i=0; i<hsize; i+= 4 )]; the result is [got]. *)
Fixpoint pull_header (fuel : nat) (hsize got i : Z) : X Z :=
  if i <? hsize then
    match fuel with
    | O => no_fuel
    | S fuel =>
        w ← on_tp pull;
        if got <? 4 then throw (ProtoErr "Didn't receive enough data for header")
        else
          put_hd (store_at i w 4) ;;
          pull_header fuel hsize (got - 4) (i + 4)
    end
  else mret got.

(** [for ( i=0; i<4*minw; i+=4 )] *)
Fixpoint pull_words (fuel : nat) (lim i : Z) : X Z :=
  if i <? lim then
    match fuel with
    | O => no_fuel
    | S fuel =>
        w ← on_tp pull;
        put_rx (store_at i w 4) ;;
        pull_words fuel lim (wrap32 (i + 4))
    end
  else mret i.

(** [while ( i < got )] *)
Fixpoint discard (fuel : nat) (got i : Z) : X unit :=
  if i <? got then
    match fuel with
    | O => no_fuel
    | S fuel => on_tp pull ;; discard fuel got (wrap32 (i + 4))
    end
  else mret tt.

(** Store [min] of the [got] bytes and discard the excess. *)
Definition pull_payload (min got : Z) : X unit :=
  let minw := min / 4 in
  i ← pull_words (Z.to_nat minw) (4 * minw) 0;
  let rem := wrap32 (min - i) in
  i ← (if negb (rem =? 0) then
         w ← on_tp pull;
         put_rx (store_at i w rem) ;;
         mret (wrap32 (i + 4))
       else mret i);
  discard (Z.to_nat got) got i.

(** Everything after the number of bytes has been read. *)
Definition receive (hsize size got : Z) : X Z :=
  if 0 =? got then throw (ProtoErr "Didn't receive enough data for header")
  else
    got ← pull_header (Z.to_nat hsize) hsize got 0;
    let min := if size <? got then size else got in
    pull_payload min got ;;
    drop_reply ;;
    mret min.
End pull.
End buffers.

(** ** Words and bytes *)

(** A packet as little-endian words, the last one padded with zeros. *)
Fixpoint words_of (l : list Z) : list Z :=
  match l with
  | a :: b :: c :: d :: t => le_val [a; b; c; d] :: words_of t
  | [] => []
  | _ => [le_val l]
  end.

Lemma words_of_drop l : words_of (drop 4 l) = tail (words_of l).
Proof. by destruct l as [|a [|b [|c [|d t]]]]. Qed.
Lemma words_of_head l : default 0 (head (words_of l)) = le_val (take 4 l).
Proof. by destruct l as [|a [|b [|c [|d t]]]]. Qed.

Lemma le_val_zeros l k : le_val (l ++ replicate k 0) = le_val l.
Proof.
  induction l as [|b l IH]; [|cbn [app le_val]; lia].
  induction k as [|k IH]; [done|]. cbn [app replicate le_val] in *. lia.
Qed.

(** A word that is not full is padded with zeros. *)
Lemma word_padded w : bytes w → (length w ≤ 4)%nat → le_bytes 4 (le_val w) = w ++ replicate (4 - length w) 0.
Proof.
  intros Hb Hw. rewrite <-(le_val_zeros w (4 - length w)).
  replace 4%nat with (length (w ++ replicate (4 - length w) 0)) at 1 by len.
  apply le_bytes_le_val, bytes_app. split; [done|]. apply Forall_replicate. unfold is_byte. lia.
Qed.

(** The first bytes of a word that was read. *)
Lemma word_prefix n l : bytes l → (n ≤ 4)%nat → (n ≤ length l)%nat →
  take n (le_bytes 4 (le_val (take 4 l))) = take n l.
Proof.
  intros Hb H4 Hn. rewrite word_padded, take_app_le, take_take by (auto with xvc; len). f_equal. lia.
Qed.

(** Words that are pushed one by one make up the bytes of the message. *)
Fixpoint pushed (n : nat) (l : list Z) : list Z :=
  match n with O => [] | S n => le_val (take 4 l) :: pushed n (drop 4 l) end.

Lemma pushed_length n : ∀ l, length (pushed n l) = n.
Proof. induction n; intros; cbn; auto. Qed.
Lemma pushed_bytes n : ∀ l, bytes l → (4 * n ≤ length l)%nat →
  concat (le_bytes 4 <$> pushed n l) = take (4 * n) l.
Proof.
  induction n as [|n IH]; intros l Hb Hl; [done|]. cbn [pushed]. rewrite fmap_cons. cbn [concat].
  rewrite IH by (auto with xvc; rewrite length_drop; lia).
  replace (4 * S n)%nat with (4 + 4 * n)%nat by lia.
  rewrite <-(take_ge (le_bytes 4 _) 4) by (by rewrite le_bytes_length).
  rewrite word_prefix by (done || lia). by rewrite take_take_drop.
Qed.

Lemma pushed_snoc n : ∀ l, pushed (S n) l = pushed n l ++ [le_val (take 4 (drop (4 * n) l))].
Proof.
  induction n as [|n IH]; intros l; [done|].
  change (pushed (S (S n)) l) with (le_val (take 4 l) :: pushed (S n) (drop 4 l)).
  rewrite IH, drop_drop. by replace (4 * S n)%nat with (4 + 4 * n)%nat by lia.
Qed.

Lemma take_pushed m n : ∀ l, take m (pushed n l) = pushed (m `min` n) l.
Proof. revert n. induction m as [|m IH]; intros [|n] l; try done. cbn. by rewrite IH. Qed.

Lemma take_add (n m : nat) (l : list Z) : take (n + m) l = take n l ++ take m (drop n l).
Proof. symmetry. apply take_take_drop. Qed.

(** Lists of words, of any length, of whole messages. *)
Lemma message_words wsz txBytes size txb : 4 ≤ wsz ≤ 16 → wsz `mod` 4 = 0 → message_ok wsz txBytes size txb →
  ∃ k, txBytes = 4 * k ∧ 1 ≤ k ∧ 4 * k < 2 ^ 31.
Proof.
  intros Hw Hm (Hl & Hb & Hk). pose proof (Z.div_mod wsz 4 ltac:(lia)) as Hd.
  destruct Hk as [[_ ->]|[(_ & -> & _)|(_ & Hc & bits & Hg & Es & ->)]]; [exists (wsz / 4); lia..|].
  rewrite getLen_digit in Hg by done. injection Hg as <-.
  pose proof (Z.mod_pos_bound (le_val (take 4 txb)) (2 ^ 20) ltac:(lia)).
  pose proof (word_ceil_bounds wsz size ltac:(lia)) as Hc'. unfold word_ceil in Hc'.
  assert (size ≤ 2 ^ 17) by (subst size; Z.div_mod_to_equations; lia).
  set (q := (size + wsz - 1) / wsz) in *. exists (wsz / 4 + 2 * (q * (wsz / 4))). nia.
Qed.

(** What a device that is a function of the packets it has got answers to a
    query: words of a size in [W], or too small ones. *)
Definition announces (fw : list (list Z) → list Z) (W : Z → Prop) : Prop :=
  ∀ log p, W (zlen p) → le_val (take 4 p) = mkQuery →
    let w := wordSize (le_val (take 4 (fw (log ++ [p])))) in w < 4 ∨ W w.

Lemma announced_word fw W log wsz txBytes size txb : announces fw W → W wsz → 4 ≤ wsz → message_ok wsz txBytes size txb →
  le_val (take 4 txb) = mkQuery →
  let w := wordSize (le_val (take 4 (fw (log ++ [take (Z.to_nat txBytes) txb])))) in txBytes = wsz ∧ (w < 4 ∨ W w).
Proof.
  intros HW Hwz H4 (Hl & _ & Hk) Hq. cbv zeta in Hk. rewrite Hq in Hk.
  destruct Hk as [[_ ->]|[[Hk _]|(_ & Hk & _)]]; [|done..]. split; [done|].
  apply HW; [by replace (zlen (take (Z.to_nat wsz) txb)) with wsz by len|].
  by rewrite take_take, Nat.min_l by lia.
Qed.

(** What [receive] stores stays within the buffers. *)
Lemma received_ok hsize size r hd rx hd' rx' : bytes r → 0 < hsize ≤ 16 → buffers_ok size hd rx →
  (if zlen r <? hsize then rx' = rx ∧ length hd' = length hd ∧ (bytes hd → bytes hd')
   else let n := Z.min size (zlen r - hsize) in
     hd' = take (Z.to_nat hsize) r ++ drop (Z.to_nat hsize) hd ∧
     rx' = take (Z.to_nat n) (drop (Z.to_nat hsize) r) ++ drop (Z.to_nat n) rx) →
  buffers_ok size hd' rx' ∧ rx_frame size rx rx'.
Proof.
  intros Hr Hh (Hhd & Hhb & Hsz & Hrb). unfold buffers_ok. destruct (Z.ltb_spec (zlen r) hsize); cbv zeta.
  - intros (-> & -> & Hb). split; [|apply rx_frame_refl]. split_and!; auto; lia.
  - set (n := Z.min size (zlen r - hsize)). intros (-> & ->). destruct (reply_frame n (drop (Z.to_nat hsize) r) rx) as [Lf Hf]; [len|lia|].
    assert (Hb : ∀ k l l', bytes l → bytes l' → bytes (take k l ++ drop k l'))
      by (intros; apply bytes_app; auto with xvc).
    split; [split_and!; [len|auto|lia|lia|auto with xvc]|]. split; [done|]. intros i Hi. apply Hf. lia.
Qed.

(** ** The transfer seen through a view of the transport *)
Record ioV (V : Type) := mkV { v_jd : JtagDriver; v_hd : list Z; v_rx : list Z; v_tp : V }.
Arguments mkV {V}. Arguments v_jd {V}. Arguments v_hd {V}. Arguments v_rx {V}. Arguments v_tp {V}.

Section view.
Context `{Platform} {T V : Type} (view : T → V).
Implicit Types j : JtagDriver.

Definition io_view (s : io T) : ioV V := mkV (io_jd s) (io_hd s) (io_rx s) (view (io_tp s)).
Abbreviation does := (runs io_view).

Lemma io_view_inv s j hd rx v : io_view s = mkV j hd rx v →
  io_jd s = j ∧ io_hd s = hd ∧ io_rx s = rx ∧ view (io_tp s) = v.
Proof. by intros [= -> -> -> ->]. Qed.

Lemma on_tp_does {A} j hd rx v (m : M T A) a w : runs view v m a w →
  does (mkV j hd rx v) (on_tp m) a (mkV j hd rx w).
Proof.
  intros Hm [j' t hd' rx'] Hs. injection Hs as -> -> -> Hv. destruct (Hm t Hv) as (t' & E & <-).
  exists (mkIo j t' hd rx). split; [|done]. unfold on_tp, zoom. cbn [io_tp]. by rewrite E.
Qed.

Lemma on_tp_yields {A} j hd rx v (m : M T A) P w : yields view v m P w →
  yields io_view (mkV j hd rx v) (on_tp m) P (mkV j hd rx w).
Proof.
  intros Hm [j' t hd' rx'] Hs. injection Hs as -> -> -> Hv. destruct (Hm t Hv) as (a & t' & E & Ha & <-).
  exists a, (mkIo j t' hd rx). split; [|done]. unfold on_tp, zoom. cbn [io_tp]. by rewrite E.
Qed.

Lemma put_hd_does j hd hd' rx v f : f hd = Ret hd' → does (mkV j hd rx v) (put_hd f) tt (mkV j hd' rx v).
Proof.
  intros E [j' t hd1 rx'] Hs. injection Hs as -> -> -> Hv. unfold put_hd, mbind, M_bind, gets, id, lift.
  cbn [io_hd]. rewrite E. eexists. split; [done|]. by rewrite <-Hv.
Qed.
Lemma put_rx_does j hd rx rx' v f : f rx = Ret rx' → does (mkV j hd rx v) (put_rx f) tt (mkV j hd rx' v).
Proof.
  intros E [j' t hd1 rx1] Hs. injection Hs as -> -> -> Hv. unfold put_rx, mbind, M_bind, gets, id, lift.
  cbn [io_rx]. rewrite E. eexists. split; [done|]. by rewrite <-Hv.
Qed.

(** The base class changes at most its count of dropped replies, and only
    when the driver is to drop some. *)
Definition jd_same (j j' : JtagDriver) : Prop := debug_ j' = debug_ j ∧ (drEn_ j = false → j' = j).

Lemma drop_reply_cases (s : io T) : ∃ o s', drop_reply s = (o, s') ∧
  (o = Ret tt ∨ o = Throw TimeoutErr ∧ drEn_ (io_jd s) = true) ∧
  io_tp s' = io_tp s ∧ io_hd s' = io_hd s ∧ io_rx s' = io_rx s ∧ jd_same (io_jd s) (io_jd s').
Proof.
  unfold drop_reply, mbind, M_bind, gets, modify, jd_same. destruct (drEn_ (io_jd s)); [destruct (Z.land _ _ =? 0)|];
    eexists _, _; (split; [reflexivity|]); split_and!; auto; by intros [=].
Qed.

(** *** Sending *)
Section push.
Context (push : Z → M T unit) (out : list Z → V).
Context (Hpush : ∀ l bs, bytes bs → length bs = 4%nat →
  runs view (out l) (push (load32 bs)) tt (out (l ++ [le_val bs]))).

Lemma push_words_does txb n : ∀ fuel i l j hd rx, bytes txb → (n ≤ fuel)%nat → 0 ≤ i →
  4 * (i + Z.of_nat n) ≤ zlen txb →
  does (mkV j hd rx (out l)) (push_words push fuel txb (i + Z.of_nat n) i) tt
    (mkV j hd rx (out (l ++ pushed n (drop (Z.to_nat (4 * i)) txb)))).
Proof.
  induction n as [|n IH]; intros fuel i l j hd rx Hb Hf Hi Hl.
  - replace (push_words push fuel txb _ i) with (mret tt : M (io T) unit)
      by (destruct fuel; cbn [push_words]; by rewrite Z.add_0_r, Z.ltb_irrefl).
    rewrite app_nil_r. apply runs_ret.
  - destruct fuel as [|fuel]; [lia|]. cbn [push_words]. zbool.
    set (bs := take 4 (drop (Z.to_nat (4 * i)) txb)).
    eapply runs_bind; [apply runs_lift; unfold load_at; by rewrite rd_ok by lia|]. fold bs.
    eapply runs_bind; [apply on_tp_does, Hpush; subst bs; [auto with xvc|len]|].
    replace (i + Z.of_nat (S n)) with ((i + 1) + Z.of_nat n) by lia.
    assert (E : l ++ pushed (S n) (drop (Z.to_nat (4 * i)) txb) =
                (l ++ [le_val bs]) ++ pushed n (drop (Z.to_nat (4 * (i + 1))) txb)).
    { rewrite <-app_assoc. cbn [pushed app]. rewrite drop_drop. do 4 f_equal. lia. }
    rewrite E. apply IH; (done || len).
Qed.
End push.

(** *** Receiving: in the state [st r] the bytes [r] are left to be pulled. *)
Section pull.
Context (pull : M T Z) (st : list Z → V).
Context (Hpull : ∀ r, bytes r → ∃ w, (r ≠ [] → store32 w = le_bytes 4 (le_val (take 4 r))) ∧
  runs view (st r) pull w (st (drop 4 r))).

Lemma store_split pre old r w n : bytes r → store32 w = le_bytes 4 (le_val (take 4 r)) →
  0 ≤ n ≤ 4 → n ≤ zlen r → n ≤ zlen old →
  store_at (zlen pre) w n (pre ++ old) = Ret (pre ++ take (Z.to_nat n) r ++ drop (Z.to_nat n) old).
Proof.
  intros Hb Hw Hn Hr Ho. unfold store_at, memcpy. rewrite Hw, rd_ok by len.
  cbn [mbind outcome_bind]. rewrite drop_0, word_prefix by (done || lia).
  rewrite <-(take_drop (Z.to_nat n) old) at 1. apply wr_split. len.
Qed.

Lemma nonempty n (r : list Z) : (0 < n)%nat → (4 * n ≤ length r)%nat → r ≠ [].
Proof. intros Hn Hr ->. simpl in Hr. lia. Qed.

Ltac at_next pre r :=
  let pre' := fresh "pre" in
  set (pre' := pre ++ take 4 r);
  replace (zlen pre + 4) with (zlen pre') by (subst pre'; len);
  rewrite (app_assoc pre); fold pre'.

Lemma pull_header_does n : ∀ fuel r pre old j rx, (n ≤ fuel)%nat → bytes r →
  (4 * n ≤ length r)%nat → (4 * n ≤ length old)%nat →
  does (mkV j (pre ++ old) rx (st r))
    (pull_header pull fuel (zlen pre + 4 * Z.of_nat n) (zlen r) (zlen pre)) (zlen r - 4 * Z.of_nat n)
    (mkV j (pre ++ take (4 * n) r ++ drop (4 * n) old) rx (st (drop (4 * n) r))).
Proof.
  induction n as [|n IH]; intros fuel r pre old j rx Hf Hb Hr Ho.
  - replace (pull_header pull fuel _ _ _) with (mret (zlen r) : M (io T) Z)
      by (destruct fuel; cbn [pull_header]; by rewrite Z.add_0_r, Z.ltb_irrefl).
    rewrite Z.sub_0_r. apply runs_ret.
  - destruct fuel as [|fuel]; [lia|]. cbn [pull_header]. zbool.
    destruct (Hpull r Hb) as (x & Hx & Hp). eapply runs_bind; [apply on_tp_does, Hp|]. zbool.
    eapply runs_bind; [apply put_hd_does, store_split; [done|apply Hx, (nonempty (S n)); lia|lia..]|].
    change (Z.to_nat 4) with 4%nat. at_next pre r.
    replace (zlen pre + 4 * Z.of_nat (S n)) with (zlen pre0 + 4 * Z.of_nat n) by (subst pre0; len).
    replace (zlen r - 4) with (zlen (drop 4 r)) by len.
    replace (zlen r - 4 * Z.of_nat (S n)) with (zlen (drop 4 r) - 4 * Z.of_nat n) by len.
    pose proof (IH fuel (drop 4 r) pre0 (drop 4 old) j rx) as Hi. rewrite !drop_drop in Hi.
    replace (4 * S n)%nat with (4 + 4 * n)%nat by lia. rewrite take_add, <-(app_assoc (take 4 r)), (app_assoc pre).
    fold pre0. apply Hi; [lia|auto with xvc|len|len].
Qed.

Lemma pull_words_does n : ∀ fuel r pre old j hd, (n ≤ fuel)%nat → bytes r →
  (4 * n ≤ length r)%nat → (4 * n ≤ length old)%nat → zlen pre + 4 * Z.of_nat n < 2 ^ 32 →
  does (mkV j hd (pre ++ old) (st r))
    (pull_words pull fuel (zlen pre + 4 * Z.of_nat n) (zlen pre)) (zlen pre + 4 * Z.of_nat n)
    (mkV j hd (pre ++ take (4 * n) r ++ drop (4 * n) old) (st (drop (4 * n) r))).
Proof.
  induction n as [|n IH]; intros fuel r pre old j hd Hf Hb Hr Ho H32.
  - replace (pull_words pull fuel _ _) with (mret (zlen pre) : M (io T) Z)
      by (destruct fuel; cbn [pull_words]; by rewrite Z.add_0_r, Z.ltb_irrefl).
    rewrite Z.add_0_r. apply runs_ret.
  - destruct fuel as [|fuel]; [lia|]. cbn [pull_words]. zbool.
    destruct (Hpull r Hb) as (x & Hx & Hp). eapply runs_bind; [apply on_tp_does, Hp|].
    eapply runs_bind; [apply put_rx_does, store_split; [done|apply Hx, (nonempty (S n)); lia|lia..]|].
    rewrite (wrap32_small (zlen pre + 4)) by (unfold is_u32; lia).
    change (Z.to_nat 4) with 4%nat. at_next pre r.
    replace (zlen pre + 4 * Z.of_nat (S n)) with (zlen pre0 + 4 * Z.of_nat n) in * by (subst pre0; len).
    pose proof (IH fuel (drop 4 r) pre0 (drop 4 old) j hd) as Hi. rewrite !drop_drop in Hi.
    replace (4 * S n)%nat with (4 + 4 * n)%nat by lia. rewrite take_add, <-(app_assoc (take 4 r)), (app_assoc pre).
    fold pre0. apply Hi; [lia|auto with xvc|len|len|done].
Qed.

Lemma discard_does fuel : ∀ r got i j hd rx, bytes r → zlen r = Z.max 0 (got - i) → 0 ≤ i →
  got - i ≤ Z.of_nat fuel → got < 2 ^ 31 →
  does (mkV j hd rx (st r)) (discard pull fuel got i) tt (mkV j hd rx (st [])).
Proof.
  induction fuel as [|fuel IH]; intros r got i j hd rx Hb Hl Hi Hf Hg; cbn [discard].
  - zbool. destruct r; [apply runs_ret|simpl in Hl; lia].
  - destruct (Z.ltb_spec i got) as [Hlt|Hge].
    + destruct (Hpull r Hb) as (x & _ & Hp). eapply runs_bind; [apply on_tp_does, Hp|].
      rewrite (wrap32_small (i + 4)) by (unfold is_u32; lia). apply IH; [auto with xvc|len|lia..].
    + destruct r; [apply runs_ret|simpl in Hl; lia].
Qed.

Lemma pull_payload_does n r j hd rx : bytes r → 0 ≤ n ≤ zlen rx → n ≤ zlen r → zlen r < 2 ^ 31 →
  does (mkV j hd rx (st r)) (pull_payload pull n (zlen r)) tt
    (mkV j hd (take (Z.to_nat n) r ++ drop (Z.to_nat n) rx) (st [])).
Proof.
  intros Hb Hn Hr H31. unfold pull_payload. cbv zeta.
  pose proof (Z.div_mod n 4 ltac:(lia)) as Hdm. pose proof (Z.mod_pos_bound n 4 ltac:(lia)) as Hm.
  assert (Hq4 : ∃ q : nat, n / 4 = Z.of_nat q) by (exists (Z.to_nat (n / 4)); Z.div_mod_to_equations; lia).
  destruct Hq4 as [q Eq]. rewrite Eq in *. rewrite (Nat2Z.id q). clear Eq.
  pose proof (pull_words_does q q r [] rx j hd) as Hw. cbn [app length] in Hw.
  change (Z.of_nat 0) with 0 in Hw. rewrite Z.add_0_l in Hw.
  eapply runs_bind; [apply Hw; (done || lia)|]. clear Hw.
  rewrite (wrap32_small (n - _)) by (unfold is_u32; lia).
  set (r1 := drop (4 * q) r). assert (Hb1 : bytes r1) by (subst r1; auto with xvc).
  destruct (Z.eqb_spec (n - 4 * Z.of_nat q) 0) as [E|E]; cbn [negb].
  - eapply runs_bind; [apply runs_ret|]. replace (Z.to_nat n) with (4 * q)%nat by lia.
    apply discard_does; [done|subst r1; len|lia..].
  - assert (Hpre : zlen (take (4 * q) r) = 4 * Z.of_nat q) by len.
    assert (Hne : r1 ≠ []) by (intros Ez; assert (zlen r1 = 0) by (by rewrite Ez); subst r1; len).
    destruct (Hpull r1 Hb1) as (x & Hx & Hp).
    eapply runs_bind.
    { eapply runs_bind; [apply on_tp_does, Hp|]. eapply runs_bind; [|apply runs_ret].
      rewrite <-Hpre. apply put_rx_does, store_split; subst r1; [done|by apply Hx|len..]. }
    rewrite (wrap32_small (_ + 4)) by (unfold is_u32; len).
    replace (take (Z.to_nat n) r) with (take (4 * q) r ++ take (Z.to_nat (n - zlen (take (4 * q) r))) r1).
    2:{ rewrite Hpre. subst r1. rewrite <-take_add. f_equal. lia. }
    rewrite <-app_assoc. replace (drop (Z.to_nat n) rx) with (drop (Z.to_nat (n - zlen (take (4 * q) r))) (drop (4 * q) rx)).
    2:{ rewrite drop_drop. f_equal. lia. }
    apply discard_does; subst r1; [auto with xvc|len|len..].
Qed.

(** A reply that ends within the header. *)
Lemma pull_header_short n : ∀ fuel hsize r pre old j rx, (n < fuel)%nat → bytes r →
  (4 * n ≤ length r < 4 * n + 4)%nat → zlen pre + 4 * Z.of_nat n < hsize → (4 * n ≤ length old)%nat →
  fails io_view (mkV j (pre ++ old) rx (st r)) (pull_header pull fuel hsize (zlen r) (zlen pre))
    (ProtoErr "Didn't receive enough data for header")
    (mkV j (pre ++ take (4 * n) r ++ drop (4 * n) old) rx (st [])).
Proof.
  induction n as [|n IH]; intros fuel hsize r pre old j rx Hf Hb Hr Hz Ho;
    (destruct fuel as [|fuel]; [lia|]); cbn [pull_header]; zbool;
    destruct (Hpull r Hb) as (x & Hx & Hp); (eapply fails_bind; [apply on_tp_does, Hp|]); zbool.
  - rewrite drop_ge by lia. apply fails_throw.
  - eapply fails_bind; [apply put_hd_does, store_split; [done|apply Hx, (nonempty (S n)); lia|lia..]|].
    change (Z.to_nat 4) with 4%nat. at_next pre r. replace (zlen r - 4) with (zlen (drop 4 r)) by len.
    pose proof (IH fuel hsize (drop 4 r) pre0 (drop 4 old) j rx) as Hi. rewrite !drop_drop in Hi.
    replace (4 * S n)%nat with (4 + 4 * n)%nat by lia. rewrite take_add, <-(app_assoc (take 4 r)), (app_assoc pre).
    fold pre0. apply Hi; [lia|auto with xvc|len|subst pre0; len|len].
Qed.

(** The reply [r] is received: what is returned and stored, and nothing is
    left. *)
Lemma receive_spec hsize size r (s : io T) : view (io_tp s) = st r → bytes r → zlen r < 2 ^ 31 →
  0 < hsize ≤ zlen (io_hd s) → hsize `mod` 4 = 0 → 0 ≤ size ≤ zlen (io_rx s) →
  let n := Z.min size (zlen r - hsize) in
  let (o, s') := receive pull hsize size (zlen r) s in
  view (io_tp s') = st [] ∧ jd_same (io_jd s) (io_jd s') ∧
  if zlen r <? hsize then
    o = Throw (ProtoErr "Didn't receive enough data for header") ∧ io_rx s' = io_rx s ∧
    length (io_hd s') = length (io_hd s) ∧ (bytes (io_hd s) → bytes (io_hd s'))
  else
    (o = Ret n ∨ o = Throw TimeoutErr ∧ drEn_ (io_jd s) = true) ∧
    io_hd s' = take (Z.to_nat hsize) r ++ drop (Z.to_nat hsize) (io_hd s) ∧
    io_rx s' = take (Z.to_nat n) (drop (Z.to_nat hsize) r) ++ drop (Z.to_nat n) (io_rx s).
Proof.
  intros Hs Hb H31 Hh Hm Hz n. destruct s as [j t hd rx]. cbn [io_jd io_hd io_rx io_tp] in *.
  assert (Hq4 : ∃ q : nat, hsize = 4 * Z.of_nat q) by (exists (Z.to_nat (hsize / 4)); Z.div_mod_to_equations; lia).
  destruct Hq4 as [q Eq]. unfold receive. destruct (Z.ltb_spec (zlen r) hsize) as [Hlt|Hge].
  - destruct (Z.eqb_spec 0 (zlen r)) as [E0|Hne].
    { destruct r; [|simpl in E0; lia]. cbn. done. }
    assert (Hdm := Nat.div_mod (length r) 4 ltac:(lia)). pose proof (Nat.mod_upper_bound (length r) 4 ltac:(lia)).
    set (k := (length r / 4)%nat) in *.
    destruct (pull_header_short k (Z.to_nat hsize) hsize r [] hd j rx) with (mkIo j t hd rx)
      as (s' & E & Hv); [lia|done|lia|simpl; lia|lia|by unfold io_view; cbn; rewrite Hs|].
    cbn [app length] in E, Hv. change (Z.of_nat 0) with 0 in E.
    unfold mbind, M_bind. rewrite E. injection Hv as -> -> -> ->. split_and!; try done; [len|].
    intros ?. apply bytes_app. auto with xvc.
  - rewrite (proj2 (Z.eqb_neq 0 (zlen r))) by lia.
    destruct (pull_header_does q (Z.to_nat hsize) r [] hd j rx) with (mkIo j t hd rx)
      as (s1 & E1 & Hv1); [lia|done|lia|lia|by unfold io_view; cbn; rewrite Hs|].
    cbn [app length] in E1, Hv1. change (Z.of_nat 0) with 0 in E1. rewrite Z.add_0_l, <-Eq in E1.
    rewrite (M_bind_ret _ _ _ _ _ E1). cbv zeta.
    replace (if size <? zlen r - hsize then size else zlen r - hsize) with n
      by (subst n; destruct (Z.ltb_spec size (zlen r - hsize)); lia).
    replace (zlen r - hsize) with (zlen (drop (4 * q) r)) by len.
    destruct (pull_payload_does n (drop (4 * q) r) j (take (4 * q) r ++ drop (4 * q) hd) rx) with s1
      as (s2 & E2 & Hv2); [auto with xvc|lia|len|len|done|].
    assert (Eh4 : (4 * q)%nat = Z.to_nat hsize) by lia. rewrite Eh4 in Hv2.
    rewrite (M_bind_ret _ _ _ _ _ E2). injection Hv2 as Hj2 Hh2 Hr2 Hs2.
    destruct (drop_reply_cases s2) as (o & s3 & E3 & Ho & Et & Eh & Er & Ed). unfold mbind, M_bind. rewrite E3.
    rewrite Hj2 in Ho.
    destruct Ho as [-> |[-> Hd]]; cbn [mret M_ret]; cbv iota; rewrite Hj2 in Ed; rewrite Et, Eh, Er, Hh2, Hr2; split_and!; auto.
Qed.
End pull.
End view.
