(* ===== verification/Fifo.v ===== *)
(** * The driver for the AXI stream FIFO (class [JtagDriverZynqFifo],
    xvcDrvAxisFifo.cc)

    The message is pushed word by word into the transmit FIFO, the reply is
    pulled from the receive FIFO: header, payload, and what is in excess.
    It is shown that on a FIFO that behaves as documented, in front of any
    firmware, [xfer] exchanges exactly one packet and leaves the FIFO
    empty. *)

From stdpp Require Import base numbers option list strings.
From Stdlib Require Import ZArith Lia.
From S2P Require Import Prelude Header Tap Driver Mmio Stream.
#[local] Open Scope Z_scope.

Definition TX_STA_IDX : Z := 0.
Definition TX_IEN_IDX : Z := 1.
Definition TX_RST_IDX : Z := 2.
Definition RST_MAGIC : Z := 0xa5.
Definition TX_DAT_IDX : Z := 4.
Definition TX_END_IDX : Z := 5.
Definition TX_SIZ_IDX : Z := 6.
Definition RX_STA_IDX : Z := 8.
Definition RX_IEN_IDX : Z := 9.
Definition RX_RST_IDX : Z := 10.
Definition RX_DAT_IDX : Z := 12.
Definition RX_CNT_IDX : Z := 13.
Definition RX_RDY_SHF : Z := 5.
Definition RX_RST_SHF : Z := 0.
Definition TX_RST_SHF : Z := 0.

Record JtagDriverZynqFifo (Dev : Type) := mkFifo {
  map_ : MemMap;
  dev : Dev;
  maxVec_ : Z;
  wrdSiz_ : Z;
  useIrq_ : bool;
  irqs_ : list irq;     (* an empty schedule is a single event each time *)
}.
Arguments mkFifo {Dev}. Arguments map_ {Dev}. Arguments dev {Dev}. Arguments maxVec_ {Dev}.
Arguments wrdSiz_ {Dev}. Arguments useIrq_ {Dev}. Arguments irqs_ {Dev}.

Section fifo.
Context `{Platform} {Dev : Type} `{Mmio Dev}.
Abbreviation FD := (JtagDriverZynqFifo Dev).

Definition fd_set_dev (d : Dev) (b : FD) : FD :=
  mkFifo (map_ b) d (maxVec_ b) (wrdSiz_ b) (useIrq_ b) (irqs_ b).

Definition i32 (idx : Z) : M FD Z := λ b,
  let (o, d) := map_rd (map_ b) idx (dev b) in (o, fd_set_dev d b).
Definition o32 (idx v : Z) : M FD unit := λ b,
  let (o, d) := map_wr (map_ b) idx v (dev b) in (o, fd_set_dev d b).

Definition wait : M FD Z := λ b,
  if useIrq_ b then
    let b' := mkFifo (map_ b) (dev b) (maxVec_ b) (wrdSiz_ b) (useIrq_ b) (tail (irqs_ b)) in
    match head (irqs_ b) with
    | Some IrqWriteFails => (Throw (SysErr "Unable to write to IRQ descriptor"), b')
    | Some IrqReadFails => (Throw (SysErr "Unable to read from IRQ descriptor"), b')
    | Some (Irq evs) => (Ret evs, b')
    | None => (Ret 1, b')
    end
  else (Ret 0, b).

(** The [while ( 1 )] loop of [reset]; [set] are the resets that are done. *)
Fixpoint reset_loop (fuel : nat) (set : Z) : M FD unit :=
  match fuel with
  | O => no_fuel
  | S fuel =>
      set ← (if Z.land set 1 =? 0 then
               w ← i32 RX_RST_IDX;
               if negb (Z.land w (Z.shiftl 1 RX_RST_SHF) =? 0)
               then o32 RX_STA_IDX (Z.shiftl 1 RX_RST_SHF) ;; mret (Z.lor set 1)
               else mret set
             else mret set);
      set ← (if Z.land set 2 =? 0 then
               w ← i32 TX_RST_IDX;
               if negb (Z.land w (Z.shiftl 1 TX_RST_SHF) =? 0)
               then o32 TX_STA_IDX (Z.shiftl 1 TX_RST_SHF) ;; mret (Z.lor set 2)
               else mret set
             else mret set);
      if set =? 3 then mret tt else wait ;; reset_loop fuel set
  end.

Definition reset (polls : nat) : M FD unit :=
  o32 RX_RST_IDX RST_MAGIC ;;
  o32 TX_RST_IDX RST_MAGIC ;;
  irq ← gets useIrq_;
  (if irq : bool then
     o32 RX_IEN_IDX (Z.lor (Z.shiftl 1 RX_RST_SHF) (Z.shiftl 1 RX_RDY_SHF)) ;;
     o32 TX_IEN_IDX (Z.shiftl 1 TX_RST_SHF)
   else mret tt) ;;
  reset_loop polls 0.

Fixpoint fifo_options (opts : list Z) (useIrq : bool) : outcome bool :=
  match opts with
  | [] => Ret useIrq
  | opt :: opts =>
      if opt =? 105 (* i *) then fifo_options opts false
      else Throw (RuntimeErr "Unknown driver option")
  end.

(** The limits that follow from the size register: the word size in the
    upper byte, the depth in words below. *)
Definition read_size : M FD unit :=
  sizVal ← i32 TX_SIZ_IDX;
  let wrdSiz := Z.shiftr sizVal 24 in
  let maxWords := wrap32 (Z.land sizVal 0x00ffffff - 1) in
  let maxBytes := wrap64 (wrap64 (maxWords - 1) * wrdSiz) in
  modify (λ b, mkFifo (map_ b) (dev b) (maxBytes / 2) wrdSiz (useIrq_ b) (irqs_ b)).

(** The constructor; [maxVec_] and [wrdSiz_] are set at its end. *)
Definition fifo_new (polls : nat) (opts : list Z) (devnam : list Z) (pgsz : Z) (open_ok mmap_ok : bool)
    (d : Dev) (irqs : list irq) : outcome FD :=
  m ← MemMap_new devnam 1 pgsz open_ok mmap_ok;
  useIrq ← fifo_options opts true;
  let (o, b) := (reset polls ;; read_size) (mkFifo m d 0 0 useIrq irqs) in
  _ ← o; Ret b.

Definition fifo_getMaxVectorSize (b : FD) : Z := maxVec_ b.

(** *** [xfer] *)

Abbreviation FX := (M (io FD)).

(** [while ( ! (i32( RX_STA_IDX ) & (1<<RX_RDY_SHF)) ) { wait(); }] *)
Fixpoint await (fuel : nat) : FX unit :=
  match fuel with
  | O => no_fuel
  | S fuel =>
      w ← on_tp (i32 RX_STA_IDX);
      if Z.land w (Z.shiftl 1 RX_RDY_SHF) =? 0 then on_tp wait ;; await fuel else mret tt
  end.

(** Send the message and wait for the reply; the result is the number of
    bytes that have come. *)
Definition exchange (polls : nat) (txb : list Z) (txBytes : Z) : FX Z :=
  let txWords := wrap32 (txBytes + 3) / 4 in
  let lastBytes := wrap32 (txBytes - wrap32 (4 * wrap32 (txWords - 1))) in
  push_words (o32 TX_DAT_IDX) (Z.to_nat txWords) txb txWords 0 ;;
  on_tp (o32 TX_END_IDX lastBytes) ;;
  await polls ;;
  on_tp (o32 RX_STA_IDX (Z.shiftl 1 RX_RDY_SHF)) ;;
  on_tp (i32 RX_CNT_IDX).

Definition fifo_xfer (polls : nat) (txb : list Z) (txBytes hsize size : Z) : FX Z :=
  if negb (hsize `mod` 4 =? 0) then
    throw (RuntimeErr "zynq FIFO only supports word-lengths that are a multiple of 4")
  else
    got ← exchange polls txb txBytes;
    receive (i32 RX_DAT_IDX) hsize size got.

(** [init]: reset the FIFO, query the firmware, compare the word sizes. *)
Definition fifo_init `{Transport FD} (polls : nat) : M (JtagDriverAxisToJtag FD) unit :=
  zoom tp (λ b a, mkAxis (jd a) (wordSize_ a) (memDepth_ a) (txBuf_ a) (hdBuf_ a) (bufSz_ a) (retry_ a)
                    (xid_ a) (periodNs_ a) b) (reset polls) ;;
  init ;;
  a ← gets id;
  if negb (getWordSize a =? wrdSiz_ (tp a)) then
    throw (RuntimeErr "ERROR: firmware misconfigured -- FIFO word size /= JTAG stream word size")
  else mret tt.
End fifo.

(** ** The FIFO as documented

    A word written to the data register is queued, a write to the end
    register, with the number of bytes of the last word, sends the packet.
    The firmware behind the FIFO may answer anything, [firmware], that
    depends on the packets it has got, and takes a number of polls,
    [delay]; the count register holds the length of the reply in bytes. *)
Record axis_fifo := mkAF {
  af_tx : list Z;
  af_sent : list (list Z);
  af_rx : list Z;
  af_cnt : Z;
  af_wait : nat;
  af_rdy : bool;
  af_rst : nat;
}.

Section device.
Context (firmware : list (list Z) → list Z) (delay : list (list Z) → nat) (siz : Z) (reset_delay : nat).

Definition send_packet (lastBytes : Z) (d : axis_fifo) : axis_fifo :=
  let n := (4 * (length (af_tx d) - 1) + Z.to_nat lastBytes)%nat in
  let sent := af_sent d ++ [take n (concat (le_bytes 4 <$> af_tx d))] in
  mkAF [] sent (words_of (firmware sent)) (zlen (firmware sent)) (delay sent) true (af_rst d).

Definition af_wr (idx v : Z) (d : axis_fifo) : axis_fifo :=
  if idx =? TX_DAT_IDX then
    mkAF (af_tx d ++ [v]) (af_sent d) (af_rx d) (af_cnt d) (af_wait d) (af_rdy d) (af_rst d)
  else if idx =? TX_END_IDX then send_packet v d
  else if (idx =? RX_STA_IDX) && Z.testbit v RX_RDY_SHF then
    mkAF (af_tx d) (af_sent d) (af_rx d) (af_cnt d) (af_wait d) false (af_rst d)
  else if (idx =? RX_RST_IDX) && (v =? RST_MAGIC) then
    mkAF (af_tx d) (af_sent d) [] 0 0 false reset_delay
  else if (idx =? TX_RST_IDX) && (v =? RST_MAGIC) then
    mkAF [] (af_sent d) (af_rx d) (af_cnt d) (af_wait d) (af_rdy d) reset_delay
  else d.

Definition af_rd (idx : Z) (d : axis_fifo) : Z * axis_fifo :=
  if idx =? RX_STA_IDX then
    match af_wait d with
    | O => (if af_rdy d then Z.shiftl 1 RX_RDY_SHF else 0, d)
    | S k => (0, mkAF (af_tx d) (af_sent d) (af_rx d) (af_cnt d) k (af_rdy d) (af_rst d))
    end
  else if idx =? RX_CNT_IDX then (af_cnt d, d)
  else if idx =? RX_DAT_IDX then
    (default 0 (head (af_rx d)),
     mkAF (af_tx d) (af_sent d) (tail (af_rx d)) (af_cnt d) (af_wait d) (af_rdy d) (af_rst d))
  else if idx =? TX_SIZ_IDX then (siz, d)
  else if (idx =? RX_RST_IDX) || (idx =? TX_RST_IDX) then
    match af_rst d with
    | O => (1, d)
    | S k => (0, mkAF (af_tx d) (af_sent d) (af_rx d) (af_cnt d) (af_wait d) (af_rdy d) k)
    end
  else (0, d).

Definition af_mmio : Mmio axis_fifo := {| dev_rd := af_rd; dev_wr := af_wr |}.
End device.

(** ** The driver on the documented FIFO *)

(** What does not depend on the interrupts, as long as they work. *)
Record FView := mkFV {
  v_map : MemMap; v_max : Z; v_wsz : Z; v_irq : bool; v_good : bool; v_dev : axis_fifo
}.

Section fifo_proofs.
Context `{Platform} (HLE : isLE = true).
Context (firmware : list (list Z) → list Z) (delay : list (list Z) → nat) (siz : Z) (reset_delay : nat).
#[local] Instance the_fifo : Mmio axis_fifo := af_mmio firmware delay siz reset_delay.
Abbreviation FD := (JtagDriverZynqFifo axis_fifo).
Abbreviation St := (io FD).

Definition fview (b : FD) : FView :=
  mkFV (map_ b) (maxVec_ b) (wrdSiz_ b) (useIrq_ b) (forallb irq_good (irqs_ b)) (dev b).
Definition v_set_dev (d : axis_fifo) (v : FView) : FView :=
  mkFV (v_map v) (v_max v) (v_wsz v) (v_irq v) (v_good v) d.
Abbreviation does := (runs fview).

(** The registers that a transfer uses are mapped. *)
Definition usable (v : FView) : Prop := mapped (v_map v) RX_CNT_IDX = true ∧ v_good v = true.

Lemma usable_mapped v i : usable v → 0 ≤ i ≤ RX_CNT_IDX → mapped (v_map v) i = true.
Proof. intros [Hm _] Hi. by apply (mapped_below _ i RX_CNT_IDX). Qed.
Lemma usable_dev v d : usable v → usable (v_set_dev d v).
Proof. done. Qed.
#[local] Hint Resolve usable_dev : core.

Lemma fifo_o32_does v idx w : usable v → 0 ≤ idx ≤ RX_CNT_IDX →
  does v (o32 idx w) tt (v_set_dev (af_wr firmware delay reset_delay idx w (v_dev v)) v).
Proof.
  intros Hu Hi b <-. pose proof (usable_mapped _ idx Hu Hi) as Hm. unfold o32, map_wr.
  change (v_map (fview b)) with (map_ b) in Hm. rewrite Hm. by eexists.
Qed.
Lemma fifo_i32_does v idx : usable v → 0 ≤ idx ≤ RX_CNT_IDX →
  does v (i32 idx) (fst (af_rd siz idx (v_dev v))) (v_set_dev (snd (af_rd siz idx (v_dev v))) v).
Proof.
  intros Hu Hi b <-. pose proof (usable_mapped _ idx Hu Hi) as Hm. unfold i32, map_rd.
  change (v_map (fview b)) with (map_ b) in Hm. rewrite Hm.
  change (v_dev (fview b)) with (dev b). cbn [dev_rd the_fifo af_mmio].
  destruct (af_rd siz idx (dev b)). by eexists.
Qed.

(** The events that [wait] returns are not used. *)
Lemma fifo_wait_ends v : usable v → ends fview v wait v.
Proof.
  intros [_ Hg] [m d mx wz ui il] Hs. rewrite <-Hs in Hg. unfold fview in Hg. cbn in Hg.
  unfold wait. cbn [useIrq_ irqs_]. destruct ui; [|by do 2 eexists].
  destruct il as [|[evs| |] l]; try done; cbn [head]; by do 2 eexists.
Qed.

(** *** A whole exchange *)

(** The states of the device while words are pushed and pulled. *)
Definition d_out (l : list Z) (d : axis_fifo) : axis_fifo :=
  mkAF l (af_sent d) (af_rx d) (af_cnt d) (af_wait d) (af_rdy d) (af_rst d).
Definition d_left (sent : list (list Z)) (r : list Z) (d : axis_fifo) : axis_fifo :=
  mkAF [] sent (words_of r) (zlen (firmware sent)) 0 false (af_rst d).

Lemma fifo_push_does v l bs : usable v → bytes bs → length bs = 4%nat →
  does (v_set_dev (d_out l (v_dev v)) v) (o32 TX_DAT_IDX (load32 bs)) tt
    (v_set_dev (d_out (l ++ [le_val bs]) (v_dev v)) v).
Proof.
  intros Hu _ _. unfold load32. rewrite HLE.
  pose proof (fifo_o32_does (v_set_dev (d_out l (v_dev v)) v) TX_DAT_IDX (le_val bs)) as Hd. by apply Hd.
Qed.
Lemma fifo_pull_does v sent r : usable v → bytes r → ∃ w,
  (r ≠ [] → store32 w = le_bytes 4 (le_val (take 4 r))) ∧
  does (v_set_dev (d_left sent r (v_dev v)) v) (i32 RX_DAT_IDX) w (v_set_dev (d_left sent (drop 4 r) (v_dev v)) v).
Proof.
  intros Hu _. exists (le_val (take 4 r)). split; [intros _; unfold store32; by rewrite HLE|].
  pose proof (fifo_i32_does (v_set_dev (d_left sent r (v_dev v)) v) RX_DAT_IDX (usable_dev _ _ Hu) ltac:(done)) as Hd.
  cbn in Hd. by rewrite words_of_head, <-words_of_drop in Hd.
Qed.

Lemma await_does n : ∀ j hd rx v, usable v → af_rdy (v_dev v) = true → (af_wait (v_dev v) < n)%nat →
  let d := v_dev v in
  runs (io_view fview) (mkV j hd rx v) (await n) tt
    (mkV j hd rx (v_set_dev (mkAF (af_tx d) (af_sent d) (af_rx d) (af_cnt d) 0 true (af_rst d)) v)).
Proof.
  induction n as [|n IH]; intros j hd rx v Hu Hr Hw d; [lia|]. cbn [await].
  eapply runs_bind; [apply on_tp_does, fifo_i32_does; [done|unfold RX_STA_IDX, RX_CNT_IDX; lia]|]. subst d.
  destruct v as [m mx wz ui g [tx sent rxq cnt wt rdy rst]]. cbn in Hr, Hw. subst rdy.
  destruct wt as [|k]; cbn; [apply runs_ret|].
  eapply ends_bind; [by apply on_tp_yields, fifo_wait_ends|].
  apply (IH j hd rx (mkFV m mx wz ui g (mkAF tx sent rxq cnt k true rst))); [done|done|cbn; lia].
Qed.

Context (polls : nat).
Context (Hfw : ∀ sent, bytes (firmware sent) ∧ zlen (firmware sent) < 2 ^ 31) (Hdelay : ∀ sent, (delay sent < polls)%nat).

Lemma exchange_does txb k j hd rx v : usable v → af_tx (v_dev v) = [] → bytes txb →
  1 ≤ k → 4 * k ≤ zlen txb → 4 * k < 2 ^ 31 →
  let sent := af_sent (v_dev v) ++ [take (Z.to_nat (4 * k)) txb] in
  runs (io_view fview) (mkV j hd rx v) (exchange polls txb (4 * k)) (zlen (firmware sent))
    (mkV j hd rx (v_set_dev (d_left sent (firmware sent) (v_dev v)) v)).
Proof.
  intros Hu Htx Hb Hk Hl Ho sent. unfold exchange. cbv zeta.
  rewrite (wrap32_small (4 * k + 3)) by (unfold is_u32; lia).
  replace ((4 * k + 3) / 4) with k by (Z.div_mod_to_equations; lia).
  rewrite (wrap32_small (k - 1)), (wrap32_small (4 * (k - 1))) by (unfold is_u32; lia).
  replace (4 * k - 4 * (k - 1)) with 4 by lia. change (wrap32 4) with 4.
  pose proof (push_words_does fview (o32 TX_DAT_IDX) (λ l, v_set_dev (d_out l (v_dev v)) v)
    (λ l bs, fifo_push_does v l bs Hu) txb (Z.to_nat k) (Z.to_nat k) 0 [] j hd rx Hb) as Hp.
  rewrite Z2Nat.id, Z.add_0_l in Hp by lia.
  assert (Ev : v_set_dev (d_out [] (v_dev v)) v = v)
    by (destruct v as [? ? ? ? ? [tx ? ? ? ? ? ?]]; cbn in Htx; by subst tx).
  rewrite Ev in Hp. eapply runs_bind; [apply Hp; lia|]. clear Hp.
  eapply runs_bind; [apply on_tp_does, fifo_o32_does; [by destruct v|done]|].
  set (v1 := v_set_dev _ (v_set_dev _ v)).
  assert (Hv1 : v1 = v_set_dev (mkAF [] sent (words_of (firmware sent)) (zlen (firmware sent)) (delay sent) true
      (af_rst (v_dev v))) v).
  { subst v1. change (drop _ txb) with txb. unfold v_set_dev, d_out. cbn -[Nat.mul concat take words_of pushed].
    unfold send_packet. cbn [af_tx af_sent af_rst v_dev]. rewrite pushed_length, pushed_bytes by (done || lia).
    change (Z.to_nat 4) with 4%nat. replace (take _ (take _ txb)) with (take (Z.to_nat (4 * k)) txb); [done|].
    rewrite take_take. f_equal. lia. }
  rewrite Hv1. clear Hv1 v1.
  eapply runs_bind; [apply await_does; [by destruct v|done|apply Hdelay]|].
  eapply runs_bind; [apply on_tp_does, fifo_o32_does; [by destruct v|done]|].
  pose proof (fifo_i32_does (v_set_dev (d_left sent (firmware sent) (v_dev v)) v) RX_CNT_IDX) as Hc.
  apply on_tp_does, Hc; [by destruct v|done].
Qed.

Lemma fifo_xfer_does txb k hsize size (s : St) :
  let v := fview (io_tp s) in
  mapped (v_map v) RX_CNT_IDX = true → v_good v = true → af_tx (v_dev v) = [] → bytes txb →
  1 ≤ k → 4 * k ≤ zlen txb → 4 * k < 2 ^ 31 → 0 < hsize ≤ zlen (io_hd s) → hsize `mod` 4 = 0 →
  0 ≤ size ≤ zlen (io_rx s) →
  let sent := af_sent (v_dev v) ++ [take (Z.to_nat (4 * k)) txb] in
  let r := firmware sent in let n := Z.min size (zlen r - hsize) in
  let (o, s') := fifo_xfer polls txb (4 * k) hsize size s in
  fview (io_tp s') = v_set_dev (d_left sent [] (v_dev v)) v ∧ jd_same (io_jd s) (io_jd s') ∧
  if zlen r <? hsize then
    o = Throw (ProtoErr "Didn't receive enough data for header") ∧ io_rx s' = io_rx s ∧
    length (io_hd s') = length (io_hd s) ∧ (bytes (io_hd s) → bytes (io_hd s'))
  else
    (o = Ret n ∨ o = Throw TimeoutErr ∧ drEn_ (io_jd s) = true) ∧
    io_hd s' = take (Z.to_nat hsize) r ++ drop (Z.to_nat hsize) (io_hd s) ∧
    io_rx s' = take (Z.to_nat n) (drop (Z.to_nat hsize) r) ++ drop (Z.to_nat n) (io_rx s).
Proof.
  intros v Hm Hg Htx Hb Hk Hl Ho Hh Hz Hs sent r n. assert (Hu : usable v) by done.
  unfold fifo_xfer. rewrite Hz. change (negb (0 =? 0)) with false. cbv iota.
  destruct (exchange_does txb k (io_jd s) (io_hd s) (io_rx s) v Hu Htx Hb Hk Hl Ho s eq_refl) as (s1 & E1 & Hv1).
  rewrite (M_bind_ret _ _ _ _ _ E1). fold sent r in Hv1 |- *. apply io_view_inv in Hv1 as (Hj & Hhd & Hrx & Hv1).
  destruct (Hfw sent) as [Hfb Hfl]. rewrite <-Hj, <-Hhd, <-Hrx in *.
  apply (receive_spec fview (i32 RX_DAT_IDX) (λ r, v_set_dev (d_left sent r (v_dev v)) v)
    (λ r, fifo_pull_does v sent r Hu) hsize size r s1 Hv1 Hfb Hfl Hh Hz Hs).
Qed.

(** C17: on a FIFO that behaves as documented, in front of any firmware that
    answers within the polling, with the interrupts working: for a message
    of whole words, [xfer] sends exactly the message as one packet; when
    the reply covers the header it returns the number of payload bytes, at
    most [size], or it throws the timeout of the drop test if that is
    enabled; the header buffer starts with the header of the reply and the
    receive buffer with that many bytes of its payload, nothing else of
    the buffers is touched; when the reply is shorter it throws.  In all
    cases no word is left in the FIFO. *)
Theorem fifo_exchange txb k hsize size (s : St) :
  let b := io_tp s in let d := dev b in
  mapped (map_ b) RX_CNT_IDX = true → forallb irq_good (irqs_ b) = true →
  af_tx d = [] → bytes txb → 1 ≤ k → 4 * k ≤ zlen txb → 4 * k < 2 ^ 31 →
  0 < hsize ≤ zlen (io_hd s) → hsize `mod` 4 = 0 → 0 ≤ size ≤ zlen (io_rx s) →
  let sent := af_sent d ++ [take (Z.to_nat (4 * k)) txb] in
  let r := firmware sent in let n := Z.min size (zlen r - hsize) in
  let (o, s') := fifo_xfer polls txb (4 * k) hsize size s in
  let d' := dev (io_tp s') in
  af_sent d' = sent ∧ af_tx d' = [] ∧ af_rx d' = [] ∧
  if zlen r <? hsize then
    o = Throw (ProtoErr "Didn't receive enough data for header") ∧ io_rx s' = io_rx s
  else
    (o = Ret n ∨ o = Throw TimeoutErr ∧ drEn_ (io_jd s) = true) ∧
    io_hd s' = take (Z.to_nat hsize) r ++ drop (Z.to_nat hsize) (io_hd s) ∧
    io_rx s' = take (Z.to_nat n) (drop (Z.to_nat hsize) r) ++ drop (Z.to_nat n) (io_rx s).
Proof.
  intros b d Hm Hg Htx Hb Hk Hl Ho Hh Hz Hs sent r n.
  pose proof (fifo_xfer_does txb k hsize size s Hm Hg Htx Hb Hk Hl Ho Hh Hz Hs) as Hx. cbv zeta in Hx.
  destruct (fifo_xfer polls txb (4 * k) hsize size s) as [o s']. destruct Hx as (Hv & _ & Hx).
  injection Hv as _ _ _ _ _ ->. change (fview (io_tp s)) with (fview b) in Hx. cbn [v_dev fview] in Hx |- *.
  fold d in Hx |- *. fold sent in Hx |- *. fold r in Hx. fold n in Hx. split_and!; try done.
  destruct (zlen r <? hsize); [|done]. by destruct Hx as (-> & -> & _).
Qed.

(** *** As a transport of [JtagDriverAxisToJtag] *)

#[local] Instance fifo_transport : Transport (JtagDriverZynqFifo axis_fifo) := {
  xfer := fifo_xfer polls;
  getMaxVectorSize _ := fifo_getMaxVectorSize;
}.

Definition fifo_ok (b : JtagDriverZynqFifo axis_fifo) : Prop :=
  mapped (map_ b) RX_CNT_IDX = true ∧ forallb irq_good (irqs_ b) = true ∧ af_tx (dev b) = [].

(** The words that the firmware announces. *)
Context (W : Z → Prop) (HW4 : W 4) (HW : announces firmware W).

#[local] Program Instance fifo_laws : TransportLaws (JtagDriverZynqFifo axis_fifo) := {
  tp_ok b := fifo_ok b ∧ 0 ≤ maxVec_ b;
  word_ok := W;
}.
Next Obligation. done. Qed.
Next Obligation.
  intros txb txBytes hsize size s Hh HWh Hmsg (Hhd & Hhb & Hsz & Hrb) [(Hmap & Hirq & Htx) Hmx].
  cbn [xfer fifo_transport]. destruct (Z.eq_dec (hsize `mod` 4) 0) as [Hz|Hz]; cycle 1.
  { unfold fifo_xfer. rewrite (proj2 (Z.eqb_neq _ 0)) by done. by split_and!. }
  destruct (message_words hsize txBytes size txb Hh Hz Hmsg) as (k & -> & Hk & Hk2). pose proof Hmsg as (Ht & Hb & _).
  pose proof (fifo_xfer_does txb k hsize size s Hmap Hirq Htx Hb Hk ltac:(lia) Hk2 ltac:(lia) Hz ltac:(lia)) as Hx.
  cbv zeta in Hx. destruct (fifo_xfer polls txb (4 * k) hsize size s) as [o s'].
  set (r := firmware _) in Hx. set (n := Z.min _ _) in Hx. assert (Hfb : bytes r) by apply Hfw.
  destruct Hx as (Hv & [Hd _] & Hx). injection Hv as Emap Emx _ _ Eirq Edev. unfold fifo_ok.
  rewrite Emap, Emx, Eirq, Edev, Hd.
  destruct (received_ok hsize size r (io_hd s) (io_rx s) (io_hd s') (io_rx s') Hfb ltac:(lia)) as [Hbo Hf];
    [done|destruct (_ <? _); intuition|].
  split; [|done]. destruct (Z.ltb_spec (zlen r) hsize); [by destruct Hx as (-> & _)|].
  destruct Hx as ([-> |[-> _]] & Eh & _); [|done]. intros Hq. cbv zeta. rewrite Eh, take_app_le, take_take, Nat.min_l by len.
  destruct (announced_word firmware W (af_sent (v_dev (fview (io_tp s)))) hsize (4 * k) size txb) as [_ Hwo]; try done; lia.
Qed.
Next Obligation. by intros w b [_ ?]. Qed.

(** *** Construction *)

Definition d_rst (n : nat) (d : axis_fifo) : axis_fifo :=
  mkAF (af_tx d) (af_sent d) (af_rx d) (af_cnt d) (af_wait d) (af_rdy d) n.

(** The resets are awaited together; each round reads the registers that
    are not done. *)
Lemma reset_loop_does fuel : ∀ n v, usable v → (n < fuel)%nat → af_rst (v_dev v) = n →
  does v (reset_loop fuel 0) tt (v_set_dev (d_rst 0 (v_dev v)) v).
Proof.
  induction fuel as [|fuel IH]; intros n v Hu Hf Hn; [lia|]. cbn [reset_loop].
  pose proof (λ w Hw, fifo_i32_does w RX_RST_IDX Hw ltac:(done)) as Hrx.
  pose proof (λ w Hw, fifo_i32_does w TX_RST_IDX Hw ltac:(done)) as Htx.
  pose proof (λ w Hw, fifo_o32_does w RX_STA_IDX 1 Hw ltac:(done)) as Hrs.
  pose proof (λ w Hw, fifo_o32_does w TX_STA_IDX 1 Hw ltac:(done)) as Hts.
  destruct v as [m mx wz ui g [tx sent rxq cnt wt rdy rst]]. cbn in Hn. subst rst.
  assert (Hv : ∀ r, usable (mkFV m mx wz ui g (mkAF tx sent rxq cnt wt rdy r))) by (intros; exact Hu).
  set (V := λ r, mkFV m mx wz ui g (mkAF tx sent rxq cnt wt rdy r)) in *.
  change (does (V n) (set ← (w ← i32 RX_RST_IDX;
      if negb (Z.land w 1 =? 0) then o32 RX_STA_IDX 1 ;; mret 1 else mret 0);
    set ← (if Z.land set 2 =? 0 then w ← i32 TX_RST_IDX;
             if negb (Z.land w 1 =? 0) then o32 TX_STA_IDX 1 ;; mret (Z.lor set 2) else mret set
           else mret set);
    if set =? 3 then mret tt else wait ;; reset_loop fuel set) tt (V O)).
  destruct n as [|[|n]].
  - eapply (runs_bind _ _ (V O) _ _ 1).
    { eapply runs_bind; [apply Hrx, Hv|]. eapply runs_bind; [apply Hrs, Hv|apply runs_ret]. }
    eapply (runs_bind _ _ (V O) _ _ 3); [|apply runs_ret].
    eapply runs_bind; [apply Htx, Hv|]. eapply runs_bind; [apply Hts, Hv|apply runs_ret].
  - eapply (runs_bind _ _ (V O) _ _ 0); [eapply runs_bind; [apply Hrx, Hv|apply runs_ret]|].
    eapply (runs_bind _ _ (V O) _ _ 2).
    { eapply runs_bind; [apply Htx, Hv|]. eapply runs_bind; [apply Hts, Hv|apply runs_ret]. }
    eapply ends_bind; [apply fifo_wait_ends, Hv|]. destruct fuel as [|fuel]; [lia|]. cbn [reset_loop].
    eapply (runs_bind _ _ (V O) _ _ 3).
    { eapply runs_bind; [apply Hrx, Hv|]. eapply runs_bind; [apply Hrs, Hv|apply runs_ret]. }
    eapply (runs_bind _ _ (V O) _ _ 3); apply runs_ret.
  - eapply (runs_bind _ _ (V (S n)) _ _ 0); [eapply runs_bind; [apply Hrx, Hv|apply runs_ret]|].
    eapply (runs_bind _ _ (V n) _ _ 0); [eapply runs_bind; [apply Htx, Hv|apply runs_ret]|].
    eapply ends_bind; [apply fifo_wait_ends, Hv|]. apply (IH n (V n)); [apply Hv|lia|done].
Qed.

Definition d_empty (sent : list (list Z)) : axis_fifo := mkAF [] sent [] 0 0 false 0.

Lemma reset_does n v : usable v → (reset_delay < n)%nat →
  does v (reset n) tt (v_set_dev (d_empty (af_sent (v_dev v))) v).
Proof.
  intros Hu Hn. unfold reset.
  eapply runs_bind; [apply fifo_o32_does; [exact Hu|done]|].
  eapply runs_bind; [apply fifo_o32_does; [by destruct v|done]|].
  destruct v as [m mx wz ui g [tx sent rxq cnt wt rdy rst]].
  eapply (runs_bind _ _ _ _ _ ui).
  { intros s Hs. exists s. split; [|exact Hs]. by injection Hs as _ _ _ <- _ _. }
  eapply (runs_bind _ _ (mkFV m mx wz ui g (mkAF [] sent [] 0 0 false reset_delay))).
  - destruct ui; [|apply runs_ret].
    eapply runs_bind; [apply fifo_o32_does; [exact Hu|done]|].
    apply (fifo_o32_does (mkFV m mx wz true g (mkAF [] sent [] 0 0 false reset_delay)) TX_IEN_IDX 1 Hu). done.
  - by apply (reset_loop_does n reset_delay (mkFV m mx wz ui g (mkAF [] sent [] 0 0 false reset_delay))).
Qed.

Lemma fifo_options_i n ui : fifo_options (replicate n 105) ui = Ret (if decide (n = O) then ui else false).
Proof. revert ui. induction n as [|n IH]; intros ui; [done|]. cbn. rewrite IH. by destruct n. Qed.

Definition depth : Z := siz `mod` 2 ^ 24.

Lemma read_size_does v : usable v → 0 ≤ siz < 2 ^ 32 → 2 ≤ depth →
  does v read_size tt
    (mkFV (v_map v) ((depth - 2) * (siz / 2 ^ 24) / 2) (siz / 2 ^ 24) (v_irq v)
       (v_good v) (v_dev v)).
Proof.
  intros Hu Hz Hd. unfold read_size. eapply runs_bind; [apply fifo_i32_does; [done|done]|].
  destruct v as [m mx wz ui g d]. intros s Hs. cbn [v_dev af_rd fst snd] in Hs. cbn in Hs |- *.
  change 0x00ffffff with (Z.ones 24). rewrite Z.land_ones, Z.shiftr_div_pow2 by lia. fold depth.
  assert (depth < 2 ^ 24) by (apply Z.mod_pos_bound; lia).
  assert (Hw : 0 ≤ siz / 2 ^ 24 < 2 ^ 8) by (Z.div_mod_to_equations; lia).
  rewrite (wrap32_small (depth - 1)) by (unfold is_u32; lia).
  replace (depth - 1 - 1) with (depth - 2) by lia.
  rewrite (wrap64_small (depth - 2)), wrap64_small by nia.
  eexists. split; [reflexivity|]. unfold fview in *. cbn. by injection Hs as <- _ _ <- <- <-.
Qed.

(** What a driver that was just constructed is like. *)
Lemma fifo_new_ok n devnam pgsz m opts d irqs : MemMap_new devnam 1 pgsz true true = Ret m →
  mapped m RX_CNT_IDX = true → forallb irq_good irqs = true → (reset_delay < polls)%nat → opts = replicate n 105 →
  0 ≤ siz < 2 ^ 32 → 2 ≤ depth →
  ∃ b, fifo_new polls opts devnam pgsz true true d irqs = Ret b ∧ fifo_ok b ∧
    dev b = d_empty (af_sent d) ∧ wrdSiz_ b = siz / 2 ^ 24 ∧
    fifo_getMaxVectorSize b = (depth - 2) * (siz / 2 ^ 24) / 2.
Proof.
  intros Em Hm Hi Hr -> Hz Hd. unfold fifo_new. rewrite Em, fifo_options_i. cbn [mbind outcome_bind].
  set (ui := if decide _ then _ else _). set (s0 := mkFifo m d 0 0 ui irqs).
  assert (Hu : usable (fview s0)) by done.
  destruct (runs_bind fview _ _ _ (reset polls) tt (λ _, read_size) tt (reset_does polls _ Hu Hr)
    (read_size_does (v_set_dev (d_empty (af_sent d)) (fview s0)) Hu Hz Hd) s0 eq_refl) as (s1 & E & Hv).
  rewrite E. cbn [mbind outcome_bind].
  injection Hv as Emap Emax Ewsz _ Eirq Edev. exists s1. unfold fifo_ok, fifo_getMaxVectorSize.
  rewrite Emap, Emax, Ewsz, Eirq, Edev. done.
Qed.

(** The constructor resets the FIFO and reads the word size and the
    depth of the transmit FIFO; the longest vector it announces makes a
    message that fits in the words that it considers usable, one less than
    the depth, exactly when the depth is even: for an odd depth half the
    space is not a whole number of words, and the message needs one word
    more. *)
Theorem fifo_max_message n devnam pgsz m d irqs : MemMap_new devnam 1 pgsz true true = Ret m →
  mapped m RX_CNT_IDX = true → forallb irq_good irqs = true → (reset_delay < polls)%nat →
  0 ≤ siz < 2 ^ 32 → 4 ≤ depth → 4 ≤ siz / 2 ^ 24 →
  ∃ b, fifo_new polls (replicate n 105) devnam pgsz true true d irqs = Ret b ∧
    dev b = d_empty (af_sent d) ∧ wrdSiz_ b = siz / 2 ^ 24 ∧
    let w := wrdSiz_ b in
    let words := 1 + 2 * (word_ceil w (fifo_getMaxVectorSize b) / w) in
    words = (if Z.even depth then depth - 1 else depth).
Proof.
  intros Em Hm Hi Hr Hz Hd Hw.
  destruct (fifo_new_ok n devnam pgsz m _ d irqs Em Hm Hi Hr eq_refl Hz ltac:(lia)) as (b & E & _ & Ed & Ew & Ex).
  exists b. split_and!; [done..|]. cbv zeta. rewrite Ew, Ex. unfold word_ceil. set (w := siz / 2 ^ 24) in *.
  rewrite Z.div_mul by lia. destruct (Z.even depth) eqn:Ev.
  - apply Z.even_spec in Ev as [k Ek]. rewrite Ek. replace ((2 * k - 2) * w / 2) with ((k - 1) * w).
    + rewrite <-(Z.div_unique ((k - 1) * w + w - 1) w (k - 1) (w - 1)) by lia. lia.
    + replace ((2 * k - 2) * w) with (((k - 1) * w) * 2) by lia. by rewrite Z.div_mul by lia.
  - rewrite <-Z.negb_odd in Ev. apply negb_false_iff, Z.odd_spec in Ev as [k Ek]. rewrite Ek.
    replace (2 * k + 1 - 2) with (2 * (k - 1) + 1) by lia. set (q := (2 * (k - 1) + 1) * w / 2).
    assert (Hq : (k - 1) * w + 1 ≤ q ≤ (k - 1) * w + w) by (subst q; Z.div_mod_to_equations; nia).
    rewrite <-(Z.div_unique (q + w - 1) w k (q + w - 1 - k * w)) by lia. lia.
Qed.
End fifo_proofs.

(** ** A concrete firmware *)
Module Counter.
Abbreviation LE := le_platform.

(** Every packet is answered by a header of four bytes and the count of
    packets in three bytes. *)
Definition firmware (sent : list (list Z)) : list Z := le_bytes 4 0x10203040 ++ le_bytes 3 (zlen sent).
Definition delay (_ : list (list Z)) : nat := 2%nat.
Definition size_reg : Z := 0x04000201.
Definition message : list Z := [1; 2; 3; 4; 5; 6; 7; 8].
Definition state : io (JtagDriverZynqFifo axis_fifo) :=
  mkIo (JtagDriver_new 0) (mkFifo (mkMap 0x43c00000 4096 16) (d_empty []) 2044 4 true [Irq 7; Irq 1])
    (replicate 16 0) [9; 9; 9; 9].

Lemma firmware_ok sent : bytes (firmware sent) ∧ zlen (firmware sent) < 2 ^ 32.
Proof. split; [apply bytes_app; auto with xvc|unfold firmware; len]. Qed.
Lemma delay_ok sent : (delay sent < 5)%nat.
Proof. unfold delay. lia. Qed.
End Counter.

Lemma fifo_exchange_witness :
  let (o, s') := @fifo_xfer Counter.LE _ (the_fifo Counter.firmware Counter.delay Counter.size_reg 2) 5
    Counter.message (4 * 2) 4 4 Counter.state in
  af_sent (dev (io_tp s')) = [Counter.message] ∧ af_tx (dev (io_tp s')) = [] ∧ af_rx (dev (io_tp s')) = [] ∧
  (o = Ret 3 ∨ o = Throw TimeoutErr ∧ drEn_ (io_jd Counter.state) = true) ∧
  io_hd s' = [0x40; 0x30; 0x20; 0x10] ++ replicate 12 0 ∧ io_rx s' = [1; 0; 0; 9].
Proof.
  apply (@fifo_exchange Counter.LE eq_refl Counter.firmware Counter.delay Counter.size_reg 2 5 Counter.firmware_ok
    Counter.delay_ok Counter.message 2 4 4 Counter.state);
    first [reflexivity | (vm_compute; intuition congruence) | (apply (bool_decide_unpack _); vm_compute; exact I)].
Defined.

Lemma fifo_max_message_witness :
  ∃ b, fifo_new (H0 := the_fifo Counter.firmware Counter.delay Counter.size_reg 2) 5 [105]
      (text "/dev/mem:0x43c00010") 4096 true true (mkAF [1] [] [2] 4 1 true 9) [Irq 7] = Ret b ∧
    dev b = d_empty [] ∧ wrdSiz_ b = 4 ∧
    1 + 2 * (word_ceil (wrdSiz_ b) (fifo_getMaxVectorSize b) / wrdSiz_ b) = 513.
Proof.
  apply (fifo_max_message Counter.firmware Counter.delay Counter.size_reg 2 5 1
    (text "/dev/mem:0x43c00010") 4096 (mkMap 0x43c00000 4096 16) (mkAF [1] [] [2] 4 1 true 9) [Irq 7]);
    first [reflexivity | lia | (vm_compute; intuition congruence)].
Defined.
