(* ===== verification/Tmem.v ===== *)
(** * The driver for the TOSCA "TMEM" interface (class
    [JtagDriverTmemFifo], xvcDrvAxisTmem.cc)

    The firmware is either a FIFO in front of the AxisToJtag core or, for
    debugging, a bare serializer; in addition the JTAG signals can be
    driven by software ("bit-banging").  The access to the registers is by
    the TOSCA library: the class [Tosca].  The theorems are in
    TmemSpec.v. *)

From stdpp Require Import base numbers option list strings.
From Stdlib Require Import ZArith Lia.
From S2P Require Import Prelude Header Tap Driver LoopBack Udp Mmio Stream.
#[local] Open Scope Z_scope.

Definition FIFO_DAT_IDX : Z := 0.
Definition FIFO_MAGIC_IDX : Z := 1.
Definition FIFO_CSR_IDX : Z := 2.
Definition FIFO_CSR_RST : Z := Z.shiftl 1 23.
Definition FIFO_CSR_EOFO : Z := Z.shiftl 1 16.
Definition FIFO_CSR_EMPI : Z := Z.shiftl 1 17.
Definition FIFO_CSR_IENI : Z := Z.shiftl 1 19.
Definition FIFO_CSR_NWRDS : Z := 0.
Definition FIFO_CSR_NWRDM : Z := 0xffff.
Definition FIFO_CSR_MAXWS : Z := 24.
Definition FIFO_CSR_MAXWM : Z := 0x0f000000.
Definition FIFO_CSR_VERSM : Z := 0xf0000000.
Definition FIFO_CSR_VERSS : Z := 28.
Definition VERSION_0 : Z := 0.
Definition VERSION_1 : Z := 1.
Definition MAGIC : Z := 0x6666aaaa.
Definition SDES_TMS_IDX : Z := 4.
Definition SDES_TDI_IDX : Z := 5.
Definition SDES_CSR_IDX : Z := 6.
Definition SDES_TDO_IDX : Z := 7.
Definition SDES_CSR_RUN : Z := 0x00000100.
Definition SDES_CSR_BSY : Z := 0x00000200.
Definition SDES_CSR_LENS : Z := 0.
Definition SDES_CSR_LRMSK : Z := 0x00000fff.
Definition SDES_CSR_BBMSK : Z := 0x000f0000.
Definition SDES_CSR_BB_TCK : Z := 0x00010000.
Definition SDES_CSR_BB_TMS : Z := 0x00020000.
Definition SDES_CSR_BB_TDI : Z := 0x00040000.
Definition SDES_CSR_BB_TDO : Z := 0x00080000.
Definition SDES_CSR_BB_ENA : Z := 0x80000000.
Definition SDES_PROBEVAL : Z := Z.shiftl 0xa SDES_CSR_LENS.
Definition MIN_SLEEP_NS : Z := 20 * 1000 * 1000.

(** The TOSCA library; [Dev] is the state of what it gives access to. *)
Class Tosca (Dev : Type) := {
  toscaRead : Z → Z → Dev → Z * Dev;              (* space, address *)
  toscaWrite : Z → Z → Z → Dev → Dev;             (* space, address, value *)
  toscaStrToAddrSpace : list Z → Z * list Z;      (* the space and what is left of the string *)
}.

(** [irqFd_] says whether the descriptor is open; [clock_] are the times
    that [clock_gettime] will say, [slept_] counts the calls of
    [nanosleep]. *)
Record JtagDriverTmemFifo (Dev : Type) := mkTmem {
  toscaSpace_ : Z;
  toscaBase_ : Z;
  dev : Dev;
  maxVec_ : Z;
  wrdSiz_ : Z;
  irqFd_ : bool;
  irqs_ : list irq;
  bitBang_ : bool;
  useSdes_ : bool;
  logBscn_ : bool;
  pollTime_ : Z;
  doSleep_ : bool;
  measure_ : Z;
  maxPollDelayUs_ : Z;
  version_ : Z;
  clock_ : list Z;
  slept_ : Z;
}.
Arguments mkTmem {Dev}. Arguments toscaSpace_ {Dev}. Arguments toscaBase_ {Dev}. Arguments dev {Dev}.
Arguments maxVec_ {Dev}. Arguments wrdSiz_ {Dev}. Arguments irqFd_ {Dev}. Arguments irqs_ {Dev}.
Arguments bitBang_ {Dev}. Arguments useSdes_ {Dev}. Arguments logBscn_ {Dev}. Arguments pollTime_ {Dev}.
Arguments doSleep_ {Dev}. Arguments measure_ {Dev}. Arguments maxPollDelayUs_ {Dev}. Arguments version_ {Dev}.
Arguments clock_ {Dev}. Arguments slept_ {Dev}.

Section tmem.
Context `{Platform} {Dev : Type} `{Tosca Dev}.
Abbreviation TD := (JtagDriverTmemFifo Dev).
Abbreviation T := (M TD).

Definition td_set_dev (d : Dev) (b : TD) : TD :=
  mkTmem (toscaSpace_ b) (toscaBase_ b) d (maxVec_ b) (wrdSiz_ b) (irqFd_ b) (irqs_ b) (bitBang_ b) (useSdes_ b)
    (logBscn_ b) (pollTime_ b) (doSleep_ b) (measure_ b) (maxPollDelayUs_ b) (version_ b) (clock_ b) (slept_ b).
Definition td_set_irqs (l : list irq) (b : TD) : TD :=
  mkTmem (toscaSpace_ b) (toscaBase_ b) (dev b) (maxVec_ b) (wrdSiz_ b) (irqFd_ b) l (bitBang_ b) (useSdes_ b)
    (logBscn_ b) (pollTime_ b) (doSleep_ b) (measure_ b) (maxPollDelayUs_ b) (version_ b) (clock_ b) (slept_ b).
Definition td_set_flags (irq bb sdes log : bool) (b : TD) : TD :=
  mkTmem (toscaSpace_ b) (toscaBase_ b) (dev b) (maxVec_ b) (wrdSiz_ b) irq (irqs_ b) bb sdes
    log (pollTime_ b) (doSleep_ b) (measure_ b) (maxPollDelayUs_ b) (version_ b) (clock_ b) (slept_ b).
Definition td_set_version (v : Z) (b : TD) : TD :=
  mkTmem (toscaSpace_ b) (toscaBase_ b) (dev b) (maxVec_ b) (wrdSiz_ b) (irqFd_ b) (irqs_ b) (bitBang_ b) (useSdes_ b)
    (logBscn_ b) (pollTime_ b) (doSleep_ b) (measure_ b) (maxPollDelayUs_ b) v (clock_ b) (slept_ b).
Definition td_set_maxVec (v : Z) (b : TD) : TD :=
  mkTmem (toscaSpace_ b) (toscaBase_ b) (dev b) v (wrdSiz_ b) (irqFd_ b) (irqs_ b) (bitBang_ b) (useSdes_ b)
    (logBscn_ b) (pollTime_ b) (doSleep_ b) (measure_ b) (maxPollDelayUs_ b) (version_ b) (clock_ b) (slept_ b).
Definition td_set_poll (pt : Z) (ds : bool) (ms mp : Z) (b : TD) : TD :=
  mkTmem (toscaSpace_ b) (toscaBase_ b) (dev b) (maxVec_ b) (wrdSiz_ b) (irqFd_ b) (irqs_ b) (bitBang_ b) (useSdes_ b)
    (logBscn_ b) pt ds ms mp (version_ b) (clock_ b) (slept_ b).
Definition td_set_time (clk : list Z) (slept : Z) (b : TD) : TD :=
  mkTmem (toscaSpace_ b) (toscaBase_ b) (dev b) (maxVec_ b) (wrdSiz_ b) (irqFd_ b) (irqs_ b) (bitBang_ b) (useSdes_ b)
    (logBscn_ b) (pollTime_ b) (doSleep_ b) (measure_ b) (maxPollDelayUs_ b) (version_ b) clk slept.

(** *** Registers *)

Definition o32 (idx v : Z) : T unit := modify (λ b,
  td_set_dev (toscaWrite (toscaSpace_ b) (wrap64 (toscaBase_ b + Z.shiftl idx 2)) v (dev b)) b).
Definition i32 (idx : Z) : T Z := λ b,
  let (v, d) := toscaRead (toscaSpace_ b) (wrap64 (toscaBase_ b + Z.shiftl idx 2)) (dev b) in
  (Ret v, td_set_dev d b).

Definition nanosleep : T unit := modify (λ b, td_set_time (clock_ b) (slept_ b + 1) b).
Definition bbsleep : T unit := nanosleep.
Definition get_time : T Z := λ b, (Ret (default 0 (head (clock_ b))), td_set_time (tail (clock_ b)) (slept_ b) b).

Definition wait : T Z :=
  b ← gets id;
  if irqFd_ b then
    modify (td_set_irqs (tail (irqs_ b))) ;;
    match head (irqs_ b) with
    | Some IrqWriteFails => throw (SysErr "Unable to write to IRQ descriptor")
    | Some IrqReadFails => throw (SysErr "Unable to read from IRQ descriptor")
    | Some (Irq evs) => mret evs
    | None => mret 1
    end
  else if doSleep_ b then nanosleep ;; mret 0
  else mret 0.

(** *** The bare JTAG signals *)

(** [if ( w & m ) csr |= bit; else csr &= ~bit;] *)
Definition put_bit (w m bit csr : Z) : Z :=
  if negb (Z.land w m =? 0) then Z.lor csr bit else Z.ldiff csr bit.

(** One clock: the new values of [csr] and [tdo]. *)
Definition bb_clock (tms tdi m csr tdo : Z) : T (Z * Z) :=
  let csr := put_bit tms m SDES_CSR_BB_TMS csr in
  let csr := put_bit tdi m SDES_CSR_BB_TDI csr in
  o32 SDES_CSR_IDX csr ;;
  bbsleep ;;
  csrrb ← i32 SDES_CSR_IDX;
  let tdo := if negb (Z.land csrrb SDES_CSR_BB_TDO =? 0) then Z.lor tdo m else tdo in
  let csr := Z.lor csr SDES_CSR_BB_TCK in
  o32 SDES_CSR_IDX csr ;;
  bbsleep ;;
  log ← gets logBscn_;
  (if log : bool then i32 SDES_CSR_IDX ;; mret tt else mret tt) ;;
  mret (Z.ldiff csr SDES_CSR_BB_TCK, tdo).

(** [for ( i = 0, m = 1; i < nbits; i++, m <<= 1 )]; the arguments are the
    number of rounds that are left, [m], [csr] and [tdo]. *)
Fixpoint bb_loop (n : nat) (tms tdi m csr tdo : Z) : T Z :=
  match n with
  | O => mret tdo
  | S n =>
      r ← bb_clock tms tdi m csr tdo;
      bb_loop n tms tdi (wrap32 (Z.shiftl m 1)) (fst r) (snd r)
  end.

Definition xfer32bb (tms tdi nbits : Z) : T Z :=
  csr ← i32 SDES_CSR_IDX;
  bb_loop (Z.to_nat nbits) tms tdi 1 (Z.ldiff csr SDES_CSR_BBMSK) 0.

(** [while ( i32(SDES_CSR_IDX) & SDES_CSR_BSY ) { wait(); }] *)
Fixpoint sdes_poll (fuel : nat) : T unit :=
  match fuel with
  | O => no_fuel
  | S fuel =>
      w ← i32 SDES_CSR_IDX;
      if negb (Z.land w SDES_CSR_BSY =? 0) then wait ;; sdes_poll fuel else mret tt
  end.

(** The result is the TDO word and, when [want_time] (a pointer [then] is
    passed) and a measurement is going on, the time. *)
Definition xfer32sdes (polls : nat) (tms tdi nbits : Z) (want_time : bool) : T (Z * option Z) :=
  csr ← i32 SDES_CSR_IDX;
  let csr := Z.ldiff csr SDES_CSR_LRMSK in
  let csr := Z.lor csr (Z.shiftl (wrap32 (nbits - 1)) SDES_CSR_LENS) in
  o32 SDES_TMS_IDX tms ;;
  o32 SDES_TDI_IDX tdi ;;
  o32 SDES_CSR_IDX (Z.lor csr SDES_CSR_RUN) ;;
  b ← gets id;
  then_ ← (if want_time && negb (measure_ b =? 0) then
             modify (λ b, td_set_poll (pollTime_ b) false (measure_ b) (maxPollDelayUs_ b) b) ;;
             t ← get_time; mret (Some t)
           else mret None);
  sdes_poll polls ;;
  tdo ← i32 SDES_TDO_IDX;
  let sh := wrap32 (32 - nbits) in
  if 32 <=? sh then undefined BadShift
  else mret (Z.shiftr tdo sh, then_).

(** *** Reset and construction *)

Definition reset (polls : nat) : T unit :=
  b ← gets id;
  (if negb (useSdes_ b) then
     o32 FIFO_CSR_IDX FIFO_CSR_RST ;;
     o32 FIFO_CSR_IDX 0 ;;
     (if irqFd_ b then o32 FIFO_CSR_IDX FIFO_CSR_IENI else mret tt)
   else mret tt) ;;
  csr ← (if version_ b =? VERSION_1 then
           csr ← i32 SDES_CSR_IDX;
           let csr := Z.ldiff csr SDES_CSR_BBMSK in
           let csr := Z.lor csr SDES_CSR_BB_TMS in
           let csr := Z.ldiff csr SDES_CSR_BB_TDI in
           let csr := Z.ldiff csr SDES_CSR_BB_TCK in
           let csr := Z.ldiff csr SDES_CSR_BB_ENA in
           o32 SDES_CSR_IDX csr ;;
           (if useSdes_ b then xfer32sdes polls 0xff 0x00 8 false ;; mret tt else mret tt) ;;
           mret (Some csr)
         else mret None);
  if bitBang_ b then
    match csr with
    | Some csr => o32 SDES_CSR_IDX (Z.lor csr SDES_CSR_BB_ENA)
    | None => undefined Indeterminate
    end
  else mret tt.

(** The options [i], [b] and [l]: interrupt file, bit-banging, logging. *)
Fixpoint tmem_options (opts : list Z) (irqfn bitBang logBscn : bool) : outcome (bool * bool * bool) :=
  match opts with
  | [] => Ret (irqfn, bitBang, logBscn)
  | opt :: opts =>
      if opt =? 98 (* b *) then tmem_options opts irqfn true logBscn
      else if opt =? 108 (* l *) then tmem_options opts irqfn bitBang true
      else if opt =? 105 (* i *) then tmem_options opts true bitBang logBscn
      else Throw (RuntimeErr "Unknown driver option")
  end.

(** [toscaStrToAddrSpace( devnam, &basp )] and [strtoul( basp, &endp, 0 )] *)
Definition tmem_target (devnam : list Z) : outcome (Z * Z) :=
  let (space, basp) := toscaStrToAddrSpace devnam in
  match strtoul basp with
  | Some (base, _) => if space =? 0 then Throw (RuntimeErr "Invalid <target>") else Ret (space, base)
  | None => Throw (RuntimeErr "Invalid <target>")
  end.

(** The [switch ( version_ )]: is the serializer there? *)
Definition tmem_probe : T unit :=
  b ← gets id;
  if version_ b =? VERSION_0 then
    modify (λ b, td_set_flags (irqFd_ b) false (useSdes_ b) false b)
  else if version_ b =? VERSION_1 then
    csr ← i32 SDES_CSR_IDX;
    o32 SDES_CSR_IDX (Z.lor (Z.ldiff csr SDES_CSR_LRMSK) SDES_PROBEVAL) ;;
    w ← i32 SDES_CSR_IDX;
    if Z.land w SDES_CSR_LRMSK =? SDES_PROBEVAL
    then modify (λ b, td_set_flags (irqFd_ b) (bitBang_ b) true (logBscn_ b) b) else mret tt
  else throw (RuntimeErr "TMEM Device wrong FW version").

(** From the detection of the device to the sizes. *)
Definition tmem_detect (opts : list Z) (irq_open_ok : bool) : T unit :=
  w ← i32 FIFO_MAGIC_IDX;
  if negb (MAGIC =? w) then throw (RuntimeErr "TMEM Device not found")
  else
    o ← lift (tmem_options opts false false false);
    let '(irqfn, bitBang, logBscn) := o in
    modify (λ b, td_set_flags false bitBang (useSdes_ b) logBscn b) ;;
    csrVal ← i32 FIFO_CSR_IDX;
    modify (td_set_version (Z.shiftr (Z.land csrVal FIFO_CSR_VERSM) FIFO_CSR_VERSS)) ;;
    tmem_probe ;;
    (* if ( logBscn_ ) bitBang_ = true; *)
    modify (λ b, td_set_flags false (logBscn_ b || bitBang_ b) (useSdes_ b) (logBscn_ b) b) ;;
    (* bitBang_ || ~useSdes_: the complement of a promoted bool is never zero *)
    modify (λ b, td_set_poll (pollTime_ b) (doSleep_ b)
      (if bitBang_ b || negb (Z.lnot (Z.b2z (useSdes_ b)) =? 0) then 0 else measure_ b) (maxPollDelayUs_ b) b) ;;
    modify (λ b, td_set_flags (irqfn && negb (bitBang_ b || useSdes_ b) && irq_open_ok)
      (bitBang_ b) (useSdes_ b) (logBscn_ b) b) ;;
    modify (λ b,
      let maxWords := wrap32 (Z.shiftl (Z.shiftr (Z.land csrVal FIFO_CSR_MAXWM) FIFO_CSR_MAXWS) 10) / wrdSiz_ b in
      let maxBytes := wrap64 (wrap64 (maxWords - 1) * wrdSiz_ b) in
      td_set_maxVec (maxBytes / 2) b).

(** The constructor does not initialise [useSdes_]: [useSdes0] is what the
    memory held. *)
Definition tmem_new (polls : nat) (opts : list Z) (devnam : list Z) (irq_open_ok useSdes0 : bool)
    (d : Dev) (irqs : list irq) (clk : list Z) : outcome TD :=
  t ← tmem_target devnam;
  let (o, b) := (tmem_detect opts irq_open_ok ;; reset polls)
    (mkTmem (fst t) (snd t) d 128 4 false irqs false useSdes0 false 0 false 100 0 0 clk 0) in
  _ ← o; Ret b.

Definition tmem_getMaxVectorSize (b : TD) : Z := maxVec_ b.

(** *** [xfer] *)

Abbreviation TX := (M (io TD)).

(** [txWords] and [lastBytes]: the last word, padded with zeros, is always
    sent by itself. *)
Definition push_message (txb : list Z) (txBytes : Z) : TX unit :=
  let txWords := wrap32 (txBytes + 3) / 4 in
  let lastBytes := wrap32 (txBytes - wrap32 (4 * wrap32 (txWords - 1))) in
  let push w := o32 FIFO_DAT_IDX (bswap32 w) in
  let txWords := if negb (lastBytes =? 0) then wrap32 (txWords - 1) else txWords in
  push_words push (Z.to_nat txWords) txb txWords 0 ;;
  if negb (lastBytes =? 0) then
    w ← lift (bs ← memcpy 0 txb (4 * txWords) lastBytes (store32 0); Ret (load32 bs));
    on_tp (push w)
  else mret tt.

(** [while ( ( (csr = i32( FIFO_CSR_IDX )) & FIFO_CSR_EMPI ) ) { wait(); }];
    the result is [csr]. *)
Fixpoint tmem_await (fuel : nat) : TX Z :=
  match fuel with
  | O => no_fuel
  | S fuel =>
      csr ← on_tp (i32 FIFO_CSR_IDX);
      if negb (Z.land csr FIFO_CSR_EMPI =? 0) then on_tp wait ;; tmem_await fuel else mret csr
  end.

(** [w = __builtin_bswap32( i32( FIFO_DAT_IDX ) )] *)
Definition pull_swapped : T Z := w ← i32 FIFO_DAT_IDX; mret (bswap32 w).

(** Send the message and wait for the reply; the result is the number of
    bytes that have come. *)
Definition tmem_exchange (polls : nat) (txb : list Z) (txBytes : Z) : TX Z :=
  push_message txb txBytes ;;
  csr ← on_tp (i32 FIFO_CSR_IDX);
  on_tp (o32 FIFO_CSR_IDX (Z.lor csr FIFO_CSR_EOFO)) ;;
  csr ← tmem_await polls;
  b ← gets io_tp;
  mret (wrap32 (Z.land (Z.shiftr csr FIFO_CSR_NWRDS) FIFO_CSR_NWRDM * wrdSiz_ b)).

Definition xferFifo (polls : nat) (txb : list Z) (txBytes hsize size : Z) : TX Z :=
  if negb (hsize `mod` 4 =? 0) then
    throw (RuntimeErr "AXIS2TMEM FIFO only supports word-lengths that are a multiple of 4")
  else
    got ← tmem_exchange polls txb txBytes;
    receive pull_swapped hsize size got.

(** [if ( measure_ )] at the end of the loop; [then_] is indeterminate when
    no time was taken. *)
Definition sdes_measure (then_ : option Z) : T unit :=
  b ← gets id;
  if negb (measure_ b =? 0) then
    match then_ with
    | None => undefined Indeterminate
    | Some t =>
        now ← get_time;
        let diffNs := wrap64 (now - t) in
        let '(pt, ds, ms) := if MIN_SLEEP_NS <=? diffNs then (diffNs, true, 0)
                             else (pollTime_ b, doSleep_ b, wrap32 (measure_ b - 1)) in
        let diffUs := diffNs / 1000 in
        modify (λ b, td_set_poll pt ds ms (if maxPollDelayUs_ b <? diffUs then diffUs else maxPollDelayUs_ b) b)
    end
  else mret tt.

(** One round shifts [l] bits of a word. *)
Definition shift_word (polls : nat) (tms tdi l : Z) : T (Z * option Z) :=
  b ← gets id;
  if bitBang_ b then tdo ← xfer32bb tms tdi l; mret (tdo, None)
  else xfer32sdes polls tms tdi l true.

(** [while ( nbits > 0 )]; [pi] and [po] are offsets into [txb] and
    [rxb]. *)
Fixpoint shift_loop (polls fuel : nat) (txb : list Z) (nbits pi po l lb : Z) : TX unit :=
  if 0 <? nbits then
    match fuel with
    | O => no_fuel
    | S fuel =>
        tms ← lift (getw32 pi txb);
        tdi ← lift (getw32 (pi + 4) txb);
        let l := if nbits <? 8 * 4 then nbits else l in
        let lb := if nbits <? 8 * 4 then (l + 7) / 8 else lb in
        r ← on_tp (shift_word polls tms tdi l);
        put_rx (setw32 po (fst r) lb) ;;
        on_tp (sdes_measure (snd r)) ;;
        shift_loop polls fuel txb (wrap32 (nbits - l)) (pi + 8) (po + lb) l lb
    end
  else mret tt.

Definition xferSdes (polls : nat) (txb : list Z) (txBytes hsize size : Z) : TX Z :=
  let wsz := hsize in
  hdr ← lift (getHdr txb);
  if negb (getVrs hdr =? PVER0) then
    throw (RuntimeErr "AxiDbgBridgeIP driver: xfer() found unexpected version")
  else if negb (hsize =? 4) then
    throw (RuntimeErr "AxiDbgBridgeIP driver: xfer() found unexpected header size")
  else if getCmd hdr =? CMD_Q then
    h ← lift (mkQueryReply PVER0 4 0 UNKNOWN_PERIOD);
    put_hd (setHdr wsz h) ;;
    mret 4
  else if negb (getCmd hdr =? CMD_S) then
    throw (RuntimeErr "AxiDbgBridgeIP driver: xfer() found unexpected command")
  else
    nbits ← lift (getLen hdr);
    let nbytes := (nbits + 7) / 8 in
    let nwords := (nbytes + wsz - 1) / wsz in
    if txBytes <? nwords * 2 * wsz then
      throw (RuntimeErr "AXI-DebugBridge IP: not enough input data")
    else if size <? nbytes then
      throw (RuntimeErr "AXI-DebugBridge IP: output buffer too small")
    else
      put_hd (setHdr wsz hdr) ;;
      shift_loop polls (Z.to_nat nwords) txb nbits wsz 0 (8 * 4) 4 ;;
      mret nbytes.

Definition tmem_xfer (polls : nat) (txb : list Z) (txBytes hsize size : Z) : TX Z :=
  b ← gets io_tp;
  if bitBang_ b || useSdes_ b then xferSdes polls txb txBytes hsize size
  else xferFifo polls txb txBytes hsize size.

(** [init]: reset, query the firmware, compare the word sizes. *)
Definition tmem_init `{Transport TD} (polls : nat) : M (JtagDriverAxisToJtag TD) unit :=
  zoom tp (λ b a, mkAxis (jd a) (wordSize_ a) (memDepth_ a) (txBuf_ a) (hdBuf_ a) (bufSz_ a) (retry_ a)
                    (xid_ a) (periodNs_ a) b) (reset polls) ;;
  init ;;
  a ← gets id;
  if negb (getWordSize a =? wrdSiz_ (tp a)) then
    throw (RuntimeErr "ERROR: firmware misconfigured -- FIFO word size /= JTAG stream word size")
  else mret tt.
End tmem.
