(* ===== verification/TmemSpec.v ===== *)
(** * The TMEM driver on its firmware

    The firmware as rtl/BusIf/Tmem/Axis2TmemFifo.vhd and
    Tmem2BSCANWrapper.vhd describe it, as far as the driver can see it: the
    FIFO registers, the registers of the serializer, and the bits that
    drive the JTAG signals.  It is shown that in both modes that do without
    the FIFO the driver clocks exactly the vectors through the scan chain,
    that on the FIFO it exchanges exactly one packet, and what the
    constructor makes of the registers. *)

From stdpp Require Import base numbers option list strings.
From Stdlib Require Import ZArith Lia.
From S2P Require Import Prelude Header Tap Driver LoopBack Mmio Vectors Stream Tmem.
#[local] Open Scope Z_scope.

(** ** The firmware *)

(** What the firmware is built with and connected to.  [chain] is the TDO
    signal, [late] the same signal while TCK is high, [status] the
    read-only bits 20 to 30; [reply] and [delay] are the answer of the
    AxisToJtag core to the packets it has got, in words, and the number of
    polls it takes; [busy] is the number of polls a shift takes. *)
Record fw_cfg := mkCfg {
  serdes : bool;
  fw_version : Z;
  kbytes : Z;
  chain : list (bool * bool) → bool;
  late : list (bool * bool) → bool;
  status : list (bool * bool) → Z;
  busy : list (bool * bool) → nat;
  reply : list (list Z) → list Z;
  delay : list (list Z) → nat;
  at_space : Z;
  at_base : Z;
  parse_space : list Z → Z * list Z;
}.

Record tmem_fw := mkTm {
  tm_out : list Z;          (* the outgoing FIFO *)
  tm_sent : list (list Z);  (* the packets that have left, in bytes *)
  tm_in : list Z;           (* the incoming FIFO *)
  tm_wait : nat;            (* polls until the incoming frame is complete *)
  tm_mode : Z;              (* what was written to the control register *)
  tm_tms : Z; tm_tdi : Z; tm_tdo : Z;
  tm_len : Z;
  tm_busy : nat;
  tm_ena : bool;            (* the JTAG signals are driven by software *)
  tm_tck : bool; tm_btms : bool; tm_btdi : bool;
  tm_log : list (bool * bool);
}.

Section firmware.
Context (F : fw_cfg).

(** The frame that can be read. *)
Definition frame (d : tmem_fw) : list Z := match tm_wait d with O => tm_in d | S _ => [] end.

Definition fifo_csr (d : tmem_fw) : Z :=
  Z.lor (zlen (frame d)) (Z.lor (Z.shiftl (Z.b2z (bool_decide (frame d = []))) 17)
    (Z.lor (Z.land (tm_mode d) 0xc0000) (Z.lor (Z.shiftl (kbytes F) 24) (Z.shiftl (fw_version F) 28)))).

Definition sdes_csr (d : tmem_fw) : Z :=
  Z.lor (if serdes F then tm_len d `mod` 32 else 0) (Z.lor (Z.shiftl (Z.b2z (negb (Nat.eqb (tm_busy d) 0))) 9)
    (Z.lor (Z.shiftl (Z.b2z (tm_tck d)) 16) (Z.lor (Z.shiftl (Z.b2z (tm_btms d)) 17)
      (Z.lor (Z.shiftl (Z.b2z (tm_btdi d)) 18)
        (Z.lor (Z.shiftl (Z.b2z (if tm_tck d then late F (tm_log d) else chain F (tm_log d))) 19)
          (Z.lor (Z.shiftl (status F (tm_log d)) 20) (Z.shiftl (Z.b2z (tm_ena d)) 31))))))).

Definition set_in (l : list Z) (n : nat) (d : tmem_fw) : tmem_fw :=
  mkTm (tm_out d) (tm_sent d) l n (tm_mode d) (tm_tms d) (tm_tdi d) (tm_tdo d) (tm_len d) (tm_busy d)
    (tm_ena d) (tm_tck d) (tm_btms d) (tm_btdi d) (tm_log d).
Definition set_busy (n : nat) (d : tmem_fw) : tmem_fw :=
  mkTm (tm_out d) (tm_sent d) (tm_in d) (tm_wait d) (tm_mode d) (tm_tms d) (tm_tdi d) (tm_tdo d) (tm_len d) n
    (tm_ena d) (tm_tck d) (tm_btms d) (tm_btdi d) (tm_log d).
Definition set_words (tms tdi : Z) (d : tmem_fw) : tmem_fw :=
  mkTm (tm_out d) (tm_sent d) (tm_in d) (tm_wait d) (tm_mode d) tms tdi (tm_tdo d) (tm_len d) (tm_busy d)
    (tm_ena d) (tm_tck d) (tm_btms d) (tm_btdi d) (tm_log d).

(** Reading either half of the first register pair reads the FIFO. *)
Definition tm_rd (idx : Z) (d : tmem_fw) : Z * tmem_fw :=
  if (idx =? 0) || (idx =? 1) then
    (if idx =? 0 then default 0 (head (frame d)) else 0x6666aaaa,
     match tm_wait d with O => set_in (tail (tm_in d)) 0 d | S _ => d end)
  else if idx =? 2 then (fifo_csr d, set_in (tm_in d) (pred (tm_wait d)) d)
  else if idx =? 4 then (tm_tms d, d)
  else if idx =? 5 then (tm_tdi d, d)
  else if idx =? 6 then (sdes_csr d, set_busy (pred (tm_busy d)) d)
  else if idx =? 7 then (tm_tdo d, d)
  else (0, d).

(** The outgoing FIFO is handed over as one packet. *)
Definition send (d : tmem_fw) : tmem_fw :=
  match tm_out d with
  | [] => d
  | out =>
      let sent := tm_sent d ++ [concat (le_bytes 4 <$> out)] in
      mkTm [] sent (reply F sent) (delay F sent) (tm_mode d) (tm_tms d) (tm_tdi d) (tm_tdo d) (tm_len d) (tm_busy d)
        (tm_ena d) (tm_tck d) (tm_btms d) (tm_btdi d) (tm_log d)
  end.

(** The serializer shifts; the answer comes in from the left. *)
Definition run_sdes (d : tmem_fw) : tmem_fw :=
  let l := tm_len d `mod` 32 + 1 in
  let pairs := scan_of (l, tm_tms d, tm_tdi d) in
  let log := tm_log d ++ pairs in
  mkTm (tm_out d) (tm_sent d) (tm_in d) (tm_wait d) (tm_mode d) (tm_tms d) (tm_tdi d)
    (tm_tdo d `mod` 2 ^ 32 / 2 ^ l + bits_val (tdo_of (chain F) (tm_log d) pairs) * 2 ^ (32 - l)) (tm_len d) (busy F log)
    (tm_ena d) (tm_tck d) (tm_btms d) (tm_btdi d) log.

Definition tm_wr (idx v : Z) (d : tmem_fw) : tmem_fw :=
  if idx =? 0 then
    if zlen (tm_out d) <? 256 * kbytes F
    then mkTm (tm_out d ++ [v]) (tm_sent d) (tm_in d) (tm_wait d) (tm_mode d) (tm_tms d) (tm_tdi d) (tm_tdo d)
           (tm_len d) (tm_busy d) (tm_ena d) (tm_tck d) (tm_btms d) (tm_btdi d) (tm_log d)
    else d
  else if idx =? 2 then
    if Z.testbit v 23 then mkTm [] (tm_sent d) [] 0 0 0 0 0 0 0 false false false false (tm_log d)
    else
      let d := mkTm (tm_out d) (tm_sent d) (tm_in d) (tm_wait d) v (tm_tms d) (tm_tdi d) (tm_tdo d)
                 (tm_len d) (tm_busy d) (tm_ena d) (tm_tck d) (tm_btms d) (tm_btdi d) (tm_log d) in
      if Z.testbit v 16 then send d else d
  else if idx =? 4 then set_words v (tm_tdi d) d
  else if idx =? 5 then set_words (tm_tms d) v d
  else if idx =? 6 then
    let ena := Z.testbit v 31 in
    let tck := Z.testbit v 16 in let tms := Z.testbit v 17 in let tdi := Z.testbit v 18 in
    let log := if ena && tck && negb (tm_tck d) then tm_log d ++ [(tms, tdi)] else tm_log d in
    let d := mkTm (tm_out d) (tm_sent d) (tm_in d) (tm_wait d) (tm_mode d) (tm_tms d) (tm_tdi d) (tm_tdo d)
               (if serdes F then v `mod` 32 else tm_len d) (tm_busy d) ena tck tms tdi log in
    if serdes F && Z.testbit v 8 && negb ena then run_sdes d else d
  else d.

Definition fw_tosca : Tosca tmem_fw := {|
  toscaRead sp a d :=
    if (sp =? at_space F) && ((a - at_base F) `mod` 4 =? 0) then tm_rd ((a - at_base F) / 4) d else (0, d);
  toscaWrite sp a v d :=
    if (sp =? at_space F) && ((a - at_base F) `mod` 4 =? 0) then tm_wr ((a - at_base F) / 4) v d else d;
  toscaStrToAddrSpace := parse_space F;
|}.

(** What is documented about it. *)
Record cfg_ok (polls : nat) : Prop := {
  ok_version : 0 ≤ fw_version F < 16;
  ok_kbytes : 1 ≤ kbytes F < 16;
  ok_status log : 0 ≤ status F log < 2 ^ 11;
  ok_busy log : (busy F log < polls)%nat;
  ok_delay sent : (delay F sent < polls)%nat;
  ok_reply sent : Forall is_u32 (reply F sent) ∧ 0 < zlen (reply F sent) < 2 ^ 16;
  ok_base : 0 ≤ at_base F ≤ 2 ^ 64 - 32;
}.
End firmware.

(** ** The driver on the firmware *)

(** The members that a transfer does not change; [s_good]: the interrupts
    work. *)
Record tstat := mkStat {
  s_space : Z; s_base : Z; s_max : Z; s_wsz : Z; s_irq : bool; s_good : bool;
  s_bb : bool; s_sdes : bool; s_log : bool; s_measure : Z; s_version : Z
}.

(** The part of the firmware that matters for the JTAG signals. *)
Record jtag := mkJ { j_ena : bool; j_tck : bool; j_log : list (bool * bool) }.
Definition jt (d : tmem_fw) : jtag := mkJ (tm_ena d) (tm_tck d) (tm_log d).

Section tmem_proofs.
Context `{Platform} (F : fw_cfg) (polls : nat) (HF : cfg_ok F polls).
#[local] Instance the_tosca : Tosca tmem_fw := fw_tosca F.
Abbreviation TD := (JtagDriverTmemFifo tmem_fw).

Definition stat (b : TD) : tstat :=
  mkStat (toscaSpace_ b) (toscaBase_ b) (maxVec_ b) (wrdSiz_ b) (irqFd_ b) (forallb irq_good (irqs_ b))
    (bitBang_ b) (useSdes_ b) (logBscn_ b) (measure_ b) (version_ b).
Definition tview (b : TD) : tstat * tmem_fw := (stat b, dev b).
Definition jview (b : TD) : tstat * jtag := (stat b, jt (dev b)).

(** The driver looks at the firmware, and measures nothing. *)
Definition addressed (st : tstat) : Prop := s_space st = at_space F ∧ s_base st = at_base F.
Definition here (st : tstat) : Prop :=
  s_space st = at_space F ∧ s_base st = at_base F ∧ s_good st = true ∧ s_measure st = 0.

Lemma jview_runs {A} st st' j j' (m : M TD A) a :
  (∀ d, jt d = j → ∃ d', runs tview (st, d) m a (st', d') ∧ jt d' = j') → runs jview (st, j) m a (st', j').
Proof.
  intros Hm b Hb. injection Hb as Hs Hj. destruct (Hm (dev b) Hj) as (d' & Hr & Hd').
  destruct (Hr b) as (b' & E & Hb'); [unfold tview; by rewrite Hs|]. exists b'. split; [done|].
  injection Hb' as Hs' Hdev. unfold jview. by rewrite Hs', Hdev, Hd'.
Qed.

Lemma address idx : 0 ≤ idx < 8 →
  (at_space F =? at_space F) && ((wrap64 (at_base F + Z.shiftl idx 2) - at_base F) `mod` 4 =? 0) = true ∧
  (wrap64 (at_base F + Z.shiftl idx 2) - at_base F) / 4 = idx.
Proof.
  intros Hi. destruct (ok_base F polls HF). rewrite Z.shiftl_mul_pow2, wrap64_small by lia.
  replace (at_base F + idx * 2 ^ 2 - at_base F) with (idx * 4) by lia.
  rewrite Z.eqb_refl, Z.mod_mul, Z.div_mul by lia. done.
Qed.

Lemma tm_o32_at st d idx v : addressed st → 0 ≤ idx < 8 →
  runs tview (st, d) (o32 idx v) tt (st, tm_wr F idx v d).
Proof.
  intros (Hs & Hb) Hi b [= <- <-]. destruct (address idx Hi) as [E1 E2].
  change (toscaSpace_ b = at_space F) in Hs. change (toscaBase_ b = at_base F) in Hb.
  unfold o32, modify. cbn [toscaWrite the_tosca fw_tosca]. rewrite Hs, Hb, E1, E2. by eexists.
Qed.
Lemma tm_i32_at st d idx : addressed st → 0 ≤ idx < 8 →
  runs tview (st, d) (i32 idx) (fst (tm_rd F idx d)) (st, snd (tm_rd F idx d)).
Proof.
  intros (Hs & Hb) Hi b [= <- <-]. destruct (address idx Hi) as [E1 E2].
  change (toscaSpace_ b = at_space F) in Hs. change (toscaBase_ b = at_base F) in Hb.
  unfold i32. cbn [toscaRead the_tosca fw_tosca]. rewrite Hs, Hb, E1, E2.
  destruct (tm_rd F idx (dev b)). by eexists.
Qed.

Lemma here_addressed st : here st → addressed st.
Proof. by intros (Hs & Hb & _). Qed.
Lemma tm_o32_does st d idx v : here st → 0 ≤ idx < 8 → runs tview (st, d) (o32 idx v) tt (st, tm_wr F idx v d).
Proof. intros. by apply tm_o32_at; [apply here_addressed|]. Qed.
Lemma tm_i32_does st d idx : here st → 0 ≤ idx < 8 →
  runs tview (st, d) (i32 idx) (fst (tm_rd F idx d)) (st, snd (tm_rd F idx d)).
Proof. intros. by apply tm_i32_at; [apply here_addressed|]. Qed.

Lemma tm_wait_ends v : s_good (fst v) = true → ends tview v wait v.
Proof.
  intros Hg b Hb. unfold wait, mbind, M_bind, gets, id. rewrite <-Hb in Hg. change (forallb irq_good (irqs_ b) = true) in Hg.
  destruct b as [sp ba d mx wz irq il bb sd lg pt ds ms mp vr clk sl]. rewrite <-Hb. cbn [irqFd_ irqs_ doSleep_] in *.
  destruct irq; [|by destruct ds; do 2 eexists].
  destruct il as [|[evs| |] l]; try done; by do 2 eexists.
Qed.

Lemma jsleep_does v : runs jview v bbsleep tt v.
Proof. intros b Hb. by eexists. Qed.

(** *** The fields of the control registers *)

Lemma sdes_csr_tb d i : 5 ≤ i ≤ 31 → Z.testbit (sdes_csr F d) i =
  negb (Nat.eqb (tm_busy d) 0) && (i =? 9) || tm_tck d && (i =? 16) || tm_btms d && (i =? 17) ||
  tm_btdi d && (i =? 18) || (if tm_tck d then late F (tm_log d) else chain F (tm_log d)) && (i =? 19) ||
  Z.testbit (status F (tm_log d)) (i - 20) || tm_ena d && (i =? 31).
Proof.
  intros Hi. unfold sdes_csr. rewrite !Z.lor_spec, !tb_b2z, tb_shift by lia.
  rewrite (tb_small (if serdes F then _ else _) 5) by (pose proof (Z.mod_pos_bound (tm_len d) 32); destruct (serdes F); lia). cbn [orb].
  by rewrite !orb_assoc.
Qed.

Lemma sdes_csr_fields d : let x := sdes_csr F d in
  Z.testbit x 8 = false ∧ Z.testbit x 9 = negb (Nat.eqb (tm_busy d) 0) ∧ Z.testbit x 16 = tm_tck d ∧
  Z.testbit x 19 = (if tm_tck d then late F (tm_log d) else chain F (tm_log d)) ∧ Z.testbit x 31 = tm_ena d.
Proof.
  intros x. subst x. pose proof (ok_status F polls HF (tm_log d)) as Hs.
  rewrite !sdes_csr_tb by lia. rewrite (tb_small (status F _) 11 (31 - 20)) by lia.
  rewrite !(Z.testbit_neg_r (status F _)) by lia. cbn [Z.eqb Pos.eqb].
  rewrite ?andb_false_r, ?andb_true_r, ?orb_false_r. done.
Qed.

(** *** The bare JTAG signals *)

(** What [xfer32bb] keeps of the control register. *)
Definition bb_csr (csr : Z) : Prop :=
  Z.testbit csr 8 = false ∧ Z.testbit csr 31 = true ∧ Z.testbit csr 16 = false.

Lemma put_bit_tb w i bit csr k : 0 ≤ i → 0 ≤ bit → 0 ≤ k →
  Z.testbit (put_bit w (2 ^ i) (2 ^ bit) csr) k = if k =? bit then Z.testbit w i else Z.testbit csr k.
Proof.
  intros Hi Hb Hk. unfold put_bit. rewrite land_pow2 by done. destruct (Z.eqb_spec k bit) as [->|Hne]; destruct (Z.testbit w i).
  - by rewrite Z.lor_spec, Z.pow2_bits_true, orb_true_r by done.
  - by rewrite Z.ldiff_spec, Z.pow2_bits_true, andb_false_r by done.
  - by rewrite Z.lor_spec, Z.pow2_bits_false, orb_false_r by done.
  - by rewrite Z.ldiff_spec, Z.pow2_bits_false, andb_true_r by done.
Qed.

(** A write to the control register that does not start the serializer. *)
Lemma bb_write st j v : here st → Z.testbit v 31 = true ∨ Z.testbit v 8 = false →
  runs jview (st, j) (o32 SDES_CSR_IDX v) tt
    (st, mkJ (Z.testbit v 31) (Z.testbit v 16)
       (if Z.testbit v 31 && Z.testbit v 16 && negb (j_tck j)
        then j_log j ++ [(Z.testbit v 17, Z.testbit v 18)] else j_log j)).
Proof.
  intros Hh Hv. apply jview_runs. intros d <-. exists (tm_wr F SDES_CSR_IDX v d).
  split; [apply tm_o32_does; [done|done]|]. unfold tm_wr. cbn [Z.eqb SDES_CSR_IDX Pos.eqb].
  by destruct Hv as [-> | ->]; rewrite ?andb_false_r.
Qed.

Lemma bb_read st j : here st → yields jview (st, j) (i32 SDES_CSR_IDX) (λ x,
    Z.testbit x 8 = false ∧ Z.testbit x 31 = j_ena j ∧ (j_tck j = false → Z.testbit x 19 = chain F (j_log j)))
  (st, j).
Proof.
  intros Hh b Hb. injection Hb as Hs Hj. destruct (tm_i32_does st (dev b) SDES_CSR_IDX Hh ltac:(done) b) as (b' & E & Hb').
  { unfold tview. by rewrite Hs. }
  exists (fst (tm_rd F SDES_CSR_IDX (dev b))), b'. split; [done|]. subst j.
  change (fst _) with (sdes_csr F (dev b)). destruct (sdes_csr_fields (dev b)) as (H8 & _ & _ & H19 & H31).
  split; [split_and!; [done|done|]|].
  - intros Ht. cbn [jt j_tck j_log] in *. by rewrite H19, Ht.
  - injection Hb' as Hs' Hd. unfold jview. by rewrite Hs', Hd.
Qed.

(** The pairs from bit [i] on. *)
Definition pairs_from (tms tdi i : Z) (n : nat) : list (bool * bool) :=
  (λ k, (Z.testbit tms k, Z.testbit tdi k)) <$> seqZ i (Z.of_nat n).

Lemma pairs_from_S tms tdi i n :
  pairs_from tms tdi i (S n) = (Z.testbit tms i, Z.testbit tdi i) :: pairs_from tms tdi (i + 1) n.
Proof.
  unfold pairs_from. rewrite seqZ_cons by lia. rewrite fmap_cons.
  by replace (Z.pred (Z.of_nat (S n))) with (Z.of_nat n) by lia.
Qed.

(** One clock takes one pair to the chain and reads one bit. *)
Lemma bb_clock_yields tms tdi i csr tdo st tck log : here st → bb_csr csr → 0 ≤ i < 32 →
  let p := (Z.testbit tms i, Z.testbit tdi i) in
  yields jview (st, mkJ true tck log) (bb_clock tms tdi (2 ^ i) csr tdo)
    (λ r, bb_csr (fst r) ∧ snd r = if chain F log then Z.lor tdo (2 ^ i) else tdo)
    (st, mkJ true true (log ++ [p])).
Proof.
  intros Hh (H8 & H31 & H16) Hi p. unfold bb_clock.
  change SDES_CSR_BB_TMS with (2 ^ 17). change SDES_CSR_BB_TDI with (2 ^ 18). change SDES_CSR_BB_TCK with (2 ^ 16).
  change SDES_CSR_BB_TDO with (2 ^ 19). set (csr1 := put_bit tdi _ _ _).
  assert (Ht : ∀ k, 0 ≤ k → Z.testbit csr1 k =
    if k =? 18 then Z.testbit tdi i else if k =? 17 then Z.testbit tms i else Z.testbit csr k)
    by (intros k Hk; subst csr1; by rewrite !put_bit_tb by lia).
  eapply runs_then; [apply bb_write; [done|left; by rewrite Ht]|]. rewrite !Ht by lia. cbn [Z.eqb Pos.eqb]. rewrite H16, H31. cbn [andb j_log].
  eapply runs_then; [apply jsleep_does|].
  eapply yields_then; [by apply bb_read|]. intros x (_ & _ & Hx). specialize (Hx eq_refl). cbn [j_log] in Hx.
  cbv zeta. rewrite land_pow2, Hx by lia. clear x Hx.
  eapply runs_then; [apply bb_write; [done|left; by rewrite lor_pow2_tb, Ht by lia]|].
  rewrite !lor_pow2_tb, !Ht by lia. cbn [Z.eqb Pos.eqb]. rewrite H31. cbn [andb negb j_tck j_log]. fold p.
  eapply runs_then; [apply jsleep_does|]. eapply yields_then; [apply yields_gets|]. intros lg _.
  eapply (runs_then _ _ _ _ _ tt).
  { destruct lg; [|apply runs_ret]. eapply yields_bind; [by apply bb_read|]. intros; apply runs_ret. }
  apply yields_ret. split; [|done]. unfold bb_csr. cbn [fst]. rewrite !ldiff_pow2_tb, !lor_pow2_tb, !Ht by lia. done.
Qed.

Lemma bb_loop_does tms tdi n : ∀ i csr bs st tck log, here st → bb_csr csr → zlen bs = i → i + Z.of_nat n ≤ 32 →
  let ps := pairs_from tms tdi i n in
  runs jview (st, mkJ true tck log) (bb_loop n tms tdi (wrap32 (2 ^ i)) csr (bits_val bs))
    (bits_val (bs ++ tdo_of (chain F) log ps)) (st, mkJ true (match n with O => tck | S _ => true end) (log ++ ps)).
Proof.
  induction n as [|n IH]; intros i csr bs st tck log Hh Hc Hl Hi ps.
  - subst ps. cbn. rewrite !app_nil_r. apply runs_ret.
  - cbn [bb_loop]. rewrite (wrap32_small (2 ^ i)) by (unfold is_u32; split; [apply Z.pow_nonneg; lia|apply Z.pow_lt_mono_r; lia]).
    eapply yields_bind; [apply bb_clock_yields; (done || lia)|]. intros [csr' tdo'] [Hc' Ht]. cbn [fst snd] in *. subst tdo'.
    set (p := (Z.testbit tms i, Z.testbit tdi i)). subst ps. rewrite pairs_from_S. fold p. cbn [tdo_of].
    replace (if chain F log then _ else _) with (bits_val (bs ++ [chain F log])).
    2:{ rewrite bits_val_snoc, Hl. pose proof (bits_val_bounds bs) as Hbd. rewrite Hl in Hbd.
        destruct (chain F log); cbn [Z.b2z]; [|lia]. rewrite <-(Z.mul_1_l (2 ^ i)) at 2. by rewrite lor_add by lia. }
    replace (wrap32 (Z.shiftl (2 ^ i) 1)) with (wrap32 (2 ^ (i + 1)))
      by (f_equal; rewrite Z.shiftl_mul_pow2, Z.pow_add_r by lia; lia).
    rewrite (cons_middle p log (pairs_from tms tdi (i + 1) n)), (app_assoc log).
    rewrite (cons_middle (chain F log) bs (tdo_of _ _ _)), (app_assoc bs [chain F log] (tdo_of _ _ _)).
    pose proof (IH (i + 1) csr' (bs ++ [chain F log]) st true (log ++ [p]) Hh Hc' ltac:(len) ltac:(lia)) as Hr.
    destruct n; exact Hr.
Qed.

Lemma xfer32bb_does st tms tdi l tck log : here st → 1 ≤ l ≤ 32 →
  let ps := scan_of (l, tms, tdi) in
  runs jview (st, mkJ true tck log) (xfer32bb tms tdi l) (bits_val (tdo_of (chain F) log ps))
    (st, mkJ true true (log ++ ps)).
Proof.
  intros Hh Hl ps. unfold xfer32bb. eapply yields_bind; [by apply bb_read|]. intros x (H8 & H31 & _). cbn [j_ena] in H31.
  assert (Hc : bb_csr (Z.ldiff x SDES_CSR_BBMSK)) by (unfold bb_csr; rewrite !Z.ldiff_spec, H8, H31, andb_false_r; done).
  pose proof (bb_loop_does tms tdi (Z.to_nat l) 0 _ [] st tck log Hh Hc eq_refl ltac:(lia)) as Hr.
  assert (Hps : pairs_from tms tdi 0 (Z.to_nat l) = ps)
    by (subst ps; unfold pairs_from, scan_of; cbn [fst snd]; by rewrite Z2Nat.id by lia).
  cbv zeta in Hr. rewrite Hps in Hr. destruct (Z.to_nat l) eqn:E; [lia|exact Hr].
Qed.

(** *** The serializer *)

Lemma sdes_poll_does n : ∀ st d, here st → (tm_busy d < n)%nat →
  runs tview (st, d) (sdes_poll n) tt (st, set_busy 0 d).
Proof.
  induction n as [|n IH]; intros st d Hh Hb; [lia|]. cbn [sdes_poll].
  eapply runs_bind; [by apply tm_i32_does|]. cbn [tm_rd SDES_CSR_IDX Z.eqb Pos.eqb orb fst snd].
  change SDES_CSR_BSY with (2 ^ 9). rewrite land_pow2 by lia. destruct (sdes_csr_fields d) as (_ & -> & _).
  destruct (tm_busy d) as [|k] eqn:E; cbn [Nat.eqb negb pred]; [apply runs_ret|].
  eapply ends_bind; [apply tm_wait_ends; apply Hh|]. apply (IH st (set_busy k d)); [done|cbn; lia].
Qed.

(** The word that starts a shift of [l] bits. *)
Definition start_word (x l : Z) : Z :=
  Z.lor (Z.lor (Z.ldiff x SDES_CSR_LRMSK) (Z.shiftl (wrap32 (l - 1)) SDES_CSR_LENS)) SDES_CSR_RUN.

Lemma start_word_tb x l i : 1 ≤ l ≤ 32 → 5 ≤ i → Z.testbit (start_word x l) i =
  if i =? 8 then true else if i <? 12 then false else Z.testbit x i.
Proof.
  intros Hl Hi. unfold start_word. change SDES_CSR_RUN with (2 ^ 8). rewrite lor_pow2_tb by lia.
  destruct (Z.eqb_spec i 8); [done|]. rewrite Z.lor_spec, Z.ldiff_spec. change SDES_CSR_LRMSK with (Z.ones 12).
  rewrite wrap32_small, Z.shiftl_0_r, (tb_small (l - 1) 5), orb_false_r by (unfold is_u32; lia).
  destruct (Z.ltb_spec i 12); [by rewrite Z.ones_spec_low, andb_false_r by lia|by rewrite Z.ones_spec_high, andb_true_r by lia].
Qed.
Lemma start_word_len x l : 1 ≤ l ≤ 32 → start_word x l `mod` 32 = l - 1.
Proof.
  intros Hl. change 32 with (2 ^ 5). rewrite <-Z.land_ones by lia. apply Z.bits_inj'. intros i Hi. rewrite Z.land_spec.
  destruct (Z_lt_le_dec i 5).
  - rewrite Z.ones_spec_low, andb_true_r by lia. unfold start_word. change SDES_CSR_RUN with (2 ^ 8).
    rewrite lor_pow2_tb, (proj2 (Z.eqb_neq i 8)) by lia. change SDES_CSR_LRMSK with (Z.ones 12).
    by rewrite Z.lor_spec, Z.ldiff_spec, Z.ones_spec_low, andb_false_r, wrap32_small, Z.shiftl_0_r by (unfold is_u32; lia).
  - rewrite Z.ones_spec_high, andb_false_r, (tb_small (l - 1) 5) by lia. done.
Qed.

(** Starting the serializer: a write of the control register without the
    software in charge. *)
Lemma start_does d v : serdes F = true → Z.testbit v 31 = false → Z.testbit v 8 = true →
  Z.testbit v 16 = tm_tck d →
  let d' := tm_wr F SDES_CSR_IDX v d in
  let ps := scan_of (v `mod` 32 + 1, tm_tms d, tm_tdi d) in
  jt d' = mkJ false (tm_tck d) (tm_log d ++ ps) ∧ tm_busy d' = busy F (tm_log d ++ ps) ∧
  tm_tdo d' = tm_tdo d `mod` 2 ^ 32 / 2 ^ (v `mod` 32 + 1) +
    bits_val (tdo_of (chain F) (tm_log d) ps) * 2 ^ (32 - (v `mod` 32 + 1)).
Proof.
  intros Hs H31 H8 H16 d' ps. subst d' ps. unfold tm_wr. cbn [Z.eqb SDES_CSR_IDX Pos.eqb].
  rewrite Hs, H31, H8, H16. cbn [andb negb]. unfold run_sdes, jt. cbn [tm_len tm_tms tm_tdi tm_log tm_busy tm_tdo tm_ena tm_tck].
  by rewrite Z.mod_mod by lia.
Qed.

Lemma xfer32sdes_does st tms tdi l wt tck log : here st → serdes F = true → 1 ≤ l ≤ 32 →
  let ps := scan_of (l, tms, tdi) in
  runs jview (st, mkJ false tck log) (xfer32sdes polls tms tdi l wt)
    (bits_val (tdo_of (chain F) log ps), None) (st, mkJ false tck (log ++ ps)).
Proof.
  intros Hh Hs Hl ps. apply jview_runs. intros d Hj. injection Hj as Hena Htck Hlog.
  set (v := start_word (sdes_csr F d) l). set (d1 := set_words tms tdi (set_busy (pred (tm_busy d)) d)).
  destruct (sdes_csr_fields d) as (_ & _ & H16 & _ & H31).
  destruct (start_does d1 v Hs) as (Ej & Eb & Et);
    [subst v; rewrite start_word_tb by lia; exact (eq_trans H31 Hena)|subst v; by rewrite start_word_tb by lia|
     subst v; rewrite start_word_tb by lia; exact H16|].
  unfold v in Ej, Eb, Et. rewrite start_word_len in Ej, Eb, Et by done. fold v in Ej, Eb, Et.
  replace (l - 1 + 1) with l in * by lia. set (d2 := tm_wr F SDES_CSR_IDX v d1) in *.
  change (scan_of (l, tm_tms d1, tm_tdi d1)) with ps in *. change (tm_log d1) with (tm_log d) in *.
  change (tm_tck d1) with (tm_tck d) in *. rewrite Hlog, Htck in *.
  exists (set_busy 0 d2). split; [|by rewrite <-Ej].
  unfold xfer32sdes. eapply runs_bind; [by apply tm_i32_does|].
  cbn [tm_rd SDES_CSR_IDX Z.eqb Pos.eqb orb fst snd]. cbv zeta.
  eapply runs_bind; [by apply tm_o32_does|]. eapply runs_bind; [by apply tm_o32_does|].
  eapply runs_bind; [by apply tm_o32_does|].
  change (tm_wr F SDES_TDI_IDX tdi _) with d1. change (Z.lor _ SDES_CSR_RUN) with v. fold d2.
  apply runs_gets. intros b Hb. assert (Hms : measure_ b = 0).
  { destruct Hh as (_ & _ & _ & Hm). injection Hb as <- _. exact Hm. }
  unfold id. rewrite Hms, andb_false_r. clear b Hb Hms.
  eapply runs_bind; [apply runs_ret|]. eapply runs_bind.
  { apply sdes_poll_does; [done|]. rewrite Eb. apply (ok_busy F polls HF). }
  eapply runs_bind; [by apply tm_i32_does|]. cbn [tm_rd SDES_TDO_IDX Z.eqb Pos.eqb orb fst snd].
  rewrite (wrap32_small (32 - l)) by (unfold is_u32; lia). zbool. change (tm_tdo (set_busy 0 d2)) with (tm_tdo d2).
  assert (Hp : 0 < 2 ^ (32 - l) ∧ 0 < 2 ^ l) by (split; apply Z.pow_pos_nonneg; lia).
  assert (Hq : 0 ≤ tm_tdo d1 `mod` 2 ^ 32 / 2 ^ l < 2 ^ (32 - l)).
  { split; [apply Z.div_pos; [apply Z.mod_pos_bound|]; lia|]. apply Z.div_lt_upper_bound; [lia|].
    rewrite <-Z.pow_add_r by lia. replace (l + (32 - l)) with 32 by lia. apply Z.mod_pos_bound. lia. }
  rewrite Et, Z.shiftr_div_pow2, Z.div_add, Z.div_small by lia. rewrite Z.add_0_l. apply runs_ret.
Qed.

(** *** Whole vectors *)

(** Who drives the signals, and what has been clocked. *)
Definition lview (b : TD) : tstat * (bool * list (bool * bool)) := (stat b, (tm_ena (dev b), tm_log (dev b))).

Lemma lview_runs {A} st e log log' (m : M TD A) a :
  (∀ tck, ∃ tck', runs jview (st, mkJ e tck log) m a (st, mkJ e tck' log')) →
  runs lview (st, (e, log)) m a (st, (e, log')).
Proof.
  intros Hm b Hb. injection Hb as Hs He Hl. destruct (Hm (tm_tck (dev b))) as [tck' Hr].
  destruct (Hr b) as (b' & E & Hb'); [unfold jview, jt; by rewrite Hs, He, Hl|]. exists b'. split; [done|].
  injection Hb' as Hs' He' _ Hl'. unfold lview. by rewrite Hs', He', Hl'.
Qed.

(** The signals are driven by the software or by the serializer. *)
Definition raw (st : tstat) : Prop := here st ∧ (s_bb st = false → serdes F = true).

(** A word is shifted, the same in both modes. *)
Lemma shift_word_does st tms tdi l log : raw st → 1 ≤ l ≤ 32 →
  let ps := scan_of (l, tms, tdi) in
  runs lview (st, (s_bb st, log)) (shift_word polls tms tdi l)
    (bits_val (tdo_of (chain F) log ps), None) (st, (s_bb st, log ++ ps)).
Proof.
  intros [Hh Hs] Hl ps. unfold shift_word. apply runs_gets. intros b Hb. unfold id.
  assert (Ebb : bitBang_ b = s_bb st) by (injection Hb as <- _ _; done). rewrite Ebb. clear b Hb Ebb.
  destruct (s_bb st) eqn:E; apply lview_runs; intros tck.
  - exists true. eapply runs_bind; [by apply xfer32bb_does|]. apply runs_ret.
  - exists tck. apply xfer32sdes_does; auto.
Qed.

Lemma sdes_measure_does v t : s_measure (fst v) = 0 → runs lview v (sdes_measure t) tt v.
Proof.
  intros Hm. unfold sdes_measure. apply runs_gets. intros b <-. unfold id.
  change (s_measure (fst (lview b))) with (measure_ b) in Hm. rewrite Hm. apply runs_ret.
Qed.

Abbreviation tdo_image := (tdo_image (chain F)).

Lemma shift_loop_does txb n : ∀ fuel nbits pi pre old l lb st log j hd,
  raw st → bytes txb → (n ≤ fuel)%nat → 0 ≤ nbits < 2 ^ 32 → Z.of_nat n = (nbits + 31) / 32 →
  0 ≤ pi → pi + 8 * Z.of_nat n ≤ zlen txb → (nbits + 7) / 8 ≤ zlen old → (n ≠ O → l = 32 ∧ lb = 4) →
  let ps := scan_bits (asked n txb nbits pi) in let N := (nbits + 7) / 8 in
  runs (io_view lview) (mkV j hd (pre ++ old) (st, (s_bb st, log)))
    (shift_loop polls fuel txb nbits pi (zlen pre) l lb) tt
    (mkV j hd (pre ++ tdo_image N log ps ++ drop (Z.to_nat N) old) (st, (s_bb st, log ++ ps))).
Proof.
  induction n as [|n IH]; intros fuel nbits pi pre old l lb st log j hd Hr Hb Hf Hn Hw Hpi Htx Hold Hl ps N.
  - assert (nbits = 0) as -> by (Z.div_mod_to_equations; lia). subst ps N. cbn [asked]. rewrite app_nil_r.
    destruct fuel; apply runs_ret.
  - destruct fuel as [|fuel]; [lia|]. destruct (Hl ltac:(done)) as (-> & ->). set (m := Z.min 32 nbits). set (nb := (m + 7) / 8).
    assert (Hnb : 0 ≤ nb ≤ 4 ∧ nb ≤ N ∧ N - nb = (nbits - m + 7) / 8 ∧ 1 ≤ m ≤ 32 ∧
                  (32 ≤ nbits ∧ nb = 4 ∧ m = 32 ∨ nbits = m ∧ n = O))
      by (subst N nb m; clear IH; Z.div_mod_to_equations; lia).
    destruct Hnb as (Hnb & HN & Hrest & Hm & Hcase). assert (Hpos : 0 < nbits) by lia.
    set (x := (m, word_at txb pi, word_at txb (pi + 4))). set (w := bits_val (tdo_of (chain F) log (scan_of x))).
    assert (Hx : zlen (scan_of x) = m) by (apply scan_of_length; lia).
    assert (Hu : is_u32 w).
    { pose proof (bits_val_bounds (tdo_of (chain F) log (scan_of x))) as Hbd. fold w in Hbd. rewrite tdo_of_length, Hx in Hbd.
      pose proof (Z.pow_le_mono_r 2 m 32 ltac:(lia) ltac:(lia)). unfold is_u32. lia. }
    cbn [shift_loop]. rewrite (proj2 (Z.ltb_lt 0 nbits) Hpos).
    eapply runs_bind; [apply runs_lift, getw32_ok; (done || lia)|].
    eapply runs_bind; [apply runs_lift, getw32_ok; (done || lia)|]. cbv zeta.
    change (le_val (take 4 (drop (Z.to_nat pi) txb))) with (word_at txb pi).
    change (le_val (take 4 (drop (Z.to_nat (pi + 4)) txb))) with (word_at txb (pi + 4)). change (8 * 4) with 32.
    assert (E1 : (if nbits <? 32 then nbits else 32) = m) by (subst m; destruct (Z.ltb_spec nbits 32); lia).
    assert (E2 : (if nbits <? 32 then (m + 7) / 8 else 4) = nb).
    { subst nb. destruct (Z.ltb_spec nbits 32); [done|]. by replace m with 32 by lia. }
    rewrite !E1, !E2, wrap32_small by (unfold is_u32; lia).
    eapply runs_bind; [apply on_tp_does, shift_word_does; (done || lia)|]. cbn [fst snd]. fold x w.
    eapply runs_bind; [apply put_rx_does, setw32_split; (done || lia)|].
    eapply runs_bind; [apply on_tp_does, sdes_measure_does, Hr|].
    rewrite le_bytes_take by lia. fold (tdo_image nb log (scan_of x)). rewrite (app_assoc pre).
    set (pre' := pre ++ tdo_image nb log (scan_of x)). set (old' := drop (Z.to_nat nb) old).
    assert (Hpre : zlen pre + nb = zlen pre') by (subst pre'; unfold tdo_image; len). rewrite Hpre.
    destruct (tdo_image_step (chain F) n txb nbits pi log Hpos) as [Eps Eim]; [lia|]. fold m x nb N in Eps, Eim.
    subst ps. rewrite Eps, Eim, <-Hrest in *. set (rest := scan_bits _).
    replace (pre ++ _ ++ drop (Z.to_nat N) old) with (pre' ++ tdo_image (N - nb) (log ++ scan_of x) rest ++ drop (Z.to_nat (N - nb)) old').
    2:{ subst pre' old'. rewrite drop_drop, <-!app_assoc. do 4 f_equal. lia. }
    rewrite (app_assoc log), Hrest.
    apply IH; [done|done|lia|lia|clear IH; Z.div_mod_to_equations; lia|lia|lia|subst old'; len|].
    intros Hne. destruct Hcase as [(_ & -> & ->)|(_ & ?)]; [done|lia].
Qed.

(** *** Shift messages and queries without the FIFO *)

Lemma get_header {A} txb j hd rx v (k : Z → M (io TD) A) a w : bytes txb → 4 ≤ zlen txb →
  runs (io_view lview) (mkV j hd rx v) (k (le_val (take 4 txb))) a w →
  runs (io_view lview) (mkV j hd rx v) (hdr ← lift (getHdr txb); k hdr) a w.
Proof.
  intros Hb Hl Hk. eapply runs_bind; [|exact Hk]. apply runs_lift. unfold getHdr.
  by rewrite getw32_ok, drop_0 by (done || lia).
Qed.

Lemma xferSdes_shift txb txBytes size bits st log j hd rx :
  let h := le_val (take 4 txb) in
  let nb := (bits + 7) / 8 in let nw := Z.to_nat ((bits + 31) / 32) in
  raw st → bytes txb → getVrs h = PVER0 → getCmd h = CMD_S → getLen h = Ret bits →
  8 * Z.of_nat nw ≤ txBytes → 4 + 8 * Z.of_nat nw ≤ zlen txb → nb ≤ size → nb ≤ zlen rx → 4 ≤ zlen hd →
  let ps := scan_bits (asked nw txb bits 4) in
  ∃ hd', take 4 hd' = take 4 txb ∧ length hd' = length hd ∧ (bytes hd → bytes hd') ∧
    runs (io_view lview) (mkV j hd rx (st, (s_bb st, log))) (xferSdes polls txb txBytes 4 size) nb
      (mkV j hd' (tdo_image nb log ps ++ drop (Z.to_nat nb) rx) (st, (s_bb st, log ++ ps))).
Proof.
  intros h nb nw Hr Hb Hv Hc Hg Htx Hl Hs Hrx Hh ps. pose proof (getLen_bounds h bits Hc Hg) as Hbits.
  assert (Hnw : Z.of_nat nw = (bits + 31) / 32) by (subst nw; Z.div_mod_to_equations; lia).
  assert (Hnw' : (nb + 4 - 1) / 4 = Z.of_nat nw) by (rewrite Hnw; subst nb; Z.div_mod_to_equations; lia).
  assert (Hu : is_u32 h).
  { pose proof (le_val_bounds (take 4 txb) (bytes_take _ _ Hb)) as Hu.
    rewrite length_take, Nat.min_l in Hu by lia. exact Hu. }
  destruct (setHdr_ok 4 h hd) as (hd' & Eh & Lh & [Hh4 _] & _ & Bh); [done|lia|lia|].
  exists hd'. split.
  { rewrite Hh4. subst h. replace 4%nat with (length (take 4 txb)) at 1 by (rewrite length_take; lia).
    by apply le_bytes_le_val, bytes_take. }
  split; [done|]. split; [done|]. unfold xferSdes. apply get_header; [done|lia|]. fold h.
  rewrite Hv, Hc, !Z.eqb_refl. change (CMD_S =? CMD_Q) with false. cbn [negb].
  eapply runs_bind; [by apply runs_lift|]. fold nb. rewrite Hnw'. zbool.
  eapply runs_bind; [by apply put_hd_does|]. eapply runs_bind; [|apply runs_ret]. rewrite Nat2Z.id.
  pose proof (shift_loop_does txb nw nw bits 4 [] rx 32 4 st log j hd' Hr Hb) as Hsl. cbn [app] in Hsl.
  apply Hsl; (done || lia).
Qed.

Lemma xferSdes_query txb txBytes size v j hd rx hd' : le_val (take 4 txb) = mkQuery → bytes txb → 4 ≤ zlen txb →
  setHdr 4 3 hd = Ret hd' →
  runs (io_view lview) (mkV j hd rx v) (xferSdes polls txb txBytes 4 size) 4 (mkV j hd' rx v).
Proof.
  intros Hq Hb Hl Eh. unfold xferSdes. apply get_header; [done|done|]. rewrite Hq.
  change (negb (getVrs mkQuery =? PVER0)) with false. change (getCmd mkQuery =? CMD_Q) with true.
  cbn [negb Z.eqb Pos.eqb]. cbv iota. rewrite query_reply_word.
  eapply runs_bind; [by apply runs_lift|]. eapply runs_bind; [by apply put_hd_does|]. apply runs_ret.
Qed.

#[local] Instance tmem_transport : Transport TD := {
  xfer := tmem_xfer polls;
  getMaxVectorSize _ := tmem_getMaxVectorSize;
}.

(** A driver that does without the FIFO. *)
Definition raw_ok (b : TD) : Prop :=
  raw (stat b) ∧ tm_ena (dev b) = bitBang_ b ∧ bitBang_ b || useSdes_ b = true.

Lemma tmem_xfer_raw txb txBytes hsize size (s : io TD) : raw_ok (io_tp s) →
  tmem_xfer polls txb txBytes hsize size s = xferSdes polls txb txBytes hsize size s.
Proof.
  intros (_ & _ & Hm). unfold tmem_xfer. rewrite (M_bind_ret _ _ s (io_tp s) s) by done. by rewrite Hm.
Qed.
Lemma raw_ok_kept b b' log : raw_ok b → lview b' = (stat b, (s_bb (stat b), log)) → raw_ok b'.
Proof.
  intros (Hr & He & Hm) Hv. pose proof (f_equal fst Hv) as Hs. pose proof (f_equal (λ x, fst (snd x)) Hv) as He'.
  change (stat b' = stat b) in Hs. change (tm_ena (dev b') = bitBang_ b) in He'. unfold raw_ok.
  split; [by rewrite Hs|]. injection Hs as _ _ _ _ _ _ Ebb Esd _ _ _. by rewrite Ebb, Esd.
Qed.
Lemma raw_ok_max b b' log : raw_ok b → 0 ≤ maxVec_ b → lview b' = (stat b, (s_bb (stat b), log)) →
  raw_ok b' ∧ 0 ≤ maxVec_ b'.
Proof. intros Hok Hm Hv. split; [by eapply raw_ok_kept|]. by injection Hv as _ _ -> _. Qed.
Lemma raw_lview b : raw_ok b → lview b = (stat b, (s_bb (stat b), tm_log (dev b))).
Proof. intros (_ & He & _). unfold lview. by rewrite He. Qed.

#[local] Program Instance tmem_raw_laws : TransportLaws TD := {
  tp_ok b := raw_ok b ∧ 0 ≤ maxVec_ b;
  word_ok w := w = 4;
}.
Next Obligation. done. Qed.
Next Obligation.
  intros txb txBytes hsize size s _ -> (Htx & Hb & Hm) (Hhd & Hhb & Hsz & Hrb) [Hok Hmx].
  cbn [xfer tmem_transport]. rewrite tmem_xfer_raw by done. pose proof (raw_lview _ Hok) as Hvw. pose proof Hok as (Hr & _).
  set (st := stat (io_tp s)) in *. set (log := tm_log (dev (io_tp s))) in *.
  assert (Hv0 : io_view lview s = mkV (io_jd s) (io_hd s) (io_rx s) (st, (s_bb st, log))) by (unfold io_view; by rewrite Hvw).
  destruct Hm as [[Hq _]|[(Hq & _)|(Hv & Hc & bits & Hg & Es & Et)]].
  - destruct (setHdr_ok 4 3 (io_hd s)) as (hd & Eh & Lh & Hh & _ & Bh); [done|lia|lia|].
    destruct (xferSdes_query txb txBytes size (st, (s_bb st, log)) (io_jd s) (io_hd s) (io_rx s) hd Hq Hb ltac:(lia) Eh s Hv0)
      as (s' & -> & Hw). apply io_view_inv in Hw as (-> & -> & -> & Hl).
    split; [intros _; right; by rewrite (header_at_val 4 3 hd)|]. unfold buffers_ok. rewrite Lh.
    split; [auto|]. split; [by eapply raw_ok_max|]. split; [apply rx_frame_refl|done].
  - unfold xferSdes, getHdr. rewrite getw32_ok by (done || lia). rewrite drop_0, Hq. by split_and!.
  - pose proof (getLen_bounds _ bits Hc Hg) as Hbits.
    assert (Hnw : 4 * ((size + 4 - 1) / 4) = 4 * Z.of_nat (Z.to_nat ((bits + 31) / 32)))
      by (subst size; Z.div_mod_to_equations; lia).
    destruct (xferSdes_shift txb txBytes size bits st log (io_jd s) (io_hd s) (io_rx s))
      as (hd & _ & Lh & Bh & Hdo); try done; [lia|lia|lia|lia|lia|].
    destruct (Hdo s Hv0) as (s' & -> & Hw). apply io_view_inv in Hw as (-> & -> & -> & Hl). rewrite <-Es in *.
    split; [intros Hq; by rewrite Hq in Hc|]. unfold tdo_image.
    set (A := le_bytes _ _). assert (LA : zlen A = size) by (subst A; len).
    destruct (reply_frame size A (io_rx s)) as [Lf Hf]; [lia|lia|]. rewrite take_ge in Lf, Hf by lia.
    assert (BA : bytes A) by apply le_bytes_bytes.
    unfold buffers_ok. rewrite Lh, Lf.
    split; [split_and!; [done|auto|lia|lia|apply bytes_app; auto with xvc]|]. split; [by eapply raw_ok_max|]. done.
Qed.
Next Obligation. by intros w b [_ ?]. Qed.

(** What [sendVectors] clocks into the chain and brings back. *)
Lemma tmem_send (a : JtagDriverAxisToJtag TD) bits tms tdi tdo :
  axis_ok a → getSniff (jd a) = false → 1 ≤ bits ≤ 2 ^ 20 → bytes tms → bytes tdi →
  let n := (bits + 7) / 8 in
  n ≤ zlen tms → n ≤ zlen tdi → n ≤ zlen tdo → 4 + 2 * word_ceil 4 n ≤ bufSz_ a →
  let log := tm_log (dev (tp a)) in
  let ps := zip (take (Z.to_nat bits) (bits_of tms)) (take (Z.to_nat bits) (bits_of tdi)) in
  ∃ tdo' a', sendVectors bits tms tdi tdo a = (Ret tdo', a') ∧ maxVec_ (tp a') = maxVec_ (tp a) ∧
    tm_log (dev (tp a')) = log ++ ps ∧
    tdo' = le_bytes (Z.to_nat n) (bits_val (tdo_of (chain F) log ps)) ++ drop (Z.to_nat n) tdo.
Proof.
  intros A Hsn Hb Bt Bd n Ht Hd Ho Hf log ps. pose proof (ok_word _ A) as Hw. cbn in Hw. pose proof (ok_tp _ A) as [Hok _].
  destruct (ok_hdBuf _ A) as [Hhb Hhl]. pose proof (word_ceil_bounds 4 n ltac:(lia)) as Hwc.
  set (nw := Z.to_nat ((bits + 31) / 32)).
  assert (Hnw : word_ceil 4 n = 4 * Z.of_nat nw) by (subst n nw; unfold word_ceil; Z.div_mod_to_equations; lia).
  assert (Hnw' : Z.of_nat nw = (bits + 31) / 32) by (subst nw; Z.div_mod_to_equations; lia).
  destruct (sendVectors_by bits tms tdi tdo a (λ s', maxVec_ (io_tp s') = maxVec_ (tp a) ∧ tm_log (dev (io_tp s')) = log ++ ps ∧
    io_rx s' = tdo_image n log ps ++ drop (Z.to_nat n) tdo) A Hsn Hb Bt Bd Ht Hd) as (s' & a' & E & Et & (Em & El & Er) & _).
  - by rewrite Hw.
  - rewrite Hw. fold n. intros msg B L P h Hv Hc Hg. cbn [xfer tmem_transport]. rewrite tmem_xfer_raw by done.
    destruct (xferSdes_shift msg (4 + 2 * word_ceil 4 n) n bits (stat (tp a)) log (jd a) (hdBuf_ a) tdo)
      as (hd & Ehd & Lh & Bh & Hdo); [apply Hok|done..|fold nw; lia|fold nw; lia|lia|lia|lia|].
    fold nw n in Hdo. replace (scan_bits (asked nw msg bits 4)) with ps in Hdo; cycle 1.
    { symmetry. apply message_scan; (done || lia). }
    destruct (Hdo (mkIo (jd a) (tp a) (hdBuf_ a) tdo)) as (s' & Ex & Hvw);
      [unfold io_view; cbn [io_tp]; by rewrite (raw_lview _ Hok)|].
    apply io_view_inv in Hvw as (Ej & Eh & Er & Hl). exists s'. rewrite Eh. split_and!; try done; [by injection Hl|].
    exact (f_equal (λ x, snd (snd x)) Hl).
  - exists (io_rx s'), a'. rewrite Et. done.
Qed.

(** C15: end to end without the FIFO, both when the signals are driven by
    software and when the serializer of the firmware does it: for a vector
    pair of 1 to 2^20 bits that fits the transmit buffer, [sendVectors]
    returns; the TMS/TDI pairs that were clocked into the scan chain are
    exactly the first [bits] bits of the two vectors in order, and the TDO
    vector holds, bit by bit, what the chain showed before each clock, with
    zeros up to the byte boundary and nothing written behind it. *)
Theorem tmem_scan (a : JtagDriverAxisToJtag TD) bits tms tdi tdo :
  axis_ok a → getSniff (jd a) = false → 1 ≤ bits ≤ 2 ^ 20 → bytes tms → bytes tdi →
  let n := (bits + 7) / 8 in
  n ≤ zlen tms → n ≤ zlen tdi → n ≤ zlen tdo → 4 + 2 * word_ceil 4 n ≤ bufSz_ a →
  let log := tm_log (dev (tp a)) in
  let ps := zip (take (Z.to_nat bits) (bits_of tms)) (take (Z.to_nat bits) (bits_of tdi)) in
  ∃ tdo' a', sendVectors bits tms tdi tdo a = (Ret tdo', a') ∧
    tm_log (dev (tp a')) = log ++ ps ∧
    tdo' = le_bytes (Z.to_nat n) (bits_val (tdo_of (chain F) log ps)) ++ drop (Z.to_nat n) tdo.
Proof.
  intros A Hsn Hb Bt Bd n Ht Hd Ho Hf log ps.
  destruct (tmem_send a bits tms tdi tdo A Hsn Hb Bt Bd Ht Hd Ho Hf) as (tdo' & a' & E & _ & El & Er). by exists tdo', a'.
Qed.

Lemma tmem_query (a : JtagDriverAxisToJtag TD) : axis_ok a →
  ∃ a', query a = (Ret 0, a') ∧ wordSize_ a' = 4 ∧ memDepth_ a' = 0 ∧ retry_ a' = 0 ∧
    periodNs_ a' = UNKNOWN_PERIOD ∧ bufSz_ a' = bufSz_ a ∧ jd a' = jd a ∧
    maxVec_ (tp a') = maxVec_ (tp a) ∧ tm_log (dev (tp a')) = tm_log (dev (tp a)).
Proof.
  intros A. pose proof (ok_word _ A) as Hw. cbn in Hw. destruct (ok_hdBuf _ A) as [Hhb Hhl].
  pose proof (ok_tp _ A) as [Hok _].
  apply (query_default a 4 (λ b, maxVec_ b = maxVec_ (tp a) ∧ tm_log (dev b) = tm_log (dev (tp a))) A Hw).
  intros txb Hb Hl Hm. destruct (setHdr_ok 4 3 (hdBuf_ a)) as (hd & Eh & Lh & Hh & _ & Bh); [done|done|lia|].
  destruct (xferSdes_query txb 4 0 (lview (tp a)) (jd a) (hdBuf_ a) [] hd Hm Hb Hl Eh
    (mkIo (jd a) (tp a) (hdBuf_ a) []) eq_refl) as (s' & Ex & Hv).
  apply io_view_inv in Hv as (Ej & Ehd & _ & Hl'). exists s'. rewrite Ehd.
  split_and!; [|done|by apply Bh|lia|by apply (header_at_val 4 3 hd)|by injection Hl'..].
  cbn [xfer tmem_transport]. by rewrite tmem_xfer_raw.
Qed.

(** *** The FIFO *)

Lemma modify_does {V} (view : TD → V) v w f : (∀ b, view b = v → view (f b) = w) → runs view v (modify f) tt w.
Proof. intros Hf b Hb. exists (f b). split; [done|by apply Hf]. Qed.

(** *** Reset *)

Lemma jfifo_csr st j v : here st →
  runs jview (st, j) (o32 FIFO_CSR_IDX v) tt (st, if Z.testbit v 23 then mkJ false false (j_log j) else j).
Proof.
  intros Hh. apply jview_runs. intros d <-. exists (tm_wr F FIFO_CSR_IDX v d).
  split; [by apply tm_o32_does|]. unfold tm_wr. cbn [FIFO_CSR_IDX Z.eqb Pos.eqb].
  destruct (Z.testbit v 23); [done|]. destruct (Z.testbit v 16); [|done]. unfold send. cbn [tm_out].
  by destruct (tm_out d).
Qed.

(** What is written before the software may take over. *)
Definition reset_csr (x : Z) : Z :=
  Z.ldiff (Z.ldiff (Z.ldiff (Z.lor (Z.ldiff x SDES_CSR_BBMSK) SDES_CSR_BB_TMS) SDES_CSR_BB_TDI) SDES_CSR_BB_TCK)
    SDES_CSR_BB_ENA.

Lemma reset_csr_tb x : Z.testbit x 8 = false → let c := reset_csr x in
  Z.testbit c 8 = false ∧ Z.testbit c 16 = false ∧ Z.testbit c 31 = false.
Proof.
  intros H8 c. subst c. unfold reset_csr. rewrite !Z.ldiff_spec, !Z.lor_spec, !Z.ldiff_spec, H8.
  cbn. by rewrite ?andb_false_r.
Qed.

Definition tms_high : list (bool * bool) := replicate 8 (true, false).

(** After a reset the mode of the driver and the owner of the signals
    agree; the serializer has clocked eight ones into TMS. *)
Lemma reset_jview st j : here st → s_version st = 1 → (s_sdes st = true → serdes F = true) →
  runs jview (st, j) (reset polls) tt
    (st, mkJ (s_bb st) false (j_log j ++ if s_sdes st then tms_high else [])).
Proof.
  intros Hh Hv Hs. unfold reset. apply runs_gets. intros b Hb. unfold id.
  assert (Eb : useSdes_ b = s_sdes st ∧ version_ b = 1 ∧ bitBang_ b = s_bb st) by (injection Hb as <- _; by rewrite <-Hv).
  destruct Eb as (-> & -> & ->). generalize (irqFd_ b). intros irq. clear b Hb.
  eapply (runs_bind _ _ (st, if s_sdes st then j else mkJ false false (j_log j)) _ _ tt).
  { destruct (s_sdes st); [apply runs_ret|]. cbn [negb]. eapply runs_bind; [by apply jfifo_csr|].
    eapply runs_bind; [by apply jfifo_csr|]. destruct irq; [|apply runs_ret].
    pose proof (jfifo_csr st (mkJ false false (j_log j)) FIFO_CSR_IENI Hh) as Hi. exact Hi. }
  set (j1 := if s_sdes st then _ else _). assert (Ej : j_log j1 = j_log j) by (subst j1; by destruct (s_sdes st)).
  rewrite <-Ej. clear Ej. change (1 =? VERSION_1) with true. cbv iota.
  intros b Hb. destruct (bb_read st j1 Hh b Hb) as (x & b1 & E1 & (H8 & _) & Hb1).
  destruct (reset_csr_tb x H8) as (C8 & C16 & C31). set (c := reset_csr x) in *.
  enough (Hk : runs jview (st, j1) (csr ← (o32 SDES_CSR_IDX c ;;
      (if s_sdes st then xfer32sdes polls 0xff 0x00 8 false ;; mret tt else mret tt) ;; mret (Some c));
    if s_bb st then match csr with Some csr => o32 SDES_CSR_IDX (Z.lor csr SDES_CSR_BB_ENA) | None => undefined Indeterminate end
    else mret tt) tt (st, mkJ (s_bb st) false (j_log j1 ++ if s_sdes st then tms_high else []))).
  { destruct (Hk b1 Hb1) as (b2 & E2 & Hb2). exists b2. split; [|done]. rewrite <-E2. rewrite !M_bind_assoc.
    by rewrite (M_bind_ret _ _ _ _ _ E1). }
  eapply (runs_bind _ _ (st, mkJ false false (j_log j1 ++ if s_sdes st then tms_high else []))).
  - eapply runs_bind; [apply bb_write; [done|by right]|]. rewrite C31, C16. cbn [andb].
    eapply (runs_bind _ _ (st, mkJ false false (j_log j1 ++ if s_sdes st then tms_high else []))); [|apply runs_ret].
    destruct (s_sdes st); [|rewrite app_nil_r; apply runs_ret].
    eapply runs_bind; [apply xfer32sdes_does; [done|by apply Hs|lia]|]. apply runs_ret.
  - destruct (s_bb st); [|apply runs_ret]. change SDES_CSR_BB_ENA with (2 ^ 31).
    pose proof (bb_write st (mkJ false false (j_log j1 ++ if s_sdes st then tms_high else [])) (Z.lor c (2 ^ 31)) Hh) as Hw.
    rewrite !lor_pow2_tb in Hw by lia. cbn [Z.eqb Pos.eqb] in Hw. rewrite C16 in Hw. apply Hw. by left.
Qed.

(** The FIFO of the firmware, and what it has sent. *)
Definition queue (d : tmem_fw) : list Z * list Z * nat := (tm_out d, tm_in d, tm_wait d).
Definition kview (b : TD) : tstat * (list Z * list Z * nat * list (list Z)) := (stat b, (queue (dev b), tm_sent (dev b))).

Lemma kview_runs {A} st q q' (m : M TD A) a :
  (∀ d, (queue d, tm_sent d) = q → ∃ d', runs tview (st, d) m a (st, d') ∧ (queue d', tm_sent d') = q') →
  runs kview (st, q) m a (st, q').
Proof.
  intros Hm b Hb. pose proof (f_equal fst Hb) as Hs. change (stat b = st) in Hs.
  destruct (Hm (dev b) (f_equal snd Hb)) as (d' & Hr & Hd').
  destruct (Hr b) as (b' & E & Hb'); [unfold tview; by rewrite Hs|]. exists b'. split; [done|].
  injection Hb' as Hs' Hdev. unfold kview. by rewrite Hs', Hdev, Hd'.
Qed.

Lemma kfifo_csr st q v : here st → Z.testbit v 16 = false →
  runs kview (st, q) (o32 FIFO_CSR_IDX v) tt (st, if Z.testbit v 23 then ([], [], O, snd q) else q).
Proof.
  intros Hh H16. apply kview_runs. intros d <-. exists (tm_wr F FIFO_CSR_IDX v d).
  split; [by apply tm_o32_does|]. unfold tm_wr. cbn [FIFO_CSR_IDX Z.eqb Pos.eqb]. rewrite H16. by destruct (Z.testbit v 23).
Qed.
Lemma ksdes_csr st q v : here st → runs kview (st, q) (o32 SDES_CSR_IDX v) tt (st, q).
Proof.
  intros Hh. apply kview_runs. intros d <-. exists (tm_wr F SDES_CSR_IDX v d).
  split; [by apply tm_o32_does|]. unfold tm_wr. cbn [SDES_CSR_IDX Z.eqb Pos.eqb]. by destruct (serdes F && _ && _).
Qed.
Lemma ksdes_rd st q : here st → ends kview (st, q) (i32 SDES_CSR_IDX) (st, q).
Proof.
  intros Hh b Hb. injection Hb as Hs Hq. destruct (tm_i32_does st (dev b) SDES_CSR_IDX Hh ltac:(done) b) as (b' & E & Hb').
  { unfold tview. by rewrite Hs. }
  exists (fst (tm_rd F SDES_CSR_IDX (dev b))), b'. split; [done|]. split; [done|]. subst q.
  injection Hb' as Hs' Hd. unfold kview. by rewrite Hs', Hd.
Qed.

(** A reset without the serializer and the software leaves the FIFO empty. *)
Lemma reset_kview st q : here st → s_sdes st = false → s_bb st = false →
  runs kview (st, q) (reset polls) tt (st, ([], [], O, snd q)).
Proof.
  intros Hh Hs Hbb. unfold reset. apply runs_gets. intros b Hb. unfold id.
  assert (Eb : useSdes_ b = false ∧ bitBang_ b = false) by (injection Hb as <- _; done). destruct Eb as (-> & ->).
  generalize (irqFd_ b) (version_ b =? VERSION_1). intros irq v1. clear b Hb. cbn [negb].
  eapply (runs_bind _ _ (st, ([], [], O, snd q))).
  - eapply runs_bind; [by apply kfifo_csr|]. eapply runs_bind; [by apply kfifo_csr|].
    destruct irq; [|apply runs_ret]. pose proof (kfifo_csr st ([], [], O, snd q) FIFO_CSR_IENI Hh) as Hi. by apply Hi.
  - eapply (yields_bind _ _ _ _ _ (λ _, True)); [|intros; apply runs_ret].
    destruct v1; [|by apply yields_ret]. eapply yields_then; [by apply ksdes_rd|]. intros x _. cbv zeta.
    eapply runs_then; [by apply ksdes_csr|]. eapply runs_then; [apply runs_ret|]. by apply yields_ret.
Qed.

(** *** Detection and construction *)

(** The fields of the FIFO's control register that are fixed. *)
Lemma fifo_csr_high d i : zlen (frame d) < 2 ^ 16 → 24 ≤ i → Z.testbit (fifo_csr F d) i =
  Z.testbit (kbytes F) (i - 24) || Z.testbit (fw_version F) (i - 28).
Proof.
  intros Hl Hi. unfold fifo_csr. rewrite !Z.lor_spec, tb_b2z, !tb_shift, Z.land_spec by lia.
  rewrite (tb_small (zlen _) 16), (tb_small 0xc0000 20), (proj2 (Z.eqb_neq i 17)), !andb_false_r by lia. done.
Qed.
Lemma fifo_csr_version d : zlen (frame d) < 2 ^ 16 →
  Z.shiftr (Z.land (fifo_csr F d) FIFO_CSR_VERSM) FIFO_CSR_VERSS = fw_version F.
Proof.
  intros Hl. apply Z.bits_inj'. intros i Hi. pose proof (ok_kbytes F polls HF). pose proof (ok_version F polls HF).
  change FIFO_CSR_VERSM with (Z.shiftl (Z.ones 4) 28). change FIFO_CSR_VERSS with 28.
  rewrite Z.shiftr_spec, Z.land_spec, tb_shift, fifo_csr_high, (tb_small (kbytes F) 4), Z.add_simpl_r by lia. cbn [orb].
  destruct (Z_lt_le_dec i 4); [by rewrite Z.ones_spec_low, andb_true_r by lia|].
  by rewrite (tb_small (fw_version F) 4) by lia.
Qed.
Lemma fifo_csr_size d : zlen (frame d) < 2 ^ 16 →
  Z.shiftr (Z.land (fifo_csr F d) FIFO_CSR_MAXWM) FIFO_CSR_MAXWS = kbytes F.
Proof.
  intros Hl. apply Z.bits_inj'. intros i Hi. pose proof (ok_kbytes F polls HF).
  change FIFO_CSR_MAXWM with (Z.shiftl (Z.ones 4) 24). change FIFO_CSR_MAXWS with 24.
  rewrite Z.shiftr_spec, Z.land_spec, tb_shift, fifo_csr_high, Z.add_simpl_r by lia.
  destruct (Z_lt_le_dec i 4).
  - by rewrite Z.ones_spec_low, (Z.testbit_neg_r (fw_version F)), orb_false_r, andb_true_r by lia.
  - by rewrite Z.ones_spec_high, andb_false_r, (tb_small (kbytes F) 4) by lia.
Qed.

(** The probe: the length of a shift can be read back when the serializer
    is there. *)
Definition probe_word (d : tmem_fw) : Z := Z.lor (Z.ldiff (sdes_csr F d) SDES_CSR_LRMSK) SDES_PROBEVAL.

Lemma probe_word_tb d i : 12 ≤ i → Z.testbit (probe_word d) i = Z.testbit (sdes_csr F d) i.
Proof.
  intros Hi. unfold probe_word. change SDES_CSR_LRMSK with (Z.ones 12). change SDES_PROBEVAL with 10.
  by rewrite Z.lor_spec, Z.ldiff_spec, Z.ones_spec_high, (tb_small 10 4), andb_true_r, orb_false_r by lia.
Qed.
Lemma probe_word_low d : Z.testbit (probe_word d) 8 = false ∧ probe_word d `mod` 32 = 10.
Proof.
  unfold probe_word. change SDES_CSR_LRMSK with (Z.ones 12). change SDES_PROBEVAL with 10. split.
  - by rewrite Z.lor_spec, Z.ldiff_spec, Z.ones_spec_low, andb_false_r by lia.
  - change 32 with (2 ^ 5). rewrite <-Z.land_ones by lia. apply Z.bits_inj'. intros i Hi. rewrite Z.land_spec.
    destruct (Z_lt_le_dec i 5).
    + by rewrite Z.lor_spec, Z.ldiff_spec, (Z.ones_spec_low 12), andb_false_r, Z.ones_spec_low, andb_true_r by lia.
    + by rewrite Z.ones_spec_high, andb_false_r, (tb_small 10 5) by lia.
Qed.

Lemma sdes_csr_low d : tm_busy d = O →
  Z.land (sdes_csr F d) SDES_CSR_LRMSK = if serdes F then tm_len d `mod` 32 else 0.
Proof.
  intros Hb. set (n := if serdes F then _ else _). assert (Hn : 0 ≤ n < 2 ^ 5)
    by (subst n; pose proof (Z.mod_pos_bound (tm_len d) 32); destruct (serdes F); lia).
  change SDES_CSR_LRMSK with (Z.ones 12). apply Z.bits_inj'. intros i Hi. rewrite Z.land_spec.
  destruct (Z_lt_le_dec i 12).
  - rewrite Z.ones_spec_low, andb_true_r by lia. unfold sdes_csr. fold n. rewrite Hb. cbn [Nat.eqb negb].
    rewrite !Z.lor_spec, !tb_b2z, tb_shift, (Z.testbit_neg_r _ (i - 20)) by lia.
    cbn [andb orb]. rewrite !(proj2 (Z.eqb_neq i _)), !andb_false_r, !orb_false_r by lia. done.
  - by rewrite Z.ones_spec_high, andb_false_r, (tb_small n 5) by lia.
Qed.

(** What detection leaves as it was. *)
Definition same (d d' : tmem_fw) : Prop := jt d' = jt d ∧ tm_sent d' = tm_sent d ∧ tm_busy d' = tm_busy d.

Lemma probe_write d : tm_busy d = O → let d' := tm_wr F SDES_CSR_IDX (probe_word d) d in
  same d d' ∧ (serdes F = true → tm_len d' = 10).
Proof.
  intros Hb d'. subst d'. destruct (probe_word_low d) as [H8 Hm]. destruct (sdes_csr_fields d) as (_ & _ & H16 & _ & H31).
  unfold tm_wr. cbn [SDES_CSR_IDX Z.eqb Pos.eqb]. rewrite H8, !probe_word_tb, H16, H31 by lia.
  rewrite andb_false_r. cbn [andb]. unfold same, jt. cbn [tm_ena tm_tck tm_log tm_sent tm_busy tm_len].
  split; [|by intros ->].
  split_and!; [|done|done]. by destruct (tm_tck d); rewrite ?andb_false_r, ?andb_true_r; destruct (tm_ena d).
Qed.
Lemma same_trans d d' d'' : same d d' → same d' d'' → same d d''.
Proof. unfold same. intuition congruence. Qed.

(** A register that is read without an effect on the signals. *)
Lemma read_same idx d : tm_busy d = O → same d (snd (tm_rd F idx d)).
Proof.
  intros Hb. unfold tm_rd. repeat case_match; try done. unfold same, set_busy. cbn. by rewrite Hb.
Qed.

(** The members that detection sets. *)
Definition st_set (bb sd lg irq : bool) (ms vr mx : Z) (st : tstat) : tstat :=
  mkStat (s_space st) (s_base st) mx (s_wsz st) irq (s_good st) bb sd lg ms vr.

Lemma tview_modify (f : TD → TD) st st' d : (∀ b, stat b = st → stat (f b) = st') → (∀ b, dev (f b) = dev b) →
  runs tview (st, d) (modify f) tt (st', d).
Proof. intros Hf Hd. apply modify_does. intros b [= Hs <-]. unfold tview. by rewrite (Hf b Hs), Hd. Qed.

(** A step that sets members from members. *)
Ltac set_step :=
  apply tview_modify; [|by intros []]; let b := fresh "b" in let Hst := fresh "Hst" in
  intros b Hst; try (match type of Hst with _ = ?x => is_var x end; destruct Hst); destruct b; cbn [stat s_sdes useSdes_] in *; try (injection Hst; clear Hst; intros);
  unfold stat, st_set; cbn in *; f_equal; congruence.

(** Is the serializer there? *)
Lemma tmem_probe_does st d : addressed st → s_sdes st = false → s_version st = fw_version F →
  fw_version F = 0 ∨ fw_version F = 1 → tm_busy d = O →
  let v1 := fw_version F =? 1 in
  ∃ d', same d d' ∧ runs tview (st, d) tmem_probe tt
    (st_set (v1 && s_bb st) (v1 && serdes F) (v1 && s_log st) (s_irq st) (s_measure st) (s_version st) (s_max st) st, d').
Proof.
  intros Ha Hsd Hvr Hv Hb v1. subst v1. set (d1 := set_busy 0 d).
  assert (Ed : snd (tm_rd F SDES_CSR_IDX d) = d1) by (subst d1; cbn; by rewrite Hb).
  assert (Ed1 : d1 = d) by (subst d1; destruct d; cbn in *; by rewrite Hb). rewrite Ed1 in Ed. clear d1 Ed1.
  destruct (probe_write d Hb) as (Hsame & Hlen). set (d2 := tm_wr F SDES_CSR_IDX (probe_word d) d) in *.
  destruct Hv as [Hv|Hv].
  - exists d. split; [done|]. unfold tmem_probe. apply runs_gets. intros b Hbv. unfold id.
    replace (version_ b) with (fw_version F) by (injection Hbv as <- _; done). rewrite Hv. change (0 =? VERSION_0) with true. cbv iota.
    rewrite !andb_false_l. set_step.
  - exists d2. split; [done|]. unfold tmem_probe. apply runs_gets. intros b Hbv. unfold id.
    replace (version_ b) with (fw_version F) by (injection Hbv as <- _; done). rewrite Hv. clear b Hbv.
    change (1 =? VERSION_0) with false. change (1 =? VERSION_1) with true. cbv iota.
    eapply runs_bind; [by apply tm_i32_at|]. rewrite Ed. cbv zeta. change (Z.lor _ _) with (probe_word d).
    eapply runs_bind; [by apply tm_o32_at|]. fold d2.
    eapply runs_bind; [by apply tm_i32_at|]. destruct Hsame as (_ & _ & Hb2). rewrite Hb in Hb2. clearbody d2.
    change (fst _) with (sdes_csr F d2). rewrite sdes_csr_low by done.
    replace (snd (tm_rd F SDES_CSR_IDX d2)) with d2 by (cbn; rewrite Hb2; destruct d2; cbn in *; by subst).
    change SDES_PROBEVAL with 10. rewrite !andb_true_l.
    destruct (serdes F); [rewrite (Hlen eq_refl)|]; cbn [Z.eqb Pos.eqb Z.modulo]; [set_step|].
    destruct st. cbn in Hsd. subst. apply runs_ret.
Qed.

Lemma frame_rd idx d : zlen (frame (snd (tm_rd F idx d))) ≤ zlen (tm_in d).
Proof.
  assert (H0 : ∀ d0, (length (frame d0) ≤ length (tm_in d0))%nat) by (intros d0; unfold frame; case_match; simpl; lia).
  etransitivity; [apply inj_le, H0|]. apply inj_le. unfold tm_rd. repeat case_match; cbn [snd fst set_in set_busy tm_in]; try lia; destruct (tm_in d); cbn; lia.
Qed.

(** Detection sets the members from the registers and the options. *)
Lemma tmem_detect_does opts irq_ok irqfn bb lg st d : addressed st → s_sdes st = false → s_wsz st = 4 →
  fw_version F = 0 ∨ fw_version F = 1 → tm_busy d = O → zlen (tm_in d) < 2 ^ 16 →
  tmem_options opts false false false = Ret (irqfn, bb, lg) →
  let v1 := fw_version F =? 1 in let bb' := v1 && lg || v1 && bb in let sd := v1 && serdes F in
  ∃ d', same d d' ∧ runs tview (st, d) (tmem_detect opts irq_ok) tt
    (st_set bb' sd (v1 && lg) (irqfn && negb (bb' || sd) && irq_ok) 0 (fw_version F) (512 * kbytes F - 2) st, d').
Proof.
  intros Ha Hsd Hw Hv Hb Hin Hopt v1 bb' sd. pose proof (ok_kbytes F polls HF) as Hkb.
  set (d1 := snd (tm_rd F FIFO_MAGIC_IDX d)). assert (S1 : same d d1) by (by apply read_same). destruct S1 as (J1 & K1 & B1).
  set (d2 := snd (tm_rd F FIFO_CSR_IDX d1)). assert (S2 : same d1 d2) by (apply read_same; by rewrite B1).
  assert (Hfr : zlen (frame d1) < 2 ^ 16) by (subst d1; pose proof (frame_rd FIFO_MAGIC_IDX d); lia).
  set (st1 := st_set bb false lg false (s_measure st) (fw_version F) (s_max st) st).
  destruct (tmem_probe_does st1 d2) as (d3 & S3 & Hp); [done|done|done|done|by destruct S2 as (_ & _ & ->); rewrite B1|].
  exists d3. split; [by eapply same_trans; [|eapply same_trans; [exact S2|exact S3]]|].
  unfold tmem_detect. eapply runs_bind; [by apply tm_i32_at|]. change (fst (tm_rd F FIFO_MAGIC_IDX d)) with MAGIC. fold d1.
  rewrite Z.eqb_refl. cbn [negb]. eapply runs_bind; [by apply runs_lift|]. cbv beta iota.
  eapply (runs_bind _ _ (st_set bb false lg false (s_measure st) (s_version st) (s_max st) st, d1) _ _ tt).
  { set_step. }
  eapply runs_bind; [by apply tm_i32_at|]. change (fst (tm_rd F FIFO_CSR_IDX d1)) with (fifo_csr F d1). fold d2.
  rewrite fifo_csr_version, fifo_csr_size by done.
  eapply (runs_bind _ _ (st1, d2) _ _ tt); [subst st1; set_step|]. eapply runs_bind; [exact Hp|].
  change (s_bb st1) with bb. change (s_log st1) with lg. fold v1 sd.
  rewrite (wrap32_small (Z.shiftl (kbytes F) 10)) by (rewrite Z.shiftl_mul_pow2 by lia; unfold is_u32; lia).
  rewrite Z.shiftl_mul_pow2 by lia. fold bb'. set (stf := st_set bb' sd _ _ _ _ _ _).
  eapply (runs_bind _ _ (st_set bb' sd (v1 && lg) false (s_measure st) (fw_version F) (s_max st) st, d3) _ _ tt); [subst bb'; set_step|].
  clearbody bb' sd v1. eapply (runs_bind _ _ (st_set bb' sd (v1 && lg) false 0 (fw_version F) (s_max st) st, d3) _ _ tt).
  { apply tview_modify; [|done]. intros b Hst. unfold stat at 1. cbn. injection Hst as -> -> -> -> -> -> -> -> -> _ ->. cbn.
    by destruct sd; rewrite orb_true_r. }
  eapply (runs_bind _ _ (st_set bb' sd (v1 && lg) (irqfn && negb (bb' || sd) && irq_ok) 0 (fw_version F) (s_max st) st, d3) _ _ tt);
    [set_step|].
  apply tview_modify; [|done]. intros b Hst. unfold stat at 1. cbn. injection Hst as -> -> _ -> -> -> -> -> -> -> ->. rewrite Hw.
  replace (kbytes F * 2 ^ 10 / 4) with (256 * kbytes F) by (clear -Hkb; Z.div_mod_to_equations; lia).
  rewrite (wrap64_small (256 * kbytes F - 1)), wrap64_small by lia. subst stf. unfold st_set. rewrite Hw. f_equal.
  clear -Hkb; Z.div_mod_to_equations; lia.
Qed.
Context (HBE : isLE = false).

(** The FIFO part of the firmware replaced. *)
Definition d_fifo (out : list Z) (sent : list (list Z)) (l : list Z) (n : nat) (mode : Z) (d : tmem_fw) : tmem_fw :=
  mkTm out sent l n mode (tm_tms d) (tm_tdi d) (tm_tdo d) (tm_len d) (tm_busy d)
    (tm_ena d) (tm_tck d) (tm_btms d) (tm_btdi d) (tm_log d).

Lemma bswap_load bs : bytes bs → length bs = 4%nat → bswap32 (load32 bs) = le_val bs.
Proof.
  intros Hb Hl. unfold load32. rewrite HBE, bswap32_le_val by (try apply Forall_rev; try rewrite length_rev; done).
  by rewrite rev_involutive.
Qed.
Lemma store_bswap w : is_u32 w → store32 (bswap32 w) = le_bytes 4 w.
Proof.
  intros Hw. unfold store32, bswap32. rewrite HBE. rewrite <-(rev_involutive (le_bytes 4 w)) at 2. f_equal.
  replace 4%nat with (length (rev (le_bytes 4 w))) at 1 by len. apply le_bytes_le_val, Forall_rev, le_bytes_bytes.
Qed.

(** What fits the FIFO of the firmware, in words. *)
Definition room : nat := Z.to_nat (256 * kbytes F).

Lemma queue_push_does st out sent l n mode d bs : here st → bytes bs → length bs = 4%nat →
  runs tview (st, d_fifo (take room out) sent l n mode d) (o32 FIFO_DAT_IDX (bswap32 (load32 bs))) tt
    (st, d_fifo (take room (out ++ [le_val bs])) sent l n mode d).
Proof.
  intros Hh Hb Hl. pose proof (ok_kbytes F polls HF) as Hkb.
  pose proof (tm_o32_does st (d_fifo (take room out) sent l n mode d) FIFO_DAT_IDX (le_val bs) Hh ltac:(done)) as Hd.
  rewrite bswap_load by done. cbn [tm_wr FIFO_DAT_IDX Z.eqb tm_out d_fifo] in Hd.
  destruct (Nat.lt_ge_cases (length out) room) as [Hlt|Hge].
  - rewrite (take_ge out), (proj2 (Z.ltb_lt _ _)) in Hd by (unfold room in *; lia).
    rewrite !take_ge by (rewrite ?length_app; simpl; lia). exact Hd.
  - rewrite (proj2 (Z.ltb_ge _ _)) in Hd by (rewrite length_take; unfold room in *; lia).
    by rewrite (take_app_le out) by done.
Qed.

Lemma push_message_does st sent l n mode d txb k j hd rx : here st → bytes txb → 1 ≤ k → 4 * k ≤ zlen txb →
  4 * k < 2 ^ 31 →
  runs (io_view tview) (mkV j hd rx (st, d_fifo [] sent l n mode d)) (push_message txb (4 * k)) tt
    (mkV j hd rx (st, d_fifo (pushed (room `min` Z.to_nat k) txb) sent l n mode d)).
Proof.
  intros Hh Hb Hk Hl Hc. unfold push_message.
  rewrite (wrap32_small (4 * k + 3)) by (unfold is_u32; lia).
  replace ((4 * k + 3) / 4) with k by (Z.div_mod_to_equations; lia).
  rewrite (wrap32_small (k - 1)), (wrap32_small (4 * (k - 1))) by (unfold is_u32; lia).
  replace (4 * k - 4 * (k - 1)) with 4 by lia. change (wrap32 4) with 4. cbn [Z.eqb negb]. cbv zeta iota.
  rewrite <-take_pushed. destruct (Z.to_nat k) as [|m] eqn:Em; [lia|]. replace (k - 1) with (0 + Z.of_nat m) by lia.
  pose proof (push_words_does tview (λ w, o32 FIFO_DAT_IDX (bswap32 w)) (λ out, (st, d_fifo (take room out) sent l n mode d))
    (λ out bs, queue_push_does st out sent l n mode d bs Hh) txb m m 0 [] j hd rx Hb) as Hp.
  cbv beta in Hp. rewrite take_nil in Hp. rewrite Z.add_0_l, Nat2Z.id in *. eapply runs_bind; [apply Hp; lia|]. clear Hp.
  set (bs := take 4 (drop (4 * m) txb)). assert (Hbs : length bs = 4%nat) by (subst bs; len).
  assert (Hbb : bytes bs) by (subst bs; auto with xvc).
  eapply (runs_bind _ _ _ _ _ (load32 bs)).
  { apply runs_lift. unfold memcpy. rewrite rd_ok by lia. cbn [mbind outcome_bind].
    replace (Z.to_nat (4 * Z.of_nat m)) with (4 * m)%nat by lia. change (Z.to_nat 4) with 4%nat. fold bs.
    rewrite wr_ok by (lia || (rewrite store32_length; lia)). cbn [mbind outcome_bind].
    rewrite drop_ge by (rewrite store32_length; lia). by rewrite app_nil_r. }
  apply on_tp_does. cbn [app Z.mul]. change (drop (Z.to_nat 0) txb) with txb.
  rewrite pushed_snoc. fold bs. by apply queue_push_does.
Qed.

(** *** The control register of the FIFO *)

Lemma fifo_csr_tb d i : zlen (frame d) < 2 ^ 16 → 16 ≤ i < 24 → Z.testbit (fifo_csr F d) i =
  bool_decide (frame d = []) && (i =? 17) || Z.testbit (tm_mode d) i && ((i =? 18) || (i =? 19)).
Proof.
  intros Hl Hi. unfold fifo_csr. rewrite !Z.lor_spec, tb_b2z, !tb_shift, Z.land_spec by lia.
  rewrite (tb_small (zlen _) 16), !(Z.testbit_neg_r _ (i - _)), !orb_false_r by lia. cbn [orb]. f_equal. f_equal.
  assert (i = 16 ∨ i = 17 ∨ i = 18 ∨ i = 19 ∨ i = 20 ∨ i = 21 ∨ i = 22 ∨ i = 23) as Hc by lia.
  by destruct Hc as [->|[->|[->|[->|[->|[->|[->| ->]]]]]]].
Qed.

Lemma fifo_csr_count d : zlen (frame d) < 2 ^ 16 → Z.land (fifo_csr F d) 0xffff = zlen (frame d).
Proof.
  intros Hl. change 0xffff with (Z.ones 16). apply Z.bits_inj'. intros i Hi. rewrite Z.land_spec.
  destruct (Z_lt_le_dec i 16).
  - rewrite Z.ones_spec_low, andb_true_r by lia. unfold fifo_csr.
    rewrite !Z.lor_spec, tb_b2z, !tb_shift, Z.land_spec, !(Z.testbit_neg_r _ (i - _)) by lia.
    rewrite (proj2 (Z.eqb_neq i 17)), andb_false_r, !orb_false_r by lia.
    replace (Z.testbit 0xc0000 i) with false; [by rewrite andb_false_r, orb_false_r|].
    change 0xc0000 with (Z.shiftl 3 18). by rewrite tb_shift, Z.testbit_neg_r by lia.
  - rewrite Z.ones_spec_high, andb_false_r, (tb_small (zlen _) 16) by lia. done.
Qed.

(** The packet is handed over. *)
Lemma hand_over st d out sent mode : here st → out ≠ [] →
  let s' := sent ++ [concat (le_bytes 4 <$> out)] in
  let d0 := d_fifo out sent [] 0 mode d in let csr := fifo_csr F d0 in
  runs tview (st, d0) (i32 FIFO_CSR_IDX) csr (st, d0) ∧
  ∃ mode', runs tview (st, d0) (o32 FIFO_CSR_IDX (Z.lor csr FIFO_CSR_EOFO)) tt
    (st, d_fifo [] s' (reply F s') (delay F s') mode' d).
Proof.
  intros Hh Ho s' d0 csr. split; [by apply (tm_i32_does st d0)|]. set (v := Z.lor csr FIFO_CSR_EOFO). exists v.
  assert (Hv : Z.testbit v 23 = false ∧ Z.testbit v 16 = true).
  { subst v csr. change FIFO_CSR_EOFO with (2 ^ 16). rewrite !lor_pow2_tb, fifo_csr_tb by (done || lia).
    cbn. by rewrite andb_false_r. }
  pose proof (tm_o32_does st d0 FIFO_CSR_IDX v Hh ltac:(done)) as Hd.
  unfold tm_wr in Hd. cbn [FIFO_CSR_IDX Z.eqb Pos.eqb] in Hd. destruct Hv as [-> ->] in Hd.
  unfold send in Hd. cbn in Hd. destruct out; [done|]. exact Hd.
Qed.

Lemma tmem_await_does n : ∀ k st d sent l mode j hd rx, here st → l ≠ [] → zlen l < 2 ^ 16 → (k < n)%nat →
  runs (io_view tview) (mkV j hd rx (st, d_fifo [] sent l k mode d)) (tmem_await n)
    (fifo_csr F (d_fifo [] sent l 0 mode d)) (mkV j hd rx (st, d_fifo [] sent l 0 mode d)).
Proof.
  induction n as [|n IH]; intros k st d sent l mode j hd rx Hh Hne Hl Hk; [lia|]. cbn [tmem_await].
  eapply runs_bind; [by apply on_tp_does, tm_i32_does|]. cbn [tm_rd FIFO_CSR_IDX Z.eqb Pos.eqb orb fst snd].
  change FIFO_CSR_EMPI with (2 ^ 17).
  rewrite land_pow2, fifo_csr_tb by first [lia | destruct k; [exact Hl|simpl; lia]].
  cbn [Z.eqb Pos.eqb orb]. rewrite andb_false_r, orb_false_r, andb_true_r.
  destruct k as [|k]; cbn [frame d_fifo tm_wait tm_in pred].
  - rewrite bool_decide_eq_false_2 by done. apply runs_ret.
  - rewrite bool_decide_eq_true_2 by done. eapply ends_bind; [apply on_tp_yields, tm_wait_ends, Hh|].
    apply (IH k st d); (done || lia).
Qed.

Lemma words_of_concat l : Forall is_u32 l → words_of (concat (le_bytes 4 <$> l)) = l.
Proof.
  induction 1 as [|w l Hw Hl IH]; [done|]. rewrite fmap_cons. cbn [concat].
  change (words_of (le_bytes 4 w ++ concat (le_bytes 4 <$> l))) with (le_val (le_bytes 4 w) :: words_of (concat (le_bytes 4 <$> l))).
  rewrite IH, le_val_le_bytes. f_equal. by apply Z.mod_small.
Qed.
Lemma concat_words_length l : zlen (concat (le_bytes 4 <$> l)) = 4 * zlen l.
Proof. induction l as [|w l IH]; [done|]. rewrite fmap_cons. cbn [concat]. rewrite length_app, le_bytes_length. cbn [length]. lia. Qed.
Lemma concat_words_bytes l : bytes (concat (le_bytes 4 <$> l)).
Proof. induction l as [|w l IH]; [constructor|]. rewrite fmap_cons. apply bytes_app. auto with xvc. Qed.

Lemma fifo_pull_swapped st sent mode d r : here st → bytes r → ∃ w,
  (r ≠ [] → store32 w = le_bytes 4 (le_val (take 4 r))) ∧
  runs tview (st, d_fifo [] sent (words_of r) 0 mode d) pull_swapped w
    (st, d_fifo [] sent (words_of (drop 4 r)) 0 mode d).
Proof.
  intros Hh Hb. exists (bswap32 (le_val (take 4 r))). split.
  - intros _. apply store_bswap. pose proof (le_val_bounds (take 4 r) (bytes_take _ _ Hb)) as Hv. unfold is_u32.
    assert (Hl : zlen (take 4 r) ≤ 4) by len. pose proof (Z.pow_le_mono_r 256 _ _ ltac:(lia) Hl). lia.
  - pose proof (tm_i32_does st (d_fifo [] sent (words_of r) 0 mode d) FIFO_DAT_IDX Hh ltac:(done)) as Hd.
    cbn in Hd. rewrite words_of_head, <-words_of_drop in Hd. eapply runs_bind; [exact Hd|apply runs_ret].
Qed.

(** The packet that leaves for a message of [k] words. *)
Definition packet (k : Z) (txb : list Z) : list Z := take (Z.to_nat (4 * Z.min k (256 * kbytes F))) txb.

(** The bytes of the answer to the packets [sent]. *)
Definition answer (sent : list (list Z)) : list Z := concat (le_bytes 4 <$> reply F sent).

Lemma tmem_exchange_does txb k st d mode j hd rx : here st → s_wsz st = 4 → bytes txb →
  1 ≤ k → 4 * k ≤ zlen txb → 4 * k < 2 ^ 31 →
  let sent := tm_sent d ++ [packet k txb] in
  ∃ mode', runs (io_view tview) (mkV j hd rx (st, d_fifo [] (tm_sent d) [] 0 mode d)) (tmem_exchange polls txb (4 * k))
    (zlen (answer sent)) (mkV j hd rx (st, d_fifo [] sent (reply F sent) 0 mode' d)).
Proof.
  intros Hh Hw Hb Hk Hl Hc sent. pose proof (ok_kbytes F polls HF) as Hkb.
  set (out := pushed (room `min` Z.to_nat k) txb).
  assert (Hout : out ≠ []) by (subst out; intros E; apply (f_equal length) in E; rewrite pushed_length in E; simpl in E; unfold room in E; lia).
  destruct (hand_over st d out (tm_sent d) mode Hh Hout) as (Hrd & mode' & Hwr). exists mode'.
  assert (Hsent : tm_sent d ++ [concat (le_bytes 4 <$> out)] = sent).
  { subst sent out. unfold packet. rewrite pushed_bytes by (done || lia). do 3 f_equal. unfold room. lia. }
  rewrite Hsent in Hwr. destruct (ok_reply F polls HF sent) as (Hru & Hrl).
  assert (Hne : reply F sent ≠ []) by (intros E; rewrite E in Hrl; simpl in Hrl; lia).
  unfold tmem_exchange. eapply runs_bind; [by apply push_message_does|].
  eapply runs_bind; [apply on_tp_does, Hrd|]. eapply runs_bind; [apply on_tp_does, Hwr|].
  eapply runs_bind; [apply tmem_await_does; [done|done|lia|apply (ok_delay F polls HF)]|].
  apply runs_gets. intros s Hs. apply io_view_inv in Hs as (_ & _ & _ & Hs).
  assert (Ew : wrdSiz_ (io_tp s) = 4) by (rewrite <-Hw; by injection Hs as <- _). rewrite Ew. clear s Hs Ew.
  change FIFO_CSR_NWRDS with 0. change FIFO_CSR_NWRDM with 0xffff. rewrite Z.shiftr_0_r, fifo_csr_count by (cbn; lia).
  cbn [frame d_fifo tm_wait tm_in]. rewrite wrap32_small by (unfold is_u32; lia).
  unfold answer. rewrite concat_words_length, Z.mul_comm. apply runs_ret.
Qed.

Lemma xferFifo_does txb k hsize size (s : io TD) st d mode : here st → s_wsz st = 4 →
  tview (io_tp s) = (st, d_fifo [] (tm_sent d) [] 0 mode d) → bytes txb →
  1 ≤ k → 4 * k ≤ zlen txb → 4 * k < 2 ^ 31 → 0 < hsize ≤ zlen (io_hd s) → hsize `mod` 4 = 0 →
  0 ≤ size ≤ zlen (io_rx s) →
  let sent := tm_sent d ++ [packet k txb] in
  let r := answer sent in let n := Z.min size (zlen r - hsize) in
  let (o, s') := xferFifo polls txb (4 * k) hsize size s in
  (∃ mode', tview (io_tp s') = (st, d_fifo [] sent [] 0 mode' d)) ∧ jd_same (io_jd s) (io_jd s') ∧
  if zlen r <? hsize then
    o = Throw (ProtoErr "Didn't receive enough data for header") ∧ io_rx s' = io_rx s ∧
    length (io_hd s') = length (io_hd s) ∧ (bytes (io_hd s) → bytes (io_hd s'))
  else
    (o = Ret n ∨ o = Throw TimeoutErr ∧ drEn_ (io_jd s) = true) ∧
    io_hd s' = take (Z.to_nat hsize) r ++ drop (Z.to_nat hsize) (io_hd s) ∧
    io_rx s' = take (Z.to_nat n) (drop (Z.to_nat hsize) r) ++ drop (Z.to_nat n) (io_rx s).
Proof.
  intros Hh Hw Hv Hb Hk Hl Hc Hhd Hz Hs sent r n. destruct s as [j t hd rx]. cbn [io_tp io_hd io_rx io_jd] in *.
  unfold xferFifo. rewrite Hz. change (negb (0 =? 0)) with false. cbv iota.
  destruct (tmem_exchange_does txb k st d mode j hd rx Hh Hw Hb Hk Hl Hc) as [mode' Hx].
  destruct (Hx (mkIo j t hd rx)) as (s1 & E1 & Hv1); [unfold io_view; cbn [io_tp]; by rewrite Hv|].
  rewrite (M_bind_ret _ _ _ _ _ E1). fold sent r in Hv1 |- *. apply io_view_inv in Hv1 as (Hj & Hhd1 & Hrx & Hv1).
  destruct (ok_reply F polls HF sent) as (Hru & Hrl). rewrite <-(words_of_concat (reply F sent)) in Hv1 by done.
  fold (answer sent) r in Hv1. rewrite <-Hj, <-Hhd1, <-Hrx in *.
  pose proof (receive_spec tview pull_swapped (λ r, (st, d_fifo [] sent (words_of r) 0 mode' d))
    (λ r, fifo_pull_swapped st sent mode' d r Hh) hsize size r s1 Hv1) as Hrec.
  assert (Hrl' : zlen r < 2 ^ 31) by (subst r; unfold answer; rewrite concat_words_length; lia).
  specialize (Hrec (concat_words_bytes _) Hrl' Hhd Hz Hs). cbv zeta in Hrec. fold n in Hrec.
  destruct (receive _ _ _ _ s1) as [o s']. destruct Hrec as (Hv5 & Hrest). split; [by exists mode'|exact Hrest].
Qed.

(** A driver that uses the FIFO, which is empty. *)
Definition queue_ok (b : TD) : Prop :=
  here (stat b) ∧ bitBang_ b = false ∧ useSdes_ b = false ∧ wrdSiz_ b = 4 ∧
  tm_out (dev b) = [] ∧ tm_in (dev b) = [] ∧ tm_wait (dev b) = O.

Lemma queue_view b : queue_ok b → tview b = (stat b, d_fifo [] (tm_sent (dev b)) [] 0 (tm_mode (dev b)) (dev b)).
Proof. intros (_ & _ & _ & _ & Ho & Hi & Hw). unfold tview, d_fifo. rewrite <-Ho, <-Hi, <-Hw at 1. by destruct (dev b). Qed.
Lemma tmem_xfer_queue txb txBytes hsize size (s : io TD) : queue_ok (io_tp s) →
  tmem_xfer polls txb txBytes hsize size s = xferFifo polls txb txBytes hsize size s.
Proof.
  intros (_ & Hb & Hs & _). unfold tmem_xfer. rewrite (M_bind_ret _ _ s (io_tp s) s) by done. by rewrite Hb, Hs.
Qed.
Lemma queue_ok_kept b b' sent mode : queue_ok b → tview b' = (stat b, d_fifo [] sent [] 0 mode (dev b)) →
  queue_ok b' ∧ tm_sent (dev b') = sent.
Proof.
  intros (Hh & Hb & Hs & Hw & _) Hv. pose proof (f_equal fst Hv) as Hst. pose proof (f_equal snd Hv) as Hd.
  change (stat b' = stat b) in Hst. change (dev b' = d_fifo [] sent [] 0 mode (dev b)) in Hd. unfold queue_ok.
  rewrite Hst, Hd. injection Hst as _ _ _ Ew _ _ Ebb Esd _ _ _. rewrite Ebb, Esd, Ew. done.
Qed.

(** The words that the firmware announces. *)
Context (W : Z → Prop) (HW4 : W 4) (HW : announces answer W).

#[local] Program Instance tmem_queue_laws : TransportLaws TD := {
  tp_ok b := queue_ok b ∧ 0 ≤ maxVec_ b;
  word_ok := W;
}.
Next Obligation. done. Qed.
Next Obligation.
  intros txb txBytes hsize size s Hh HWh Hmsg Hbuf [Hok Hmx]. cbn [xfer tmem_transport]. rewrite tmem_xfer_queue by done.
  destruct (Z.eq_dec (hsize `mod` 4) 0) as [Hz|Hz]; cycle 1.
  { unfold xferFifo. rewrite (proj2 (Z.eqb_neq _ 0)) by done. by split_and!. }
  destruct (message_words hsize txBytes size txb Hh Hz Hmsg) as (k & -> & Hk & Hk2). pose proof Hmsg as (Ht & Hb & _).
  pose proof Hbuf as (Hhd & _ & Hsz & _). pose proof Hok as (Hhere & _ & _ & Hw & _).
  pose proof (xferFifo_does txb k hsize size s (stat (io_tp s)) (dev (io_tp s)) _ Hhere Hw (queue_view _ Hok) Hb Hk
    ltac:(lia) Hk2 ltac:(lia) Hz ltac:(lia)) as Hx.
  cbv zeta in Hx. destruct (xferFifo polls txb (4 * k) hsize size s) as [o s'].
  set (r := answer _) in Hx. set (n := Z.min _ _) in Hx. destruct Hx as ([mode' Hv] & [Hd _] & Hx).
  destruct (queue_ok_kept _ _ _ _ Hok Hv) as [Hq _]. injection Hv as _ _ Emx _. rewrite Hd, Emx.
  destruct (received_ok hsize size r (io_hd s) (io_rx s) (io_hd s') (io_rx s') (concat_words_bytes _) ltac:(lia)) as [Hbo Hf];
    [done|destruct (_ <? _); intuition|].
  split; [|done]. destruct (Z.ltb_spec (zlen r) hsize); [by destruct Hx as (-> & _)|].
  destruct Hx as ([-> |[-> _]] & Eh & _); [|done]. intros Hqy. cbv zeta. rewrite Eh, take_app_le, take_take, Nat.min_l by len.
  destruct (announced_word answer W (tm_sent (dev (io_tp s))) hsize (4 * k) size txb) as [Ek Hwo]; try done; [lia|].
  pose proof (ok_kbytes F polls HF). subst r. unfold packet. by rewrite Z.min_l by lia.
Qed.
Next Obligation. by intros w b [_ ?]. Qed.

(** C18: on the FIFO of the firmware, with the interrupts working: for a
    message of whole words, [xfer] sends one packet, which is exactly the
    message when that fits the FIFO and lacks the words that do not; when the answer covers the header it returns the
    number of payload bytes, at most [size], or throws the timeout of the
    drop test if that is enabled; header and payload are stored, nothing
    else of the buffers is touched; when the answer is shorter it throws.
    In all cases the FIFO is left empty and ready for the next message. *)
Theorem tmem_fifo_exchange txb k hsize size (s : io TD) : queue_ok (io_tp s) → bytes txb →
  1 ≤ k → 4 * k ≤ zlen txb → 4 * k < 2 ^ 31 → 0 < hsize ≤ zlen (io_hd s) → hsize `mod` 4 = 0 →
  0 ≤ size ≤ zlen (io_rx s) →
  let sent := tm_sent (dev (io_tp s)) ++ [packet k txb] in
  let r := answer sent in let n := Z.min size (zlen r - hsize) in
  let (o, s') := tmem_xfer polls txb (4 * k) hsize size s in
  queue_ok (io_tp s') ∧ tm_sent (dev (io_tp s')) = sent ∧
  if zlen r <? hsize then
    o = Throw (ProtoErr "Didn't receive enough data for header") ∧ io_rx s' = io_rx s
  else
    (o = Ret n ∨ o = Throw TimeoutErr ∧ drEn_ (io_jd s) = true) ∧
    io_hd s' = take (Z.to_nat hsize) r ++ drop (Z.to_nat hsize) (io_hd s) ∧
    io_rx s' = take (Z.to_nat n) (drop (Z.to_nat hsize) r) ++ drop (Z.to_nat n) (io_rx s).
Proof.
  intros Hok Hb Hk Hl Hc Hhd Hz Hs sent r n. rewrite tmem_xfer_queue by done. pose proof Hok as (Hh & _ & _ & Hw & _).
  pose proof (xferFifo_does txb k hsize size s (stat (io_tp s)) (dev (io_tp s)) _ Hh Hw (queue_view _ Hok) Hb Hk Hl Hc Hhd Hz Hs)
    as Hx. cbv zeta in Hx. fold sent in Hx. fold r in Hx. fold n in Hx.
  destruct (xferFifo polls txb (4 * k) hsize size s) as [o s']. destruct Hx as ([mode' Hv] & _ & Hx).
  destruct (queue_ok_kept _ _ _ _ Hok Hv) as [Hq Hse]. split; [done|]. split; [done|].
  destruct (zlen r <? hsize); [|done]. by destruct Hx as (-> & -> & _).
Qed.
(** *** The constructor *)

(** The state of a driver that has just been constructed. *)
Definition new_stat (irqfn bb lg irq_ok : bool) : tstat :=
  let v1 := fw_version F =? 1 in let bb' := v1 && lg || v1 && bb in let sd := v1 && serdes F in
  mkStat (at_space F) (at_base F) (512 * kbytes F - 2) 4 (irqfn && negb (bb' || sd) && irq_ok) true bb' sd (v1 && lg) 0
    (fw_version F).

Lemma tmem_new_does opts irqfn bb lg devnam irq_ok d irqs clk :
  tmem_target devnam = Ret (at_space F, at_base F) → tmem_options opts false false false = Ret (irqfn, bb, lg) →
  fw_version F = 0 ∨ fw_version F = 1 → tm_busy d = O → zlen (tm_in d) < 2 ^ 16 → forallb irq_good irqs = true →
  ∃ b, tmem_new polls opts devnam irq_ok false d irqs clk = Ret b ∧ stat b = new_stat irqfn bb lg irq_ok ∧
    if bitBang_ b || useSdes_ b then raw_ok b ∧ tm_log (dev b) = tm_log d ++ if useSdes_ b then tms_high else []
    else queue_ok b ∧ tm_sent (dev b) = tm_sent d.
Proof.
  intros Ht Ho Hv Hb Hin Hirq. set (b0 := mkTmem (at_space F) (at_base F) d 128 4 false irqs false false false 0 false 100 0 0 clk 0).
  destruct (tmem_detect_does opts irq_ok irqfn bb lg (stat b0) d) as (d1 & (Ej & Es & _) & Hd); try done.
  destruct (Hd b0 eq_refl) as (b1 & E1 & Hb1). clear Hd. replace (st_set _ _ _ _ _ _ _ _) with (new_stat irqfn bb lg irq_ok) in Hb1
    by (unfold st_set, new_stat, stat; cbn; by rewrite Hirq).
  set (st := new_stat irqfn bb lg irq_ok) in *. assert (Hh : here st) by done.
  pose proof (f_equal fst Hb1) as Hs1. pose proof (f_equal snd Hb1) as Hd1. change (stat b1 = st) in Hs1. change (dev b1 = d1) in Hd1.
  assert (Hnew : ∀ b, reset polls b1 = (Ret tt, b) → tmem_new polls opts devnam irq_ok false d irqs clk = Ret b).
  { intros b Eb. unfold tmem_new. rewrite Ht. cbn [mbind outcome_bind fst snd]. fold b0.
    by rewrite (M_bind_ret _ _ _ _ _ E1), Eb. }
  destruct (s_bb st || s_sdes st) eqn:Em.
  - assert (E : fw_version F = 1) by (destruct Hv as [Hv|]; [|done]; subst st; unfold new_stat in Em; by rewrite Hv in Em).
    assert (Hsd : s_sdes st = true → serdes F = true) by (subst st; cbn; by rewrite E).
    destruct (reset_jview st (jt d1) Hh E Hsd b1) as (b & Eb & Hb'); [unfold jview; by rewrite Hs1, Hd1|].
    exists b. split; [by apply Hnew|]. pose proof (f_equal fst Hb') as Hs'. change (stat b = st) in Hs'.
    pose proof (f_equal snd Hb') as Hj. injection Hj as He' _ Hl'. split; [done|].
    assert (Em' : bitBang_ b = s_bb st ∧ useSdes_ b = s_sdes st) by (by rewrite <-Hs'). destruct Em' as [E1' E2'].
    rewrite E1', E2', Em. split; [|rewrite Hl'; by rewrite (f_equal j_log Ej : tm_log d1 = tm_log d)]. unfold raw_ok, raw. rewrite Hs', E1', E2', He'.
    split; [|done]. split; [done|]. intros Ebb. apply Hsd. by rewrite Ebb in Em.
  - apply orb_false_iff in Em as [Ebb Esd].
    destruct (reset_kview st (queue d1, tm_sent d1) Hh Esd Ebb b1) as (b & Eb & Hb'); [unfold kview; by rewrite Hs1, Hd1|].
    exists b. split; [by apply Hnew|]. pose proof (f_equal fst Hb') as Hs'. change (stat b = st) in Hs'. split; [done|].
    assert (Em' : bitBang_ b = s_bb st ∧ useSdes_ b = s_sdes st) by (by rewrite <-Hs'). destruct Em' as [E1' E2'].
    rewrite E1', E2', Ebb, Esd. cbn [orb]. pose proof (f_equal snd Hb') as Hq. unfold kview, queue in Hq. cbn [snd] in Hq.
    injection Hq as Eo Ei Ew Et. unfold queue_ok. rewrite Hs', E1', E2', Et, Es. split; [|done].
    split_and!; try done. change (s_wsz (stat b) = 4). by rewrite Hs'.
Qed.

(** C30: the constructor, on firmware of version 0 or 1, when the memory of
    [useSdes_] (which the constructor does not initialise) is zero: it
    succeeds; bit-banging is on when an option asks for it (and never with
    version 0), the serializer when it answers the probe, interrupts only
    with neither.  The driver is then ready: either the owner of the JTAG
    signals is the one the mode needs, and eight clocks with TMS high have
    reset the scan chain if the serializer is used, or the FIFO is empty. *)
Theorem tmem_new_ready opts irqfn bb lg devnam irq_ok d irqs clk :
  tmem_target devnam = Ret (at_space F, at_base F) → tmem_options opts false false false = Ret (irqfn, bb, lg) →
  fw_version F = 0 ∨ fw_version F = 1 → tm_busy d = O → zlen (tm_in d) < 2 ^ 16 → forallb irq_good irqs = true →
  ∃ b, tmem_new polls opts devnam irq_ok false d irqs clk = Ret b ∧
    bitBang_ b = (fw_version F =? 1) && (lg || bb) ∧ useSdes_ b = (fw_version F =? 1) && serdes F ∧
    irqFd_ b = irqfn && negb (bitBang_ b || useSdes_ b) && irq_ok ∧
    if bitBang_ b || useSdes_ b then raw_ok b ∧ tm_log (dev b) = tm_log d ++ if useSdes_ b then tms_high else []
    else queue_ok b ∧ tm_sent (dev b) = tm_sent d.
Proof.
  intros. destruct (tmem_new_does opts irqfn bb lg devnam irq_ok d irqs clk) as (b & Eb & Hs & Hb); try done.
  exists b. split; [done|]. pose proof (f_equal s_irq Hs : irqFd_ b = _) as Ei.
  pose proof (f_equal s_bb Hs : bitBang_ b = _) as Ebb. pose proof (f_equal s_sdes Hs : useSdes_ b = _) as Esd.
  cbn in Ei, Ebb, Esd. rewrite Ei, Ebb, Esd in *.
  split; [by destruct (fw_version F =? 1)|]. done.
Qed.

(** C36: [getMaxVectorSize] of a driver constructed for the FIFO is one word
    too large: the message of a shift with vectors of that many bytes has one
    word more than the FIFO holds, and the last word (of TDI bits) does not
    reach the firmware. *)
Theorem tmem_max_message opts irqfn bb lg devnam irq_ok d irqs clk :
  tmem_target devnam = Ret (at_space F, at_base F) → tmem_options opts false false false = Ret (irqfn, bb, lg) →
  fw_version F = 0 ∨ fw_version F = 1 → tm_busy d = O → zlen (tm_in d) < 2 ^ 16 → forallb irq_good irqs = true →
  ∃ b, tmem_new polls opts devnam irq_ok false d irqs clk = Ret b ∧
    let len := 4 + 2 * word_ceil 4 (tmem_getMaxVectorSize b) in
    len = 4 * (256 * kbytes F + 1) ∧
    ∀ txb, zlen txb = len → packet (len / 4) txb = take (Z.to_nat (len - 4)) txb.
Proof.
  intros. destruct (tmem_new_does opts irqfn bb lg devnam irq_ok d irqs clk) as (b & Eb & Hs & _); try done.
  exists b. split; [done|]. pose proof (f_equal s_max Hs : maxVec_ b = _) as Em. cbn in Em. unfold tmem_getMaxVectorSize. rewrite Em.
  pose proof (ok_kbytes F polls HF) as Hkb. cbv zeta.
  set (len := 4 + 2 * _).
  assert (El : len = 4 * (256 * kbytes F + 1)) by (subst len; unfold word_ceil; Z.div_mod_to_equations; lia).
  split; [done|]. intros txb _. unfold packet. rewrite El. do 2 f_equal.
  replace (4 * (256 * kbytes F + 1) / 4) with (256 * kbytes F + 1) by (Z.div_mod_to_equations; lia). lia.
Qed.
End tmem_proofs.

(** ** Instances: a board with or without the serializer *)

Module Board.
#[local] Existing Instance some_platform.

(** TDO is the inverted TDI of the last clock; a shift takes up to two
    polls; every packet is answered by a header and the count of packets,
    after two polls. *)
Definition board (sd : bool) : fw_cfg := {|
  serdes := sd;
  fw_version := 1;
  kbytes := 1;
  chain log := match last log with Some (_, d) => negb d | None => false end;
  late _ := true;
  status _ := 0x7ff;
  busy log := (length log mod 3)%nat;
  reply sent := [0x10203040; Z.min (zlen sent) 7];
  delay _ := 2%nat;
  at_space := 2;
  at_base := 0x200000;
  parse_space l := (2, drop 6 l);
|}.

Lemma board_ok sd : cfg_ok (board sd) 4.
Proof.
  split; cbn; intros; try lia. split; [|lia]. repeat constructor; unfold is_u32; lia.
Qed.

Definition target : list Z := text "USER2:0x200000".
Definition idle (in_ : list Z) : tmem_fw := mkTm [1; 2] [] in_ 0 0x80000 0 0 0 3 0 true true false true [].

(** Bit-banging on firmware without the serializer. *)
Definition banged : JtagDriverTmemFifo tmem_fw :=
  mkTmem 2 0x200000 (mkTm [] [] [] 0 0 0 0 0 10 0 true false true false []) 510 4 false [] true false false 0 false 0 0 1 [] 0.
Definition drv : JtagDriverAxisToJtag (JtagDriverTmemFifo tmem_fw) := JtagDriverAxisToJtag_new 0 254 banged.

Lemma banged_ok : @axis_ok _ _ _ (tmem_raw_laws (board false) 4 (board_ok false)) drv.
Proof. apply axis_new_ok; [unfold is_byte; lia|done]. Qed.

(** Message of two words. *)
Definition queued : io (JtagDriverTmemFifo tmem_fw) :=
  mkIo (JtagDriver_new 0)
    (mkTmem 2 0x200000 (mkTm [] [] [] 0 0x80000 0 0 0 10 0 false false true false []) 510 4 true [Irq 3; Irq 1]
       false false false 0 false 0 0 1 [] 0)
    (replicate 16 0) [9; 9; 9; 9; 9].
End Board.

Lemma tmem_scan_witness :
  ∃ tdo' a', @sendVectors some_platform _ (@tmem_transport some_platform (Board.board false) 4) 13 [1; 2] [0xa5; 6] [0; 0; 7] Board.drv = (Ret tdo', a') ∧
    tm_log (dev (tp a')) = [] ++ zip (take 13 (bits_of [1; 2])) (take 13 (bits_of [0xa5; 6])) ∧
    tdo' = [0xb4; 0x12] ++ [7].
Proof.
  apply (@tmem_scan some_platform (Board.board false) 4 (Board.board_ok false) Board.drv 13 [1; 2] [0xa5; 6] [0; 0; 7]);
    first [exact Board.banged_ok | reflexivity | (vm_compute; congruence) | (vm_compute; split; congruence)
      | (apply (bool_decide_unpack _); vm_compute; exact I)].
Defined.

Lemma tmem_fifo_exchange_witness :
  let (o, s') := @tmem_xfer some_platform _ (fw_tosca (Board.board false)) 4 [1; 2; 3; 4; 5; 6; 7; 8] (4 * 2) 4 3 Board.queued in
  queue_ok (Board.board false) (io_tp s') ∧ tm_sent (dev (io_tp s')) = [[1; 2; 3; 4; 5; 6; 7; 8]] ∧
  (o = Ret 3 ∨ o = Throw TimeoutErr ∧ drEn_ (io_jd Board.queued) = true) ∧
  io_hd s' = [0x40; 0x30; 0x20; 0x10] ++ replicate 12 0 ∧ io_rx s' = [1; 0; 0; 9; 9].
Proof.
  apply (@tmem_fifo_exchange some_platform (Board.board false) 4 (Board.board_ok false) eq_refl
    [1; 2; 3; 4; 5; 6; 7; 8] 2 4 3 Board.queued);
    first [reflexivity | (vm_compute; intuition congruence) | (apply (bool_decide_unpack _); vm_compute; exact I)].
Defined.

Lemma tmem_new_ready_witness :
  ∃ b, tmem_new (H0 := fw_tosca (Board.board true)) 4 (text "i") Board.target true false (Board.idle [5; 6]) [] [] = Ret b ∧
    bitBang_ b = false ∧ useSdes_ b = true ∧ irqFd_ b = false ∧
    raw_ok (Board.board true) b ∧ tm_log (dev b) = [] ++ tms_high.
Proof.
  destruct (tmem_new_ready (Board.board true) 4 (Board.board_ok true) (text "i") true false false Board.target true
    (Board.idle [5; 6]) [] []) as (b & E & Eb & Es & Ei & Hb);
    [reflexivity|reflexivity|by right|reflexivity|simpl; lia|reflexivity|].
  exists b. cbn in Eb, Es. rewrite Eb, Es in *. destruct Hb as [Hr Hl].
  split; [exact E|]. split; [reflexivity|]. split; [reflexivity|]. split; [exact Ei|]. split; [exact Hr|exact Hl].
Defined.

Lemma tmem_max_message_witness :
  ∃ b, tmem_new (H0 := fw_tosca (Board.board false)) 4 [] Board.target true false (Board.idle []) [] [] = Ret b ∧
    let len := 4 + 2 * word_ceil 4 (tmem_getMaxVectorSize b) in
    len = 4 * (256 * 1 + 1) ∧
    ∀ txb, zlen txb = len → packet (Board.board false) (len / 4) txb = take (Z.to_nat (len - 4)) txb.
Proof.
  apply (tmem_max_message (Board.board false) 4 (Board.board_ok false) [] false false false Board.target true (Board.idle []) [] []);
    [reflexivity|reflexivity|by right|reflexivity|simpl; lia|reflexivity].
Defined.
