(* ===== verification/Conn.v ===== *)
(** * The XVC connection (class [XvcConn], xvcConn.cc)

    The server side of the XVC protocol on a TCP stream, with its buffers
    and system calls: the buffering of the incoming stream, the three
    messages of the protocol, and the chunking of long vectors.  What it
    does is specified and proved in ConnSpec.v. *)

From stdpp Require Import base numbers option list strings pretty.
From Stdlib Require Import ZArith Lia.
From S2P Require Import Prelude.
#[local] Open Scope Z_scope.

(** ** The driver interface (class [JtagDriver])

    [drv_sendVectors bits tms tdi tdo] gets the memory behind the three
    pointers; the new content of the TDO buffer is the result. *)
Class JtagDriverIfc (D : Type) := {
  drv_query : M D Z;
  drv_getMaxVectorSize : D → Z;
  drv_setPeriodNs : Z → M D Z;
  drv_sendVectors : Z → list Z → list Z → list Z → M D (list Z);
}.

(** ** The sockets

    [inp] is what the peer will send before it closes the connection.  An
    element of [sched] is the outcome of a call of [select]: failure, or
    the activity on the listening descriptor (is the connection accepted?)
    and on the connection, where [::read] then returns at most the given
    number of octets (0: end of file, negative: error).  An element of
    [wsched] limits a call of [write] in the same way.  When a schedule is
    exhausted the system transfers as much as it can. *)

Inductive sel :=
  | SelFail
  | Sel (listen : option bool) (data : option Z).

Record net := mkNet {
  inp : list Z;
  sched : list sel;
  wsched : list Z;
  out : list Z;
  rejected : Z;
  nodelay_ok : bool;
}.

(** The largest transfer of a single system call. *)
Definition MAX_RW : Z := 0x7ffff000.

(** [::read( sd_, buf, l )]: the return value and the octets. *)
Definition sys_read (d l : Z) (n : net) : Z * list Z * net :=
  if d <? 0 then (-1, [], n)
  else
    let k := Z.to_nat (Z.min (Z.min d l) MAX_RW) in
    let bs := take k (inp n) in
    (zlen bs, bs, mkNet (drop k (inp n)) (sched n) (wsched n) (out n) (rejected n) (nodelay_ok n)).

Definition set_sched (l : list sel) (n : net) : net :=
  mkNet (inp n) l (wsched n) (out n) (rejected n) (nodelay_ok n).

(** [accept] and close the connections of other clients. *)
Definition reject (listen : option bool) (n : net) : net :=
  match listen with
  | Some true => mkNet (inp n) (sched n) (wsched n) (out n) (rejected n + 1) (nodelay_ok n)
  | _ => n
  end.

(** The [do .. while] loop of [XvcConn::read]. *)
Fixpoint select_loop (l : list sel) (len : Z) (n : net) : outcome (Z * list Z) * net :=
  match l with
  | [] =>
      let '(got, bs, n) := sys_read MAX_RW len (set_sched [] n) in (Ret (got, bs), n)
  | SelFail :: l => (Throw (SysErr "select failed"), set_sched l n)
  | Sel listen data :: l =>
      let n := reject listen (set_sched l n) in
      match data with
      | None => select_loop l len n
      | Some d => let '(got, bs, n) := sys_read d len n in (Ret (got, bs), n)
      end
  end.

(** [write( sd_, bs, |bs| )] *)
Definition sys_write (bs : list Z) (n : net) : Z * net :=
  let d := match wsched n with [] => MAX_RW | d :: _ => d end in
  let n := mkNet (inp n) (sched n) (tail (wsched n)) (out n) (rejected n) (nodelay_ok n) in
  if d <? 0 then (-1, n)
  else
    let k := Z.to_nat (Z.min (Z.min d (zlen bs)) MAX_RW) in
    (Z.of_nat k, mkNet (inp n) (sched n) (wsched n) (out n ++ take k bs) (rejected n) (nodelay_ok n)).

(** ** The connection *)

Record XvcConn (D : Type) := mkConn {
  drv_ : D;
  sd_ : net;
  rxb_ : list Z;
  rp_ : Z;           (* as an offset into [rxb_] *)
  rl_ : Z;
  tl_ : Z;
  txb_ : list Z;
  maxVecLen_ : Z;
  supVecLen_ : Z;
  chunk_ : Z;
}.
Arguments mkConn {D}. Arguments drv_ {D}. Arguments sd_ {D}. Arguments rxb_ {D}.
Arguments rp_ {D}. Arguments rl_ {D}. Arguments tl_ {D}. Arguments txb_ {D}.
Arguments maxVecLen_ {D}. Arguments supVecLen_ {D}. Arguments chunk_ {D}.

Definition XvcConn_new {D} (d : D) (n : net) (maxVecLen : Z) : XvcConn D :=
  mkConn d n [] 0 0 0 [] maxVecLen 0 0.

Section updates.
Context {D : Type}.
Implicit Types c : XvcConn D.
Definition set_drv (d : D) c := mkConn d (sd_ c) (rxb_ c) (rp_ c) (rl_ c) (tl_ c) (txb_ c) (maxVecLen_ c) (supVecLen_ c) (chunk_ c).
Definition set_sd (n : net) c := mkConn (drv_ c) n (rxb_ c) (rp_ c) (rl_ c) (tl_ c) (txb_ c) (maxVecLen_ c) (supVecLen_ c) (chunk_ c).
Definition set_rxb (b : list Z) c := mkConn (drv_ c) (sd_ c) b (rp_ c) (rl_ c) (tl_ c) (txb_ c) (maxVecLen_ c) (supVecLen_ c) (chunk_ c).
Definition set_rp (p : Z) c := mkConn (drv_ c) (sd_ c) (rxb_ c) p (rl_ c) (tl_ c) (txb_ c) (maxVecLen_ c) (supVecLen_ c) (chunk_ c).
Definition set_rl (l : Z) c := mkConn (drv_ c) (sd_ c) (rxb_ c) (rp_ c) l (tl_ c) (txb_ c) (maxVecLen_ c) (supVecLen_ c) (chunk_ c).
Definition set_tl (l : Z) c := mkConn (drv_ c) (sd_ c) (rxb_ c) (rp_ c) (rl_ c) l (txb_ c) (maxVecLen_ c) (supVecLen_ c) (chunk_ c).
Definition set_txb (b : list Z) c := mkConn (drv_ c) (sd_ c) (rxb_ c) (rp_ c) (rl_ c) (tl_ c) b (maxVecLen_ c) (supVecLen_ c) (chunk_ c).
End updates.

(** ** The messages *)

(** [%ld] prints its argument as a signed number. *)
Definition long_of (v : Z) : Z := let w := wrap64 v in if w <? 2 ^ 63 then w else w - 2 ^ 64.

(** [sprintf( .., "xvcServer_v1.0:%ld\n", maxVecLen_ )] *)
Definition greeting (maxVecLen : Z) : list Z :=
  text ("xvcServer_v1.0:" +:+ pretty (long_of maxVecLen)) ++ [10].

Definition resize (n : Z) (l : list Z) : list Z :=
  take (Z.to_nat n) l ++ replicate (Z.to_nat n - length l) 0.

Section conn.
Context `{Platform} {D : Type} `{JtagDriverIfc D}.
Abbreviation C := (M (XvcConn D)).

Definition on_drv {A} (m : M D A) : C A := zoom drv_ set_drv m.

(** [read( rxb_ + p, l )] *)
Definition read (p l : Z) : C Z :=
  r ← zoom sd_ set_sd (λ n, select_loop (sched n) l n);
  b ← gets rxb_;
  b ← lift (wr p (snd r) b);
  modify (set_rxb b) ;;
  mret (fst r).

Fixpoint fill_loop (fuel : nat) (p k : Z) : C unit :=
  if 0 <? k then
    match fuel with
    | O => no_fuel
    | S fuel =>
        got ← read p k;
        if got <=? 0 then throw (SysErr "Unable to read from socket")
        else fill_loop fuel (p + got) (k - got)
    end
  else mret tt.

Definition fill (n : Z) : C unit :=
  c ← gets id;
  if n <=? rl_ c then mret tt
  else
    fill_loop (Z.to_nat (n - rl_ c)) (rp_ c + rl_ c) (n - rl_ c) ;;
    modify (set_rl n).

Definition bump (n : Z) : C unit :=
  modify (λ c,
    let c := set_rl (wrap64 (rl_ c - n)) (set_rp (rp_ c + n) c) in
    if rl_ c =? 0 then set_rp 0 c else c).

Definition allocBufs : C unit :=
  tgtVecLen ← on_drv drv_query;
  modify (λ c,
    let tgtVecLen := if 0 =? tgtVecLen then maxVecLen_ c else tgtVecLen in
    let sup := drv_getMaxVectorSize (drv_ c) in
    let sup := if sup =? 0 then tgtVecLen
               else if tgtVecLen <? sup then tgtVecLen else sup in
    let overhead := 128 in
    let chunk := wrap64 (2 * maxVecLen_ c + overhead) in
    mkConn (drv_ c) (sd_ c) (resize (wrap64 (2 * chunk)) (rxb_ c)) 0 0 0
      (resize (wrap64 (maxVecLen_ c + overhead)) (txb_ c)) (maxVecLen_ c) sup chunk).

(** The loop of [flush]; [p] is the offset into [txb_]. *)
Fixpoint flush_loop (fuel : nat) (p : Z) : C unit :=
  c ← gets id;
  if 0 <? tl_ c then
    match fuel with
    | O => no_fuel
    | S fuel =>
        bs ← lift (rd p (tl_ c) (txb_ c));
        put ← zoom sd_ set_sd (λ n, let (put, n) := sys_write bs n in (Ret put, n));
        if put <=? 0 then throw (SysErr "Unable to send from socket")
        else
          modify (set_tl (tl_ c - put)) ;;
          flush_loop fuel (p + put)
    end
  else mret tt.

Definition flush : C unit :=
  n ← gets tl_; flush_loop (Z.to_nat n) 0.

(** [memcpy( &txb_[0], bs, |bs| )] *)
Definition put_tx (bs : list Z) : C unit :=
  b ← gets txb_; b ← lift (wr 0 bs b); modify (set_txb b).

(** [rp_[i] .. rp_[i+n-1]] *)
Definition peek (i n : Z) : C (list Z) :=
  c ← gets id; lift (rd (rp_ c + i) n (rxb_ c)).

Definition do_getinfo : C unit :=
  fill 8 ;;
  on_drv drv_query ;;
  m ← gets maxVecLen_;
  put_tx (greeting m ++ [0]) ;;
  modify (set_tl (zlen (greeting m))) ;;
  bump 8.

Definition do_settck : C unit :=
  fill 11 ;;
  b ← peek 7 4;
  let requestedPeriod := le_val b in
  newPeriod ← on_drv (drv_setPeriodNs requestedPeriod);
  put_tx (le_bytes 4 newPeriod) ;;
  modify (set_tl 4) ;;
  bump 11.

(** [for ( off = 0, bitsLeft = bits; bitsLeft > 0;
           bitsLeft -= bitsSent, off += vecLen )] *)
Fixpoint shift_loop (fuel : nat) (bytes vecLen off bitsLeft : Z) : C unit :=
  if 0 <? bitsLeft then
    match fuel with
    | O => no_fuel
    | S fuel =>
        let bitsSent := wrap32 (8 * vecLen) in
        let bitsSent := if bitsLeft <? bitsSent then bitsLeft else bitsSent in
        c ← gets id;
        let tms := drop (Z.to_nat (rp_ c + off)) (rxb_ c) in
        let tdi := drop (Z.to_nat (rp_ c + bytes + off)) (rxb_ c) in
        let tdo := drop (Z.to_nat off) (txb_ c) in
        tdo ← on_drv (drv_sendVectors bitsSent tms tdi tdo);
        modify (λ c, set_txb (take (Z.to_nat off) (txb_ c) ++ tdo) c) ;;
        shift_loop fuel bytes vecLen (wrap64 (off + vecLen)) (wrap32 (bitsLeft - bitsSent))
    end
  else mret tt.

(** A vector of [bytes] bytes is done in as many rounds or fewer; where the
    loop does not make progress it is watched for [rounds] rounds. *)
Definition do_shift : C unit :=
  fill 10 ;;
  b ← peek 6 4;
  let bits := le_val b in
  let bytes := wrap32 (bits + 7) / 8 in
  m ← gets maxVecLen_;
  if m <? bytes then throw (ProtoErr "Requested bit vector length too big")
  else
    bump 10 ;;
    fill (2 * bytes) ;;
    sup ← gets supVecLen_;
    let vecLen := if sup <? bytes then sup else bytes in
    shift_loop (Z.to_nat bytes + rounds) bytes vecLen 0 bits ;;
    modify (set_tl bytes) ;;
    bump (2 * bytes).

Definition message : C unit :=
  fill 2 ;;
  b ← peek 0 2;
  (if decide (b = text "ge") then do_getinfo
   else if decide (b = text "se") then do_settck
   else if decide (b = text "sh") then do_shift
   else throw (ProtoErr "unsupported message received")) ;;
  flush.

(** [do .. while ( rl_ > 0 )] *)
Fixpoint messages (fuel : nat) : C unit :=
  match fuel with
  | O => no_fuel
  | S fuel =>
      message ;;
      l ← gets rl_;
      if 0 <? l then messages fuel else mret tt
  end.

(** [while ( 1 )] *)
Fixpoint serve (fuel fuel' : nat) : C unit :=
  match fuel with
  | O => no_fuel
  | S fuel =>
      c ← gets id;
      got ← read (rp_ c) (chunk_ c);
      if got <=? 0 then throw (SysErr "Unable to read from socket")
      else
        modify (set_rl got) ;;
        messages fuel' ;;
        serve fuel fuel'
  end.

(** Every message has at least eight octets, so that more rounds than
    there are octets in the stream are never made. *)
Definition run : C unit :=
  allocBufs ;;
  ok ← gets (λ c, nodelay_ok (sd_ c));
  if negb ok then throw (SysErr "Unable to set TCP_NODELAY")
  else
    n ← gets (λ c, S (length (inp (sd_ c))));
    serve n n.
End conn.
