(* ===== verification/ConnSpec.v ===== *)
(** * What an XVC connection does

    The specification of [XvcConn::run] in terms of the octet stream: no
    buffers, no segments, no partial transfers.  [run_refines] shows that
    the program implements it for every way the stream is cut into
    segments, without leaving its buffers. *)

From stdpp Require Import base numbers option list strings pretty.
From Stdlib Require Import ZArith Lia.
From S2P Require Import Prelude Conn.
#[local] Open Scope Z_scope.

(** ** Chunks

    A vector of [bits] bits is shifted in pieces of [vec] bytes: piece [i]
    starts at byte [i * vec] and has the rest of the bits, at most
    [8 * vec]. *)
Definition num_chunks (vec bits : Z) : Z := (bits + 8 * vec - 1) / (8 * vec).
Definition chunk_at (vec bits i : Z) : Z * Z := (i * vec, Z.min (8 * vec) (bits - 8 * vec * i)).
Definition chunks (vec bits : Z) : list (Z * Z) := chunk_at vec bits <$> seqZ 0 (num_chunks vec bits).

Definition slice (off n : Z) (l : list Z) : list Z := take (Z.to_nat n) (drop (Z.to_nat off) l).

(** The largest piece the target and the driver support. *)
Definition supported (maxVecLen tgt drvMax : Z) : Z :=
  let tgt := if 0 =? tgt then maxVecLen else tgt in
  if drvMax =? 0 then tgt else Z.min tgt drvMax.

(** ** The server on the stream *)

Record srv (D : Type) := mkSrv {
  s_drv : D;
  s_tx : list Z;    (* the reply buffer, which keeps old replies *)
  s_in : list Z;    (* what the peer has still to say *)
  s_out : list Z;   (* what it was told *)
}.
Arguments mkSrv {D}. Arguments s_drv {D}. Arguments s_tx {D}. Arguments s_in {D}. Arguments s_out {D}.

Section spec.
Context `{Platform} {D : Type} `{JtagDriverIfc D} (maxVecLen : Z).
Abbreviation A := (M (srv D)).

Definition s_on_drv {X} (m : M D X) : A X :=
  zoom s_drv (λ d s, mkSrv d (s_tx s) (s_in s) (s_out s)) m.

(** The next [n] octets, which are not consumed. *)
Definition need (n : Z) : A (list Z) := λ s,
  if zlen (s_in s) <? n then (Throw (SysErr "Unable to read from socket"), s)
  else (Ret (take (Z.to_nat n) (s_in s)), s).
Definition consume (n : Z) : A unit :=
  modify (λ s, mkSrv (s_drv s) (s_tx s) (drop (Z.to_nat n) (s_in s)) (s_out s)).
Definition fill_tx (bs : list Z) : A unit :=
  modify (λ s, mkSrv (s_drv s) (bs ++ drop (length bs) (s_tx s)) (s_in s) (s_out s)).
Definition answer (n : Z) : A unit :=
  modify (λ s, mkSrv (s_drv s) (s_tx s) (s_in s) (s_out s ++ take (Z.to_nat n) (s_tx s))).

Definition spec_getinfo : A unit :=
  need 8 ;;
  s_on_drv drv_query ;;
  fill_tx (greeting maxVecLen ++ [0]) ;;
  consume 8 ;;
  answer (zlen (greeting maxVecLen)).

Definition spec_settck : A unit :=
  m ← need 11;
  newPeriod ← s_on_drv (drv_setPeriodNs (le_val (slice 7 4 m)));
  fill_tx (le_bytes 4 newPeriod) ;;
  consume 11 ;;
  answer 4.

(** Shift one piece of the vectors. *)
Definition spec_chunk (tms tdi : list Z) (p : Z * Z) : A unit :=
  let (off, bits) := p in
  let n := (bits + 7) / 8 in
  s ← gets id;
  tdo ← s_on_drv (drv_sendVectors bits (slice off n tms) (slice off n tdi) (drop (Z.to_nat off) (s_tx s)));
  modify (λ s, mkSrv (s_drv s) (take (Z.to_nat off) (s_tx s) ++ tdo) (s_in s) (s_out s)).

Fixpoint spec_chunks (tms tdi : list Z) (l : list (Z * Z)) : A unit :=
  match l with
  | [] => mret tt
  | p :: l => spec_chunk tms tdi p ;; spec_chunks tms tdi l
  end.

(** A length of 2^32 - 7 bits or more is taken for an empty vector that
    still has bits to shift: the driver is asked to shift no bits, again and
    again, for as long as it is watched. *)
Fixpoint spec_spin (n : nat) : A unit :=
  match n with
  | O => no_fuel
  | S n => spec_chunk [] [] (0, 0) ;; spec_spin n
  end.

Definition spec_shift (sup : Z) : A unit :=
  m ← need 10;
  let bits := le_val (slice 6 4 m) in
  let bytes := (bits + 7) / 8 in
  if 2 ^ 29 <=? bytes then consume 10 ;; spec_spin rounds
  else if maxVecLen <? bytes then throw (ProtoErr "Requested bit vector length too big")
  else
    consume 10 ;;
    v ← need (2 * bytes);
    spec_chunks (slice 0 bytes v) (slice bytes bytes v) (chunks (Z.min sup bytes) bits) ;;
    consume (2 * bytes) ;;
    answer bytes.

Definition spec_message (sup : Z) : A unit :=
  b ← need 2;
  if decide (b = text "ge") then spec_getinfo
  else if decide (b = text "se") then spec_settck
  else if decide (b = text "sh") then spec_shift sup
  else throw (ProtoErr "unsupported message received").

Fixpoint spec_serve (fuel : nat) (sup : Z) : A unit :=
  match fuel with
  | O => no_fuel
  | S fuel => spec_message sup ;; spec_serve fuel sup
  end.

Definition spec_run : A unit :=
  tgt ← s_on_drv drv_query;
  s ← gets id;
  spec_serve (S (length (s_in s))) (supported maxVecLen tgt (drv_getMaxVectorSize (s_drv s))).
End spec.

(** ** Slices *)

Lemma slice_length off n l : 0 ≤ off → 0 ≤ n → off + n ≤ zlen l → zlen (slice off n l) = n.
Proof. intros. unfold slice. rewrite length_take, length_drop. lia. Qed.

Lemma slice_wr p l bs buf b : 0 ≤ p → 0 ≤ l → wr (p + l) bs buf = Ret b →
  slice p (l + zlen bs) b = slice p l buf ++ bs.
Proof.
  intros Hp Hl. unfold wr. destruct (_ && _) eqn:E; [|done].
  apply andb_true_iff in E as [_ E%Z.leb_le]. intros [= <-]. unfold slice.
  replace (Z.to_nat (p + l)) with (Z.to_nat p + Z.to_nat l)%nat by lia.
  rewrite drop_app_le by (rewrite length_take; lia). rewrite <-take_drop_commute.
  replace (Z.to_nat (l + zlen bs)) with (Z.to_nat l + length bs)%nat by lia.
  assert (Hl' : length (take (Z.to_nat l) (drop (Z.to_nat p) buf)) = Z.to_nat l)
    by (rewrite length_take, length_drop; lia).
  rewrite app_assoc, take_app_le by (rewrite length_app; lia).
  rewrite take_ge by (rewrite length_app; lia). done.
Qed.

(** A slice of the head of a list. *)
Lemma slice_app i n l l' : 0 ≤ i → 0 ≤ n → i + n ≤ zlen l → slice i n (l ++ l') = slice i n l.
Proof.
  intros Hi Hn Hl. unfold slice. rewrite drop_app_le by lia.
  rewrite take_app_le by (rewrite length_drop; lia). done.
Qed.

Lemma slice_slice i n p l buf : 0 ≤ i → 0 ≤ n → i + n ≤ l → 0 ≤ p →
  slice i n (slice p l buf) = slice (p + i) n buf.
Proof.
  intros Hi Hn Hl Hp. unfold slice. rewrite skipn_firstn_comm, firstn_firstn, drop_drop.
  rewrite Nat.min_l by lia. do 2 f_equal. lia.
Qed.

Lemma slice_drop n p l buf : 0 ≤ n ≤ l → 0 ≤ p →
  drop (Z.to_nat n) (slice p l buf) = slice (p + n) (l - n) buf.
Proof.
  intros Hn Hp. unfold slice. rewrite skipn_firstn_comm, drop_drop. f_equal; [|f_equal]; lia.
Qed.

Lemma slice_0 n l : slice 0 n l = take (Z.to_nat n) l.
Proof. done. Qed.

Lemma bytes_slice off n l : bytes l → bytes (slice off n l).
Proof. intros. by apply bytes_take, bytes_drop. Qed.
#[export] Hint Resolve bytes_slice : xvc.

(** ** The framing of the stream *)

(** The message at the head of the stream: its length; or the server ends
    because it is not understood, refused, or not complete; or it is the
    shift of a vector whose size wraps around. *)
Inductive frame := Message (len : Z) | Final | Overlong.

Definition frame_of (maxVecLen : Z) (inp : list Z) : frame :=
  let whole n := if zlen inp <? n then Final else Message n in
  let head := take 2 inp in
  if decide (head = text "ge") then whole 8
  else if decide (head = text "se") then whole 11
  else if decide (head = text "sh") then
    if zlen inp <? 10 then Final
    else
      let bytes := (le_val (slice 6 4 inp) + 7) / 8 in
      if 2 ^ 29 <=? bytes then Overlong
      else if maxVecLen <? bytes then Final
      else whole (10 + 2 * bytes)
  else Final.

(** Does the stream contain such a vector? *)
Fixpoint overlong (fuel : nat) (maxVecLen : Z) (inp : list Z) : bool :=
  match fuel with
  | O => false
  | S fuel =>
      match frame_of maxVecLen inp with
      | Message n => overlong fuel maxVecLen (drop (Z.to_nat n) inp)
      | Final => false
      | Overlong => true
      end
  end.

(** ** Every message is consumed *)

Section progress.
Context `{Platform} {D : Type} `{JtagDriverIfc D} (maxVecLen : Z).
Implicit Types s : srv D.

Lemma need_returns n s (P : list Z → srv D → Prop) :
  (n ≤ zlen (s_in s) → P (take (Z.to_nat n) (s_in s)) s) → returns (need n) s P.
Proof. intros HP. unfold returns, need. destruct (Z.ltb_spec (zlen (s_in s)) n); auto. Qed.
Lemma drv_returns {X} (m : M D X) s (P : X → srv D → Prop) :
  (∀ x s', s_in s' = s_in s → P x s') → returns (s_on_drv m) s P.
Proof. intros HP. unfold returns, s_on_drv, zoom. destruct (m (s_drv s)) as [[]]; auto. Qed.

Lemma spec_chunks_in tms tdi l s : returns (spec_chunks tms tdi l) s (λ _ s', s_in s' = s_in s).
Proof.
  revert s. induction l as [|[off b] l IH]; intros s; [done|]. cbn [spec_chunks].
  apply returns_bind. unfold spec_chunk. apply returns_bind. cbn. apply returns_bind.
  apply drv_returns. intros tdo s1 E1. unfold returns at 1. cbn.
  eapply returns_mono; [apply IH|]. intros ? s' ->. done.
Qed.

Lemma spin_never n s P : returns (spec_spin n) s P.
Proof.
  revert s. induction n as [|n IH]; intros s; [done|]. cbn [spec_spin]. apply returns_bind. unfold spec_chunk.
  apply returns_bind. cbn. apply returns_bind. apply drv_returns. intros tdo s1 _. unfold returns at 1. cbn. apply IH.
Qed.

Lemma frame_of_slice inp : 10 ≤ zlen inp → slice 6 4 (take (Z.to_nat 10) inp) = slice 6 4 inp.
Proof. intros Hl. rewrite <-slice_0, slice_slice by lia. by rewrite Z.add_0_l. Qed.

(** A message that is answered is consumed; it has at least eight octets. *)
Lemma message_consumes sup s : bytes (s_in s) →
  returns (spec_message maxVecLen sup) s (λ _ s', ∃ n, frame_of maxVecLen (s_in s) = Message n ∧
    8 ≤ n ≤ zlen (s_in s) ∧ s_in s' = drop (Z.to_nat n) (s_in s)).
Proof.
  intros Hby. apply returns_bind, need_returns. intros H2. unfold frame_of.
  change (take 2 (s_in s)) with (take (Z.to_nat 2) (s_in s)).
  destruct (decide _); [|destruct (decide _); [|destruct (decide _); [|done]]].
  - apply returns_bind, need_returns. intros H8. apply returns_bind, drv_returns. intros x s1 E1.
    do 2 apply returns_bind, returns_modify. apply returns_modify. cbn [s_in].
    exists 8. rewrite (proj2 (Z.ltb_ge _ _)), E1 by done. done.
  - apply returns_bind, need_returns. intros H11. apply returns_bind, drv_returns. intros x s1 E1.
    do 2 apply returns_bind, returns_modify. apply returns_modify. cbn [s_in].
    exists 11. rewrite (proj2 (Z.ltb_ge _ _)), E1 by done. by split_and!; [|lia..|].
  - apply returns_bind, need_returns. intros H10. cbv zeta. rewrite frame_of_slice by done.
    rewrite (proj2 (Z.ltb_ge (zlen (s_in s)) 10)) by done.
    set (nb := (le_val _ + 7) / 8). destruct (2 ^ 29 <=? nb).
    { apply returns_bind, returns_modify, spin_never. }
    destruct (maxVecLen <? nb); [done|].
    apply returns_bind, returns_modify. apply returns_bind, need_returns. cbn [s_in].
    rewrite length_drop. intros Hn.
    apply returns_bind. eapply returns_mono; [apply spec_chunks_in|].
    intros ? s2 E2. apply returns_bind, returns_modify, returns_modify. cbn [s_in] in *.
    assert (0 ≤ nb).
    { apply Z.div_pos; [|lia]. pose proof (le_val_bounds _ (bytes_slice 6 4 _ Hby)). lia. }
    exists (10 + 2 * nb). rewrite (proj2 (Z.ltb_ge _ _)) by lia.
    split_and!; [done|lia|lia|]. rewrite E2, drop_drop. f_equal. lia.
Qed.
End progress.

(** ** What the connection relies on *)

(** The exceptions that end a connection, but not the server. *)
Definition is_sys (e : exn) : bool := match e with SysErr _ => true | _ => false end.

(** [room d n]: the driver has room for vectors of [n] bytes.  Within it,
    the driver never fails otherwise than by an exception, leaves the size
    of the TDO buffer alone and looks at the bytes of the vectors only, also
    when it is called for no bits at all.
    After an exception that the server survives it can be used again. *)
Class JtagDriverLaws (D : Type) `{JtagDriverIfc D} := {
  drv_ok : D → Prop;
  room : D → Z → Prop;
  drv_max_ok d : drv_ok d → 0 ≤ drv_getMaxVectorSize d;
  drv_query_ok d : drv_ok d →
    match drv_query d with
    | (Ret n, d') => 0 ≤ n ∧ drv_ok d' ∧ ∀ k, room d k → room d' k
    | (Throw e, d') => is_sys e = true → drv_ok d'
    | _ => False
    end;
  drv_setPeriodNs_ok d p : drv_ok d → is_u32 p →
    match drv_setPeriodNs p d with
    | (Ret _, d') => drv_ok d' ∧ ∀ k, room d k → room d' k
    | (Throw e, d') => is_sys e = true → drv_ok d'
    | _ => False
    end;
  drv_sendVectors_ok d bits tms tdi tdo :
    let n := (bits + 7) / 8 in
    drv_ok d → 0 ≤ bits ≤ 2 ^ 20 → room d n → bytes tms → bytes tdi → bytes tdo →
    n ≤ zlen tms → n ≤ zlen tdi → n ≤ zlen tdo →
    match drv_sendVectors bits tms tdi tdo d with
    | (Ret tdo', d') => drv_ok d' ∧ (∀ k, room d k → room d' k) ∧
        length tdo' = length tdo ∧ bytes tdo'
    | (Throw e, d') => is_sys e = true → drv_ok d'
    | _ => False
    end;
  drv_sendVectors_local d bits tms tdi tdo :
    let n := (bits + 7) / 8 in
    drv_ok d → 0 ≤ bits ≤ 2 ^ 20 → room d n → bytes tms → bytes tdi → bytes tdo →
    n ≤ zlen tms → n ≤ zlen tdi → n ≤ zlen tdo →
    drv_sendVectors bits tms tdi tdo d =
      drv_sendVectors bits (take (Z.to_nat n) tms) (take (Z.to_nat n) tdi) tdo d;
}.

(** Schedules in which no system call fails. *)
Definition sel_good (e : sel) : Prop :=
  match e with SelFail => False | Sel _ (Some d) => 0 < d | Sel _ None => True end.
Record net_good (n : net) : Prop := {
  good_sched : Forall sel_good (sched n);
  good_wsched : Forall (λ d, 0 < d) (wsched n);
  good_inp : bytes (inp n);
}.

(** ** Writing to a buffer piece by piece *)

Lemma wr_app p a b buf buf1 : 0 ≤ p → wr p a buf = Ret buf1 →
  wr (p + zlen a) b buf1 = wr p (a ++ b) buf.
Proof.
  intros Hp Ha. pose proof (wr_length _ _ _ _ Ha) as HL.
  unfold wr in Ha. destruct (_ && _) eqn:E; [|done].
  apply andb_true_iff in E as [_ E%Z.leb_le]. injection Ha as <-.
  unfold wr. rewrite HL, length_app, Nat2Z.inj_add, Z.add_assoc.
  rewrite !(proj2 (Z.leb_le 0 _)) by lia. cbn [andb]. destruct (_ <=? _); [|done]. f_equal.
  set (pn := Z.to_nat p). replace (Z.to_nat (p + zlen a)) with (pn + length a)%nat by lia.
  assert (Hpn : length (take pn buf) = pn) by (rewrite length_take; lia).
  rewrite take_app, Hpn, (take_ge (take pn buf)) by lia.
  replace (pn + length a - pn)%nat with (length a) by lia.
  rewrite take_app_length. rewrite <-!app_assoc. do 3 f_equal.
  rewrite drop_app, Hpn, (drop_ge (take pn buf)), app_nil_l by lia.
  rewrite drop_app, (drop_ge a), app_nil_l by lia. rewrite drop_drop. f_equal. lia.
Qed.

(** ** The greeting *)

Lemma pretty_go_length k : ∀ x s, (x < 10 ^ N.of_nat k)%N →
  (String.length (pretty_N_go x s) ≤ k + String.length s)%nat.
Proof.
  induction k as [|k IH]; intros x s Hx; [by replace x with 0%N by (simpl in Hx; lia)|].
  destruct (decide (x = 0%N)) as [->|Hx0]; [rewrite pretty_N_go_0; lia|].
  rewrite pretty_N_go_step by lia. etrans; [apply IH|simpl; lia].
  rewrite Nat2N.inj_succ, N.pow_succ_r' in Hx. apply N.Div0.div_lt_upper_bound. lia.
Qed.

Lemma string_length_app a b : String.length (a +:+ b) = (String.length a + String.length b)%nat.
Proof. induction a as [|x a IH]; [done|]. simpl. by rewrite <-IH. Qed.

Lemma greeting_length m : 1 ≤ m ≤ 2 ^ 17 → zlen (greeting m) ≤ 100.
Proof.
  intros Hm. unfold greeting, long_of. rewrite wrap64_small, (proj2 (Z.ltb_lt _ _)) by lia.
  rewrite length_app, text_length, string_length_app.
  destruct m as [|m|m]; try lia. unfold pretty, pretty_Z, pretty, pretty_positive, pretty, pretty_N.
  rewrite decide_False by done. pose proof (pretty_go_length 6 (N.pos m) "") as Hl.
  change (10 ^ N.of_nat 6)%N with 1000000%N in Hl. simpl (String.length "") in Hl.
  specialize (Hl ltac:(lia)). simpl length. change (String.length "xvcServer_v1.0:") with 15%nat. lia.
Qed.

Lemma greeting_bytes m : bytes (greeting m).
Proof. apply bytes_app. split; [apply text_bytes|]. repeat constructor; unfold is_byte; lia. Qed.

(** ** The sockets *)

Lemma sys_read_ok d l n : 0 < d → 0 < l → ∃ k, (k ≤ length (inp n))%nat ∧ Z.of_nat k ≤ l ∧
  (inp n ≠ [] → (0 < k)%nat) ∧
  sys_read d l n = (Z.of_nat k, take k (inp n),
    mkNet (drop k (inp n)) (sched n) (wsched n) (out n) (rejected n) (nodelay_ok n)).
Proof.
  intros Hd Hl. unfold sys_read. rewrite (proj2 (Z.ltb_ge _ _)) by lia.
  set (m := Z.min (Z.min d l) MAX_RW). assert (0 < m ≤ l) by (unfold MAX_RW in *; lia).
  exists (Nat.min (Z.to_nat m) (length (inp n))). split; [lia|]. split; [lia|]. split.
  - intros Hne. destruct (inp n); [done|]. simpl length. lia.
  - rewrite length_take. destruct (decide (Z.to_nat m ≤ length (inp n))%nat).
    + by rewrite Nat.min_l by done.
    + rewrite Nat.min_r by lia. by rewrite !take_ge, !drop_ge by lia.
Qed.

(** [select] and [read]: some of the octets there are. *)
Lemma select_loop_ok sl l n : 0 < l → Forall sel_good sl → net_good n →
  ∃ k n', select_loop sl l n = (Ret (Z.of_nat k, take k (inp n)), n') ∧
    (k ≤ length (inp n))%nat ∧ Z.of_nat k ≤ l ∧ (inp n ≠ [] → (0 < k)%nat) ∧
    inp n' = drop k (inp n) ∧ out n' = out n ∧ net_good n'.
Proof.
  intros Hl. revert n. induction sl as [|[|li [d|]] sl IH]; intros n Hs Hn; cbn [select_loop].
  - destruct (sys_read_ok MAX_RW l (set_sched [] n)) as (k & Hk & Hkl & Hk0 & ->); [done..|].
    destruct Hn. eexists k, _. split_and!; try done. split; cbn; [by constructor|done|].
    by apply Forall_drop.
  - by inversion Hs.
  - inversion Hs as [|? ? Hd Hs']; subst. simpl in Hd. set (n1 := reject li (set_sched sl n)).
    assert (E : inp n1 = inp n ∧ out n1 = out n ∧ sched n1 = sl ∧ wsched n1 = wsched n).
    { subst n1. by destruct li as [[]|]. } destruct E as (Ei & Eo & Es & Ew).
    destruct (sys_read_ok d l n1) as (k & Hk & Hkl & Hk0 & ->); [done..|].
    rewrite Ei in *. destruct Hn. eexists k, _. split_and!; try done.
    split; cbn; rewrite ?Es, ?Ew; [done..|]. by apply Forall_drop.
  - inversion Hs as [|? ? Hd Hs']; subst. set (n1 := reject li (set_sched sl n)).
    assert (E : inp n1 = inp n ∧ out n1 = out n ∧ sched n1 = sl ∧ wsched n1 = wsched n).
    { subst n1. by destruct li as [[]|]. } destruct E as (Ei & Eo & Es & Ew).
    rewrite <-Ei, <-Eo. apply IH; [done|]. destruct Hn. split; by rewrite ?Es, ?Ew, ?Ei.
Qed.

Lemma sys_write_ok bs n : bs ≠ [] → net_good n →
  ∃ k n', sys_write bs n = (Z.of_nat k, n') ∧ (0 < k ≤ length bs)%nat ∧
    inp n' = inp n ∧ out n' = out n ++ take k bs ∧ net_good n'.
Proof.
  intros Hbs [H1 H2 H3]. unfold sys_write.
  set (d := match wsched n with [] => MAX_RW | d :: _ => d end).
  assert (Hd : 0 < d) by (subst d; destruct H2; done).
  rewrite (proj2 (Z.ltb_ge _ _)) by lia.
  assert (0 < length bs)%nat by (destruct bs; [done|simpl; lia]).
  eexists _, _. split; [done|]. split; [unfold MAX_RW; lia|]. split; [done|]. split; [done|].
  split; cbn; [done| |done]. by destruct H2.
Qed.

(** ** The bounds of the pieces *)

Lemma num_chunks_bounds vec bits : 1 ≤ vec → 0 ≤ bits →
  0 ≤ num_chunks vec bits ∧ 8 * vec * num_chunks vec bits - 8 * vec < bits ≤ 8 * vec * num_chunks vec bits.
Proof.
  intros Hv Hb. unfold num_chunks. pose proof (Z.div_mod (bits + 8 * vec - 1) (8 * vec) ltac:(lia)).
  pose proof (Z.mod_pos_bound (bits + 8 * vec - 1) (8 * vec) ltac:(lia)).
  split; [apply Z.div_pos; lia|]. destruct (decide (bits = 0)) as [->|]; nia.
Qed.

(** A piece lies within the vector. *)
Lemma chunk_bounds vec bits i : 1 ≤ vec → 1 ≤ bits → 0 ≤ i < num_chunks vec bits →
  let (off, b) := chunk_at vec bits i in
  1 ≤ b ≤ 8 * vec ∧ 0 ≤ off ∧ b ≤ bits - 8 * off ∧
  1 ≤ (b + 7) / 8 ≤ vec ∧ off + (b + 7) / 8 ≤ (bits + 7) / 8.
Proof.
  intros Hv Hb Hi. destruct (num_chunks_bounds vec bits) as (_ & HN); [lia..|].
  assert (8 * vec * i ≤ 8 * vec * num_chunks vec bits - 8 * vec) by nia.
  unfold chunk_at. assert (0 ≤ i * vec) by nia.
  set (off := i * vec) in *. replace (8 * vec * i) with (8 * off) in * by (subst off; lia).
  clearbody off. split_and!; try lia; Z.div_mod_to_equations; lia.
Qed.

Lemma seqZ_succ i m : seqZ i (Z.of_nat (S m)) = i :: seqZ (i + 1) (Z.of_nat m).
Proof. rewrite seqZ_cons by lia. do 2 f_equal. lia. Qed.

(** ** The simulation *)

Section simulation.
Context `{Platform} {D : Type} `{JtagDriverIfc D} `{!JtagDriverLaws D}.
Context (maxVecLen sup : Z) (Hmax : 1 ≤ maxVecLen ≤ 2 ^ 17) (Hsup : 1 ≤ sup).
(** When the server may not end. *)
Context (diverges : Prop).
Implicit Types (c : XvcConn D) (s : srv D).

(** What can be observed in the end. *)
Definition observe c s : Prop := drv_ c = s_drv s ∧ out (sd_ c) = s_out s.

(** Same result, same exception; the driver can be used again if the
    server goes on. *)
Definition simulates {A B} (Q : A → B → XvcConn D → srv D → Prop)
    (m : M (XvcConn D) A) (m' : M (srv D) B) c s : Prop :=
  match m c, m' s with
  | (Ret a, c'), (Ret b, s') => Q a b c' s'
  | (Throw e, c'), (Throw e', s') => e = e' ∧ observe c' s' ∧ (is_sys e = true → drv_ok (drv_ c'))
  | (NoFuel, _), (NoFuel, _) => diverges
  | _, _ => False
  end.

Lemma sim_bind {A B A' B'} (Q : A → B → XvcConn D → srv D → Prop)
    (Q' : A' → B' → XvcConn D → srv D → Prop) m m' k k' c s :
  simulates Q m m' c s →
  (∀ a b c' s', Q a b c' s' → simulates Q' (k a) (k' b) c' s') →
  simulates Q' (m ≫= k) (m' ≫= k') c s.
Proof.
  unfold simulates, mbind, M_bind. intros Hm Hk.
  destruct (m c) as [[a|e|u|] c'], (m' s) as [[b|e'|u'|] s']; try done. by apply Hk.
Qed.

Record linked c s : Prop := {
  l_drv : drv_ c = s_drv s;
  l_tx : txb_ c = s_tx s;
  l_out : out (sd_ c) = s_out s;
  l_in : s_in s = slice (rp_ c) (rl_ c) (rxb_ c) ++ inp (sd_ c);
  l_max : maxVecLen_ c = maxVecLen;
  l_sup : supVecLen_ c = sup;
  l_chunk : chunk_ c = 2 * maxVecLen + 128;
  l_rxb : zlen (rxb_ c) = 2 * chunk_ c ∧ bytes (rxb_ c);
  l_txb : zlen (txb_ c) = maxVecLen + 128 ∧ bytes (txb_ c);
  l_rp : 0 ≤ rp_ c;
  l_rl : 0 ≤ rl_ c;
  l_end : rp_ c + rl_ c ≤ 2 * chunk_ c;
  l_net : net_good (sd_ c);
  l_ok : drv_ok (drv_ c);
  l_room : ∀ k, 0 ≤ k ≤ sup → k ≤ maxVecLen → room (drv_ c) k;
}.

Lemma read_ok p l c : net_good (sd_ c) → bytes (rxb_ c) → 0 < l → 0 ≤ p → p + l ≤ zlen (rxb_ c) →
  ∃ k b n, read p l c = (Ret (Z.of_nat k), set_rxb b (set_sd n c)) ∧
    wr p (take k (inp (sd_ c))) (rxb_ c) = Ret b ∧
    (k ≤ length (inp (sd_ c)))%nat ∧ Z.of_nat k ≤ l ∧ (inp (sd_ c) ≠ [] → (0 < k)%nat) ∧
    inp n = drop k (inp (sd_ c)) ∧ out n = out (sd_ c) ∧ net_good n ∧ bytes b.
Proof.
  intros Hn Hb Hl Hp Hr.
  destruct (select_loop_ok (sched (sd_ c)) l (sd_ c) Hl (good_sched _ Hn) Hn)
    as (k & n & E & Hk & Hkl & Hk0 & Ei & Eo & Hn').
  destruct (wr_ix p (take k (inp (sd_ c))) (rxb_ c)) as (b & Ew & L & _ & Bb).
  { lia. } { rewrite length_take. lia. }
  exists k, b, n. split_and!; try done.
  - unfold read, mbind, M_bind, zoom, gets, lift, modify. rewrite E. cbn. by rewrite Ew.
  - apply Bb; [apply bytes_take, Hn|done].
Qed.

Lemma wr_nil p buf : 0 ≤ p ≤ zlen buf → wr p [] buf = Ret buf.
Proof. intros Hp. rewrite wr_ok by (simpl length; lia). simpl. by rewrite Nat.add_0_r, take_drop. Qed.

Lemma fill_loop_nil p c : net_good (sd_ c) → bytes (rxb_ c) → 0 ≤ p → p + 0 ≤ zlen (rxb_ c) →
  ∃ b n, out n = out (sd_ c) ∧ net_good n ∧ bytes b ∧
    if zlen (inp (sd_ c)) <? 0
    then (Ret tt, c) = (Throw (SysErr "Unable to read from socket"), set_rxb b (set_sd n c))
    else (Ret tt, c) = (Ret tt, set_rxb b (set_sd n c)) ∧
      wr p (take (Z.to_nat 0) (inp (sd_ c))) (rxb_ c) = Ret b ∧ inp n = drop (Z.to_nat 0) (inp (sd_ c)).
Proof.
  intros Hn Hb Hp Hr. exists (rxb_ c), (sd_ c). split_and!; [done..|].
  rewrite (proj2 (Z.ltb_ge _ _)) by lia. split_and!; [by destruct c| |by rewrite drop_0].
  apply wr_nil. lia.
Qed.

(** [fill_loop] gets exactly [k] octets, or the connection ends. *)
Lemma fill_loop_ok : ∀ fuel p k c, net_good (sd_ c) → bytes (rxb_ c) → 0 ≤ k → 0 ≤ p →
  p + k ≤ zlen (rxb_ c) → k ≤ Z.of_nat fuel →
  ∃ b n, out n = out (sd_ c) ∧ net_good n ∧ bytes b ∧
    if zlen (inp (sd_ c)) <? k
    then fill_loop fuel p k c = (Throw (SysErr "Unable to read from socket"), set_rxb b (set_sd n c))
    else fill_loop fuel p k c = (Ret tt, set_rxb b (set_sd n c)) ∧
      wr p (take (Z.to_nat k) (inp (sd_ c))) (rxb_ c) = Ret b ∧ inp n = drop (Z.to_nat k) (inp (sd_ c)).
Proof.
  induction fuel as [|fuel IH]; intros p k c Hn Hb Hk Hp Hr Hf; cbn [fill_loop].
  - assert (k = 0) as -> by lia. by apply fill_loop_nil.
  - destruct (Z.ltb_spec 0 k) as [Hk0|Hk0]; cycle 1.
    { assert (k = 0) as -> by lia. by apply fill_loop_nil. }
    destruct (read_ok p k c) as (j & b & n & Er & Ew & Hj & Hjk & Hj0 & Ei & Eo & Hn' & Hb'); [done..|].
    unfold mbind, M_bind. rewrite Er.
    destruct (decide (inp (sd_ c) = [])) as [Einp|Hne].
    { assert (j = O) as -> by (rewrite Einp in Hj; simpl in Hj; lia). cbn.
      exists b, n. split_and!; try done. by rewrite Einp, (proj2 (Z.ltb_lt _ _)) by (simpl; lia). }
    specialize (Hj0 Hne). rewrite (proj2 (Z.leb_gt _ _)) by lia.
    destruct (IH (p + Z.of_nat j) (k - Z.of_nat j) (set_rxb b (set_sd n c)))
      as (b2 & n2 & Eo2 & Hn2 & Hb2 & Hif); [done|done|lia|lia| |lia|].
    { cbn. rewrite (wr_length _ _ _ _ Ew). lia. }
    exists b2, n2. cbn [sd_ set_rxb set_sd rxb_] in *. rewrite Ei in Hif. rewrite length_drop in Hif.
    split_and!; [congruence|done|done|].
    destruct (Z.ltb_spec (zlen (inp (sd_ c))) k).
    + by rewrite (proj2 (Z.ltb_lt _ _)) in Hif by lia.
    + rewrite (proj2 (Z.ltb_ge _ _)) in Hif by lia. destruct Hif as (Ef & Ew2 & Ei2).
      split_and!; [done| |].
      * pose proof (wr_app p _ (take (Z.to_nat (k - Z.of_nat j)) (drop j (inp (sd_ c)))) _ _ Hp Ew) as Ha.
        rewrite length_take, Nat.min_l, Ew2 in Ha by lia. rewrite Ha. do 2 f_equal.
        rewrite take_take_drop. f_equal. lia.
      * rewrite Ei2, drop_drop. f_equal. lia.
Qed.

(** The unread octets start in the first half of the buffer; if they
    reach into the second half, they are at most [n]. *)
Definition mid (n : Z) c : Prop :=
  rp_ c ≤ chunk_ c ∧ (rp_ c + rl_ c ≤ chunk_ c ∨ rl_ c ≤ n).

Lemma linked_take c s n : linked c s → 0 ≤ n ≤ rl_ c →
  (zlen (s_in s) <? n) = false ∧ take (Z.to_nat n) (s_in s) = slice (rp_ c) n (rxb_ c).
Proof.
  intros L Hn. destruct L. rewrite l_in0.
  assert (zlen (slice (rp_ c) (rl_ c) (rxb_ c)) = rl_ c) by (apply slice_length; lia).
  split.
  - apply Z.ltb_ge. rewrite length_app. lia.
  - rewrite <-slice_0, slice_app, slice_slice by lia. by rewrite Z.add_0_r.
Qed.

Lemma fill_sim n0 n c s : linked c s → mid n0 c → 0 ≤ n0 ≤ n → n ≤ chunk_ c →
  simulates (λ _ b c' s', linked c' s' ∧ mid n c' ∧ n ≤ rl_ c' ∧ s' = s ∧
    b = take (Z.to_nat n) (s_in s)) (fill n) (need n) c s.
Proof.
  intros L Hm Hn Hc. unfold simulates, fill, need, mbind, M_bind. cbn [gets id].
  destruct (Z.leb_spec n (rl_ c)) as [Hle|Hlt].
  - destruct (linked_take c s n) as [-> _]; [done|lia|]. cbn.
    split; [done|]. split; [split; [apply Hm|]|done].
    destruct Hm as [? [?|?]]; [by left|right; lia].
  - destruct L. destruct (l_rxb0) as [Hrl Hrb]. destruct Hm as [Hrp Hm].
    destruct (fill_loop_ok (Z.to_nat (n - rl_ c)) (rp_ c + rl_ c) (n - rl_ c) c)
      as (b & m & Eo & Hg & Hb & Hif); [done|done|lia..|].
    assert (Hin : zlen (s_in s) = rl_ c + zlen (inp (sd_ c))).
    { rewrite l_in0, length_app, Nat2Z.inj_add, slice_length; lia. }
    destruct (Z.ltb_spec (zlen (s_in s)) n).
    + rewrite (proj2 (Z.ltb_lt _ _)) in Hif by lia. rewrite Hif. split; [done|].
      split; [split; cbn; congruence|done].
    + rewrite (proj2 (Z.ltb_ge _ _)) in Hif by lia. destruct Hif as (-> & Ew & Ei). cbn.
      pose proof (wr_length _ _ _ _ Ew) as HL.
      split; [|split; [split; [done|by right]|split; [cbn; lia|done]]].
      split; cbn; try done; [congruence| |by rewrite HL|lia|lia].
      rewrite l_in0. replace n with (rl_ c + zlen (take (Z.to_nat (n - rl_ c)) (inp (sd_ c)))) at 1
        by (rewrite length_take; lia).
      rewrite (slice_wr _ _ _ _ _ l_rp0 l_rl0 Ew), Ei, <-app_assoc, take_drop. done.
Qed.

Lemma peek_ok c s i n : linked c s → 0 ≤ i → 0 ≤ n → i + n ≤ rl_ c →
  peek i n c = (Ret (slice i n (s_in s)), c).
Proof.
  intros L Hi Hn Hl. destruct L, l_rxb0. unfold peek, mbind, M_bind. cbn [gets id lift].
  rewrite rd_ok by lia. rewrite l_in0, slice_app, slice_slice; try lia; [done|].
  rewrite slice_length by lia. lia.
Qed.

(** Between two messages. *)
Definition top c : Prop := rp_ c + rl_ c ≤ chunk_ c ∧ (rl_ c = 0 → rp_ c = 0).

Lemma bump_sim n c s : linked c s → mid n c → 0 ≤ n ≤ rl_ c →
  simulates (λ _ _ c' s', linked c' s' ∧ top c' ∧ tl_ c' = tl_ c) (bump n) (consume n) c s.
Proof.
  intros L [Hm1 Hm2] Hn. pose proof L as L'. destruct L'. unfold simulates. cbn.
  rewrite wrap64_small by lia.
  assert (Hd : drop (Z.to_nat n) (s_in s) =
    slice (rp_ c + n) (rl_ c - n) (rxb_ c) ++ inp (sd_ c)).
  { rewrite l_in0, drop_app_le, slice_drop by (try lia; rewrite <-(Nat2Z.id (length _)), slice_length; lia).
    done. }
  destruct (Z.eqb_spec (rl_ c - n) 0) as [E|E].
  - split_and!; [|split; cbn; lia|done]. split; cbn; try done; try lia.
    rewrite Hd, E. unfold slice. by rewrite !take_0.
  - split_and!; [|split; cbn; [destruct Hm2; lia|done]|done]. split; cbn; try done; lia.
Qed.

Lemma on_drv_sim {A} (m : M D A) (G : A → D → Prop) c s : linked c s →
  match m (drv_ c) with
  | (Ret a, d) => G a d ∧ drv_ok d ∧ ∀ k, room (drv_ c) k → room d k
  | (Throw e, d) => is_sys e = true → drv_ok d
  | _ => False
  end →
  simulates (λ a b c' s', a = b ∧ G a (drv_ c') ∧ linked c' s' ∧ c' = set_drv (drv_ c') c ∧
    s' = mkSrv (drv_ c') (s_tx s) (s_in s) (s_out s)) (on_drv m) (s_on_drv m) c s.
Proof.
  intros L Hm. destruct L. unfold simulates, on_drv, s_on_drv, zoom. rewrite <-l_drv0.
  destruct (m (drv_ c)) as [[a|e|u|] d]; try done.
  destruct Hm as (HG & Hok & Hr). split_and!; [done..|split; cbn; auto|done|done].
Qed.

Lemma put_tx_sim bs c s : linked c s → bytes bs → zlen bs ≤ maxVecLen + 128 →
  simulates (λ _ _ c' s', linked c' s' ∧ c' = set_txb (txb_ c') c ∧
    s' = mkSrv (s_drv s) (txb_ c') (s_in s) (s_out s)) (put_tx bs) (fill_tx bs) c s.
Proof.
  intros L Hb Hl. destruct L, l_txb0 as [Ht Htb]. unfold simulates, put_tx, mbind, M_bind. cbn [gets lift].
  rewrite wr_ok by lia. change (take (Z.to_nat 0) (txb_ c)) with (@nil Z).
  change (Z.to_nat 0 + length bs)%nat with (length bs). rewrite app_nil_l. cbn [modify].
  unfold fill_tx, modify. rewrite <-l_tx0. split; [|done].
  split; cbn [drv_ sd_ rxb_ rp_ rl_ txb_ maxVecLen_ supVecLen_ chunk_ set_txb
    s_drv s_tx s_in s_out]; try done.
  split; [len|]. apply bytes_app. auto with xvc.
Qed.

Lemma slice_split p n m l : 0 ≤ p → 0 ≤ n → 0 ≤ m →
  slice p (n + m) l = slice p n l ++ slice (p + n) m l.
Proof.
  intros Hp Hn Hm. unfold slice.
  replace (Z.to_nat (n + m)) with (Z.to_nat n + Z.to_nat m)%nat by lia.
  rewrite <-take_take_drop, drop_drop. do 3 f_equal. lia.
Qed.

Lemma flush_loop_ok : ∀ fuel p c, net_good (sd_ c) → 0 ≤ p → 0 ≤ tl_ c →
  p + tl_ c ≤ zlen (txb_ c) → tl_ c ≤ Z.of_nat fuel →
  ∃ n, flush_loop fuel p c = (Ret tt, set_tl 0 (set_sd n c)) ∧ inp n = inp (sd_ c) ∧
    out n = out (sd_ c) ++ slice p (tl_ c) (txb_ c) ∧ net_good n.
Proof.
  induction fuel as [|fuel IH]; intros p c Hn Hp Ht Hl Hf; cbn [flush_loop];
    unfold mbind, M_bind; cbn [gets id];
    (destruct (Z.ltb_spec 0 (tl_ c)) as [Hpos|Hz]; cycle 1;
     [exists (sd_ c); assert (tl_ c = 0) as E by lia; rewrite E; split_and!; try done;
      [destruct c; cbn in *; by subst|unfold slice; by rewrite take_0, app_nil_r]|]); [lia|].
  rewrite rd_ok by lia. cbn [lift]. fold (slice p (tl_ c) (txb_ c)). unfold zoom.
  pose proof (slice_length p (tl_ c) (txb_ c) Hp Ht Hl) as Hsl.
  destruct (sys_write_ok (slice p (tl_ c) (txb_ c)) (sd_ c)) as (k & n & Ew & Hk & Ei & Eo & Hg);
    [intros E; rewrite E in Hsl; simpl in Hsl; lia|done|].
  rewrite Ew. rewrite (proj2 (Z.leb_gt _ _)) by lia. cbn [modify].
  destruct (IH (p + Z.of_nat k) (set_tl (tl_ c - Z.of_nat k) (set_sd n c)))
    as (n2 & E2 & Ei2 & Eo2 & Hg2); cbn [sd_ set_sd set_tl tl_ txb_] in *; [done|lia..|].
  exists n2. split_and!; [done|congruence| |done].
  rewrite Eo2, Eo, <-app_assoc. f_equal.
  replace (slice p (tl_ c) (txb_ c)) with (slice p (Z.of_nat k + (tl_ c - Z.of_nat k)) (txb_ c))
    by (f_equal; lia).
  rewrite slice_split by lia. f_equal. rewrite <-slice_split by lia.
  unfold slice. rewrite take_take, Nat2Z.id. f_equal. lia.
Qed.

Lemma flush_sim n c s : linked c s → top c → tl_ c = n → 0 ≤ n ≤ maxVecLen + 128 →
  simulates (λ _ _ c' s', linked c' s' ∧ top c') flush (answer n) c s.
Proof.
  intros L Ht E Hn. destruct L, l_txb0. unfold simulates, flush, mbind, M_bind. cbn [gets].
  destruct (flush_loop_ok (Z.to_nat (tl_ c)) 0 c) as (m & -> & Ei & Eo & Hg); [done|lia..|].
  cbn. split; [|done]. split; cbn; try done; [|by rewrite Ei].
  rewrite Eo, l_out0, E. unfold slice. by rewrite drop_0, l_tx0.
Qed.

(** *** The messages *)

Abbreviation next := (λ (_ _ : unit) c' s', linked c' s' ∧ top c').

(** The end of each message: the header is dropped, the reply sent. *)
Lemma reply_sim n r c s : linked c s → mid n c → 0 ≤ n ≤ rl_ c → 0 ≤ r ≤ maxVecLen + 128 →
  simulates next (modify (set_tl r) ;; bump n ;; flush) (consume n ;; answer r) c s.
Proof.
  intros L Hm Hn Hr.
  unfold simulates at 1. change ((modify (set_tl r) ;; bump n ;; flush) c) with
    ((bump n ;; flush) (set_tl r c)).
  assert (L1 : linked (set_tl r c) s) by (destruct L; by split).
  eapply (sim_bind _ _ _ _ _ _ (set_tl r c) s); [by apply bump_sim|].
  intros _ _ c' s' (L' & T' & E'). by apply flush_sim.
Qed.

Lemma sim_assoc {A B X Y} Q (m : M (XvcConn D) A) (k : A → M (XvcConn D) B) (f : B → M (XvcConn D) X)
    (m' : M (srv D) Y) c s :
  simulates Q (m ≫= (λ a, k a ≫= f)) m' c s → simulates Q ((m ≫= k) ≫= f) m' c s.
Proof. unfold simulates. by rewrite M_bind_assoc. Qed.

Lemma sim_gets {A X Y} Q (g : XvcConn D → A) (k : A → M (XvcConn D) X) (m' : M (srv D) Y) c s :
  simulates Q (k (g c)) m' c s → simulates Q (gets g ≫= k) m' c s.
Proof. done. Qed.

Lemma sim_gets_r {A X Y} Q (m : M (XvcConn D) X) (g : srv D → A) (k' : A → M (srv D) Y) c s :
  simulates Q m (k' (g s)) c s → simulates Q m (gets g ≫= k') c s.
Proof. done. Qed.

(** Within a message of which [n] octets are there. *)
Definition within (n : Z) c s : Prop := linked c s ∧ mid n c ∧ n ≤ rl_ c.

Lemma getinfo_sim c s : within 2 c s →
  simulates next (do_getinfo ;; flush) (spec_getinfo maxVecLen) c s.
Proof.
  intros (L & Hm & Hl). unfold do_getinfo, spec_getinfo. apply sim_assoc.
  eapply sim_bind; [apply (fill_sim 2 8); [done|done|lia|destruct L; lia]|].
  intros _ b c1 s1 (L1 & Hm1 & Hl1 & -> & _). apply sim_assoc.
  eapply sim_bind; [apply (on_drv_sim _ (λ n d, 0 ≤ n)); [done|apply drv_query_ok, L1]|].
  intros n _ c2 s2 (_ & _ & L2 & E2 & _). apply sim_assoc, sim_gets, sim_assoc.
  rewrite (l_max _ _ L2). pose proof (greeting_length maxVecLen Hmax) as Hg.
  eapply sim_bind.
  { apply put_tx_sim; [done|apply bytes_app; split; [apply greeting_bytes|]|].
    - repeat constructor; unfold is_byte; lia.
    - rewrite length_app. simpl (length [0]). lia. }
  intros _ _ c3 s3 (L3 & E3 & _). apply sim_assoc.
  assert (rp_ c3 = rp_ c1 ∧ rl_ c3 = rl_ c1 ∧ chunk_ c3 = chunk_ c1) as (R1 & R2 & R3).
  { by rewrite E3, E2. }
  apply reply_sim; [done|unfold mid in *; by rewrite R1, R2, R3|lia|lia].
Qed.

Lemma sim_peek {X Y} Q i n (k : list Z → M (XvcConn D) X) (m' : M (srv D) Y) c s :
  linked c s → 0 ≤ i → 0 ≤ n → i + n ≤ rl_ c →
  simulates Q (k (slice i n (s_in s))) m' c s → simulates Q (peek i n ≫= k) m' c s.
Proof.
  intros L Hi Hn Hl. unfold simulates. by rewrite (M_bind_ret _ _ _ _ _ (peek_ok c s i n L Hi Hn Hl)).
Qed.

(** Four octets of the message are a 32-bit number. *)
Lemma word_u32 c s i : linked c s → 0 ≤ i → i + 4 ≤ rl_ c → is_u32 (le_val (slice i 4 (s_in s))).
Proof.
  intros L Hi Hl. destruct L. assert (bytes (slice i 4 (s_in s))) as Hb.
  { rewrite l_in0. apply bytes_slice, bytes_app. split; [by apply bytes_slice, l_rxb0|apply l_net0]. }
  pose proof (le_val_bounds _ Hb) as Hv. rewrite slice_length in Hv; [exact Hv|lia|lia|].
  rewrite l_in0, length_app, Nat2Z.inj_add, slice_length; lia.
Qed.

Lemma settck_sim c s : within 2 c s →
  simulates next (do_settck ;; flush) spec_settck c s.
Proof.
  intros (L & Hm & Hl). unfold do_settck, spec_settck. apply sim_assoc.
  eapply sim_bind; [apply (fill_sim 2 11); [done|done|lia|destruct L; lia]|].
  intros _ b c1 s1 (L1 & Hm1 & Hl1 & -> & ->).
  apply sim_assoc, (sim_peek _ 7 4); [done|lia..|]. cbv beta.
  rewrite <-slice_0, slice_slice by lia. rewrite Z.add_0_l. cbv zeta. apply sim_assoc.
  eapply sim_bind; [apply (on_drv_sim _ (λ _ _, True)); [done|]|].
  { pose proof (drv_setPeriodNs_ok (drv_ c1) _ (l_ok _ _ L1) (word_u32 c1 s 7 L1 ltac:(lia) ltac:(lia))).
    by destruct (drv_setPeriodNs _ _) as [[]]. }
  intros n ? c2 s2 (<- & _ & L2 & E2 & _). apply sim_assoc.
  eapply sim_bind; [apply put_tx_sim; [done|apply le_bytes_bytes|rewrite le_bytes_length; lia]|].
  intros _ _ c3 s3 (L3 & E3 & _). apply sim_assoc.
  assert (rp_ c3 = rp_ c1 ∧ rl_ c3 = rl_ c1 ∧ chunk_ c3 = chunk_ c1) as (R1 & R2 & R3).
  { by rewrite E3, E2. }
  apply reply_sim; [done|unfold mid in *; by rewrite R1, R2, R3|lia|lia].
Qed.

(** *** The pieces of a vector *)

Lemma on_drv_ext {A X Y} Q (m1 m2 : M D A) (k : A → M (XvcConn D) X) (m' : M (srv D) Y) c s :
  m1 (drv_ c) = m2 (drv_ c) → simulates Q (on_drv m2 ≫= k) m' c s →
  simulates Q (on_drv m1 ≫= k) m' c s.
Proof. intros E. unfold simulates, mbind, M_bind, on_drv, zoom. by rewrite E. Qed.

Definition unmoved c c' s s' : Prop :=
  linked c' s' ∧ rp_ c' = rp_ c ∧ rl_ c' = rl_ c ∧ s_in s' = s_in s.

(** One call for [b] bits; the vectors are at [p] and [q] of the receive
    buffer. *)
Lemma piece_sim off b p q c s : let k := (b + 7) / 8 in
  linked c s → 0 ≤ b ≤ 2 ^ 20 → 0 ≤ off → k ≤ sup → off + k ≤ maxVecLen → 0 ≤ p → 0 ≤ q →
  p + k ≤ zlen (rxb_ c) → q + k ≤ zlen (rxb_ c) →
  simulates (λ _ _ c' s', unmoved c c' s s')
    (tdo ← on_drv (drv_sendVectors b (drop (Z.to_nat p) (rxb_ c)) (drop (Z.to_nat q) (rxb_ c))
       (drop (Z.to_nat off) (txb_ c)));
     modify (λ c, set_txb (take (Z.to_nat off) (txb_ c) ++ tdo) c))
    (tdo ← s_on_drv (drv_sendVectors b (slice p k (rxb_ c)) (slice q k (rxb_ c)) (drop (Z.to_nat off) (s_tx s)));
     modify (λ s, mkSrv (s_drv s) (take (Z.to_nat off) (s_tx s) ++ tdo) (s_in s) (s_out s))) c s.
Proof.
  intros k L Hb Ho Hks Hk Hp Hq Hpl Hql. pose proof L as L'. destruct L'.
  destruct l_rxb0 as [Hrl Hrb], l_txb0 as [Htl Htb].
  assert (Hk0 : 0 ≤ k) by (apply Z.div_pos; lia). assert (Hroom : room (drv_ c) k) by (apply l_room0; lia).
  pose proof (drv_sendVectors_ok (drv_ c) b (slice p k (rxb_ c)) (slice q k (rxb_ c))
    (drop (Z.to_nat off) (txb_ c))) as Hok. cbv zeta in Hok. fold k in Hok.
  eapply on_drv_ext.
  { apply drv_sendVectors_local; [done|lia|done|by auto with xvc|by auto with xvc|by auto with xvc|..];
      fold k; rewrite length_drop; lia. }
  fold k. change (take (Z.to_nat k) (drop (Z.to_nat ?x) ?l)) with (slice x k l).
  rewrite <-l_tx0. eapply sim_bind.
  { apply (on_drv_sim _ (λ tdo _, length tdo = length (drop (Z.to_nat off) (txb_ c)) ∧ bytes tdo)); [done|].
    destruct (drv_sendVectors _ _ _ _ _) as [[]]; try done;
      (destruct Hok as (? & ? & ? & ?) || apply Hok); auto with xvc; try lia; rewrite ?slice_length by lia;
      rewrite ?length_drop; lia. }
  intros tdo ? c1 s1 (<- & [Hlt Hbt] & L1 & Ec & ->). unfold simulates. cbn.
  split_and!; [|by rewrite Ec..|done].
  assert (Etx : txb_ c1 = txb_ c) by by rewrite Ec.
  destruct L1. split; cbn; try done; rewrite ?Etx; [by rewrite <-l_tx0|].
  split; [|apply bytes_app; auto with xvc]. rewrite length_app, Hlt, length_take, length_drop. lia.
Qed.

Lemma chunk_sim vec bits i c s :
  let n := (bits + 7) / 8 in
  let tms := slice 0 n (s_in s) in let tdi := slice n n (s_in s) in
  linked c s → 2 * n ≤ rl_ c → n ≤ maxVecLen → 1 ≤ bits ≤ 2 ^ 20 → 1 ≤ vec ≤ sup →
  0 ≤ i < num_chunks vec bits →
  let (off, b) := chunk_at vec bits i in
  simulates (λ _ _ c' s', unmoved c c' s s')
    (c ← gets id;
     tdo ← on_drv (drv_sendVectors b (drop (Z.to_nat (rp_ c + off)) (rxb_ c))
       (drop (Z.to_nat (rp_ c + n + off)) (rxb_ c)) (drop (Z.to_nat off) (txb_ c)));
     modify (λ c, set_txb (take (Z.to_nat off) (txb_ c) ++ tdo) c))
    (spec_chunk tms tdi (off, b)) c s.
Proof.
  intros n tms tdi L Hl Hn Hb Hv Hi.
  pose proof (chunk_bounds vec bits i) as Hc. destruct (chunk_at vec bits i) as [off b].
  destruct Hc as (Hb1 & Ho & Hbo & Hk & Hke); [lia..|]. unfold spec_chunk.
  set (k := (b + 7) / 8) in *. fold n in Hke. pose proof L as L'. destruct L'.
  assert (Hin : ∀ p, 0 ≤ p → p + k ≤ rl_ c → slice p k (s_in s) = slice (rp_ c + p) k (rxb_ c)).
  { intros p Hp Hpk. rewrite l_in0, slice_app, slice_slice; try lia; [done|].
    rewrite slice_length by lia. lia. }
  assert (E1 : slice off k tms = slice (rp_ c + off) k (rxb_ c)).
  { subst tms. rewrite slice_slice by lia. rewrite Z.add_0_l. apply Hin; lia. }
  assert (E2 : slice off k tdi = slice (rp_ c + n + off) k (rxb_ c)).
  { subst tdi. rewrite slice_slice by lia. rewrite (Hin (n + off)) by lia. f_equal. lia. }
  apply sim_gets, sim_gets_r. unfold id. rewrite E1, E2.
  apply (piece_sim off b (rp_ c + off) (rp_ c + n + off)); (done || lia).
Qed.

Lemma sim_regroup {A B X Y} Q (g : XvcConn D → A) (m : A → M (XvcConn D) B)
    (f : B → M (XvcConn D) unit) (k : M (XvcConn D) X) (m' : M (srv D) Y) c s :
  simulates Q ((a ← gets g; b ← m a; f b) ;; k) m' c s →
  simulates Q (a ← gets g; b ← m a; f b ;; k) m' c s.
Proof. unfold simulates, mbind, M_bind, gets. by destruct (m (g c) c) as [[]]. Qed.

Lemma sim_weaken {A B} (Q Q' : A → B → XvcConn D → srv D → Prop) m m' c s :
  simulates Q m m' c s → (∀ a b c s, Q a b c s → Q' a b c s) → simulates Q' m m' c s.
Proof.
  unfold simulates. intros Hm HQ.
  destruct (m c) as [[a|e|u|] c'], (m' s) as [[b|e'|u'|] s']; auto.
Qed.

Lemma shift_loop_sim vec bits :
  let n := (bits + 7) / 8 in
  n ≤ maxVecLen → 1 ≤ bits ≤ 2 ^ 20 → 1 ≤ vec ≤ Z.min sup n →
  ∀ m i fuel c s, linked c s → 2 * n ≤ rl_ c →
  0 ≤ i → num_chunks vec bits = i + Z.of_nat m → (m ≤ fuel)%nat →
  simulates (λ _ _ c' s', unmoved c c' s s')
    (shift_loop fuel n vec (i * vec) (Z.max 0 (bits - 8 * vec * i)))
    (spec_chunks (slice 0 n (s_in s)) (slice n n (s_in s)) (chunk_at vec bits <$> seqZ i (Z.of_nat m))) c s.
Proof.
  intros n Hn Hb Hv m. destruct (num_chunks_bounds vec bits) as (_ & HN); [lia..|].
  assert (Hn17 : n ≤ 2 ^ 17) by lia.
  induction m as [|m IH]; intros i fuel c s L Hl Hi Em Hf.
  - rewrite Em in HN. rewrite Z.max_l by nia. destruct fuel; cbn; by split_and!.
  - destruct fuel as [|fuel]; [lia|]. cbn [shift_loop]. rewrite seqZ_succ. cbn [fmap list_fmap spec_chunks].
    assert (0 < bits - 8 * vec * i) by nia. rewrite Z.max_r by lia.
    rewrite (proj2 (Z.ltb_lt _ _)) by done. rewrite (wrap32_small (8 * vec)) by (unfold is_u32; lia).
    assert (0 ≤ i * vec ≤ 2 ^ 20) by nia. rewrite wrap64_small by lia.
    assert (Eb : (if bits - 8 * vec * i <? 8 * vec then bits - 8 * vec * i else 8 * vec) =
      Z.min (8 * vec) (bits - 8 * vec * i)) by (destruct (Z.ltb_spec (bits - 8 * vec * i) (8 * vec)); lia).
    cbv zeta. rewrite Eb.
    assert (0 ≤ 8 * vec * i) by nia. rewrite wrap32_small by (unfold is_u32; lia).
    replace (bits - 8 * vec * i - Z.min (8 * vec) (bits - 8 * vec * i))
      with (Z.max 0 (bits - 8 * vec * (i + 1))) by lia.
    replace (i * vec + vec) with ((i + 1) * vec) by lia.
    pose proof (chunk_sim vec bits i c s L Hl Hn Hb ltac:(lia) ltac:(lia)) as Hc.
    unfold chunk_at in Hc |- * at 1. fold n in Hc.
    apply sim_regroup. eapply sim_bind; [exact Hc|].
    intros _ _ c1 s1 (L1 & R1 & R2 & R3). rewrite <-R3.
    eapply sim_weaken; [apply IH; [done|lia..]|].
    intros _ _ c2 s2 (L2 & P1 & P2 & P3). split_and!; congruence || done.
Qed.

Lemma sim_never {A B X} Q (m : M (XvcConn D) A) (k : A → M (XvcConn D) X) (m' : M (srv D) B) c s :
  simulates (λ _ _ _ _, False) m m' c s → simulates Q (m ≫= k) m' c s.
Proof. unfold simulates, mbind, M_bind. by destruct (m c) as [[]], (m' s) as [[]]. Qed.

(** A loop that makes no progress. *)
Lemma spin_sim bits : 0 < bits < 2 ^ 32 → diverges → ∀ n c s, linked c s →
  simulates (λ _ _ _ _, False) (shift_loop n 0 0 0 bits) (spec_spin n) c s.
Proof.
  intros Hb Hd. induction n as [|n IH]; intros c s L; cbn [shift_loop spec_spin]; rewrite (proj2 (Z.ltb_lt 0 bits)) by lia; [done|].
  change (wrap32 (8 * 0)) with 0. rewrite (proj2 (Z.ltb_ge bits 0)) by lia. cbv zeta.
  rewrite Z.sub_0_r, wrap32_small by (unfold is_u32; lia). change (wrap64 (0 + 0)) with 0.
  apply sim_regroup. apply (sim_bind (λ _ _ c' s', unmoved c c' s s')); [|intros _ _ c1 s1 (L1 & _); by apply IH].
  unfold spec_chunk. apply sim_gets, sim_gets_r. unfold id. change ((0 + 7) / 8) with 0. pose proof L as L'. destruct L'.
  pose proof (piece_sim 0 0 (rp_ c + 0) (rp_ c + 0 + 0) c s) as Hp. cbv zeta in Hp. change ((0 + 7) / 8) with 0 in Hp.
  unfold slice in Hp. change (Z.to_nat 0) with 0%nat in Hp. rewrite !take_0 in Hp. apply Hp; (done || lia).
Qed.

Lemma top_mid n c s : linked c s → 0 ≤ n → top c → mid n c.
Proof. intros L Hn [H1 H2]. destruct L. split; [lia|by left]. Qed.

Lemma linked_observe c s : linked c s → observe c s.
Proof. by intros []. Qed.
Lemma linked_throw e c s : linked c s → e = e ∧ observe c s ∧ (is_sys e = true → drv_ok (drv_ c)).
Proof. intros L. split; [done|]. split; [by apply linked_observe|]. intros _. apply L. Qed.
Lemma fill_0 c : 0 ≤ rl_ c → fill (2 * 0) c = (Ret tt, c).
Proof. intros Hl. unfold fill, mbind, M_bind. cbn [gets id]. by rewrite (proj2 (Z.leb_le _ _)) by lia. Qed.

(** All pieces of a vector. *)
Lemma vector_sim bits c s :
  let n := (bits + 7) / 8 in let vec := if sup <? n then sup else n in
  linked c s → 2 * n ≤ rl_ c → 0 ≤ bits → n ≤ maxVecLen →
  simulates (λ _ _ c' s', unmoved c c' s s')
    (shift_loop (Z.to_nat n + rounds) n vec 0 bits)
    (spec_chunks (slice 0 n (s_in s)) (slice n n (s_in s)) (chunks (Z.min sup n) bits)) c s.
Proof.
  intros n vec L Hl Hb Hn.
  assert (Ev : vec = Z.min sup n) by (subst vec; destruct (Z.ltb_spec sup n); lia).
  rewrite Ev. destruct (decide (bits = 0)) as [->|Hb0].
  { subst n. change ((0 + 7) / 8) with 0 in *. rewrite Z.min_r by lia. destruct (Z.to_nat 0 + rounds)%nat; by split_and!. }
  assert (Hn1 : 1 ≤ n) by (subst n; Z.div_mod_to_equations; lia).
  assert (Hb20 : bits ≤ 2 ^ 20) by (subst n; clear - Hn Hmax; Z.div_mod_to_equations; lia).
  destruct (num_chunks_bounds (Z.min sup n) bits) as (H0' & HN); [lia..|].
  pose proof (shift_loop_sim (Z.min sup n) bits Hn ltac:(lia) ltac:(lia)
    (Z.to_nat (num_chunks (Z.min sup n) bits)) 0 (Z.to_nat n + rounds) c s L Hl) as Hs.
  fold n in Hs. rewrite Z2Nat.id, !Z.mul_0_l, !Z.mul_0_r, Z.sub_0_r, Z.max_r in Hs by lia.
  apply Hs; [lia|lia|]. apply Nat.le_trans with (Z.to_nat n); [|lia]. apply Z2Nat.inj_le; [lia..|]. subst n.
  apply Z.div_le_lower_bound; [lia|]. nia.
Qed.

Lemma shift_sim c s : within 2 c s → take 2 (s_in s) = text "sh" →
  (frame_of maxVecLen (s_in s) = Overlong → diverges) →
  simulates next (do_shift ;; flush) (spec_shift maxVecLen sup) c s.
Proof.
  intros (L & Hm & Hl) Hsh Hdv. unfold do_shift, spec_shift. apply sim_assoc.
  eapply sim_bind; [apply (fill_sim 2 10); [done|done|lia|destruct L; lia]|].
  intros _ b c1 s1 (L1 & Hm1 & Hl1 & -> & ->).
  apply sim_assoc, (sim_peek _ 6 4); [done|lia..|]. cbv beta zeta.
  rewrite <-slice_0, slice_slice by lia. rewrite Z.add_0_l.
  pose proof (word_u32 c1 s 6 L1 ltac:(lia) ltac:(lia)) as Hu.
  set (bits := le_val (slice 6 4 (s_in s))) in *. unfold is_u32 in Hu.
  apply sim_assoc, sim_gets. rewrite (l_max _ _ L1).
  destruct (Z.leb_spec (2 ^ 29) ((bits + 7) / 8)) as [Hw|Hw].
  - (* the length wraps around *)
    assert (wrap32 (bits + 7) / 8 = 0) as ->.
    { clear - Hu Hw. unfold wrap32. Z.div_mod_to_equations. lia. }
    rewrite (proj2 (Z.ltb_ge _ _)) by lia. apply sim_assoc.
    assert (0 < bits) by (clear - Hu Hw; Z.div_mod_to_equations; lia).
    eapply sim_bind; [apply bump_sim; [done|done|lia]|]. intros _ _ c2 s2 (L2 & _). apply sim_assoc.
    unfold simulates. rewrite (M_bind_ret _ _ _ _ _ (fill_0 c2 (l_rl _ _ L2))).
    fold (simulates next). apply sim_assoc, sim_gets. rewrite (l_sup _ _ L2), (proj2 (Z.ltb_ge sup 0)) by lia.
    apply sim_assoc, sim_never, spin_sim; [lia| |done]. apply Hdv. unfold frame_of. rewrite Hsh. cbn [decide].
    rewrite !decide_False, decide_True by done.
    rewrite (proj1 (linked_take c1 s 10 L1 ltac:(lia))). fold bits.
    by rewrite (proj2 (Z.leb_le _ _)).
  - assert (wrap32 (bits + 7) = bits + 7) as ->.
    { apply wrap32_small. unfold is_u32. clear - Hu Hw. Z.div_mod_to_equations. lia. }
    set (n := (bits + 7) / 8) in *. assert (0 ≤ n) by (subst n; apply Z.div_pos; lia).
    destruct (Z.ltb_spec maxVecLen n); [exact (linked_throw _ _ _ L1)|].
    apply sim_assoc. eapply sim_bind; [apply bump_sim; [done|done|lia]|].
    intros _ _ c2 s2 (L2 & T2 & _). apply sim_assoc.
    eapply sim_bind; [apply (fill_sim 0 (2 * n)); [done|by eapply top_mid|lia|destruct L2; lia]|].
    intros _ v c3 s3 (L3 & M3 & Hl3 & -> & ->). apply sim_assoc, sim_gets, sim_assoc.
    rewrite (l_sup _ _ L3). rewrite <-slice_0, !slice_slice by lia. rewrite !Z.add_0_l.
    eapply sim_bind; [apply vector_sim; done || lia|].
    intros _ _ c4 s4 (L4 & P1 & P2 & P3). apply sim_assoc.
    apply reply_sim; [done| |lia|lia].
    unfold mid in *. rewrite P1, P2, (l_chunk _ _ L4), <-(l_chunk _ _ L3). done.
Qed.

Lemma sim_returns {A B} (Q : A → B → XvcConn D → srv D → Prop) m m' c s (P : B → srv D → Prop) :
  simulates Q m m' c s → returns m' s P → simulates (λ a b c' s', Q a b c' s' ∧ P b s') m m' c s.
Proof.
  unfold simulates, returns. destruct (m c) as [[a|e|u|] c'], (m' s) as [[b|e'|u'|] s']; auto.
Qed.

Lemma linked_bytes c s : linked c s → bytes (s_in s).
Proof.
  intros []. rewrite l_in0. apply bytes_app. split; [by apply bytes_slice, l_rxb0|apply l_net0].
Qed.

Lemma message_sim c s : linked c s → top c →
  (frame_of maxVecLen (s_in s) = Overlong → diverges) →
  simulates (λ a b c' s', next a b c' s' ∧ ∃ n, frame_of maxVecLen (s_in s) = Message n ∧
      8 ≤ n ≤ zlen (s_in s) ∧ s_in s' = drop (Z.to_nat n) (s_in s))
    message (spec_message maxVecLen sup) c s.
Proof.
  intros L T Hdv. apply sim_returns; [|by eapply message_consumes, linked_bytes].
  unfold message, spec_message.
  eapply sim_bind; [apply (fill_sim 0 2); [done|by eapply top_mid|lia|destruct L; lia]|].
  intros _ b c1 s1 (L1 & M1 & Hl1 & -> & ->). apply (sim_peek _ 0 2); [done|lia..|].
  assert (W : within 2 c1 s) by by split.
  destruct (decide _); [by apply getinfo_sim|].
  destruct (decide _); [by apply settck_sim|].
  destruct (decide _); [by apply shift_sim|].
  exact (linked_throw _ _ _ L1).
Qed.

Abbreviation never := (λ (_ _ : unit) (_ : XvcConn D) (_ : srv D), False).

(** Reading the first octets of a new message. *)
Lemma serve_read c s : linked c s → top c → rl_ c = 0 →
  match read (rp_ c) (chunk_ c) c with
  | (Ret got, c') => if got <=? 0 then s_in s = [] ∧ observe c' s ∧ drv_ok (drv_ c')
                     else linked (set_rl got c') s ∧ top (set_rl got c') ∧ 0 < got
  | _ => False
  end.
Proof.
  intros L T E0. pose proof L as L'. destruct L', l_rxb0, T as [T1 T2]. specialize (T2 E0).
  destruct (read_ok (rp_ c) (chunk_ c) c) as (k & b & n & -> & Ew & Hk & Hkl & Hk0 & Ei & Eo & Hn & Hb);
    [done|done|lia..|].
  rewrite E0 in l_in0. unfold slice in l_in0. rewrite take_0, app_nil_l in l_in0.
  pose proof (wr_length _ _ _ _ Ew) as HL.
  destruct (Z.leb_spec (Z.of_nat k) 0).
  - split; [|split; [split; cbn; congruence|done]]. rewrite l_in0. destruct (inp (sd_ c)); [done|].
    specialize (Hk0 ltac:(done)). lia.
  - split_and!; [|split; cbn; lia|lia]. split; cbn; try done; try congruence; try lia.
    + rewrite T2 in *. pose proof (slice_wr 0 0 _ _ _ ltac:(lia) ltac:(lia) Ew) as Hs.
      rewrite Z.add_0_l, length_take, Nat.min_l in Hs by lia. rewrite Hs, Ei, l_in0.
      unfold slice. rewrite take_0, app_nil_l, take_drop. done.
    + by rewrite HL.
Qed.

Lemma serve_sim : ∀ n,
  (∀ c s m F F' F'', length (s_in s) = n → linked c s → top c → 0 < rl_ c →
    (n < m)%nat → (n ≤ F)%nat → (n < F')%nat → (n < F'')%nat →
    (overlong F'' maxVecLen (s_in s) = true → diverges) →
    simulates never (messages m ;; serve F F') (spec_serve maxVecLen F'' sup) c s) ∧
  (∀ c s F F' F'', length (s_in s) = n → linked c s → top c → rl_ c = 0 →
    (n < F)%nat → (n < F')%nat → (n < F'')%nat →
    (overlong F'' maxVecLen (s_in s) = true → diverges) →
    simulates never (serve F F') (spec_serve maxVecLen F'' sup) c s).
Proof.
  intros n. induction (Nat.lt_wf_0 n) as [n _ IH].
  assert (HM : ∀ c s m F F' F'', length (s_in s) = n → linked c s → top c → 0 < rl_ c →
    (n < m)%nat → (n ≤ F)%nat → (n < F')%nat → (n < F'')%nat →
    (overlong F'' maxVecLen (s_in s) = true → diverges) →
    simulates never (messages m ;; serve F F') (spec_serve maxVecLen F'' sup) c s).
  { intros c s m F F' F'' En L T Hl Hm HF HF' HF'' Hdv. destruct m as [|m]; [lia|].
    destruct F'' as [|F'']; [lia|]. cbn [messages spec_serve]. cbn [overlong] in Hdv. apply sim_assoc.
    eapply sim_bind; [apply message_sim; [done|done|intros E; apply Hdv; by rewrite E]|].
    intros _ _ c1 s1 ((L1 & T1) & k & Ek & Hk & Hlen). rewrite Ek, <-Hlen in Hdv.
    assert (length (s_in s1) + 8 ≤ n)%nat by (rewrite Hlen, length_drop; lia).
    apply sim_assoc, sim_gets. destruct (Z.ltb_spec 0 (rl_ c1)).
    - by eapply (proj1 (IH (length (s_in s1)) ltac:(lia))); [..|lia|lia|lia|lia|].
    - change (simulates never (mret tt ;; serve F F') ?x c1 s1) with (simulates never (serve F F') x c1 s1).
      eapply (proj2 (IH (length (s_in s1)) ltac:(lia))); [done..| |lia|lia|lia|done].
      pose proof (l_rl _ _ L1). lia. }
  split; [done|]. intros c s F F' F'' En L T E0 HF HF' HF'' Hdv.
  destruct F as [|F]; [lia|]. cbn [serve]. apply sim_gets.
  pose proof (serve_read c s L T E0) as Hr. unfold id.
  unfold simulates. destruct (read _ _ c) as [[got|e|u|] c1] eqn:Er; try done.
  rewrite (M_bind_ret _ _ _ _ _ Er). destruct (got <=? 0).
  - destruct Hr as (Hnil & Ho & Hk). destruct F'' as [|F'']; [lia|]. cbn [spec_serve].
    unfold spec_message, need, mbind, M_bind. rewrite Hnil. done.
  - destruct Hr as (L1 & T1 & Hg). by apply (HM (set_rl got c1) s F' F F' F''); [..|lia|lia|lia|lia|].
Qed.
End simulation.

(** ** The whole connection *)

Section whole.
Context `{Platform} {D : Type} `{JtagDriverIfc D} `{!JtagDriverLaws D}.

Definition spec_start (d : D) (n : net) (maxVecLen : Z) : srv D :=
  mkSrv d (replicate (Z.to_nat (maxVecLen + 128)) 0) (inp n) (out n).

(** The driver has room for the vectors the connection will send. *)
Definition roomy (d : D) (maxVecLen : Z) : Prop :=
  ∀ tgt d1, drv_query d = (Ret tgt, d1) →
  ∀ k, 0 ≤ k ≤ supported maxVecLen tgt (drv_getMaxVectorSize d1) → k ≤ maxVecLen → room d1 k.

(** [allocBufs] never gives a vector size of zero. *)
Lemma supported_pos maxVecLen tgt m : 1 ≤ maxVecLen → 0 ≤ tgt → 0 ≤ m →
  1 ≤ supported maxVecLen tgt m.
Proof.
  intros Hv Ht Hm. unfold supported.
  destruct (Z.eqb_spec 0 tgt), (Z.eqb_spec m 0); lia.
Qed.

Lemma allocBufs_sim d n maxVecLen : drv_ok d → net_good n → 1 ≤ maxVecLen ≤ 2 ^ 17 →
  roomy d maxVecLen →
  match drv_query d with
  | (Ret tgt, d1) =>
      let sup := supported maxVecLen tgt (drv_getMaxVectorSize d1) in
      ∃ c, allocBufs (XvcConn_new d n maxVecLen) = (Ret tt, c) ∧ 1 ≤ sup ∧
        linked maxVecLen sup c (spec_start d1 n maxVecLen) ∧ top c ∧ rl_ c = 0 ∧ sd_ c = n
  | (Throw e, d1) => allocBufs (XvcConn_new d n maxVecLen) = (Throw e, XvcConn_new d1 n maxVecLen)
  | _ => False
  end.
Proof.
  intros Hd Hn Hm Hr. pose proof (drv_query_ok d Hd) as Hq.
  unfold allocBufs, mbind, M_bind, on_drv, zoom. cbn [drv_ XvcConn_new].
  unfold roomy in Hr. destruct (drv_query d) as [[tgt|e|u|] d1]; try done.
  destruct Hq as (Ht & Hd1 & _). specialize (Hr tgt d1 eq_refl).
  pose proof (drv_max_ok d1 Hd1) as Hmx. cbv zeta.
  set (sup := supported maxVecLen tgt (drv_getMaxVectorSize d1)) in *.
  assert (Es : (if drv_getMaxVectorSize d1 =? 0 then if 0 =? tgt then maxVecLen else tgt
    else if (if 0 =? tgt then maxVecLen else tgt) <? drv_getMaxVectorSize d1
         then if 0 =? tgt then maxVecLen else tgt else drv_getMaxVectorSize d1) = sup).
  { subst sup. unfold supported. destruct (Z.eqb_spec (drv_getMaxVectorSize d1) 0); [done|].
    set (t := if 0 =? tgt then _ else _).
    destruct (Z.ltb_spec t (drv_getMaxVectorSize d1)); lia. }
  eexists. split; [done|].
  cbn [modify drv_ sd_ rxb_ txb_ maxVecLen_ set_drv XvcConn_new]. rewrite Es.
  rewrite (wrap64_small (2 * maxVecLen + 128)) by lia. rewrite !wrap64_small by lia.
  assert (Hz : ∀ k, 0 ≤ k → zlen (resize k []) = k ∧ bytes (resize k [])).
  { intros k Hk. unfold resize. rewrite take_nil, app_nil_l, length_replicate. simpl length.
    split; [lia|]. apply Forall_replicate. unfold is_byte. lia. }
  split; [apply supported_pos; lia|]. split; [|split; [split; cbn; lia|done]].
  split; cbn [drv_ sd_ rxb_ rp_ rl_ txb_ maxVecLen_ supVecLen_ chunk_ s_drv s_tx s_in s_out spec_start];
    try done; try (apply Hz; lia); try lia.
  unfold resize. rewrite take_nil, app_nil_l. simpl length. by rewrite Nat.sub_0_r.
Qed.

Lemma run_sim d n maxVecLen : drv_ok d → net_good n → nodelay_ok n = true →
  1 ≤ maxVecLen ≤ 2 ^ 17 → roomy d maxVecLen →
  simulates (overlong (S (length (inp n))) maxVecLen (inp n) = true) (λ _ _ _ _, False)
    run (spec_run maxVecLen)
    (XvcConn_new d n maxVecLen) (spec_start d n maxVecLen).
Proof.
  intros Hd Hn Hok Hm Hr. pose proof (allocBufs_sim d n maxVecLen Hd Hn Hm Hr) as Ha.
  pose proof (drv_query_ok d Hd) as Hq. unfold simulates, run, spec_run.
  assert (Es : s_on_drv drv_query (spec_start d n maxVecLen) =
    let (o, d1) := drv_query d in (o, spec_start d1 n maxVecLen)) by done.
  destruct (drv_query d) as [[tgt|e|u|] d1]; try done; cycle 1.
  { unfold mbind, M_bind. by rewrite Ha, Es. }
  destruct Ha as (c & Ea & Hsup & L & T & E0 & En).
  rewrite (M_bind_ret _ _ _ _ _ Ea), (M_bind_ret _ _ _ _ _ Es).
  unfold mbind, M_bind. cbn [gets id]. rewrite En, Hok. cbn [negb s_drv s_in spec_start].
  apply (proj2 (serve_sim maxVecLen _ Hm Hsup _ (length (inp n)))); auto; rewrite En; lia.
Qed.

(** C1: the connection implements the stream specification.  For every
    driver that respects the interface and has room for the vectors, every
    stream of octets, every way in which it is cut into segments,
    interleaved with the connection attempts of other clients and in which
    the replies are taken, as long as no system call fails: the server sends
    exactly the octets of the specification, leaves the driver in the same
    state and ends with the same exception.  On a stream that announces a
    vector of 2^32-7 or more bits it may not end: it then asks the driver to
    shift no bits, again and again, and ends with the exception of the
    driver, if there is one within the [rounds] for which it is watched; on
    all other streams it always ends. *)
Theorem run_refines d n maxVecLen : drv_ok d → net_good n → nodelay_ok n = true →
  1 ≤ maxVecLen ≤ 2 ^ 17 → roomy d maxVecLen →
  match run (XvcConn_new d n maxVecLen), spec_run maxVecLen (spec_start d n maxVecLen) with
  | (Throw e, c'), (Throw e', s') => e = e' ∧ drv_ c' = s_drv s' ∧ out (sd_ c') = s_out s'
  | (NoFuel, _), (NoFuel, _) => overlong (S (length (inp n))) maxVecLen (inp n) = true
  | _, _ => False
  end.
Proof.
  intros Hd Hn Hok Hm Hr. pose proof (run_sim d n maxVecLen Hd Hn Hok Hm Hr) as Hs.
  unfold simulates in Hs.
  destruct (run _) as [[]], (spec_run maxVecLen (spec_start d n maxVecLen)) as [[]]; try done.
  by destruct Hs as (? & ? & _).
Qed.
End whole.
