(* ===== verification/Target.v ===== *)
(** * What a client gets from the server

    The requests of a client as octets, the interface of a target that
    answers vectors ([Target]), what it means that a driver gives access to
    such a target ([Drives]), and what the connection of Conn.v then tells a
    client that sends valid requests.  Stack.v and Chain.v supply the
    drivers and the targets. *)

From stdpp Require Import base numbers option list strings.
From Stdlib Require Import ZArith Lia.
From S2P Require Import Prelude Conn ConnSpec.
#[local] Open Scope Z_scope.

(** The requests of a client, as octets. *)
Inductive request :=
  | GetInfo
  | SetTck (period : Z)
  | Shift (bits : Z) (tms tdi : list Z).

Definition encode (r : request) : list Z :=
  match r with
  | GetInfo => text "getinfo:"
  | SetTck p => text "settck:" ++ le_bytes 4 p
  | Shift bits tms tdi => text "shift:" ++ le_bytes 4 bits ++ tms ++ tdi
  end.

Definition valid (maxVecLen : Z) (r : request) : Prop :=
  match r with
  | GetInfo => True
  | SetTck p => is_u32 p
  | Shift bits tms tdi =>
      0 ≤ bits ∧ (bits + 7) / 8 ≤ maxVecLen ∧
      zlen tms = (bits + 7) / 8 ∧ zlen tdi = (bits + 7) / 8 ∧ bytes tms ∧ bytes tdi
  end.

Lemma encode_length r : (0 < length (encode r))%nat.
Proof. destruct r; simpl; lia. Qed.
Lemma requests_length rs : (length rs ≤ length (concat (encode <$> rs)))%nat.
Proof.
  induction rs as [|r rs IH]; [done|]. cbn [fmap list_fmap concat length]. rewrite length_app.
  pose proof (encode_length r). lia.
Qed.

(** ** Targets

    [shifted st bits tms tdi]: the state after the first [bits] bits of the
    two vectors have been shifted, and the TDO vector; [able]: the state
    can take a vector of so many bits; [queried]: what a query does to it.
    A vector may be shifted at once or in two pieces, the first of which is
    a multiple of [grain] bytes: it makes no difference.  [tck]: the fixed
    period of TCK in ns that the target announces, or 0. *)
Class Target (St : Type) := {
  grain : Z;
  tck : Z;
  able : St → Z → Prop;
  queried : St → St;
  shifted : St → Z → list Z → list Z → St * list Z;
  shifted_nil st : shifted st 0 [] [] = (st, []);
  shifted_app st a bits tms tdi : 0 ≤ a → (grain | a) → 8 * a < bits →
    zlen tms = (bits + 7) / 8 → zlen tdi = (bits + 7) / 8 → able st bits →
    let (st1, o1) := shifted st (8 * a) (take (Z.to_nat a) tms) (take (Z.to_nat a) tdi) in
    let (st2, o2) := shifted st1 (bits - 8 * a) (drop (Z.to_nat a) tms) (drop (Z.to_nat a) tdi) in
    able st (8 * a) ∧ able st1 (bits - 8 * a) ∧ shifted st bits tms tdi = (st2, o1 ++ o2);
}.

(** The period that the server reports when a client asks for [p]. *)
Definition told `{Target St} (p : Z) : Z := if tck =? 0 then p else tck.

(** [tracks st d]: the driver [d] has been queried, and the target behind
    it is in the state [st]; [idle]: before the query.  It takes vectors of
    up to [most] bytes at a time. *)
Class Drives (D St : Type) `{JtagDriverLaws D} `{Target St} := {
  idle : St → D → Prop;
  tracks : St → D → Prop;
  most : Z;
  idle_ok st d : idle st d → drv_ok d;
  tracks_idle st d : tracks st d → idle st d;
  tracks_query st d : idle st d → ∃ n d', drv_query d = (Ret n, d') ∧ tracks (queried st) d';
  tracks_setPeriodNs st d p : tracks st d → drv_setPeriodNs p d = (Ret (told (St := St) p), d);
  tracks_sendVectors st d bits tms tdi tdo :
    let n := (bits + 7) / 8 in let (st', o) := shifted st bits tms tdi in
    tracks st d → able st bits → 1 ≤ bits ≤ 2 ^ 20 → n ≤ most → room d n → bytes tms → bytes tdi → bytes tdo →
    zlen tms = n → zlen tdi = n → n ≤ zlen tdo →
    ∃ tdo' d', drv_sendVectors bits tms tdi tdo d = (Ret tdo', d') ∧ tracks st' d' ∧
      take (Z.to_nat n) tdo' = o;
}.

(** The connection cuts vectors at multiples of the grain, into pieces that
    the driver takes. *)
Definition cuts `{Drives D St} (d : D) (maxVecLen : Z) : Prop :=
  ∀ tgt d1, drv_query d = (Ret tgt, d1) →
  let sup := supported maxVecLen tgt (drv_getMaxVectorSize d1) in
  (grain (St := St) | sup) ∧ Z.min sup maxVecLen ≤ most.

(** What the server answers, and the target afterwards. *)
Definition reply `{Target St} (maxVecLen : Z) (st : St) (r : request) : St * list Z :=
  match r with
  | GetInfo => (queried st, greeting maxVecLen)
  | SetTck p => (st, le_bytes 4 (told p))
  | Shift bits tms tdi => shifted st bits tms tdi
  end.
Fixpoint replies `{Target St} (maxVecLen : Z) (st : St) (rs : list request) : St * list Z :=
  match rs with
  | [] => (st, [])
  | r :: rs =>
      let (st1, o1) := reply maxVecLen st r in
      let (st2, o2) := replies maxVecLen st1 rs in (st2, o1 ++ o2)
  end.

(** The target can take the vectors of the requests. *)
Definition takes1 `{Target St} (st : St) (r : request) : Prop :=
  match r with Shift bits _ _ => 1 ≤ bits → able st bits | _ => True end.
Fixpoint takes `{Target St} (maxVecLen : Z) (st : St) (rs : list request) : Prop :=
  match rs with
  | [] => True
  | r :: rs => takes1 st r ∧ takes maxVecLen (fst (reply maxVecLen st r)) rs
  end.

Lemma takes_all `{Target St} maxVecLen st rs : (∀ st bits, able st bits) → takes maxVecLen st rs.
Proof. intros Ha. revert st. induction rs as [|[]]; intros; cbn; auto. Qed.

Section drives.
Context `{Platform} {D St : Type} `{Drives D St} (maxVecLen sup : Z) (Hmax : 1 ≤ maxVecLen ≤ 2 ^ 17) (Hsup : 1 ≤ sup).
Context (Hmost : Z.min sup maxVecLen ≤ most).
Implicit Types s : srv D.

Record served (st : St) s : Prop := {
  sv_drv : tracks st (s_drv s);
  sv_room k : 1 ≤ k ≤ sup → k ≤ maxVecLen → room (s_drv s) k;
  sv_tx : zlen (s_tx s) = maxVecLen + 128;
  sv_txb : bytes (s_tx s);
}.

Lemma sv_ok st s : served st s → drv_ok (s_drv s).
Proof. intros [Ht]. by eapply idle_ok, tracks_idle. Qed.

Lemma need_app n bs rest s : s_in s = bs ++ rest → zlen bs = n → need n s = (Ret bs, s).
Proof.
  intros E <-. unfold need. rewrite E, length_app, (proj2 (Z.ltb_ge _ _)) by lia.
  by rewrite Nat2Z.id, take_app_length.
Qed.

Lemma need_head n bs rest s : s_in s = bs ++ rest → 0 ≤ n ≤ zlen bs →
  need n s = (Ret (take (Z.to_nat n) bs), s).
Proof.
  intros E Hn. unfold need. rewrite E, length_app, (proj2 (Z.ltb_ge _ _)) by lia.
  by rewrite take_app_le by lia.
Qed.

Lemma s_on_drv_ret {X} (m : M D X) (x : X) d' s : m (s_drv s) = (Ret x, d') →
  s_on_drv m s = (Ret x, mkSrv d' (s_tx s) (s_in s) (s_out s)).
Proof. intros E. unfold s_on_drv, zoom. by rewrite E. Qed.

(** ** Vectors *)

(** One piece: the reply buffer holds TDO up to its end. *)
Lemma piece_served st tms tdi off b s : let k := (b + 7) / 8 in
  let (st', o) := shifted st b (slice off k tms) (slice off k tdi) in
  served st s → able st b → bytes tms → bytes tdi → 1 ≤ b → k ≤ sup →
  0 ≤ off → off + k ≤ zlen tms → off + k ≤ zlen tdi → off + k ≤ maxVecLen →
  ∃ s', spec_chunk tms tdi (off, b) s = (Ret tt, s') ∧ served st' s' ∧ s_in s' = s_in s ∧
    s_out s' = s_out s ∧ take (Z.to_nat (off + k)) (s_tx s') = take (Z.to_nat off) (s_tx s) ++ o.
Proof.
  intros k. pose proof (tracks_sendVectors st (s_drv s) b (slice off k tms) (slice off k tdi)
    (drop (Z.to_nat off) (s_tx s))) as Hv.
  cbv zeta in Hv. fold k in Hv. destruct (shifted st b _ _) as [st' o].
  intros Hs Hab Bt Bd Hb Hk Ho Ht Hd Hm. pose proof Hs as [Htr Hr Htx Htxb].
  assert (Hk1 : 1 ≤ k) by (subst k; Z.div_mod_to_equations; lia).
  assert (Hb20 : b ≤ 2 ^ 20) by (subst k; clear - Hm Ho Hmax; Z.div_mod_to_equations; lia).
  assert (Lt : zlen (slice off k tms) = k) by (apply slice_length; lia).
  assert (Ld : zlen (slice off k tdi) = k) by (apply slice_length; lia).
  assert (Lo : k ≤ zlen (drop (Z.to_nat off) (s_tx s))) by (rewrite length_drop; lia).
  pose proof (drv_sendVectors_ok (s_drv s) b (slice off k tms) (slice off k tdi) (drop (Z.to_nat off) (s_tx s))
    (sv_ok _ _ Hs) ltac:(lia) (Hr k ltac:(lia) ltac:(lia)) ltac:(auto with xvc) ltac:(auto with xvc) ltac:(auto with xvc)
    ltac:(fold k; lia) ltac:(fold k; lia) ltac:(fold k; lia)) as Hok.
  destruct Hv as (tdo & d' & E & Htr' & Et); try done; [first [apply Hr; lia | lia | auto with xvc]..|].
  rewrite E in Hok. destruct Hok as (_ & Hroom & Lo' & Bo).
  eexists. split; [|split; [|split; [|split]]].
  - unfold spec_chunk. unfold mbind, M_bind at 1. cbn [gets id]. fold k.
    unfold M_bind. rewrite (s_on_drv_ret _ _ _ _ E). reflexivity.
  - split; cbn [s_drv s_tx]; [done|auto| |].
    + rewrite length_app, Lo', length_take, length_drop. lia.
    + apply bytes_app. auto with xvc.
  - done.
  - done.
  - cbn [s_tx]. replace (Z.to_nat (off + k)) with (length (take (Z.to_nat off) (s_tx s)) + Z.to_nat k)%nat
      by (rewrite length_take; lia).
    by rewrite take_app_add, Et.
Qed.

(** The pieces of a vector from the [i]-th on. *)
Lemma pieces_served tms tdi vec bits : bytes tms → bytes tdi → 1 ≤ vec ≤ sup →
  (grain (St := St) | vec) ∨ bits ≤ 8 * vec → 1 ≤ bits →
  let n := (bits + 7) / 8 in
  zlen tms = n → zlen tdi = n → n ≤ maxVecLen → ∀ m i st s, 0 ≤ i → num_chunks vec bits = i + Z.of_nat (S m) →
  served st s → able st (bits - 8 * (i * vec)) →
  let (st', o) := shifted st (bits - 8 * (i * vec)) (drop (Z.to_nat (i * vec)) tms) (drop (Z.to_nat (i * vec)) tdi) in
  ∃ s', spec_chunks tms tdi (chunk_at vec bits <$> seqZ i (Z.of_nat (S m))) s = (Ret tt, s') ∧
    served st' s' ∧ s_in s' = s_in s ∧ s_out s' = s_out s ∧
    take (Z.to_nat n) (s_tx s') = take (Z.to_nat (i * vec)) (s_tx s) ++ o.
Proof.
  intros Bt Bd Hv Hgr Hb n Lt Ld Hn m. destruct (num_chunks_bounds vec bits) as (_ & HN); [lia..|].
  induction m as [|m IH]; intros i st s Hi Em Hs Hab; rewrite seqZ_succ; cbn [fmap list_fmap spec_chunks];
    pose proof (chunk_bounds vec bits i ltac:(lia) Hb ltac:(lia)) as Hc;
    set (off := i * vec) in *; change (chunk_at vec bits i) with (off, Z.min (8 * vec) (bits - 8 * vec * i)) in Hc |- *.
  - assert (Eb : Z.min (8 * vec) (bits - 8 * vec * i) = bits - 8 * off) by (subst off; nia). rewrite Eb in *.
    destruct Hc as (Hb1 & Ho & _ & Hk & Hke). fold n in Hke.
    assert (Hoff : off + (bits - 8 * off + 7) / 8 = n) by (subst n; clear; Z.div_mod_to_equations; lia).
    pose proof (piece_served st tms tdi off (bits - 8 * off) s) as Hp. cbv zeta in Hp. unfold slice in Hp at 1 2.
    rewrite !take_ge in Hp by (rewrite length_drop; lia). destruct (shifted st _ _ _) as [st' o].
    destruct (Hp Hs Hab Bt Bd) as (s1 & E1 & Hs1 & Ei & Eo & Etk); [lia..|].
    exists s1. rewrite Hoff in Etk. split_and!; [|done..]. by rewrite (M_bind_ret _ _ _ _ _ E1).
  - assert (Hlt : 8 * vec < bits - 8 * off) by (subst off; nia).
    assert (Eb : Z.min (8 * vec) (bits - 8 * vec * i) = 8 * vec) by (subst off; lia). rewrite Eb in *.
    assert (E8 : (8 * vec + 7) / 8 = vec) by (clear; Z.div_mod_to_equations; lia). rewrite E8 in *.
    destruct Hc as (Hb1 & Ho & _ & Hk & Hke). fold n in Hke.
    assert (Hr : (bits - 8 * off + 7) / 8 = n - off) by (subst n; clear; Z.div_mod_to_equations; lia).
    pose proof (shifted_app st vec (bits - 8 * off) (drop (Z.to_nat off) tms) (drop (Z.to_nat off) tdi)
      ltac:(lia) ltac:(destruct Hgr; [done|subst off; nia]) Hlt ltac:(rewrite length_drop; lia)
      ltac:(rewrite length_drop; lia) Hab) as Happ.
    pose proof (piece_served st tms tdi off (8 * vec) s) as Hp. cbv zeta in Hp. rewrite E8 in Hp. unfold slice in Hp at 1 2.
    destruct (shifted st (8 * vec) _ _) as [st1 o1].
    rewrite !drop_drop in Happ. replace (Z.to_nat off + Z.to_nat vec)%nat with (Z.to_nat (off + vec)) in Happ by lia.
    destruct (shifted st1 _ _ _) as [st2 o2] eqn:E2 in Happ. destruct Happ as (Ha1 & Ha2 & ->).
    destruct (Hp Hs Ha1 Bt Bd) as (s1 & E1 & Hs1 & Ei & Eo & Etk); [lia..|].
    specialize (IH (i + 1) st1 s1 ltac:(lia) ltac:(lia) Hs1).
    replace ((i + 1) * vec) with (off + vec) in IH by (subst off; lia).
    replace (bits - 8 * (off + vec)) with (bits - 8 * off - 8 * vec) in IH by lia.
    rewrite E2 in IH. destruct (IH Ha2) as (s2 & E3 & Hs2 & Ei2 & Eo2 & Etk2).
    exists s2. rewrite Etk2, Etk, <-app_assoc. split_and!; [|done|congruence..|done].
    by rewrite (M_bind_ret _ _ _ _ _ E1).
Qed.

Context (Hgrain : (grain (St := St) | sup)).

Lemma vector_served st tms tdi bits s : let n := (bits + 7) / 8 in
  let (st', o) := shifted st bits tms tdi in
  served st s → (1 ≤ bits → able st bits) → bytes tms → bytes tdi → 0 ≤ bits → zlen tms = n → zlen tdi = n → n ≤ maxVecLen →
  ∃ s', spec_chunks tms tdi (chunks (Z.min sup n) bits) s = (Ret tt, s') ∧
    served st' s' ∧ s_in s' = s_in s ∧ s_out s' = s_out s ∧ take (Z.to_nat n) (s_tx s') = o.
Proof.
  intros n. destruct (decide (bits ≤ 0)) as [Hle|Hgt].
  - destruct (shifted st bits tms tdi) as [st' o] eqn:E. intros Hs _ _ _ Hb Lt Ld _.
    assert (bits = 0) as -> by lia. change n with 0 in *. destruct tms, tdi; try done.
    rewrite shifted_nil in E. injection E as <- <-. rewrite Z.min_r by lia. by exists s.
  - assert (Hn1 : 1 ≤ n) by (subst n; Z.div_mod_to_equations; lia).
    destruct (num_chunks_bounds (Z.min sup n) bits) as (_ & HN); [lia..|].
    destruct (Z.to_nat (num_chunks (Z.min sup n) bits)) as [|m] eqn:Em; [nia|].
    pose proof (pieces_served tms tdi (Z.min sup n) bits) as Hp. cbv zeta in Hp. fold n in Hp.
    destruct (shifted st bits tms tdi) as [st' o] eqn:E. intros Hs Hab Bt Bd Hb Lt Ld Hn.
    specialize (Hp Bt Bd ltac:(lia) ltac:(destruct (Z.min_spec sup n) as [[_ ->]|[_ ->]]; [by left|right; subst n; clear; Z.div_mod_to_equations; lia])
      ltac:(lia) Lt Ld Hn m 0 st s ltac:(lia) ltac:(lia) Hs).
    rewrite Z.mul_0_l, Z.mul_0_r, Z.sub_0_r, !drop_0, E, take_0 in Hp. specialize (Hp (Hab ltac:(lia))).
    unfold chunks. by replace (num_chunks (Z.min sup n) bits) with (Z.of_nat (S m)) by lia.
Qed.

(** ** Requests *)

Abbreviation answers st r rest s := (let (st', o) := reply maxVecLen st r in
  ∃ s', spec_message maxVecLen sup s = (Ret tt, s') ∧ served st' s' ∧ s_in s' = rest ∧ s_out s' = s_out s ++ o).

Lemma getinfo_answers st rest s : served st s → s_in s = encode GetInfo ++ rest → answers st GetInfo rest s.
Proof.
  intros Hs Ein. pose proof Hs as [Htr Hr Htx Htxb].
  destruct (tracks_query st (s_drv s)) as (n & d' & Eq & Htr'); [by apply tracks_idle|].
  pose proof (drv_query_ok (s_drv s) (sv_ok _ _ Hs)) as Hok. rewrite Eq in Hok. destruct Hok as (_ & _ & Hroom).
  pose proof (greeting_length maxVecLen ltac:(lia)) as Hg. unfold reply, spec_message, spec_getinfo.
  rewrite (M_bind_ret _ _ _ _ _ (need_head 2 _ rest s Ein ltac:(simpl; lia))).
  change (take (Z.to_nat 2) (encode GetInfo)) with (text "ge"). rewrite decide_True by done.
  rewrite (M_bind_ret _ _ _ _ _ (need_app 8 _ rest s Ein eq_refl)).
  rewrite (M_bind_ret _ _ _ _ _ (s_on_drv_ret _ _ _ _ Eq)).
  eexists. split; [reflexivity|]. set (g := greeting maxVecLen ++ [0]).
  assert (Lg : length g = S (length (greeting maxVecLen))) by (subst g; rewrite length_app; simpl; lia).
  split; [split; cbn [s_drv s_tx]; [done|auto| |]|split].
  - rewrite length_app, length_drop. lia.
  - apply bytes_app. split; [apply bytes_app; split; [apply greeting_bytes|]|auto with xvc].
    repeat constructor; unfold is_byte; lia.
  - cbn [s_in]. by rewrite Ein.
  - cbn [s_out s_tx]. f_equal. subst g. rewrite <-app_assoc, Nat2Z.id. apply take_app_length.
Qed.

Lemma settck_answers st p rest s : served st s → is_u32 p → s_in s = encode (SetTck p) ++ rest →
  answers st (SetTck p) rest s.
Proof.
  intros Hs Hp Ein. pose proof Hs as [Htr Hr Htx Htxb]. unfold reply, spec_message, spec_settck.
  assert (Le : zlen (encode (SetTck p)) = 11)
    by (cbn [encode]; rewrite length_app, le_bytes_length; done).
  rewrite (M_bind_ret _ _ _ _ _ (need_head 2 _ rest s Ein ltac:(lia))).
  change (take (Z.to_nat 2) (encode (SetTck p))) with (text "se").
  rewrite decide_False, decide_True by done.
  rewrite (M_bind_ret _ _ _ _ _ (need_app 11 _ rest s Ein Le)).
  assert (Ev : le_val (slice 7 4 (encode (SetTck p))) = p).
  { unfold slice. change (drop (Z.to_nat 7) (encode (SetTck p))) with (le_bytes 4 p).
    rewrite take_ge by (rewrite le_bytes_length; done).
    rewrite le_val_le_bytes. by apply Z.mod_small. }
  rewrite Ev, (M_bind_ret _ _ _ _ _ (s_on_drv_ret _ _ _ _ (tracks_setPeriodNs st (s_drv s) p Htr))).
  eexists. split; [reflexivity|].
  split; [split; cbn [s_drv s_tx]; try done|split].
  - rewrite length_app, length_drop, le_bytes_length. lia.
  - apply bytes_app. auto with xvc.
  - cbn [s_in]. rewrite Ein. rewrite drop_app_length'; [done|lia].
  - cbn [s_out s_tx]. f_equal.
Qed.

Lemma shift_answers st bits tms tdi rest s : served st s → takes1 st (Shift bits tms tdi) →
  valid maxVecLen (Shift bits tms tdi) →
  s_in s = encode (Shift bits tms tdi) ++ rest → answers st (Shift bits tms tdi) rest s.
Proof.
  intros Hs Hab (Hb & Hn & Lt & Ld & Bt & Bd) Ein. set (n := (bits + 7) / 8) in *.
  assert (Hn0 : 0 ≤ n) by (subst n; apply Z.div_pos; lia).
  assert (Hbits : bits ≤ 2 ^ 20) by (subst n; clear - Hn Hmax; Z.div_mod_to_equations; lia).
  set (h := text "shift:" ++ le_bytes 4 bits).
  assert (Lh : zlen h = 10) by (subst h; rewrite length_app, le_bytes_length; done).
  assert (Ein' : s_in s = h ++ (tms ++ tdi) ++ rest)
    by (subst h; rewrite Ein; cbn [encode]; by rewrite <-!app_assoc).
  assert (Ev : le_val (slice 6 4 h) = bits).
  { unfold slice. change (drop (Z.to_nat 6) h) with (le_bytes 4 bits).
    rewrite take_ge by (rewrite le_bytes_length; done).
    rewrite le_val_le_bytes. apply Z.mod_small. lia. }
  set (s1 := mkSrv (s_drv s) (s_tx s) ((tms ++ tdi) ++ rest) (s_out s)).
  assert (Hs1 : served st s1) by (destruct Hs; by split).
  assert (Em : spec_message maxVecLen sup s =
    (spec_chunks tms tdi (chunks (Z.min sup n) bits) ;; consume (2 * n) ;; answer n) s1).
  { unfold spec_message, spec_shift.
    rewrite (M_bind_ret _ _ _ _ _ (need_head 2 _ _ s Ein' ltac:(lia))).
    change (take (Z.to_nat 2) h) with (text "sh"). rewrite !decide_False, decide_True by done.
    rewrite (M_bind_ret _ _ _ _ _ (need_app 10 _ _ s Ein' Lh)). cbv zeta. rewrite Ev. fold n.
    rewrite (proj2 (Z.leb_gt (2 ^ 29) n)), (proj2 (Z.ltb_ge maxVecLen n)) by lia.
    rewrite (M_bind_ret _ (λ _, _) s tt s1) by (unfold consume, modify; subst s1; by rewrite Ein').
    rewrite (M_bind_ret _ _ _ _ _ (need_app (2 * n) (tms ++ tdi) rest s1 eq_refl ltac:(rewrite length_app; lia))).
    rewrite slice_0, take_app_length' by lia. unfold slice.
    by rewrite drop_app_length', take_ge by lia. }
  rewrite Em. clear Em. pose proof (vector_served st tms tdi bits s1) as Hv. cbv zeta in Hv. fold n in Hv.
  cbn [reply]. destruct (shifted st bits tms tdi) as [st' o].
  destruct (Hv Hs1 Hab Bt Bd Hb Lt Ld Hn) as (s2 & E2 & Hs2 & Ei2 & Eo2 & Etk).
  rewrite (M_bind_ret _ _ _ _ _ E2). eexists. split; [reflexivity|].
  split; [by destruct Hs2; split|]. cbn [s_in s_out s_tx]. rewrite Ei2, Eo2, Etk. split; [|done].
  cbn [s_in s1]. apply drop_app_length'. rewrite length_app. lia.
Qed.

Lemma serve_answers rs : ∀ st s fuel, served st s → takes maxVecLen st rs → Forall (valid maxVecLen) rs →
  s_in s = concat (encode <$> rs) → (length rs < fuel)%nat →
  let (st', o) := replies maxVecLen st rs in
  ∃ s', spec_serve maxVecLen fuel sup s = (Throw (SysErr "Unable to read from socket"), s') ∧
    served st' s' ∧ s_out s' = s_out s ++ o.
Proof.
  induction rs as [|r rs IH]; intros st s fuel Hs Hab Hv Ein Hf; (destruct fuel as [|fuel]; [simpl in Hf; lia|]).
  - exists s. cbn [spec_serve fmap list_fmap concat] in *. rewrite app_nil_r.
    unfold spec_message, need, mbind, M_bind. by rewrite Ein.
  - inversion Hv as [|? ? Hr Hrs]; subst. cbn [fmap list_fmap concat] in Ein. cbn [takes] in Hab.
    destruct Hab as [Hab1 Hab].
    assert (Ha : answers st r (concat (encode <$> rs)) s).
    { destruct r; [by apply getinfo_answers|by apply settck_answers|by apply shift_answers]. }
    cbn [replies]. destruct (reply maxVecLen st r) as [st1 o1]. destruct Ha as (s1 & E1 & Hs1 & Ei1 & Eo1).
    specialize (IH st1 s1 fuel Hs1 Hab Hrs Ei1 ltac:(simpl in Hf; lia)). destruct (replies maxVecLen st1 rs) as [st2 o2].
    destruct IH as (s2 & E2 & Hs2 & Eo2).
    exists s2. cbn [spec_serve]. rewrite (M_bind_ret _ _ _ _ _ E1). split; [done|]. split; [done|].
    by rewrite Eo2, Eo1, <-app_assoc.
Qed.
End drives.

(** ** Sessions *)

Section session.
Context `{Platform} {D St : Type} `{Drives D St}.

(** The server answers every sequence of valid requests and survives the
    end of the connection; the target has been shifted accordingly. *)
Lemma session_served maxVecLen (d : D) n st rs : idle st d → 1 ≤ maxVecLen ≤ 2 ^ 17 → roomy d maxVecLen →
  cuts d maxVecLen → takes maxVecLen (queried st) rs → Forall (valid maxVecLen) rs → net_good n → nodelay_ok n = true → inp n = concat (encode <$> rs) →
  let (st', o) := replies maxVecLen (queried st) rs in
  ∃ c, run (XvcConn_new d n maxVecLen) = (Throw (SysErr "Unable to read from socket"), c) ∧ tracks st' (drv_ c) ∧
    out (sd_ c) = out n ++ o.
Proof.
  intros Hd Hm Hroom Hcut Hab Hv Hn Hok Ein. pose proof (idle_ok st d Hd) as Hdok.
  destruct (tracks_query st d Hd) as (tgt & d1 & Eq & Htr).
  pose proof (run_sim d n maxVecLen Hdok Hn Hok Hm Hroom) as Hs. pose proof (drv_query_ok d Hdok) as Hq.
  rewrite Eq in Hq. destruct Hq as (Ht & Hd1 & _). pose proof (drv_max_ok d1 Hd1) as Hmx.
  destruct (Hcut tgt d1 Eq) as [Hgr Hmo].
  unfold simulates, spec_run in Hs. set (s0 := spec_start d n maxVecLen) in Hs.
  rewrite (M_bind_ret _ _ _ _ _ (s_on_drv_ret drv_query tgt d1 s0 Eq)) in Hs. cbn [spec_start s_tx s_in s_out s0] in Hs.
  unfold mbind, M_bind in Hs. cbn [gets id s_drv s_in] in Hs.
  set (sup := supported maxVecLen tgt (drv_getMaxVectorSize d1)) in *. set (s1 := mkSrv d1 _ _ _) in Hs.
  assert (Hs1 : served maxVecLen sup (queried st) s1).
  { split; cbn [s1 s_drv s_tx]; [done|intros k Hk; apply (Hroom tgt); (done || (subst sup; lia))|rewrite length_replicate; lia|].
    apply Forall_replicate. unfold is_byte. lia. }
  pose proof (serve_answers maxVecLen sup Hm ltac:(by apply supported_pos; lia) Hmo Hgr rs (queried st) s1
    (S (length (inp n))) Hs1 Hab Hv Ein) as Ha.
  destruct (replies maxVecLen (queried st) rs) as [st' o]. destruct Ha as (s2 & E2 & Hs2 & Eo).
  { rewrite Ein. pose proof (requests_length rs). lia. }
  rewrite E2 in Hs. destruct (run _) as [[[]|e|u|] c]; try done. destruct Hs as [-> [[Hdr Ho] _]].
  exists c. split; [done|]. rewrite Hdr, Ho, Eo. split; [by destruct Hs2|done].
Qed.
End session.
