(* ===== verification/Player.v ===== *)
(** * The loop-back driver as a target

    Without a file the loop-back driver is a target whose TDO is TDI; with a
    file of TDO words it plays them back, and a query rewinds it.  Both are
    [player]s: what the driver of LoopBack.v does with a query and with a
    shift, in terms of the state of the target.  Used for the driver itself
    (Stack.v) and for the test peer behind UDP (Link.v). *)

From stdpp Require Import base numbers option list strings.
From Stdlib Require Import ZArith Lia.
From S2P Require Import Prelude Header Driver LoopBack Vectors Conn ConnSpec Target.
#[local] Open Scope Z_scope.

(** ** Packets *)

(** The packet of a shift of [bits] bits. *)
Record shift_packet (bits : Z) (tms tdi p : list Z) : Prop := {
  sp_bytes : bytes p;
  sp_bits : 1 ≤ bits ≤ 2 ^ 20;
  sp_len : zlen p = 4 + 2 * word_ceil 4 ((bits + 7) / 8);
  sp_vrs : getVrs (le_val (take 4 p)) = PVER0;
  sp_cmd : getCmd (le_val (take 4 p)) = CMD_S;
  sp_get : getLen (le_val (take 4 p)) = Ret bits;
  sp_tms : zlen tms = (bits + 7) / 8 ∧ bytes tms;
  sp_tdi : zlen tdi = (bits + 7) / 8 ∧ bytes tdi;
  sp_packed : packed 4 0 ((bits + 7) / 8) tms tdi p;
}.

(** The start of the driver's buffer. *)
Lemma message_packet bits tms tdi msg h : let n := (bits + 7) / 8 in let txb := 4 + 2 * word_ceil 4 n in
  bytes msg → txb ≤ zlen msg → 1 ≤ bits ≤ 2 ^ 20 → zlen tms = n → zlen tdi = n → bytes tms → bytes tdi →
  packed 4 0 n tms tdi msg → le_val (take 4 msg) = h → getVrs h = PVER0 → getCmd h = CMD_S → getLen h = Ret bits →
  let p := take (Z.to_nat txb) msg in
  message_ok 4 txb n msg ∧ shift_packet bits tms tdi p ∧ take 4 p = take 4 msg ∧ zlen p = txb.
Proof.
  intros n txb B L Hb Lt Ld Bt Bd Hp Hm Hv Hc Hg p. assert (Hn : 1 ≤ n) by (subst n; Z.div_mod_to_equations; lia).
  pose proof (word_ceil_bounds 4 n ltac:(lia)) as Hwc.
  assert (E4 : take 4 p = take 4 msg) by (subst p; rewrite take_take; f_equal; lia).
  assert (Lp : zlen p = txb) by (subst p; rewrite length_take; lia).
  split; [|split; [|done]].
  - split; [lia|]. split; [done|]. cbv zeta. rewrite Hm. right. right. split; [done|]. split; [done|]. by exists bits.
  - split; rewrite ?E4, ?Hm; try done; [subst p; auto with xvc|]. fold n. intros i Hi.
    destruct (Hp i Hi) as [<- <-]. pose proof (pos_lt 4 ((n + 3) / 4) i ltac:(lia)) as Hpos.
    assert (0 ≤ pos 4 i ∧ pos 4 i + 4 < txb).
    { subst txb. unfold word_ceil. split; [unfold pos; Z.div_mod_to_equations; lia|].
      replace (n + 4 - 1) with (n + 3) by lia. Z.div_mod_to_equations. lia. }
    unfold ix. zbool. subst p. by rewrite !lookup_take_lt by lia.
Qed.

Section player.
Context `{Platform} {St : Type} `{Target St}.

(** The buffers after [xfer]: the header [h], [n] bytes of payload, nothing
    else; the base class is not touched. *)
Definition replied (h : Z) (o : list Z) (s s' : io JtagDriverLoopBack) : Prop :=
  io_jd s' = io_jd s ∧ take 4 (io_hd s') = store32 h ∧ length (io_hd s') = length (io_hd s) ∧
  (bytes (io_hd s) → bytes (io_hd s')) ∧ (bytes (io_rx s) → bytes (io_rx s')) ∧
  take (length o) (io_rx s') = o ∧ rx_frame (zlen o) (io_rx s) (io_rx s').

(** The word a query is answered with. *)
Definition query_word (dpt : Z) : Z := Z.lor mkQuery (Z.lor (wrap32 (Z.shiftl (Z.land dpt 0xfffff) 4)) 3).

Record player (plays : St → JtagDriverLoopBack → Prop) : Prop := {
  play_tck : tck (St := St) = 0;
  plays_ok st d : plays st d → lb_ok d;
  play_query dpt st txb txBytes hsize size s : plays st (io_tp s) → le_val (take 4 txb) = mkQuery →
    4 ≤ txBytes → 4 ≤ zlen txb → 4 ≤ zlen (io_hd s) →
    ∃ s', loopback_xfer dpt txb txBytes hsize size s = (Ret 0, s') ∧ plays (queried st) (io_tp s') ∧
      replied (query_word dpt) [] s s';
  play_shift dpt st txb txBytes hsize size s bits tms tdi :
    let h := le_val (take 4 txb) in let n := (bits + 7) / 8 in
    let (st', o) := shifted st bits tms tdi in
    plays st (io_tp s) → able st bits → bytes txb →
    getVrs h = PVER0 → getCmd h = CMD_S → getLen h = Ret bits → 1 ≤ bits →
    4 + 2 * word_ceil 4 n ≤ txBytes ≤ zlen txb → packed 4 0 n tms tdi txb → zlen tms = n → zlen tdi = n →
    n ≤ zlen (io_rx s) → 4 ≤ zlen (io_hd s) →
    ∃ s', loopback_xfer dpt txb txBytes hsize size s = (Ret n, s') ∧ plays st' (io_tp s') ∧
      zlen o = n ∧ replied h o s s';
}.
End player.

(** What [xfer] does with a query. *)
Lemma query_run `{Platform} dpt txb txBytes hsize size s : le_val (take 4 txb) = mkQuery →
  4 ≤ txBytes → 4 ≤ zlen txb → 4 ≤ zlen (io_hd s) → lb_ok (io_tp s) →
  ∃ s', loopback_xfer dpt txb txBytes hsize size s = (Ret 0, s') ∧ replied (query_word dpt) [] s s' ∧
    io_tp s' = match f_ (io_tp s) with
      | FOpen content _ => set_skip false (set_f (FOpen content content) (io_tp s))
      | _ => io_tp s
      end.
Proof.
  intros Hm Ht Hl Hh Hok. unfold loopback_xfer, emulWordSize. rewrite (proj2 (Z.ltb_ge _ _)), rd_ok by lia.
  change (Z.to_nat 4) with 4%nat. rewrite drop_0. unfold mbind at 1, M_bind at 1, lift at 1. cbn zeta. rewrite Hm.
  change (negb (getVrs mkQuery =? PVER0)) with false. change (getCmd mkQuery =? CMD_Q) with true. cbv iota.
  change (4 - 1) with 3. fold (query_word dpt). unfold mbind, M_bind. cbn [gets]. unfold lb_ok in Hok.
  destruct (f_ (io_tp s)) as [|c r|] eqn:Ef; [| |done].
  all: cbn [mret M_ret lb modify]; unfold lb, zoom; cbn [modify]; change (4 - 1) with 3; fold (query_word dpt).
  all: match goal with |- context [put_header _ ?s0] =>
    destruct (put_header_run (query_word dpt) s0) as (hd & -> & T4 & Lh & Bh); [done|] end.
  all: eexists; split; [reflexivity|]; split; [|done].
  all: by split_and!.
Qed.

(** ** TDO is TDI *)

#[export] Program Instance echo : Target unit := {
  grain := 1;
  tck := 0;
  able _ _ := True;
  queried st := st;
  shifted _ bits tms tdi := (tt, tdi);
}.
Next Obligation. by intros []. Qed.
Next Obligation. intros st a bits tms tdi _ _ _ _ _ _. cbn. by rewrite take_drop. Qed.

Definition echoes (_ : unit) (d : JtagDriverLoopBack) : Prop := f_ d = FNull ∧ skip_ d = true.

Lemma echo_player `{Platform} : player echoes.
Proof.
  split; [done|..].
  - intros _ d [Hf Hs]. unfold lb_ok. by rewrite Hf.
  - intros dpt [] txb txBytes hsize size s [Hf Hs] Hm Ht Hl Hh.
    destruct (query_run dpt txb txBytes hsize size s Hm Ht Hl Hh) as (s' & E & Hr & Et).
    { unfold lb_ok. by rewrite Hf. }
    exists s'. rewrite Et, Hf. done.
  - intros dpt [] txb txBytes hsize size s bits tms tdi h n. cbn [shifted echo].
    intros [Hf Hs] _ Hb Hv Hc Hg Hbits Ht Hp Lt Ld Hr Hh.
    assert (Hn : 0 ≤ n) by lia.
    destruct (loopback_shift dpt txb txBytes hsize size s bits) as (s' & hd & Ex & Hl & T4 & Lh & Bh);
      try done. fold n in Ex, Hl.
    destruct (looped_take txb s n s' tdi tms Hn) as [Htk Hfr]; [lia|lia|done|done|].
    destruct Hl as (Es & _ & _ & Bl). exists (set_hd hd s'). split; [exact Ex|]. rewrite Es.
    split; [done|]. split; [lia|]. split_and!; try done; cbn [io_rx set_rx set_hd].
    + replace (length tdi) with (Z.to_nat n) by lia. rewrite Htk. apply take_ge. lia.
    + by rewrite Ld.
Qed.

(** ** TDO is played back *)

(** The lines of a file: the formats by which they can be scanned, and the
    numbers that are found. *)
Inductive lines : list Z → list (string * Z) → Prop :=
  | lines_end : lines [] []
  | lines_next rest l rest' fmt v ls : rest ≠ [] → fgets 511 rest = (l, rest') →
      sscanf (c_str l) (text fmt) = Some v → lines rest' ls → lines rest ((fmt, wrap64 v) :: ls).

(** The driver has opened a file with [P], of which the lines [ls] are left;
    [only] says whether it looks at the TDO lines only. *)
Definition reading (P : list Z → Prop) (only : bool) (ls : list (string * Z)) (d : JtagDriverLoopBack) : Prop :=
  skip_ d = false ∧ tdoOnly_ d = only ∧ ∃ content rest, f_ d = FOpen content rest ∧ P content ∧ lines rest ls.

(** One line is read, and compared if it is not read only. *)
Lemma check_line P only val fmt ro v ls d : reading P only ((fmt, v) :: ls) d →
  if negb ro && negb (v =? val) then ∃ msg d', check val fmt ro d = (Throw (RuntimeErr msg), d')
  else ∃ d', check val fmt ro d = (Ret v, d') ∧ reading P only ls d'.
Proof.
  intros (Hs & Ho & content & rest & Hf & Hc & Hr). destruct d as [f sk to li]. cbn in Hs, Ho, Hf. subst f sk to.
  inversion Hr as [|? l rest' ? v0 ? Hne Hg Hsc Hr']; subst. unfold check, mbind, M_bind, rdl. cbn [skip_ f_].
  destruct rest as [|c r]; [done|]. change (Z.to_nat (512 - 1)) with 511%nat. rewrite Hg. cbn [gets set_f line_].
  rewrite Hsc. cbn [skip_ tdoOnly_]. destruct (negb ro && negb (wrap64 v0 =? val)); [by eexists _, _|].
  exists (mkLoopBack (FOpen content rest') false only (wrap64 (li + 1))). split; [done|].
  split; [done|]. split; [done|]. by exists content, rest'.
Qed.

(** The lines of TDO words, which [getTDO] reads. *)
Definition tdos (vs : list Z) : list (string * Z) := (λ v, ("TDO : %li"%string, v)) <$> vs.
Definition script (content : list Z) (vs : list Z) : Prop := lines content (tdos vs).

(** *** The file of the words [ws]

    Lines as the comment in xvcDrvLoopBack.h describes them and as the test
    data has them: the prefix and a number of eight hexadecimal digits. *)
Definition hex_char (d : Z) : Z := if d <? 10 then 48 + d else 87 + d.
Fixpoint hex_fixed (n : nat) (v : Z) : list Z :=
  match n with O => [] | S n => hex_fixed n (v / 16) ++ [hex_char (v `mod` 16)] end.
Definition tdo_line (w : Z) : list Z := text "TDO : 0x" ++ hex_fixed 8 w ++ [10].
Definition tdo_file (ws : list Z) : list Z := concat (tdo_line <$> ws).

Lemma hex_char_digit d : 0 ≤ d < 16 → digit (hex_char d) = d ∧ hex_char d ≠ 10 ∧ hex_char d ≠ 0.
Proof. intros Hd. assert (Hc : d ∈ seqZ 0 16) by (apply elem_of_seqZ; lia). clear Hd. revert d Hc. apply Forall_forall. by repeat constructor. Qed.

Lemma hex_fixed_length n v : length (hex_fixed n v) = n.
Proof. revert v. induction n as [|n IH]; intros v; [done|]. cbn [hex_fixed]. rewrite length_app, IH. cbn. lia. Qed.

Lemma hex_fixed_plain n v : Forall (λ c, c ≠ 10 ∧ c ≠ 0) (hex_fixed n v).
Proof.
  revert v. induction n as [|n IH]; intros v; [constructor|]. apply Forall_app. split; [apply IH|].
  apply Forall_singleton, hex_char_digit, Z.mod_pos_bound. lia.
Qed.

(** The digits are read back, up to the character after them. *)
Lemma digits_hex n : ∀ acc v l, digits 16 acc (hex_fixed n v ++ 10 :: l) = acc * 16 ^ Z.of_nat n + v `mod` 16 ^ Z.of_nat n.
Proof.
  assert (Hs : ∀ n acc v l, digits 16 acc (hex_fixed n v ++ l) = digits 16 (acc * 16 ^ Z.of_nat n + v `mod` 16 ^ Z.of_nat n) l).
  { clear. induction n as [|n IH]; intros acc v l; [cbn; by rewrite Z.mod_1_r, Z.add_0_r, Z.mul_1_r|].
    cbn [hex_fixed]. rewrite <-app_assoc, IH. cbn [app digits].
    destruct (hex_char_digit (v `mod` 16)) as (-> & _); [apply Z.mod_pos_bound; lia|].
    pose proof (Z.mod_pos_bound v 16 ltac:(lia)). rewrite (proj2 (Z.ltb_lt _ _)) by lia. f_equal.
    rewrite Nat2Z.inj_succ, Z.pow_succ_r by lia. rewrite (Z.rem_mul_r v 16) by lia. ring. }
  intros acc v l. by rewrite Hs.
Qed.

Lemma fgets_line l rest : ∀ n, Forall (λ c, c ≠ 10 ∧ c ≠ 0) l → (length l < n)%nat → fgets n (l ++ 10 :: rest) = (l ++ [10], rest).
Proof.
  induction l as [|c l IH]; intros [|n] Hl Hn; cbn in Hn; try lia; [done|].
  inversion Hl as [|? ? [Hc _] Hl']; subst. cbn [app fgets]. rewrite (proj2 (Z.eqb_neq _ _) Hc), IH by (done || lia). done.
Qed.

Lemma c_str_plain l : Forall (λ c, c ≠ 0) l → c_str l = l.
Proof. induction 1 as [|c l Hc Hl IH]; [done|]. cbn. by rewrite (proj2 (Z.eqb_neq _ _) Hc), IH. Qed.

Lemma tdo_line_scan w : is_u32 w → sscanf (c_str (tdo_line w)) (text "TDO : %li") = Some w.
Proof.
  intros Hw. rewrite c_str_plain.
  2: { unfold tdo_line. apply Forall_app. split; [by repeat constructor|]. apply Forall_app. split; [|by repeat constructor].
       eapply Forall_impl; [apply hex_fixed_plain|]. by intros c []. }
  change (sscanf (tdo_line w) (text "TDO : %li")) with (v ← digits1 16 (hex_fixed 8 w ++ [10]); Some (Z.min (2 ^ 63 - 1) v)).
  assert (E : digits1 16 (hex_fixed 8 w ++ [10]) = Some (digits 16 0 (hex_fixed 8 w ++ [10]))).
  { assert (Hc : ∃ d l, hex_fixed 8 w = hex_char d :: l ∧ 0 ≤ d < 16)
      by (eexists _, _; split; [reflexivity|apply Z.mod_pos_bound; lia]).
    destruct Hc as (d & l & -> & Hd). cbn [app digits1]. destruct (hex_char_digit d Hd) as (-> & _). by zbool. }
  rewrite E, digits_hex. cbn. rewrite Z.mod_small by exact Hw. f_equal. unfold is_u32 in Hw. lia.
Qed.

Lemma tdo_file_script ws : Forall is_u32 ws → script (tdo_file ws) ws.
Proof.
  induction 1 as [|w ws Hw Hws IH]; [constructor|].
  change (tdo_file (w :: ws)) with (tdo_line w ++ tdo_file ws).
  rewrite <-(wrap64_small w) at 2 by (unfold is_u32 in Hw; lia).
  eapply (lines_next _ (tdo_line w)); [done| |by apply tdo_line_scan|exact IH].
  unfold tdo_line. rewrite (app_assoc (text _)), <-!app_assoc. cbn [app]. rewrite app_assoc.
  rewrite fgets_line; [by rewrite <-app_assoc| |].
  - apply Forall_app. split; [by repeat constructor|apply hex_fixed_plain].
  - rewrite length_app, hex_fixed_length. simpl. lia.
Qed.

(** The driver has opened a file of the words [all], and [vs] are left. *)
Definition plays_back (all vs : list Z) : JtagDriverLoopBack → Prop := reading (λ content, script content all) true (tdos vs).

(** The words of a shift of [bits] bits, and its bytes. *)
Definition shift_words_of (bits : Z) : nat := Z.to_nat ((bits + 31) / 32).
Definition word_bytes (vs : list Z) : list Z := concat (le_bytes 4 <$> vs).

Lemma word_bytes_length vs : zlen (word_bytes vs) = 4 * zlen vs.
Proof.
  unfold word_bytes. induction vs as [|v vs IH]; [done|]. cbn [fmap list_fmap concat]. rewrite length_app, le_bytes_length.
  cbn [length]. lia.
Qed.
Lemma word_bytes_bytes vs : bytes (word_bytes vs).
Proof. unfold word_bytes. induction vs; [constructor|]. apply bytes_app. auto with xvc. Qed.
Lemma word_bytes_app vs ws : word_bytes (vs ++ ws) = word_bytes vs ++ word_bytes ws.
Proof. unfold word_bytes. by rewrite fmap_app, concat_app. Qed.

Program Definition playback (all : list Z) : Target (list Z) := {|
  tck := 0;
  grain := 4;
  able vs bits := (shift_words_of bits ≤ length vs)%nat;
  queried _ := all;
  shifted vs bits tms tdi :=
    (drop (shift_words_of bits) vs, take (Z.to_nat ((bits + 7) / 8)) (word_bytes (take (shift_words_of bits) vs)));
|}.
Next Obligation. intros all vs. cbn. by rewrite drop_0, take_0. Qed.
Next Obligation.
  intros all vs a bits tms tdi Ha [q ->] Hlt _ _ Hab. cbv beta zeta iota.
  assert (E1 : shift_words_of (8 * (q * 4)) = Z.to_nat q) by (unfold shift_words_of; f_equal; Z.div_mod_to_equations; lia).
  assert (E2 : (shift_words_of bits = Z.to_nat q + shift_words_of (bits - 8 * (q * 4)))%nat)
    by (unfold shift_words_of; Z.div_mod_to_equations; lia).
  rewrite E1, E2 in *. split; [lia|]. split; [rewrite length_drop; lia|]. rewrite drop_drop. f_equal.
  assert (L : zlen (word_bytes (take (Z.to_nat q) vs)) = 4 * q) by (rewrite word_bytes_length, length_take; lia).
  rewrite <-take_take_drop, word_bytes_app, take_app.
  rewrite !(take_ge (word_bytes (take (Z.to_nat q) vs))) by (Z.div_mod_to_equations; lia).
  do 2 f_equal. clear - L Ha Hlt. Z.div_mod_to_equations. lia.
Qed.

Section reads.
Context (P : list Z → Prop) (only : bool).

Lemma getTDO_read v ls d : reading P only (("TDO : %li"%string, v) :: ls) d →
  ∃ d', getTDO d = (Ret v, d') ∧ reading P only ls d'.
Proof. exact (check_line P only 0 "TDO : %li" true v ls d). Qed.

Lemma play_words_played n : ∀ m fuel pre old vs ls s, (m ≤ length vs)%nat → (m ≤ fuel)%nat →
  4 * Z.of_nat m - 4 < n - zlen pre ≤ 4 * Z.of_nat m → n - zlen pre ≤ zlen old →
  io_rx s = pre ++ old → reading P only (tdos vs ++ ls) (io_tp s) →
  ∃ s', play_words fuel 4 n (zlen pre) s = (Ret tt, s') ∧ io_jd s' = io_jd s ∧ io_hd s' = io_hd s ∧
    reading P only (tdos (drop m vs) ++ ls) (io_tp s') ∧
    io_rx s' = pre ++ take (Z.to_nat (n - zlen pre)) (word_bytes (take m vs)) ++ drop (Z.to_nat (n - zlen pre)) old.
Proof.
  induction m as [|m IH]; intros fuel pre old vs ls s Hm Hf Hn Hold Hrx Hp.
  - exists s. split; [|split; [done|]; split; [done|]; split; [done|]].
    + destruct fuel; cbn [play_words]; by rewrite (proj2 (Z.ltb_ge _ _)) by lia.
    + replace (Z.to_nat (n - zlen pre)) with O by lia. by rewrite take_0, drop_0, app_nil_l.
  - destruct vs as [|v vs]; [simpl in Hm; lia|]. destruct fuel as [|fuel]; [lia|].
    cbn [play_words]. rewrite (proj2 (Z.ltb_lt _ _)) by lia.
    set (l := if 4 <? n - zlen pre then 4 else n - zlen pre).
    assert (Hl : 0 < l ≤ 4 ∧ l ≤ n - zlen pre ∧ (l = 4 ∨ n - zlen pre = l))
      by (subst l; destruct (Z.ltb_spec 4 (n - zlen pre)); lia). destruct Hl as (Hl1 & Hl2 & Hl3).
    destruct (getTDO_read v (tdos vs ++ ls) (io_tp s) Hp) as (d' & Eg & Hp').
    set (bs := le_bytes (Z.to_nat l) v). assert (Lb : zlen bs = l) by (subst bs; rewrite le_bytes_length; lia).
    set (old' := drop (Z.to_nat l) old).
    set (s1 := mkIo (io_jd s) d' (io_hd s) ((pre ++ bs) ++ old')).
    destruct (IH fuel (pre ++ bs) old' vs ls s1) as (s' & E & Ej & Eh & Hp2 & Er);
      [simpl in Hm; lia|lia|len|subst old'; len|done|exact Hp'|].
    exists s'. split; [|split; [done|]; split; [done|]; split; [exact Hp2|]].
    + unfold mbind at 1, M_bind at 1. unfold lb, zoom. rewrite Eg. unfold mbind at 1, M_bind at 1. cbn [gets id io_rx].
      unfold setValLE. fold bs. rewrite Hrx. rewrite <-(take_drop (Z.to_nat l) old), wr_split by len. fold old'.
      unfold mbind, M_bind. cbn [lift modify]. unfold set_rx. cbn [io_jd io_tp io_hd].
      rewrite (app_assoc pre bs old'). fold s1. rewrite <-E.
      destruct (decide (l = 4)) as [->|Hne]; [by replace (zlen pre + 4) with (zlen (pre ++ bs)) by len|].
      destruct fuel; cbn [play_words]; by rewrite !(proj2 (Z.ltb_ge _ _)) by len.
    + rewrite Er. replace (n - zlen (pre ++ bs)) with (n - zlen pre - l) by len.
      cbn [take]. change (word_bytes (v :: take m vs)) with (le_bytes 4 v ++ word_bytes (take m vs)).
      rewrite (take_answer l) by (done || lia). rewrite le_bytes_take by lia. fold bs.
      subst old'. rewrite drop_drop, <-!app_assoc. do 4 f_equal. lia.
Qed.
End reads.

Section playback.
Context `{Platform} (all : list Z).
Abbreviation plays := (plays_back all).

(** Reading [n] words. *)
Fixpoint getTDOs (n : nat) : LB (list Z) :=
  match n with
  | O => mret []
  | S n => v ← getTDO; vs ← getTDOs n; mret (v :: vs)
  end.

Lemma getTDOs_played vs : ∀ d, plays vs d → ∃ d', getTDOs (length vs) d = (Ret vs, d').
Proof.
  induction vs as [|v vs IH]; intros d Hp; [by exists d|].
  destruct (getTDO_read _ _ v (tdos vs) d Hp) as (d1 & E & Hp1), (IH d1 Hp1) as (d2 & E2). exists d2.
  cbn [length getTDOs]. unfold mbind, M_bind. by rewrite E, E2.
Qed.

(** The driver is opened on a file of TDO words: it plays them. *)
Lemma opened_plays fnam content f0 : text fnam ≠ [] → strstr (text fnam) (text "TdoOnly") = true → script content all →
  ∃ d, JtagDriverLoopBack_new fnam (Some content) f0 = Ret d ∧ plays all d.
Proof.
  intros Hf Ht Hs. unfold JtagDriverLoopBack_new. rewrite Ht. destruct (text fnam); [done|].
  eexists. split; [reflexivity|]. split; [done|]. split; [done|]. by exists content, content.
Qed.

(** With a file of TDO words the rest of the message is not looked at. *)
Lemma lb_silent (m : LB unit) (s : io JtagDriverLoopBack) : m (io_tp s) = (Ret tt, io_tp s) → lb m s = (Ret tt, s).
Proof. intros E. unfold lb, zoom. rewrite E. by destruct s. Qed.
Lemma check_silent v fmt d : tdoOnly_ d = true →
  (o ← gets tdoOnly_; if negb o then check v fmt false ;; mret tt else mret tt : LB unit) d = (Ret tt, d).
Proof. intros Ho. unfold mbind, M_bind, gets. by rewrite Ho. Qed.

Lemma loop_word_silent txb wsz i j n s : 0 ≤ wsz + i → 0 ≤ wsz → 0 ≤ n → wsz + wsz + i + n ≤ zlen txb →
  tdoOnly_ (io_tp s) = true → skip_ (io_tp s) = false → loop_word txb wsz i j n s = (Ret tt, s).
Proof.
  intros Hi Hw Hn Hl Ho Hs. unfold loop_word.
  destruct (getValLE_ok (wsz + i) n txb) as [v1 ->]; [lia..|].
  destruct (getValLE_ok (wsz + wsz + i) n txb) as [v2 ->]; [lia..|].
  unfold mbind, M_bind, lift, gets.
  rewrite (lb_silent (checkTMS v1)), (lb_silent (checkTDI v2)) by by apply check_silent. cbn [id]. by rewrite Hs.
Qed.

Lemma loop_words_silent txb : ∀ m k fuel s, 0 ≤ k → (m ≤ fuel)%nat → 4 + 8 * (k + Z.of_nat m) ≤ zlen txb →
  tdoOnly_ (io_tp s) = true → skip_ (io_tp s) = false →
  loop_words fuel txb 4 (4 * (k + Z.of_nat m)) (8 * k) (4 * k) s =
    (Ret (8 * (k + Z.of_nat m), 4 * (k + Z.of_nat m)), s).
Proof.
  induction m as [|m IH]; intros k fuel s Hk Hf Hl Ho Hs.
  - rewrite Z.add_0_r. destruct fuel; cbn [loop_words]; by zbool.
  - destruct fuel as [|fuel]; [lia|]. cbn [loop_words]. rewrite (proj2 (Z.ltb_lt _ _)) by lia.
    rewrite (M_bind_ret _ _ s tt s) by (apply loop_word_silent; (done || lia)).
    replace (8 * k + 2 * 4) with (8 * (k + 1)) by lia. replace (4 * k + 4) with (4 * (k + 1)) by lia.
    replace (k + Z.of_nat (S m)) with (k + 1 + Z.of_nat m) in * by lia. apply IH; (done || lia).
Qed.

Lemma shift_silent txb n s : 0 ≤ n → 4 + 2 * word_ceil 4 n ≤ zlen txb →
  tdoOnly_ (io_tp s) = true → skip_ (io_tp s) = false →
  look txb n s = (Ret tt, s).
Proof.
  intros Hn Ht Ho Hs. unfold look. set (wbytes := n / 4 * 4). pose proof (Z.div_mod n 4 ltac:(lia)).
  pose proof (Z.mod_pos_bound n 4 ltac:(lia)). rewrite word_ceil_split in Ht by lia.
  pose proof (Z.div_pos n 4 ltac:(lia) ltac:(lia)). subst wbytes. rewrite (Z.mul_comm (n / 4)).
  pose proof (loop_words_silent txb (Z.to_nat (n / 4)) 0 (Z.to_nat (4 * (n / 4))) s) as Hl.
  rewrite Z.add_0_l, Z2Nat.id, !Z.mul_0_r in Hl by done.
  rewrite (M_bind_ret _ _ _ _ _ (Hl ltac:(lia) ltac:(lia) ltac:(destruct (_ =? 0); lia) Ho Hs)). cbn [fst snd].
  replace (n - 4 * (n / 4)) with (n `mod` 4) by lia.
  destruct (Z.eqb_spec (n `mod` 4) 0); [done|]. apply loop_word_silent; (done || lia).
Qed.

#[local] Instance playback_all : Target (list Z) := playback all.

Lemma playback_player : player (plays_back all).
Proof.
  split; [done|..].
  - intros vs d (_ & _ & content & rest & Hf & _). unfold lb_ok. by rewrite Hf.
  - intros dpt vs txb txBytes hsize size s (Hs & Ho & content & rest & Hf & Hc & Hr) Hm Ht Hl Hh.
    destruct (query_run dpt txb txBytes hsize size s Hm Ht Hl Hh) as (s' & E & Hrp & Et).
    { unfold lb_ok. by rewrite Hf. }
    exists s'. split; [done|]. split; [|done]. rewrite Et, Hf. split; [done|]. split; [done|].
    by exists content, content.
  - intros dpt vs txb txBytes hsize size s bits tms tdi h n. cbn [shifted playback playback_all].
    intros Hp Hab Hb Hv Hc Hg Hbits Ht _ _ _ Hr Hh. pose proof Hp as (Hs & Ho & _).
    assert (Hn : 1 ≤ n) by (subst n; Z.div_mod_to_equations; lia).
    pose proof (word_ceil_bounds 4 n ltac:(lia)) as Hwc. set (k := shift_words_of bits).
    assert (Hkl : (k ≤ length vs)%nat) by exact Hab.
    assert (Hk : 4 * Z.of_nat k - 4 < n ≤ 4 * Z.of_nat k) by (subst k n; unfold shift_words_of; Z.div_mod_to_equations; lia).
    fold n. set (o := take (Z.to_nat n) (word_bytes (take k vs))).
    assert (Lo : zlen o = n).
    { subst o. pose proof (word_bytes_length (take k vs)) as Lw. rewrite length_take in Lw.
      rewrite length_take. lia. }
    destruct (play_words_played (λ content, script content all) true n k (Z.to_nat n) [] (io_rx s) vs [] s) as (s1 & E1 & Ej & Ehd & Hp1 & Er);
      [done|lia|cbn [length]; lia|cbn [length]; lia|done|rewrite app_nil_r; exact Hp|]. rewrite app_nil_r in Hp1. cbn [length] in E1, Er.
    rewrite Z.sub_0_r in Er. fold o in Er. change ([] ++ ?l) with l in Er.
    destruct (put_header_run h s1) as (hd & E2 & T4 & Lh & Bh); [by rewrite Ehd|].
    exists (set_hd hd s1). split; [|split; [exact Hp1|split; [done|]]].
    + rewrite (xfer_shift dpt txb txBytes hsize size s bits) by (done || lia). fold n h.
      rewrite (M_bind_ret _ _ _ _ _ (lb_silent (checkLEN bits) s (check_silent bits _ _ Ho))).
      rewrite (M_bind_ret _ _ _ _ _ (shift_silent txb n s ltac:(lia) ltac:(lia) Ho Hs)).
      unfold mbind at 1, M_bind at 1. cbn [gets]. rewrite Hs. cbn [negb].
      rewrite (M_bind_ret _ _ _ _ _ E1), (M_bind_ret _ _ _ _ _ E2). done.
    + unfold replied. cbn [io_jd io_hd io_rx set_hd]. rewrite Er, T4, Lh, Ehd.
      split_and!; [done|done|done|by rewrite <-Ehd| | |].
      * intros Bx. apply bytes_app. split; [|by auto with xvc]. subst o. apply bytes_take, word_bytes_bytes.
      * apply take_app_length.
      * rewrite Lo. subst o. apply reply_frame; [|lia]. rewrite length_take in Lo. lia.
Qed.
End playback.

(** C24: what is written is played back: for every list of words, the driver
    that is opened on the file with one line for each ("TDO : 0x" and eight
    digits) reads just these words, one by one. *)
Theorem file_plays_back fnam ws f0 : text fnam ≠ [] → strstr (text fnam) (text "TdoOnly") = true → Forall is_u32 ws →
  ∃ d d', JtagDriverLoopBack_new fnam (Some (tdo_file ws)) f0 = Ret d ∧ plays_back ws ws d ∧
    getTDOs (length ws) d = (Ret ws, d').
Proof.
  intros Hf Ht Hw. destruct (opened_plays ws fnam (tdo_file ws) f0 Hf Ht (tdo_file_script ws Hw)) as (d & E & Hp).
  destruct (getTDOs_played ws ws d Hp) as (d' & E'). by exists d, d'.
Qed.

Lemma file_plays_back_witness :
  ∃ d d', JtagDriverLoopBack_new "run.TdoOnly.txt" (Some (tdo_file [0x04030201; 0xdeadbeef])) FWild = Ret d ∧
    plays_back [0x04030201; 0xdeadbeef] [0x04030201; 0xdeadbeef] d ∧
    getTDOs (length [0x04030201; 0xdeadbeef]) d = (Ret [0x04030201; 0xdeadbeef], d').
Proof.
  apply (file_plays_back "run.TdoOnly.txt" [0x04030201; 0xdeadbeef] FWild); [done|reflexivity|].
  repeat constructor; unfold is_u32; lia.
Defined.
