(* ===== verification/Recording.v ===== *)
(** * The loop-back driver checks a recording

    With a file that has whole records (the length of a shift, the words of
    its TMS and TDI vectors, the words of TDO), the loop-back driver
    compares every shift with the next record and answers with the TDO of
    the record.  It is shown to accept just the shifts that are recorded,
    and to throw at any other. *)

From stdpp Require Import base numbers option list strings.
From Stdlib Require Import ZArith Lia.
From S2P Require Import Prelude Header Driver LoopBack Vectors Player.
#[local] Open Scope Z_scope.

(** ** Records *)

Record record := mkRecord {
  r_bits : Z;
  r_vecs : list (Z * Z);
  r_tdo : list Z;
}.

(** The lines of a record: all pairs of TMS and TDI, then TDO. *)
Definition pair_lines (p : Z * Z) : list (string * Z) := [("TMS : %li"%string, fst p); ("TDI : %li"%string, snd p)].
Definition record_lines (r : record) : list (string * Z) :=
  ("LENBITS: %li"%string, r_bits r) :: concat (pair_lines <$> r_vecs r) ++ tdos (r_tdo r).
Definition records (rs : list record) : list (string * Z) := concat (record_lines <$> rs).

(** As many words as the length asks for. *)
Definition complete (r : record) : Prop :=
  length (r_vecs r) = shift_words_of (r_bits r) ∧ length (r_tdo r) = shift_words_of (r_bits r).

(** The words of a vector; the last one may be shorter. *)
Definition word (v : list Z) (j : Z) : Z := le_val (take 4 (drop (Z.to_nat (4 * j)) v)).
Definition words_at (tms tdi : list Z) (j : Z) : Z * Z := (word tms j, word tdi j).

(** The shift is the recorded one. *)
Definition recorded (r : record) (bits : Z) (tms tdi : list Z) : bool :=
  (r_bits r =? bits) && bool_decide (r_vecs r = words_at tms tdi <$> seqZ 0 (Z.of_nat (shift_words_of bits))).

(** ** Verdicts *)

Definition with_tp (d : JtagDriverLoopBack) (s : io JtagDriverLoopBack) : io JtagDriverLoopBack :=
  mkIo (io_jd s) d (io_hd s) (io_rx s).

Section checking.
Context (P : list Z → Prop).
Abbreviation checks := (reading P false).

(** An action that goes on if [b] holds, with the lines [ls] left, and
    throws otherwise. *)
Definition verdict {A} (b : bool) (m : XF A) (a : A) (s : io JtagDriverLoopBack) (ls : list (string * Z)) : Prop :=
  if b then ∃ d, m s = (Ret a, with_tp d s) ∧ checks ls d else ∃ msg s', m s = (Throw (RuntimeErr msg), s').

Lemma verdict_ret {A} (a : A) s ls : checks ls (io_tp s) → verdict true (mret a) a s ls.
Proof. intros Hc. exists (io_tp s). split; [by destruct s|done]. Qed.

Lemma verdict_bind {A B} b1 b2 (m : XF A) (k : A → XF B) a c s ls1 ls2 : verdict b1 m a s ls1 →
  (∀ d, checks ls1 d → verdict b2 (k a) c (with_tp d s) ls2) → verdict (b1 && b2) (m ≫= k) c s ls2.
Proof.
  intros Hm Hk. destruct b1; cbn [andb].
  - destruct Hm as (d & E & Hd). specialize (Hk d Hd). unfold verdict in *. rewrite (M_bind_ret _ _ _ _ _ E). exact Hk.
  - destruct Hm as (msg & s' & E). exists msg, s'. unfold mbind, M_bind. by rewrite E.
Qed.

Lemma verdict_lift {A B} b (o : outcome A) (k : A → XF B) a c s ls : o = Ret a → verdict b (k a) c s ls →
  verdict b (x ← lift o; k x) c s ls.
Proof. by intros ->. Qed.

(** [checkLEN], [checkTMS] and [checkTDI]. *)
Lemma verdict_check val fmt v s ls : checks ((fmt, v) :: ls) (io_tp s) →
  verdict (v =? val) (lb (o ← gets tdoOnly_; if negb o then check val fmt false ;; mret tt else mret tt)) tt s ls.
Proof.
  intros Hc. pose proof Hc as (_ & Ho & _). pose proof (check_line P false val fmt false v ls _ Hc) as Hk.
  unfold lb, zoom, verdict. unfold mbind, M_bind. cbn [gets]. rewrite Ho. cbn [negb andb] in *.
  destruct (v =? val); cbn [negb] in Hk.
  - destruct Hk as (d & E & Hd). exists d. split; [|done]. by rewrite E.
  - destruct Hk as (msg & d & E). eexists msg, _. by rewrite E.
Qed.

(** [getValLE] is the number in little-endian order, of up to eight bytes. *)
Lemma getValLE_val off n buf : bytes buf → 0 ≤ off → 0 ≤ n ≤ 8 → off + n ≤ zlen buf →
  getValLE off n buf = Ret (le_val (take (Z.to_nat n) (drop (Z.to_nat off) buf))).
Proof.
  intros Hb Ho Hn Hl. unfold getValLE. rewrite rd_ok by lia. cbn [mbind outcome_bind]. f_equal.
  assert (Hb' : bytes (take (Z.to_nat n) (drop (Z.to_nat off) buf))) by auto with xvc.
  assert (Hl' : zlen (take (Z.to_nat n) (drop (Z.to_nat off) buf)) ≤ 8) by len.
  revert Hb' Hl'. generalize (take (Z.to_nat n) (drop (Z.to_nat off) buf)). clear. intros l Hb.
  induction Hb as [|b l Hb Hl IH]; intros Hn; [done|]. cbn [foldr le_val length] in *. rewrite IH by lia.
  pose proof (le_val_bounds l Hl) as Hv. pose proof (Z.pow_le_mono_r 256 (zlen l) 7 ltac:(lia) ltac:(lia)).
  rewrite Z.shiftl_mul_pow2, wrap64_small by lia. rewrite Z.lor_comm. change 256 with (2 ^ 8). rewrite (Z.mul_comm (2 ^ 8)).
  apply lor_add; [lia|exact Hb].
Qed.

Lemma loop_word_verdict txb i j n p s ls : bytes txb → 0 ≤ i → 0 ≤ n ≤ 4 → 4 + 4 + i + n ≤ zlen txb →
  checks (pair_lines p ++ ls) (io_tp s) →
  let at_ off := le_val (take (Z.to_nat n) (drop (Z.to_nat off) txb)) in
  verdict (bool_decide (p = (at_ (4 + i), at_ (4 + 4 + i)))) (loop_word txb 4 i j n) tt s ls.
Proof.
  intros Hb Hi Hn Hl Hc at_. destruct p as [a b].
  replace (bool_decide _) with ((a =? at_ (4 + i)) && ((b =? at_ (4 + 4 + i)) && true)).
  2: { rewrite andb_true_r. destruct (Z.eqb_spec a (at_ (4 + i))) as [->|Ne], (Z.eqb_spec b (at_ (4 + 4 + i))) as [->|Ne'];
       symmetry; [by apply bool_decide_eq_true_2|by apply bool_decide_eq_false_2; intros [=]..]. }
  unfold loop_word. eapply verdict_lift; [by apply getValLE_val; (done || lia)|].
  eapply verdict_bind; [apply verdict_check, Hc|]. intros d1 Hd1. eapply verdict_lift; [by apply getValLE_val; (done || lia)|].
  eapply verdict_bind; [apply verdict_check, Hd1|]. intros d2 Hd2. cbn [io_tp with_tp] in *.
  pose proof Hd2 as (Hs & _). unfold verdict, mbind, M_bind. cbn [gets id io_tp with_tp]. rewrite Hs. by exists d2.
Qed.

(** The bytes of a packed message. *)
Lemma packed_word n tms tdi txb j m : packed 4 0 n tms tdi txb → zlen tms = n → zlen tdi = n → 0 ≤ j →
  m = Z.min 4 (n - 4 * j) → 0 ≤ m → 4 + 4 + 8 * j + m ≤ zlen txb →
  let at_ off := le_val (take (Z.to_nat m) (drop (Z.to_nat off) txb)) in
  (at_ (4 + 8 * j), at_ (4 + 4 + 8 * j)) = words_at tms tdi j.
Proof.
  intros Hp Lt Ld Hj Hm Hm0 Hl at_.
  assert (Hw : ∀ v k, zlen v = n → 0 ≤ k ≤ 4 → (∀ i, 0 ≤ i < n → ix txb (pos 4 i + k) = ix v i) →
    at_ (4 + k + 8 * j) = word v j).
  { intros v k Lv Hk Hv. subst at_. unfold word. f_equal. apply list_eq. intros i.
    destruct (decide (Z.of_nat i < m)).
    - rewrite !lookup_take_lt, !lookup_drop by lia. specialize (Hv (4 * j + Z.of_nat i) ltac:(lia)).
      rewrite (pos_word 4 j) in Hv by lia. rewrite <-!ix_nat. etrans; [|etrans; [exact Hv|]]; f_equal; lia.
    - rewrite lookup_take_ge by lia. symmetry. destruct (decide (i < 4)%nat).
      + rewrite lookup_take_lt, lookup_drop by lia. apply lookup_ge_None_2. lia.
      + apply lookup_take_ge. lia. }
  unfold words_at. rewrite <-(Hw tms 0), <-(Hw tdi 4); try done; [intros i Hi; apply Hp, Hi|].
  intros i Hi. rewrite Z.add_0_r. apply Hp, Hi.
Qed.

Lemma loop_words_verdict txb (ws : Z → Z * Z) : bytes txb → ∀ m k fuel vs s ls, length vs = m → (m ≤ fuel)%nat → 0 ≤ k →
  4 + 8 * (k + Z.of_nat m) ≤ zlen txb →
  (∀ j, k ≤ j < k + Z.of_nat m → let at_ off := le_val (take (Z.to_nat 4) (drop (Z.to_nat off) txb)) in
    (at_ (4 + 8 * j), at_ (4 + 4 + 8 * j)) = ws j) →
  checks (concat (pair_lines <$> vs) ++ ls) (io_tp s) →
  verdict (bool_decide (vs = ws <$> seqZ k (Z.of_nat m))) (loop_words fuel txb 4 (4 * (k + Z.of_nat m)) (8 * k) (4 * k))
    (8 * (k + Z.of_nat m), 4 * (k + Z.of_nat m)) s ls.
Proof.
  intros Hb. induction m as [|m IH]; intros k fuel vs s ls Lv Hf Hk Hl Hws Hc.
  - destruct vs; [|done]. rewrite bool_decide_eq_true_2 by done. rewrite !Z.add_0_r.
    replace (loop_words _ _ _ _ _ _) with (mret (8 * k, 4 * k) : XF _) by (destruct fuel; cbn [loop_words]; by zbool).
    by apply verdict_ret.
  - destruct vs as [|v vs]; [done|]. destruct fuel as [|fuel]; [lia|]. cbn [loop_words].
    rewrite (proj2 (Z.ltb_lt _ _)) by lia. rewrite seqZ_cons by lia. rewrite fmap_cons.
    replace (Z.pred (Z.of_nat (S m))) with (Z.of_nat m) by lia.
    replace (bool_decide _) with (bool_decide (v = ws k) && bool_decide (vs = ws <$> seqZ (Z.succ k) (Z.of_nat m))).
    2: { rewrite <-bool_decide_and. apply bool_decide_ext. split; [by intros [-> ->]|by intros [=]]. }
    rewrite fmap_cons in Hc. cbn [concat] in Hc. rewrite <-app_assoc in Hc.
    eapply verdict_bind.
    + rewrite <-(Hws k) by lia. apply loop_word_verdict; [done|lia..|exact Hc].
    + intros d Hd. replace (8 * k + 2 * 4) with (8 * Z.succ k) by lia. replace (4 * k + 4) with (4 * Z.succ k) by lia.
      replace (k + Z.of_nat (S m)) with (Z.succ k + Z.of_nat m) in * by lia.
      apply IH; [simpl in Lv; lia|lia|lia|lia|intros j Hj; apply Hws; lia|exact Hd].
Qed.

Lemma shift_verdict n tms tdi txb vs s ls : bytes txb → packed 4 0 n tms tdi txb → zlen tms = n → zlen tdi = n → 1 ≤ n →
  4 + 2 * word_ceil 4 n ≤ zlen txb → zlen vs = (n + 3) / 4 → checks (concat (pair_lines <$> vs) ++ ls) (io_tp s) →
  verdict (bool_decide (vs = words_at tms tdi <$> seqZ 0 ((n + 3) / 4))) (look txb n) tt s ls.
Proof.
  intros Hb Hp Lt Ld Hn Hl Lv Hc. unfold look. set (wbytes := n / 4 * 4). rewrite word_ceil_split in Hl by lia. set (q := n / 4) in *.
  pose proof (Z.div_mod n 4 ltac:(lia)) as Hq. pose proof (Z.mod_pos_bound n 4 ltac:(lia)). fold q in Hq.
  assert (Hq0 : 0 ≤ q) by (apply Z.div_pos; lia). set (rest := drop (Z.to_nat q) vs).
  set (extra := if n `mod` 4 =? 0 then 0 else 1).
  assert (Hw : (n + 3) / 4 = q + extra) by (subst extra; destruct (Z.eqb_spec (n `mod` 4) 0); Z.div_mod_to_equations; lia).
  assert (He : 0 ≤ extra ≤ 1) by (subst extra; by destruct (_ =? 0)). rewrite Hw in *.
  assert (Lr : zlen rest = extra) by (subst rest; rewrite length_drop; lia).
  rewrite <-(take_drop (Z.to_nat q) vs) in Hc |- *. fold rest in Hc |- *.
  rewrite (seqZ_app 0 q extra), fmap_app by lia. rewrite Z.add_0_l.
  replace (bool_decide _) with (bool_decide (take (Z.to_nat q) vs = words_at tms tdi <$> seqZ 0 q) &&
    bool_decide (rest = words_at tms tdi <$> seqZ q extra)).
  2: { rewrite <-bool_decide_and. apply bool_decide_ext. split; [by intros [-> ->]|].
       intros E. apply app_inj_1 in E; [done|]. rewrite length_fmap, length_seqZ, length_take. lia. }
  rewrite fmap_app, concat_app, <-app_assoc in Hc.
  pose proof (loop_words_verdict txb (words_at tms tdi) Hb (Z.to_nat q) 0 (Z.to_nat wbytes) (take (Z.to_nat q) vs) s (concat (pair_lines <$> rest) ++ ls)
    ltac:(rewrite length_take; lia) ltac:(lia) ltac:(lia) ltac:(destruct (_ =? 0); lia)) as Hv.
  rewrite !Z.add_0_l, Z2Nat.id, !Z.mul_0_r in Hv by lia. replace (4 * q) with wbytes in Hv by lia.
  eapply verdict_bind; [apply Hv; [|exact Hc]|].
  { intros j Hj. apply (packed_word n); (done || lia || (destruct (_ =? 0); lia)). }
  intros d Hd. cbn [fst snd]. replace (n - wbytes) with (n `mod` 4) by lia. subst extra.
  destruct (n `mod` 4 =? 0) eqn:Em; cbn [negb].
  - destruct rest; [|simpl in Lr; lia]. rewrite bool_decide_eq_true_2 by done. by apply verdict_ret.
  - apply Z.eqb_neq in Em. destruct rest as [|p [|]]; [simpl in Lr; lia| |simpl in Lr; lia].
    rewrite seqZ_cons by lia. cbn [fmap list_fmap]. change (seqZ (Z.succ q) (Z.pred 1)) with (@nil Z). cbn [fmap list_fmap].
    replace (bool_decide ([p] = _)) with (bool_decide (p = words_at tms tdi q))
      by (apply bool_decide_ext; split; [by intros ->|by intros [=]]).
    rewrite <-(packed_word n tms tdi txb q (n `mod` 4)) by (done || lia).
    apply loop_word_verdict; [done|lia..|exact Hd].
Qed.

(** *** [xfer] of a shift *)

Context `{Platform}.

(** The TDO of the record and the header are the reply. *)
Lemma reply_played h n vs ls s : zlen vs = (n + 3) / 4 → 1 ≤ n ≤ zlen (io_rx s) → 4 ≤ zlen (io_hd s) →
  checks (tdos vs ++ ls) (io_tp s) →
  ∃ s', (play_words (Z.to_nat n) 4 n 0 ;; put_header h ;; mret n) s = (Ret n, s') ∧ checks ls (io_tp s') ∧
    replied h (take (Z.to_nat n) (word_bytes vs)) s s'.
Proof.
  intros Lv Hn Hh Hc. set (o := take (Z.to_nat n) (word_bytes vs)).
  assert (Hm : 4 * zlen vs - 4 < n ≤ 4 * zlen vs) by (Z.div_mod_to_equations; lia).
  assert (Lo : zlen o = n) by (subst o; pose proof (word_bytes_length vs); rewrite length_take; lia).
  destruct (play_words_played P false n (length vs) (Z.to_nat n) [] (io_rx s) vs ls s) as (s1 & E1 & Ej & Ehd & Hp1 & Er);
    [done|lia|cbn [length]; lia|cbn [length]; lia|done|exact Hc|]. cbn [length] in E1, Er.
  rewrite Z.sub_0_r, (take_ge vs) in Er by done. fold o in Er. change ([] ++ ?l) with l in Er. rewrite drop_all in Hp1.
  destruct (put_header_run h s1) as (hd & E2 & T4 & Lh & Bh); [by rewrite Ehd|].
  exists (set_hd hd s1). split; [by rewrite (M_bind_ret _ _ _ _ _ E1), (M_bind_ret _ _ _ _ _ E2)|]. split; [exact Hp1|].
  unfold replied. cbn [io_jd io_hd io_rx set_hd]. rewrite Er, T4, Lh, Ehd.
  split_and!; [done|done|done|by rewrite <-Ehd| | |].
  - intros Bx. apply bytes_app. split; [|by auto with xvc]. subst o. apply bytes_take, word_bytes_bytes.
  - apply take_app_length.
  - rewrite Lo. subst o. apply reply_frame; [|lia]. rewrite length_take in Lo. lia.
Qed.

Lemma xfer_checks dpt r rs txb txBytes hsize size s bits tms tdi : let h := le_val (take 4 txb) in let n := (bits + 7) / 8 in
  checks (records (r :: rs)) (io_tp s) → complete r → bytes txb →
  getVrs h = PVER0 → getCmd h = CMD_S → getLen h = Ret bits → 1 ≤ bits →
  4 + 2 * word_ceil 4 n ≤ txBytes ≤ zlen txb → packed 4 0 n tms tdi txb → zlen tms = n → zlen tdi = n →
  n ≤ zlen (io_rx s) → 4 ≤ zlen (io_hd s) →
  if recorded r bits tms tdi
  then ∃ s', loopback_xfer dpt txb txBytes hsize size s = (Ret n, s') ∧ checks (records rs) (io_tp s') ∧
    replied h (take (Z.to_nat n) (word_bytes (r_tdo r))) s s'
  else ∃ msg s', loopback_xfer dpt txb txBytes hsize size s = (Throw (RuntimeErr msg), s').
Proof.
  intros h n Hc [Cv Ct] Hb Hv Hcm Hg Hbits Ht Hp Lt Ld Hr Hh.
  assert (Hn : 1 ≤ n) by (subst n; Z.div_mod_to_equations; lia). pose proof (word_ceil_bounds 4 n ltac:(lia)) as Hwc.
  change (records (r :: rs)) with (("LENBITS: %li"%string, r_bits r) ::
    (concat (pair_lines <$> r_vecs r) ++ tdos (r_tdo r)) ++ records rs) in Hc. rewrite <-app_assoc in Hc.
  rewrite (xfer_shift dpt txb txBytes hsize size s bits) by (done || lia). fold n h.
  pose proof (verdict_check bits _ _ s _ Hc : verdict _ (lb (checkLEN bits)) tt s _) as Hlen. unfold recorded.
  set (tail := skip ← gets (λ s, skip_ (io_tp s)); _).
  destruct (Z.eqb_spec (r_bits r) bits) as [Eb|Hne]; cbn [andb] in *; cycle 1.
  { destruct Hlen as (msg & s' & E). exists msg, s'. unfold mbind, M_bind. by rewrite E. }
  destruct Hlen as (d & E & Hd). rewrite (M_bind_ret _ _ _ _ _ E).
  assert (HW : Z.of_nat (shift_words_of bits) = (n + 3) / 4) by (unfold shift_words_of; subst n; Z.div_mod_to_equations; lia).
  rewrite Eb in *. rewrite HW. pose proof (shift_verdict n tms tdi txb (r_vecs r) (with_tp d s) (tdos (r_tdo r) ++ records rs)
    Hb Hp Lt Ld Hn ltac:(lia) ltac:(lia) Hd) as Hs.
  destruct (bool_decide _).
  - destruct Hs as (d' & E' & Hd'). rewrite (M_bind_ret _ _ _ _ _ E'). subst tail.
    rewrite (M_bind_ret _ _ _ (skip_ d') _) by done. pose proof Hd' as (-> & _). cbn [negb].
    by apply (reply_played h n (r_tdo r) (records rs) (with_tp d' (with_tp d s))); [lia| | |].
  - destruct Hs as (msg & s' & E'). exists msg, s'. unfold mbind, M_bind. by rewrite E'.
Qed.

End checking.

(** ** A session against a recording *)

Section session.
Context `{Platform} (HLE : isLE = true) (P : list Z → Prop).
Abbreviation Axis := (JtagDriverAxisToJtag JtagDriverLoopBack).
Abbreviation checks := (reading P false).

(** A shift and its vectors, and a driver with room for the message. *)
Definition shift_args : Type := Z * list Z * list Z.
Definition shiftable (room : Z) (c : shift_args) : Prop :=
  let '(bits, tms, tdi) := c in let n := (bits + 7) / 8 in
  1 ≤ bits ≤ 2 ^ 20 ∧ bytes tms ∧ bytes tdi ∧ zlen tms = n ∧ zlen tdi = n ∧ 4 + 2 * word_ceil 4 n ≤ room.

Lemma recorded_tdo r bits tms tdi : complete r → recorded r bits tms tdi = true → 1 ≤ bits →
  zlen (take (Z.to_nat ((bits + 7) / 8)) (word_bytes (r_tdo r))) = (bits + 7) / 8.
Proof.
  unfold recorded. intros [_ Lt] [<-%Z.eqb_eq _]%andb_true_iff Hb. pose proof (word_bytes_length (r_tdo r)) as Lw.
  rewrite length_take. rewrite Lt in Lw. unfold shift_words_of in Lw. Z.div_mod_to_equations. lia.
Qed.

Lemma shift_checked r rs bits tms tdi tdo (a : Axis) : let n := (bits + 7) / 8 in
  axis_ok a → getSniff (jd a) = false → checks (records (r :: rs)) (tp a) → complete r →
  shiftable (bufSz_ a) (bits, tms, tdi) → zlen tdo = n →
  if recorded r bits tms tdi
  then ∃ a', sendVectors bits tms tdi tdo a = (Ret (take (Z.to_nat n) (word_bytes (r_tdo r))), a') ∧
    checks (records rs) (tp a') ∧ jd a' = jd a
  else ∃ msg a', sendVectors bits tms tdi tdo a = (Throw (RuntimeErr msg), a').
Proof.
  intros n A Hs Hp Hc (Hb & Bt & Bd & Lt & Ld & Hr) Lo. fold n in Lt, Ld, Hr.
  pose proof (ok_word _ A) as Hw. cbn in Hw. destruct (ok_hdBuf _ A) as [_ Hhl].
  assert (Hwc : n ≤ word_ceil 4 n) by (apply word_ceil_bounds; subst n; Z.div_mod_to_equations; lia).
  pose proof (λ msg, xfer_checks P emulMemDepth r rs msg (4 + 2 * word_ceil 4 n) 4 n (mkIo (jd a) (tp a) (hdBuf_ a) tdo)
    bits tms tdi) as Hx. cbv zeta in Hx. fold n in Hx.
  destruct (recorded r bits tms tdi) eqn:Er.
  - pose proof (recorded_tdo r bits tms tdi Hc Er ltac:(lia)) as Lk. fold n in Lk. destruct (sendVectors_by bits tms tdi tdo a (λ s', checks (records rs) (io_tp s') ∧ io_rx s' = take (Z.to_nat n) (word_bytes (r_tdo r)))
      A Hs Hb Bt Bd) as (s' & a' & E & Et & (Hp' & Eo) & Ej & _); [fold n; rewrite ?Hw; lia..| |].
    + fold n. rewrite Hw. intros msg Bm Lm Hpk h Hv Hcm Hg.
      destruct (Hx msg Hp Hc Bm Hv Hcm Hg) as (s' & E & Hp' & Ej & T4 & Lh & Bh & _ & Etk & [Lrx _]);
        cbn [io_rx io_hd]; try done; [lia..|].
      exists s'. split; [exact E|]. split; [done|]. split; [rewrite T4; apply (store32_le HLE); [done|lia]|].
      split; [done|]. split; [done|]. split; [done|]. cbn [io_rx] in Lrx. rewrite <-Etk. symmetry. apply take_ge.
      lia.
    + exists a'. by rewrite Eo, <-Et in *.
  - destruct (sendVectors_throws bits tms tdi tdo a (λ e, ∃ msg, e = RuntimeErr msg) A Hb Bt Bd) as (e & a' & E & msg & ->);
      [by intros []|fold n; rewrite ?Hw; lia..| |by exists msg, a'].
    fold n. rewrite Hw. intros msg Bm Lm Hpk h Hv Hcm Hg.
    destruct (Hx msg Hp Hc Bm Hv Hcm Hg) as (t & s' & E); cbn [io_rx io_hd]; try done; [lia..|]. eexists _, _. split; [exact E|by exists t].
Qed.

(** A session: one shift after the other, each with a buffer for its TDO. *)
Fixpoint replay (cs : list shift_args) : M Axis (list (list Z)) :=
  match cs with
  | [] => mret []
  | (bits, tms, tdi) :: cs =>
      tdo ← sendVectors bits tms tdi (replicate (Z.to_nat ((bits + 7) / 8)) 0);
      tdos ← replay cs;
      mret (tdo :: tdos)
  end.

(** The shifts are those of the records, one by one. *)
Fixpoint matches (rs : list record) (cs : list shift_args) : bool :=
  match rs, cs with
  | r :: rs, (bits, tms, tdi) :: cs => recorded r bits tms tdi && matches rs cs
  | _, _ => true
  end.

Fixpoint told (rs : list record) (cs : list shift_args) : list (list Z) :=
  match rs, cs with
  | r :: rs, (bits, _, _) :: cs => take (Z.to_nat ((bits + 7) / 8)) (word_bytes (r_tdo r)) :: told rs cs
  | _, _ => []
  end.

(** C13: in a session on the loop-back driver with a file of whole records,
    of which there are enough left, the driver accepts the shifts exactly if
    each of them is the recorded one (the same number of bits and the same
    words of TMS and TDI), and then answers with the recorded TDO, cut to
    the length of the shift, and has read just these records; at the first
    shift that differs it throws. *)
Theorem recording_checked cs : ∀ rs (a : Axis), axis_ok a → getSniff (jd a) = false → checks (records rs) (tp a) →
  (length cs ≤ length rs)%nat → Forall complete rs → Forall (shiftable (bufSz_ a)) cs →
  if matches rs cs
  then ∃ a', replay cs a = (Ret (told rs cs), a') ∧ checks (records (drop (length cs) rs)) (tp a')
  else ∃ msg a', replay cs a = (Throw (RuntimeErr msg), a').
Proof.
  induction cs as [|[[bits tms] tdi] cs IH]; intros rs a A Hs Hp Hl Hrs Hcs.
  { destruct rs; cbn [matches told]; by exists a. }
  destruct rs as [|r rs]; [simpl in Hl; lia|]. inversion Hrs as [|? ? Hc Hrs']; inversion Hcs as [|? ? Hsh Hcs']; subst.
  set (n := (bits + 7) / 8). set (tdo := replicate (Z.to_nat n) 0). pose proof Hsh as (Hb & Bt & Bd & Lt & Ld & Hr).
  fold n in Lt, Ld, Hr. assert (Hn : 0 ≤ n) by lia.
  assert (Lo : zlen tdo = n) by (subst tdo; rewrite length_replicate; lia).
  pose proof (shift_checked r rs bits tms tdi tdo a A Hs Hp Hc Hsh Lo) as Hk. cbv zeta in Hk. fold n in Hk.
  cbn [matches told replay length drop]. fold n tdo. destruct (recorded r bits tms tdi); cbn [andb]; cycle 1.
  { destruct Hk as (msg & a' & E). exists msg, a'. unfold mbind, M_bind. by rewrite E. }
  destruct Hk as (a' & E & Hp' & Ej). rewrite (M_bind_ret _ _ _ _ _ E). pose proof (ok_word _ A) as Hw. cbn in Hw.
  pose proof (send_ok bits tms tdi tdo a A Hs Hb Bt Bd ltac:(by apply Forall_replicate)) as Hk. cbv zeta in Hk.
  fold n in Hk. rewrite Hw, E in Hk. destruct Hk as (_ & A' & (_ & _ & Ez & _) & _); [lia..|].
  specialize (IH rs a' A' ltac:(by rewrite Ej) Hp' ltac:(simpl in Hl; lia) Hrs' ltac:(by rewrite Ez)).
  destruct (matches rs cs).
  - destruct IH as (a2 & E2 & Hp2). exists a2. by rewrite (M_bind_ret _ _ _ _ _ E2).
  - destruct IH as (msg & a2 & E2). exists msg, a2. unfold mbind, M_bind. by rewrite E2.
Qed.
End session.

(** ** The first two records of test/testData.txt *)

Module TestData.
#[local] Existing Instance le_platform.

Definition content : list Z := concat ((λ l, text l ++ [10]) <$>
  ["LENBITS: 5"; "TMS : 0x0000001f"; "TDI : 0x00000000"; "TDO : 0x00000001"; "LENBITS: 43"; "TMS : 0x0000005f";
   "TDI : 0x0001fe00"; "TMS : 0x00000300"; "TDI : 0x00000000"; "TDO : 0x00612600"; "TDO : 0x00000614"]%string).

Definition recording : list record :=
  [mkRecord 5 [(0x1f, 0)] [1]; mkRecord 43 [(0x5f, 0x1fe00); (0x300, 0)] [0x612600; 0x614]].

Definition driver : JtagDriverLoopBack := mkLoopBack (FOpen content content) false false 1.
Definition axis : JtagDriverAxisToJtag JtagDriverLoopBack := JtagDriverAxisToJtag_new 0 1 driver.

Lemma opened : JtagDriverLoopBack_new "testData.txt" (Some content) FWild = Ret driver.
Proof. reflexivity. Qed.

Lemma lines_as rest l rest' fmt v w ls : rest ≠ [] → fgets 511 rest = (l, rest') → sscanf (c_str l) (text fmt) = Some v →
  w = wrap64 v → lines rest' ls → lines rest ((fmt, w) :: ls).
Proof. intros ? ? ? ->. by eapply lines_next. Qed.

Lemma content_lines : lines content (records recording).
Proof.
  unfold records, recording, record_lines. cbn [fmap list_fmap concat app pair_lines tdos r_bits r_vecs r_tdo].
  repeat (eapply lines_as; [discriminate|reflexivity|reflexivity|reflexivity|]). constructor.
Qed.

Lemma axis_fine : axis_ok axis.
Proof. apply axis_new_ok; [unfold is_byte; lia|exact I]. Qed.

(** The recorded session, and one in which the last bit of TMS differs. *)
Definition session (last : Z) : list shift_args := [(5, [0x1f], [0]); (43, [0x5f; 0; 0; 0; 0; last], [0; 0xfe; 1; 0; 0; 0])].

Lemma session_fine last : is_byte last → Forall (shiftable 2048) (session last).
Proof.
  intros Hl. unfold is_byte in Hl. repeat constructor; unfold is_byte; try lia; vm_compute; done.
Qed.

Lemma recording_checked_witness :
  (∃ a', replay (session 3) axis = (Ret [[1]; [0; 0x26; 0x61; 0; 0x14; 6]], a') ∧
    reading (λ c, c = content) false (records []) (tp a')) ∧
  ∃ msg a', replay (session 7) axis = (Throw (RuntimeErr msg), a').
Proof.
  split.
  - apply (@recording_checked le_platform eq_refl (λ c, c = content) (session 3) recording axis axis_fine eq_refl).
    + split; [reflexivity|]. split; [reflexivity|]. exists content, content. split; [reflexivity|]. split; [reflexivity|exact content_lines].
    + simpl. lia.
    + repeat constructor.
    + apply session_fine. unfold is_byte. lia.
  - apply (@recording_checked le_platform eq_refl (λ c, c = content) (session 7) recording axis axis_fine eq_refl).
    + split; [reflexivity|]. split; [reflexivity|]. exists content, content. split; [reflexivity|]. split; [reflexivity|exact content_lines].
    + simpl. lia.
    + repeat constructor.
    + apply session_fine. unfold is_byte. lia.
Defined.
End TestData.
