(* ===== verification/Stack.v ===== *)
(** * The server on a driver

    The AxisToJtag driver implements the interface the connection relies
    on, for every transport that respects its own.  A transport that does
    the shifting itself ([shifter]) drives the target behind it; with the
    loop-back transport this gives the end-to-end behaviour of the server on
    the octets of a client. *)

From stdpp Require Import base numbers option list strings pretty.
From Stdlib Require Import ZArith Lia.
From S2P Require Import Prelude Header Tap Driver LoopBack Vectors Conn ConnSpec Target Player.
#[local] Open Scope Z_scope.

(** The virtual functions of [JtagDriver] that the connection calls. *)
#[export] Instance axis_ifc `{Platform} {T} `{Transport T} : JtagDriverIfc (JtagDriverAxisToJtag T) := {
  drv_query := query;
  drv_getMaxVectorSize a := getMaxVectorSize (getWordSize a) (tp a);
  drv_setPeriodNs := setPeriodNs;
  drv_sendVectors := sendVectors;
}.

(** ** The driver looks at the bytes of the vectors only *)

Lemma rd_take off k n l : off + k ≤ n → n ≤ zlen l → rd off k (take (Z.to_nat n) l) = rd off k l.
Proof.
  intros Hk Hn. unfold rd.
  destruct (Z.leb_spec 0 off); [|done]. destruct (Z.leb_spec 0 k); [|done]. cbn [andb].
  rewrite length_take, Nat.min_l by lia. rewrite !(proj2 (Z.leb_le _ _)) by lia.
  f_equal. rewrite skipn_firstn_comm, firstn_firstn. f_equal. lia.
Qed.

Lemma memcpy_take doff src soff k n dst : soff + k ≤ n → n ≤ zlen src →
  memcpy doff (take (Z.to_nat n) src) soff k dst = memcpy doff src soff k dst.
Proof. intros. unfold memcpy. by rewrite rd_take. Qed.

Lemma pack_words_take wsz n tms tdi q : 0 < wsz → wsz * q ≤ n → n + wsz < 2 ^ 32 →
  n ≤ zlen tms → n ≤ zlen tdi → ∀ fuel j wp buf, 0 ≤ j ≤ q →
  pack_words fuel wsz (wsz * q) (wsz * j) wp (take (Z.to_nat n) tms) (take (Z.to_nat n) tdi) buf =
  pack_words fuel wsz (wsz * q) (wsz * j) wp tms tdi buf.
Proof.
  intros Hw Hq Hn Ht Hd. induction fuel as [|fuel IH]; intros j wp buf Hj; cbn [pack_words].
  - done.
  - destruct (Z.ltb_spec (wsz * j) (wsz * q)); [|done].
    assert (j < q) by (apply (Z.mul_lt_mono_pos_l wsz); lia).
    assert (wsz * (j + 1) ≤ wsz * q) by nia.
    rewrite memcpy_take by lia. destruct (memcpy _ tms _ _ _); try done. cbn [mbind outcome_bind].
    rewrite memcpy_take by lia. destruct (memcpy _ tdi _ _ _); try done. cbn [mbind outcome_bind].
    rewrite wrap32_small by (unfold is_u32; nia).
    replace (wsz * j + wsz) with (wsz * (j + 1)) by lia. apply IH. lia.
Qed.

(** The final [idx] is the end of the whole words. *)
Lemma pack_words_idx wsz q tms tdi : 0 < wsz → wsz * q + wsz < 2 ^ 32 → ∀ fuel j wp buf idx wp' buf', 0 ≤ j ≤ q →
  pack_words fuel wsz (wsz * q) (wsz * j) wp tms tdi buf = Ret (idx, wp', buf') → idx = wsz * q.
Proof.
  intros Hw Hq. induction fuel as [|fuel IH]; intros j wp buf idx wp' buf' Hj; cbn [pack_words];
    (destruct (Z.ltb_spec (wsz * j) (wsz * q)); [|intros [= <- _ _]; nia]); [done|].
  assert (j < q) by (apply (Z.mul_lt_mono_pos_l wsz); lia).
  destruct (memcpy _ tms _ _ _); try done. cbn [mbind outcome_bind].
  destruct (memcpy _ tdi _ _ _); try done. cbn [mbind outcome_bind].
  rewrite wrap32_small by (unfold is_u32; nia).
  replace (wsz * j + wsz) with (wsz * (j + 1)) by lia. apply IH. nia.
Qed.

Lemma pack_take wsz n tms tdi buf : 0 < wsz → 0 ≤ n → n + wsz < 2 ^ 32 →
  n ≤ zlen tms → n ≤ zlen tdi →
  pack wsz (wsz * (n / wsz)) (n `mod` wsz) (take (Z.to_nat n) tms) (take (Z.to_nat n) tdi) buf =
  pack wsz (wsz * (n / wsz)) (n `mod` wsz) tms tdi buf.
Proof.
  intros Hw Hn Ho Ht Hd. pose proof (Z.div_mod n wsz ltac:(lia)).
  pose proof (Z.mod_pos_bound n wsz Hw). pose proof (Z.div_pos n wsz Hn Hw).
  unfold pack. pose proof (pack_words_take wsz n tms tdi (n / wsz) Hw ltac:(lia) ltac:(lia) Ht Hd
    (Z.to_nat (wsz * (n / wsz))) 0 wsz buf ltac:(lia)) as Hp.
  rewrite Z.mul_0_r in Hp. rewrite Hp. clear Hp.
  destruct (pack_words _ _ _ _ _ _ _ _) as [[[idx wp] b]| | |] eqn:E; [|done..].
  assert (idx = wsz * (n / wsz)) as ->.
  { eapply (pack_words_idx wsz (n / wsz) tms tdi Hw ltac:(lia) _ 0); [lia|].
    rewrite Z.mul_0_r. exact E. }
  cbn [mbind outcome_bind]. destruct (negb _); [|done].
  rewrite memcpy_take by lia. destruct (memcpy _ tms _ _ _); try done. cbn [mbind outcome_bind].
  apply memcpy_take; lia.
Qed.

Section laws.
Context `{Platform} {T : Type} `{Transport T} `{!TransportLaws T}.
Abbreviation Axis := (JtagDriverAxisToJtag T).
Lemma transfer_local bits tms tdi tms' tdi' tdo (a : Axis) : axis_ok a → getSniff (jd a) = false →
  let n := (bits + 7) / 8 in let wsz := wordSize_ a in
  message_ok wsz (wsz + 2 * word_ceil wsz n) n (txBuf_ a) → 0 ≤ n ≤ zlen tdo → bytes tdo →
  transfer bits tms tdi tdo a = transfer bits tms' tdi' tdo a.
Proof.
  intros A Hs n wsz Hm Hl Hb. unfold transfer, mbind, M_bind. cbn [gets]. unfold with_rx.
  change (getWordSize a) with wsz. fold n.
  pose proof (xferRel_ok (wsz + 2 * word_ceil wsz n) n (a, tdo) ltac:(done)) as Hx.
  unfold total in Hx. destruct (xferRel _ _ (a, tdo)) as [[gh|e|u|] [a' rx]]; try done.
  destruct Hx as (Hp & _). cbn [fst snd] in *.
  assert (getSniff (jd a') = false) as ->; [|done].
  unfold getSniff in *. by destruct Hp as (_ & _ & _ & _ & _ & _ & _ & ->).
Qed.

Lemma sendVectors_take bits tms tdi tdo (a : Axis) : axis_ok a → getSniff (jd a) = false →
  0 ≤ bits ≤ 2 ^ 20 → let n := (bits + 7) / 8 in let wsz := wordSize_ a in
  wsz + 2 * word_ceil wsz n ≤ bufSz_ a → n ≤ zlen tms → n ≤ zlen tdi → n ≤ zlen tdo →
  bytes tms → bytes tdi → bytes tdo →
  sendVectors bits tms tdi tdo a =
    sendVectors bits (take (Z.to_nat n) tms) (take (Z.to_nat n) tdi) tdo a.
Proof.
  intros A Hs Hb n wsz Hf Ht Hd Ho Bt Bd Bo. pose proof (ok_wordSize _ A) as Hw.
  destruct (Z.eq_dec bits 0) as [->|Hb0].
  { destruct (send_none tdo a A) as (m & E & Hm & L & B). rewrite !E. subst n wsz. change ((0 + 7) / 8) with 0 in *.
    apply transfer_local; [|done|cbn zeta; change ((0 + 7) / 8) with 0; by rewrite word_ceil_0, Z.add_0_r|cbn zeta; change ((0 + 7) / 8) with 0; lia|done].
    apply set_tx_axis_ok; [done..|]. pose proof (newXid_range (xid_ a) (ok_xid _ A)). unfold is_byte, shift_xid. lia. }
  assert (Hn : 1 ≤ n ≤ 2 ^ 17) by (subst n; Z.div_mod_to_equations; lia).
  destruct (send_build bits tms tdi tdo a) as (m1 & E1 & S1 & L1 & H1' & _ & B1); [done|lia|done..|].
  destruct (send_build bits (take (Z.to_nat n) tms) (take (Z.to_nat n) tdi) tdo a)
    as (m2 & E2 & S2 & _); [done|lia|rewrite length_take; subst n; lia..|done|].
  assert (m1 = m2) as <-.
  { unfold build in E1, E2. destruct (setHdr _ _ _); try done. cbn [mbind outcome_bind] in E1, E2.
    fold n in E1, E2. rewrite pack_take in E2 by lia. congruence. }
  rewrite S1, S2. apply transfer_local; try done.
  - apply set_tx_axis_ok; [done|done|by apply B1|].
    pose proof (newXid_range (xid_ a) (ok_xid _ A)). unfold is_byte, shift_xid. lia.
  - apply (shift_message_ok bits a m1); [done|lia|done|done|by apply B1|done].
  - lia.
Qed.

(** The sniffer is off. *)
Definition axis_drv_ok (a : Axis) : Prop := axis_ok a ∧ getSniff (jd a) = false.
(** The message of a vector fits the buffer, whatever word size the target
    announces. *)
Definition axis_room (a : Axis) (n : Z) : Prop :=
  ∀ w, 4 ≤ w ≤ 16 → word_ok w → w + 2 * word_ceil w n ≤ bufSz_ a.

Lemma room_now a n : axis_ok a → axis_room a n → wordSize_ a + 2 * word_ceil (wordSize_ a) n ≤ bufSz_ a.
Proof. intros A Hr. apply Hr; apply A. Qed.

(** Short vectors always fit. *)
Lemma axis_room_short a n : axis_ok a → 0 ≤ n ≤ 1001 → axis_room a n.
Proof. intros A Hn w Hw _. pose proof (word_ceil_bounds w n ltac:(lia)). pose proof (ok_bufSz _ A). lia. Qed.
Lemma axis_room_words a n : (∀ w, word_ok w → w = 4) → axis_ok a → 0 ≤ n ≤ 1020 → axis_room a n.
Proof.
  intros Hw4 A Hn w _ Hw. rewrite (Hw4 w Hw). pose proof (ok_bufSz _ A). unfold word_ceil. Z.div_mod_to_equations. lia.
Qed.

Lemma sniff_same (a a' : Axis) : debug_ (jd a') = debug_ (jd a) →
  getSniff (jd a) = false → getSniff (jd a') = false.
Proof. unfold getSniff. by intros ->. Qed.

(** The AxisToJtag driver keeps the promises the connection relies on. *)
#[export] Program Instance axis_laws : JtagDriverLaws Axis := {
  drv_ok := axis_drv_ok;
  room := axis_room;
}.
Next Obligation. intros a [A _]. apply max_unsigned, A. Qed.
Next Obligation.
  intros a [A Hs]. pose proof (query_ok a A) as Hq. unfold drv_query, axis_ifc.
  destruct (query a) as [[n|e|u|] a']; try done; cycle 1.
  { intros Hsys. destruct Hq as [[A' Hd]|[-> _]]; [|done]. split; [done|by eapply sniff_same]. }
  destruct Hq as (A' & -> & _ & Hd & _ & Hb & _). pose proof (ok_wordSize _ A').
  pose proof (ok_memDepth _ A'). split; [nia|]. split; [split; [done|by eapply sniff_same]|].
  intros k Hk w Hw Hwo. specialize (Hk w Hw Hwo). lia.
Qed.
Next Obligation.
  intros a p [A Hs] _. unfold drv_setPeriodNs, axis_ifc, setPeriodNs, mbind, M_bind. cbn [gets].
  by destruct (0 =? p); (split; [split|]).
Qed.
Next Obligation.
  intros a bits tms tdi tdo n [A Hs] Hb Hr Bt Bd Bo Ht Hd Ho. unfold drv_sendVectors, axis_ifc.
  pose proof (send_any_ok bits tms tdi tdo a A Hs Hb Bt Bd Bo Ht Hd Ho (room_now _ _ A Hr)) as Hx.
  destruct (sendVectors _ _ _ _ _) as [[tdo'|e|u|] a']; try by destruct Hx.
  2: { destruct Hx as (_ & A' & (_ & _ & _ & _ & _ & G6) & _). split; [done|by eapply sniff_same]. }
  destruct Hx as ([[Hl _] Hbt] & A' & (G1 & G2 & G3 & G4 & G5 & G6) & _).
  split; [split; [done|by eapply sniff_same]|]. split; [|done].
  intros k. unfold axis_room. by rewrite G3.
Qed.
Next Obligation.
  intros a bits tms tdi tdo n [A Hs] Hb Hr Bt Bd Bo Ht Hd Ho. by apply sendVectors_take; try apply room_now.
Qed.

(** There is room for what the connection will send, for any target, when
    the connection itself is limited to short vectors. *)
Lemma axis_query_ok (a : Axis) tgt a' : axis_drv_ok a → query a = (Ret tgt, a') → axis_ok a'.
Proof. intros [A _] Eq. pose proof (query_ok a A) as Hq. rewrite Eq in Hq. apply Hq. Qed.
Lemma axis_roomy (a : Axis) maxVecLen : axis_drv_ok a → maxVecLen ≤ 1001 → roomy a maxVecLen.
Proof. intros Hd Hm tgt a' Eq k Hk Hkm. apply axis_room_short; [by eapply axis_query_ok|lia]. Qed.
Lemma axis_roomy_words (a : Axis) maxVecLen : (∀ w, word_ok w → w = 4) → axis_drv_ok a → maxVecLen ≤ 1020 →
  roomy a maxVecLen.
Proof. intros Hw Hd Hm tgt a' Eq k Hk Hkm. apply axis_room_words; [done|by eapply axis_query_ok|lia]. Qed.
End laws.

(** A driver that was told the period reports it. *)
Lemma told_period `{Platform} {T} `{Transport T} {St} `{Target St} (a : JtagDriverAxisToJtag T) p :
  periodNs_ a = tck (St := St) → setPeriodNs p a = (Ret (told (St := St) p), a).
Proof.
  intros Hp. unfold setPeriodNs, mbind, M_bind. cbn [gets]. unfold getPeriodNs, told. rewrite Hp.
  change UNKNOWN_PERIOD with 0. generalize (tck (St := St)). intros t. rewrite (Z.eqb_sym 0 t).
  by destruct (Z.eqb_spec 0 p) as [<-|], (Z.eqb_spec t 0) as [->|].
Qed.

(** ** Drivers that do the work themselves

    A transport with words of four bytes that answers a query with the
    period of the target and shifts the target [St] behind it: [R0 st a] before the query
    and [R st a] after it.  It announces [tgt] and the limit [Max], and
    takes vectors of up to [n_max] bytes. *)

Section drives.
Context `{Platform} {T : Type} `{Transport T} `{!TransportLaws T} {St : Type} `{Target St}.
Abbreviation Axis := (JtagDriverAxisToJtag T).
Context (R0 R : St → Axis → Prop) (tgt Max n_max : Z).

Record shifter : Prop := {
  sh_size st a : axis_ok a → R st a → wordSize_ a = 4;
  sh_idle st a : R st a → R0 st a;
  sh_max st a : R st a → getMaxVectorSize 4 (tp a) = Max;
  sh_query st (a : Axis) : axis_ok a → R0 st a →
    ∃ a', query a = (Ret tgt, a') ∧ periodNs_ a' = tck (St := St) ∧ R (queried st) a';
  sh_send st (a : Axis) bits tms tdi tdo : let n := (bits + 7) / 8 in
    let (st', o) := shifted st bits tms tdi in
    axis_ok a → R st a → able st bits → n ≤ n_max → getSniff (jd a) = false → 1 ≤ bits ≤ 2 ^ 20 →
    bytes tms → bytes tdi → bytes tdo →
    zlen tms = n → zlen tdi = n → n ≤ zlen tdo → 4 + 2 * word_ceil 4 n ≤ bufSz_ a →
    ∃ tdo' a', sendVectors bits tms tdi tdo a = (Ret tdo', a') ∧ R st' a' ∧ take (Z.to_nat n) tdo' = o;
}.
Context (HS : shifter).

Definition shifts (st : St) (a : Axis) : Prop := axis_drv_ok a ∧ R0 st a.
Definition shifting (st : St) (a : Axis) : Prop := axis_drv_ok a ∧ R st a ∧ periodNs_ a = tck (St := St).

Lemma shifts_query st a : shifts st a → ∃ a', query a = (Ret tgt, a') ∧ shifting (queried st) a'.
Proof.
  intros [[A Hs] Hg]. destruct (sh_query HS st a A Hg) as (a' & E & Hp & Hg').
  exists a'. split; [done|]. pose proof (query_ok a A) as Hq. rewrite E in Hq. destruct Hq as (A' & _ & _ & Hdb & _).
  split; [|done]. split; [done|by eapply sniff_same].
Qed.

Program Definition shifter_drives : Drives Axis St := {|
  idle := shifts;
  tracks := shifting;
  most := n_max;
|}.
Next Obligation. by intros st a []. Qed.
Next Obligation. intros st a (Hd & Hg & _). split; [done|by apply (sh_idle HS)]. Qed.
Next Obligation. intros st a Hd. destruct (shifts_query st a Hd) as (a' & E & Hd'). by exists tgt, a'. Qed.
Next Obligation. intros st a p (_ & _ & Hp). by apply told_period. Qed.
Next Obligation.
  intros st a bits tms tdi tdo n. pose proof (sh_send HS st a bits tms tdi tdo) as Hx. cbv zeta in Hx. fold n in Hx.
  destruct (shifted st bits tms tdi) as [st' o] eqn:Eo.
  intros ([A Hs] & Hg & Hp) Hab Hb Hnm Hr Bt Bd Bo Lt Ld Lo.
  pose proof (room_now _ _ A Hr) as Hroom. fold n in Hroom.
  pose proof (send_ok bits tms tdi tdo a A Hs Hb Bt Bd Bo) as Hok. cbv zeta in Hok. fold n in Hok.
  rewrite (sh_size HS st a A Hg) in Hroom, Hok.
  destruct Hx as (tdo' & a' & E & Hg' & Et); try done.
  rewrite E in Hok. destruct Hok as (_ & A' & (_ & _ & _ & _ & G5 & G6) & _); [lia..|].
  exists tdo', a'. split; [done|]. split; [|done]. split; [|by rewrite G5].
  split; [done|by eapply sniff_same].
Qed.

(** What the connection works with after the query. *)
Lemma shifter_supported st a t a' maxVecLen : shifts st a → drv_query a = (Ret t, a') →
  axis_ok a' ∧ supported maxVecLen t (drv_getMaxVectorSize a') = supported maxVecLen tgt Max.
Proof.
  intros Hd Eq. destruct (shifts_query st a Hd) as (a1 & E & [A' _] & Hg & _). unfold drv_query, axis_ifc in Eq.
  rewrite E in Eq. injection Eq as <- <-. split; [done|]. unfold drv_getMaxVectorSize, axis_ifc.
  change (getWordSize a1) with (wordSize_ a1). by rewrite (sh_size HS _ _ A' Hg), (sh_max HS _ _ Hg).
Qed.

(** The buffer has grown with the memory that the target announces. *)
Lemma shifter_roomy_memory st a maxVecLen : shifts st a → (∀ w, word_ok w → w = 4) → 0 < tgt → roomy a maxVecLen.
Proof.
  intros Hd Hw Ht t a' Eq k Hk _ w _ Hwo. rewrite (Hw w Hwo). destruct (shifter_supported st a t a' maxVecLen Hd Eq) as [A' Es].
  rewrite Es in Hk. pose proof (query_ok a (proj1 (proj1 Hd))) as Hq. destruct (shifts_query st a Hd) as (a1 & E & [A1 _] & Hg & _).
  unfold drv_query, axis_ifc in Eq. rewrite Eq in Hq, E. injection E as -> <-. destruct Hq as (_ & _ & _ & _ & _ & _ & Hr).
  rewrite (sh_size HS _ _ A' Hg) in Hr. apply Hr; [done|]. unfold supported in Hk.
  rewrite (proj2 (Z.eqb_neq 0 tgt)) in Hk by lia. destruct (Max =? 0); lia.
Qed.

(** There is room for what the connection sends when it or the driver is
    limited to short vectors, or when words have four bytes. *)
Lemma shifter_roomy st a maxVecLen (lim : Z) : shifts st a → maxVecLen ≤ lim ∨ supported maxVecLen tgt Max ≤ lim →
  lim ≤ 1001 ∨ (∀ w, word_ok w → w = 4) ∧ lim ≤ 1020 → roomy a maxVecLen.
Proof.
  intros Hd Hor Hlim t a' Eq k Hk Hkm. destruct (shifter_supported st a t a' maxVecLen Hd Eq) as [A' Es].
  rewrite Es in Hk. destruct Hlim as [Hl|[Hw Hl]]; [apply axis_room_short|apply axis_room_words]; (done || lia).
Qed.

Lemma shifter_cuts st a maxVecLen : shifts st a → (grain (St := St) | supported maxVecLen tgt Max) →
  Z.min (supported maxVecLen tgt Max) maxVecLen ≤ n_max → cuts (H2 := shifter_drives) a maxVecLen.
Proof.
  intros Hd Hg Hm t a' Eq. destruct (shifter_supported st a t a' maxVecLen Hd Eq) as [_ Es]. cbv zeta. by rewrite Es.
Qed.
End drives.

(** The limit of a driver that announces no memory. *)
Lemma supported_streaming maxVecLen Max : 1 ≤ Max → supported maxVecLen 0 Max ≤ Max.
Proof. intros HM. unfold supported. destruct (Z.eqb_spec Max 0); cbn; lia. Qed.

(** ** The server on the loop-back driver *)

Section player.
Context `{Platform} {St : Type} `{Target St} (plays : St → JtagDriverLoopBack → Prop) (HP : player plays)
  (HLE : isLE = true).
Abbreviation Drv := (JtagDriverAxisToJtag JtagDriverLoopBack).
Abbreviation playing := (λ st (a : Drv), plays st (tp a)).

(** A loop-back driver that plays a target drives it. *)
Lemma player_shifter : shifter playing playing 0 0 (2 ^ 17).
Proof.
  split; [by intros st a A _; apply (ok_word _ A)|done|done| |].
  - intros st a A Hp. pose proof (ok_word _ A) as Hw. cbn in Hw. destruct (ok_hdBuf _ A) as [Hhb Hhl].
    destruct (query_default a 0 (plays (queried st)) A Hw) as (a' & E & _ & _ & _ & Ep & _ & _ & Et);
      [|exists a'; split; [done|]; split; [by rewrite Ep, (play_tck plays HP)|done]].
    intros txb Hb Hl Hm. destruct (play_query plays HP emulMemDepth st txb 4 4 0 (mkIo (jd a) (tp a) (hdBuf_ a) []))
      as (s' & E & Hq & Ej & T4 & Lh & Bh & _); cbn [io_tp io_hd] in *; try done; [lia|].
    exists s'. split; [exact E|]. split; [done|]. split; [auto|]. split; [lia|]. split; [|done].
    rewrite T4. unfold store32. by rewrite HLE.
  - intros st a bits tms tdi tdo n. pose proof (λ msg, play_shift plays HP emulMemDepth st msg
      (wordSize_ a + 2 * word_ceil (wordSize_ a) n) (wordSize_ a) n (mkIo (jd a) (tp a) (hdBuf_ a) tdo) bits tms tdi) as Hx.
    cbv zeta in Hx. fold n in Hx. destruct (shifted st bits tms tdi) as [st' o].
    intros A Hp Hab _ Hs Hb Bt Bd Bo Lt Ld Lo Hr. pose proof (ok_word _ A) as Hw. cbn in Hw.
    destruct (ok_hdBuf _ A) as [_ Hhl]. rewrite Hw in Hx.
    destruct (sendVectors_by bits tms tdi tdo a (λ s', plays st' (io_tp s') ∧ take (Z.to_nat n) (io_rx s') = o) A Hs Hb Bt Bd)
      as (s' & a' & E & Et & (Hp' & Eo) & _); [fold n; rewrite ?Hw; lia..| |].
    + fold n. rewrite Hw. intros msg Bm Lm Hpk h Hv Hc Hg.
      destruct (Hx msg Hp Hab Bm Hv Hc Hg) as (s' & E & Hp' & Ho & Ej & T4 & Lh & Bh & _ & Etk & _);
        cbn [io_rx io_hd]; try done; [lia..|].
      exists s'. split; [exact E|]. split; [done|]. split.
      { rewrite T4. apply (store32_le HLE); [done|]. pose proof (word_ceil_bounds 4 n). subst n. Z.div_mod_to_equations. lia. }
      split; [done|]. split; [done|]. split; [done|]. by rewrite <-Ho, Nat2Z.id.
    + exists (io_rx s'), a'. by rewrite Et.
Qed.
End player.

(** What the server on the loop-back driver answers. *)
Definition loopback_reply (maxVecLen : Z) (r : request) : list Z :=
  match r with
  | GetInfo => greeting maxVecLen
  | SetTck p => le_bytes 4 p
  | Shift bits tms tdi => tdi
  end.

Lemma echo_replies maxVecLen rs : replies maxVecLen tt rs = (tt, concat (loopback_reply maxVecLen <$> rs)).
Proof. induction rs as [|r rs IH]; [done|]. cbn [replies]. by destruct r; cbn; rewrite IH. Qed.

(** The loop-back driver without a file, as it is constructed and as it is
    after every session. *)
Definition loopback_driver `{Platform} (xid0 : Z) : JtagDriverAxisToJtag JtagDriverLoopBack :=
  JtagDriverAxisToJtag_new 0 xid0 (mkLoopBack FNull true false 1).
Definition lb_drv `{Platform} (d : JtagDriverAxisToJtag JtagDriverLoopBack) : Prop :=
  shifts (λ st a, echoes st (tp a)) tt d.

Lemma loopback_driver_ok `{Platform} xid0 : is_byte xid0 → lb_drv (loopback_driver xid0).
Proof. intros Hx. split; [|done]. split; [by apply axis_new_ok|done]. Qed.

Section loopback_server.
Context `{Platform} (HLE : isLE = true).
Abbreviation Drv := (JtagDriverAxisToJtag JtagDriverLoopBack).
Abbreviation echo_shifter := (player_shifter echoes echo_player HLE).

Lemma lb_query (d : Drv) : lb_drv d → ∃ d1, query d = (Ret 0, d1) ∧ lb_drv d1 ∧ periodNs_ d1 = UNKNOWN_PERIOD.
Proof.
  intros Hd. destruct (shifts_query _ _ _ _ _ echo_shifter tt d Hd) as (d1 & E & Ho & Hg & Hp). by exists d1.
Qed.
Lemma loopback_roomy d maxVecLen : lb_drv d → maxVecLen ≤ 1020 → roomy d maxVecLen.
Proof. intros Hd Hm. apply (shifter_roomy _ _ _ _ _ echo_shifter tt d maxVecLen 1020 Hd); [by left|by right]. Qed.

#[local] Instance loopback_drives : Drives Drv unit := shifter_drives _ _ _ _ _ echo_shifter.

Lemma loopback_cuts (d : Drv) maxVecLen : lb_drv d → maxVecLen ≤ 2 ^ 17 → cuts d maxVecLen.
Proof. intros Hd Hm. apply (shifter_cuts _ _ _ _ _ echo_shifter tt); [done|apply Z.divide_1_l|lia]. Qed.

(** One session. *)
Lemma session_loops_back maxVecLen n (d : Drv) rs :
  lb_drv d → 1 ≤ maxVecLen ≤ 1020 → Forall (valid maxVecLen) rs →
  net_good n → nodelay_ok n = true → inp n = concat (encode <$> rs) → out n = [] →
  ∃ c, run (XvcConn_new d n maxVecLen) = (Throw (SysErr "Unable to read from socket"), c) ∧ lb_drv (drv_ c) ∧
    out (sd_ c) = concat (loopback_reply maxVecLen <$> rs).
Proof.
  intros Hd Hm Hv Hn Hok Ein Eout.
  pose proof (session_served maxVecLen d n tt rs Hd ltac:(lia) (loopback_roomy d maxVecLen Hd ltac:(lia))
    (loopback_cuts d maxVecLen Hd ltac:(lia)) ltac:(by apply takes_all) Hv Hn Hok Ein) as Hs.
  rewrite echo_replies in Hs. destruct Hs as (c & E & (Hd' & Hg & _) & Ho). exists c. by rewrite Ho, Eout.
Qed.
End loopback_server.

(** The whole stack, from the octets of a client to the octets of the
    replies.  On a little-endian host, with vectors of up to 1020 bytes,
    the connection on the loop-back driver answers every sequence of valid
    requests (in any segmentation, and whatever other clients try) with
    exactly the greeting, the requested period, and the TDI vector of each
    shift, in order, and ends when the client closes the connection. *)
Theorem server_loops_back `{Platform} maxVecLen n xid0 rs :
  isLE = true → is_byte xid0 → 1 ≤ maxVecLen ≤ 1020 → Forall (valid maxVecLen) rs →
  net_good n → nodelay_ok n = true → inp n = concat (encode <$> rs) → out n = [] →
  ∃ c, run (XvcConn_new (loopback_driver xid0) n maxVecLen) =
         (Throw (SysErr "Unable to read from socket"), c) ∧
    out (sd_ c) = concat (loopback_reply maxVecLen <$> rs).
Proof.
  intros HLE Hx Hm Hv Hn Hok Ein Eout.
  destruct (session_loops_back HLE maxVecLen n (loopback_driver xid0) rs) as (c & E & _ & Ho); try done;
    [by apply loopback_driver_ok|]. by exists c.
Qed.

(** C38: a target without memory is not protected by its driver's buffer:
    when the firmware announces that it streams and the driver announces no
    limit, the connection is set up for vectors of up to [maxVecLen] bytes,
    and any shift whose whole words do not fit the transmit buffer, which
    was not enlarged, writes past its end. *)
Theorem streaming_overflow `{Platform} {T} `{Transport T} `{!TransportLaws T}
    (a a1 : JtagDriverAxisToJtag T) n maxVecLen bits :
  let bytes := (bits + 7) / 8 in
  axis_ok a → query a = (Ret 0, a1) → 1 ≤ maxVecLen ≤ 2 ^ 17 → 1 ≤ bits ≤ 2 ^ 20 →
  getMaxVectorSize (wordSize_ a1) (tp a1) = 0 → bytes ≤ maxVecLen →
  bufSz_ a1 < wordSize_ a1 + 2 * (wordSize_ a1 * (bytes / wordSize_ a1)) →
  ∃ c, allocBufs (XvcConn_new a n maxVecLen) = (Ret tt, c) ∧ supVecLen_ c = maxVecLen ∧
    fst (shift_loop (Z.to_nat bytes) bytes bytes 0 bits c) = Fault OutOfBounds.
Proof.
  intros nb A Eq Hm Hb Hg Hn Hf. unfold allocBufs, mbind, M_bind, on_drv, zoom.
  cbn [drv_ XvcConn_new]. unfold drv_query at 1, axis_ifc at 1. rewrite Eq. cbn [modify].
  eexists. split; [reflexivity|]. unfold drv_getMaxVectorSize, axis_ifc. cbn [drv_ set_drv supVecLen_].
  change (getWordSize a1) with (wordSize_ a1). rewrite Hg. split; [done|].
  assert (Hnb : 1 ≤ nb ≤ 2 ^ 17) by (subst nb; Z.div_mod_to_equations; lia).
  destruct (Z.to_nat nb) as [|fuel] eqn:Ef; [lia|]. cbn [shift_loop].
  rewrite (proj2 (Z.ltb_lt 0 bits)), (wrap32_small (8 * nb)) by (unfold is_u32; lia).
  assert (Hle : (if bits <? 8 * nb then bits else 8 * nb) = bits).
  { destruct (Z.ltb_spec bits (8 * nb)); [done|]. subst nb. Z.div_mod_to_equations. lia. }
  rewrite Hle. unfold mbind, M_bind, on_drv, zoom. cbn [gets id drv_]. unfold drv_sendVectors at 1.
  pose proof (query_ok a A) as Hq. rewrite Eq in Hq. destruct Hq as (A1 & _).
  match goal with |- context [sendVectors bits ?x ?y ?z a1] =>
    pose proof (send_overflow bits x y z a1 A1 Hb Hf) as Ho; destruct (sendVectors bits x y z a1) as [o a2] end.
  cbn [fst] in Ho. by subst o.
Qed.

(** ** Instances *)

Module Session.
#[local] Existing Instance le_platform.

Definition client : list request :=
  [GetInfo; SetTck 100; Shift 20 [1; 2; 3] [4; 5; 6]; Shift 9 [255; 1] [170; 1]].

(** The stream arrives in pieces of 1, 3, 60 and 7 octets, another client
    tries to connect in between, and the replies are taken two octets at
    a time at first. *)
Definition wire : net :=
  mkNet (concat (encode <$> client))
    [Sel None (Some 1); Sel (Some true) None; Sel None (Some 3); Sel (Some false) (Some 60);
     Sel None (Some 7)] [2; 2; 2] [] 0 true.

Lemma wire_good : net_good wire.
Proof.
  split; [repeat constructor|repeat constructor|].
  apply (bool_decide_unpack _). by vm_compute.
Qed.

Lemma byte_1 : is_byte 1.
Proof. unfold is_byte. lia. Qed.

Lemma client_valid : Forall (valid 1000) client.
Proof.
  repeat constructor; try done; try (unfold is_byte; lia).
Qed.

Lemma server_loops_back_witness :
  ∃ c, run (XvcConn_new (loopback_driver 1) wire 1000) =
         (Throw (SysErr "Unable to read from socket"), c) ∧
    out (sd_ c) = concat (loopback_reply 1000 <$> client).
Proof.
  apply (@server_loops_back le_platform 1000 wire 1 client eq_refl byte_1);
    [lia|exact client_valid|exact wire_good|reflexivity..].
Defined.

Lemma run_refines_witness :
  match run (XvcConn_new (loopback_driver 1) wire 1000),
        spec_run 1000 (spec_start (loopback_driver 1) wire 1000) with
  | (Throw e, c'), (Throw e', s') => e = e' ∧ drv_ c' = s_drv s' ∧ out (sd_ c') = s_out s'
  | (NoFuel, _), (NoFuel, _) => overlong (S (length (inp wire))) 1000 (inp wire) = true
  | _, _ => False
  end.
Proof.
  apply (run_refines (loopback_driver 1) wire 1000);
    [exact (proj1 (loopback_driver_ok 1 byte_1))|exact wire_good|reflexivity|lia|].
  apply loopback_roomy; [reflexivity|exact (loopback_driver_ok 1 byte_1)|lia].
Defined.

Lemma streaming_overflow_witness :
  ∃ c, allocBufs (XvcConn_new (loopback_driver 1) wire 32768) = (Ret tt, c) ∧
    supVecLen_ c = 32768 ∧
    fst (shift_loop 1024 1024 1024 0 8192 c) = Fault OutOfBounds.
Proof.
  destruct (@loopback_query le_platform eq_refl (loopback_driver 1) (proj1 (proj1 (loopback_driver_ok 1 byte_1))) eq_refl)
    as (a1 & Eq & _).
  apply (streaming_overflow (loopback_driver 1) a1 wire 32768 8192).
  - exact (proj1 (proj1 (loopback_driver_ok 1 byte_1))).
  - exact Eq.
  - lia.
  - lia.
  - reflexivity.
  - vm_compute. congruence.
  - change a1 with (snd (Ret 0, a1)). rewrite <-Eq. vm_compute. reflexivity.
Defined.
End Session.
