(* ===== verification/Calls.v ===== *)
(** * What the connection asks of its driver

    The calls of [sendVectors] that the loop over the pieces of a vector
    makes, for any driver: a log is put around the driver, and the calls in
    it are shown to make up the vector.  The second part is about a length
    that wraps around in the message, where the calls have no end. *)

From stdpp Require Import base numbers option list strings relations.
From Stdlib Require Import ZArith Lia.
From S2P Require Import Prelude Driver LoopBack Conn ConnSpec Stack.
#[local] Open Scope Z_scope.

(** ** The pieces of a vector *)

Lemma bits_of_take n l : take (8 * n) (bits_of l) = bits_of (take n l).
Proof.
  revert n. induction l as [|b l IH]; intros n; [rewrite take_nil; apply take_nil|].
  destruct n as [|n]; [done|]. cbn [take]. rewrite !bits_of_cons, <-IH.
  rewrite take_app, byte_bits_length, (take_ge (byte_bits b)) by (rewrite byte_bits_length; lia).
  do 2 f_equal. lia.
Qed.

(** The bits of a piece. *)
Definition piece (v : list Z) (p : Z * Z) : list bool :=
  take (Z.to_nat (snd p)) (bits_of (slice (fst p) ((snd p + 7) / 8) v)).

Lemma piece_bits v off b : 0 ≤ off → 0 ≤ b →
  piece v (off, b) = take (Z.to_nat b) (drop (Z.to_nat (8 * off)) (bits_of v)).
Proof.
  intros Ho Hb. unfold piece, slice. cbn [fst snd]. rewrite <-bits_of_take, <-bits_of_drop, take_take.
  assert (b ≤ 8 * ((b + 7) / 8)) by (Z.div_mod_to_equations; lia).
  f_equal; [lia|]. f_equal. lia.
Qed.

(** ** A driver whose calls are logged *)

(** A call of [sendVectors] that returned: the number of bits, and the bytes
    of the vectors that they are in. *)
Record call := Call { call_bits : Z; call_tms : list Z; call_tdi : list Z; call_tdo : list Z }.

Record logged (D : Type) := Logged { log_drv : D; calls : list call }.
Arguments Logged {D}. Arguments log_drv {D}. Arguments calls {D}.

Section log.
Context {D : Type} `{JtagDriverIfc D}.

Definition plain {A} (m : M D A) : M (logged D) A := zoom log_drv (λ d s, Logged d (calls s)) m.

#[export] Instance logged_ifc : JtagDriverIfc (logged D) := {
  drv_query := plain drv_query;
  drv_getMaxVectorSize s := drv_getMaxVectorSize (log_drv s);
  drv_setPeriodNs p := plain (drv_setPeriodNs p);
  drv_sendVectors bits tms tdi tdo :=
    tdo' ← plain (drv_sendVectors bits tms tdi tdo);
    let n := Z.to_nat ((bits + 7) / 8) in
    modify (λ s, Logged (log_drv s) (calls s ++ [Call bits (take n tms) (take n tdi) (take n tdo')])) ;;
    mret tdo';
}.

(** The bits of one of the vectors, of all calls. *)
Definition gather (f : call → list Z) (l : list call) : list bool :=
  concat ((λ k, take (Z.to_nat (call_bits k)) (bits_of (f k))) <$> l).
Definition total (l : list call) : Z := foldr (λ k acc, call_bits k + acc) 0 l.

Context (bits vec : Z).
Let n := (bits + 7) / 8.
Context (Hb : 1 ≤ bits) (Hn : n ≤ 2 ^ 17) (Hv : 1 ≤ vec ≤ 2 ^ 17).
(** The driver writes to the TDO buffer, it does not replace it. *)
Context (Hlen : ∀ (d d' : D) b tms tdi tdo tdo', drv_sendVectors b tms tdi tdo d = (Ret tdo', d') → length tdo' = length tdo).

Definition fits (k : call) : Prop := 1 ≤ call_bits k ≤ 8 * vec.
Definition stuck : Prop := ∃ b tms tdi tdo (d : D), fst (drv_sendVectors b tms tdi tdo d) = NoFuel.

(** The calls [l] are [t] of the bits from [off] on. *)
Definition covers (off t : Z) (rx tx : list Z) (rp : Z) (l : list call) : Prop :=
  let part v := take (Z.to_nat t) (drop (Z.to_nat (8 * off)) (bits_of v)) in
  Forall fits l ∧ total l = t ∧ gather call_tms l = part (slice rp n rx) ∧
  gather call_tdi l = part (slice (rp + n) n rx) ∧ gather call_tdo l = part tx.

Lemma covers_nil off rx tx rp : covers off 0 rx tx rp [].
Proof. unfold covers. split; [constructor|]. by rewrite !take_0. Qed.

Lemma covers_cons off b t rx tx rp l : 0 ≤ off → 1 ≤ b ≤ 8 * vec → b ≤ bits - 8 * off → 0 ≤ t → b = 8 * vec ∨ t = 0 →
  0 ≤ rp → rp + 2 * n ≤ zlen rx → covers (off + vec) t rx tx rp l →
  let k := (b + 7) / 8 in
  covers off (b + t) rx tx rp (Call b (slice (rp + off) k rx) (slice (rp + n + off) k rx) (slice off k tx) :: l).
Proof.
  intros Ho Hbv Hbl Ht Hor Hr Hl (F & T & E1 & E2 & E3) k.
  assert (Hk : 0 ≤ k ∧ off + k ≤ n) by (subst k n; Z.div_mod_to_equations; lia).
  assert (Hcat : ∀ B : list bool, take (Z.to_nat b) (drop (Z.to_nat (8 * off)) B) ++
    take (Z.to_nat t) (drop (Z.to_nat (8 * (off + vec))) B) = take (Z.to_nat (b + t)) (drop (Z.to_nat (8 * off)) B)).
  { intros B. destruct Hor as [->| ->].
    - replace (Z.to_nat (8 * vec + t)) with (Z.to_nat (8 * vec) + Z.to_nat t)%nat by lia.
      rewrite <-take_take_drop, drop_drop. do 3 f_equal. lia.
    - by rewrite Z.add_0_r, take_0, app_nil_r. }
  assert (Hone : ∀ v, take (Z.to_nat b) (bits_of (slice off k v)) = take (Z.to_nat b) (drop (Z.to_nat (8 * off)) (bits_of v)))
    by (intros v; apply (piece_bits v off b); lia).
  split; [constructor; done|]. split; [cbn; by rewrite <-T|].
  unfold gather in *. cbn [fmap list_fmap concat call_bits call_tms call_tdi call_tdo].
  rewrite E1, E2, E3, <-!Hcat, <-!Hone. split_and!; [|f_equal|done].
  - by rewrite slice_slice by lia.
  - rewrite slice_slice by lia. done.
Qed.

Abbreviation Conn := (XvcConn (logged D)).

(** One call. *)
Lemma logged_call b tms tdi tdo (c : Conn) :
  let (o, c1) := on_drv (drv_sendVectors b tms tdi tdo) c in
  match o with
  | Ret tdo' => length tdo' = length tdo ∧ ∃ d, let k := Z.to_nat ((b + 7) / 8) in
      c1 = set_drv (Logged d (calls (drv_ c) ++ [Call b (take k tms) (take k tdi) (take k tdo')])) c
  | _ => (∃ d, c1 = set_drv (Logged d (calls (drv_ c))) c) ∧ (o = NoFuel → stuck)
  end.
Proof.
  unfold on_drv, zoom, drv_sendVectors at 1, logged_ifc, plain, mbind, M_bind, zoom.
  destruct (drv_sendVectors b tms tdi tdo (log_drv (drv_ c))) as [[tdo'|e|u|] d] eqn:E; cbn.
  - split; [by eapply Hlen|by exists d].
  - split; [by exists d|done].
  - split; [by exists d|done].
  - split; [by exists d|]. intros _. exists b, tms, tdi, tdo, (log_drv (drv_ c)). by rewrite E.
Qed.

(** The loop, from the offset [off] on. *)
Lemma shift_loop_calls fuel : ∀ off (c : Conn), 0 ≤ off ≤ 2 ^ 18 → (Z.to_nat (n - off) ≤ fuel)%nat →
  0 ≤ rp_ c → rp_ c + 2 * n ≤ zlen (rxb_ c) → n ≤ zlen (txb_ c) →
  let left := Z.max 0 (bits - 8 * off) in
  let (o, c') := shift_loop fuel n vec off left c in
  rxb_ c' = rxb_ c ∧ take (Z.to_nat off) (txb_ c') = take (Z.to_nat off) (txb_ c) ∧
  ∃ l t, calls (drv_ c') = calls (drv_ c) ++ l ∧ covers off t (rxb_ c) (txb_ c') (rp_ c) l ∧ 0 ≤ t ≤ left ∧
    match o with Ret _ => t = left | NoFuel => stuck | _ => True end.
Proof.
  assert (Hb20 : bits ≤ 2 ^ 20) by (clear - Hn; unfold n in *; Z.div_mod_to_equations; lia).
  induction fuel as [|fuel IH]; intros off c Ho Hf Hr Hrx Htx left; cbn [shift_loop].
  - assert (left = 0) as -> by (unfold left, n in *; Z.div_mod_to_equations; lia). cbn. split; [done|]. split; [done|].
    exists [], 0. rewrite app_nil_r. split; [done|]. split; [apply covers_nil|lia].
  - destruct (Z.ltb_spec 0 left) as [Hl|Hl]; cycle 1.
    { assert (left = 0) as -> by lia. split; [done|]. split; [done|].
      exists [], 0. rewrite app_nil_r. split; [done|]. split; [apply covers_nil|lia]. }
    assert (El : left = bits - 8 * off) by lia.
    rewrite (wrap32_small (8 * vec)) by (unfold is_u32; lia).
    set (b := if left <? 8 * vec then left else 8 * vec).
    assert (Hb1 : 1 ≤ b ≤ 8 * vec ∧ b ≤ left ∧ (b = 8 * vec ∨ b = left)) by (subst b; destruct (Z.ltb_spec left (8 * vec)); lia).
    set (k := (b + 7) / 8). assert (Hk : 0 ≤ k ≤ vec ∧ off + k ≤ n ∧ off < n)
      by (unfold k, n; Z.div_mod_to_equations; lia).
    unfold mbind at 1, M_bind at 1. cbn [gets id].
    set (tms := drop _ _). set (tdi := drop _ _). set (tdo := drop _ _).
    pose proof (logged_call b tms tdi tdo c) as Hc. unfold mbind at 1, M_bind at 1.
    destruct (on_drv _ c) as [[tdo'|e|u|] c1]; cycle 1.
    1-3: destruct Hc as [[d ->] Hs]; (split; [done|]); (split; [done|]); exists [], 0; rewrite app_nil_r;
      (split; [done|]); (split; [apply covers_nil|]); (split; [lia|]); first [done|by apply Hs].
    destruct Hc as [Lt [d ->]]. unfold mbind at 1, M_bind at 1. cbn [modify].
    set (c2 := set_txb _ _). assert (Ltx : length (txb_ c2) = length (txb_ c)).
    { subst c2 tdo. cbn. rewrite length_app, Lt, length_take, length_drop. lia. }
    rewrite (wrap64_small (off + vec)), (wrap32_small (left - b)) by (unfold is_u32; lia).
    specialize (IH (off + vec) c2 ltac:(lia) ltac:(lia) Hr Hrx ltac:(lia)).
    replace (left - b) with (Z.max 0 (bits - 8 * (off + vec))) by lia. cbv zeta in IH.
    destruct (shift_loop fuel _ _ _ _ c2) as [o c']. destruct IH as (Erx & Etx & l & t & Ec & Hcov & Ht & Ho').
    assert (Esl : slice off k (txb_ c') = take (Z.to_nat k) tdo').
    { unfold slice. rewrite take_drop_commute.
      replace (take (Z.to_nat off + Z.to_nat k) (txb_ c')) with (take (Z.to_nat off + Z.to_nat k) (txb_ c2)).
      - rewrite <-take_drop_commute. subst c2. cbn. by rewrite drop_app_length' by (rewrite length_take; lia).
      - apply (f_equal (take (Z.to_nat off + Z.to_nat k))) in Etx. by rewrite !take_take, !Nat.min_l in Etx by lia. }
    split; [done|]. split.
    + apply (f_equal (take (Z.to_nat off))) in Etx. rewrite !take_take, !Nat.min_l in Etx by lia. rewrite Etx.
      subst c2. cbn. by rewrite take_app_length' by (rewrite length_take; lia).
    + eexists (_ :: l), (b + t). rewrite Ec. cbn [drv_ set_txb set_drv calls c2]. rewrite <-app_assoc. cbn [app].
      split; [done|]. pose proof (covers_cons off b t (rxb_ c) (txb_ c') (rp_ c) l) as Hcc. cbv zeta in Hcc. fold k in Hcc.
      rewrite Esl in Hcc. split; [|split; [lia|destruct o; try done; lia]]. apply Hcc; try done; lia.
Qed.

End log.

(** C25: cutting a vector into pieces loses nothing.  The loop over the pieces
    of a vector of [bits] bits ([n] bytes) in the buffers of the connection,
    with pieces of [vec] bytes, calls the driver with 1 to [8 * vec] bits at
    a time.  Put together in order, the TMS and TDI bits of its calls are
    the first bits of the two vectors in the receive buffer, and the TDO
    bits that the calls returned are the first bits of the transmit buffer
    afterwards: all [bits] bits when the loop returns, those of the calls
    that returned when the driver fails.  This holds for every driver that
    fills the TDO buffer it is given; [n] rounds are enough, so that a loop
    without an end is a call without an end. *)
Theorem chunks_partition {D} `{JtagDriverIfc D} fuel bits vec (c : XvcConn (logged D)) :
  (∀ (d d' : D) b tms tdi tdo tdo', drv_sendVectors b tms tdi tdo d = (Ret tdo', d') → length tdo' = length tdo) →
  let n := (bits + 7) / 8 in 1 ≤ bits → n ≤ 2 ^ 17 → 1 ≤ vec ≤ 2 ^ 17 → (Z.to_nat n ≤ fuel)%nat →
  0 ≤ rp_ c → rp_ c + 2 * n ≤ zlen (rxb_ c) → n ≤ zlen (txb_ c) →
  let (o, c') := shift_loop fuel n vec 0 bits c in
  ∃ l, calls (drv_ c') = calls (drv_ c) ++ l ∧ Forall (λ k, 1 ≤ call_bits k ≤ 8 * vec) l ∧
    let first v := take (Z.to_nat (total l)) (bits_of v) in
    gather call_tms l = first (slice (rp_ c) n (rxb_ c)) ∧
    gather call_tdi l = first (slice (rp_ c + n) n (rxb_ c)) ∧
    gather call_tdo l = first (txb_ c') ∧
    match o with
    | Ret _ => total l = bits
    | NoFuel => ∃ b tms tdi tdo (d : D), fst (drv_sendVectors b tms tdi tdo d) = NoFuel
    | _ => total l ≤ bits
    end.
Proof.
  intros Hlen n Hb Hn Hv Hf Hr Hrx Htx.
  assert (Hf' : (Z.to_nat ((bits + 7) / 8 - 0) ≤ fuel)%nat) by (fold n; lia).
  pose proof (shift_loop_calls bits vec Hb Hn Hv Hlen fuel 0 c ltac:(lia) Hf' Hr Hrx Htx) as Hl. cbv zeta in Hl.
  fold n in Hl. rewrite Z.mul_0_r, Z.sub_0_r, Z.max_r in Hl by lia.
  destruct (shift_loop _ _ _ _ _ _) as [o c']. destruct Hl as (_ & _ & l & t & E & (F & T & E1 & E2 & E3) & Ht & Ho).
  rewrite !drop_0 in E1, E2, E3. exists l. rewrite T. cbv zeta. split_and!; try done. destruct o; [exact Ho|lia|lia|exact Ho].
Qed.

(** ** A length that wraps around *)

(** The driver is asked to shift no bits: it returns, or it fails as the
    server then does. *)
Definition asked {D} `{JtagDriverIfc D} (d d' : D) : Prop :=
  ∃ tms tdi tdo tdo', drv_sendVectors 0 tms tdi tdo d = (Ret tdo', d').
Definition fails {D} `{JtagDriverIfc D} (o : outcome unit) (d d' : D) : Prop :=
  ∃ tms tdi tdo r, drv_sendVectors 0 tms tdi tdo d = (r, d') ∧
    match r, o with
    | Throw e, Throw e' => e = e'
    | Fault u, Fault u' => u = u'
    | NoFuel, NoFuel => True
    | _, _ => False
    end.

Lemma shift_loop_spins {D} `{JtagDriverIfc D} bits fuel : 1 ≤ bits < 2 ^ 32 → ∀ c : XvcConn D,
  let (o, c') := shift_loop fuel 0 0 0 bits c in
  o = NoFuel ∧ nsteps asked fuel (drv_ c) (drv_ c') ∨
  ∃ k d, (k < fuel)%nat ∧ nsteps asked k (drv_ c) d ∧ fails o d (drv_ c').
Proof.
  intros Hb. induction fuel as [|fuel IH]; intros c; cbn [shift_loop]; rewrite (proj2 (Z.ltb_lt 0 bits)) by lia.
  { left. split; [done|constructor]. }
  change (wrap32 (8 * 0)) with 0. rewrite (proj2 (Z.ltb_ge bits 0)) by lia.
  unfold mbind, M_bind. cbn [gets id]. unfold on_drv, zoom.
  set (tms := drop _ _). set (tdi := drop _ _). set (tdo := drop _ _).
  destruct (drv_sendVectors 0 tms tdi tdo (drv_ c)) as [[tdo'|e|u|] d] eqn:E; cycle 1.
  1-3: right; exists O, (drv_ c); split; [lia|]; split; [constructor|]; by exists tms, tdi, tdo; eexists.
  assert (Ha : asked (drv_ c) d) by (by exists tms, tdi, tdo, tdo').
  cbn [modify]. change (wrap64 (0 + 0)) with 0. rewrite Z.sub_0_r, wrap32_small by (unfold is_u32; lia).
  set (c2 := set_txb _ _). specialize (IH c2). destruct (shift_loop fuel 0 0 0 bits c2) as [o c'].
  destruct IH as [[-> Hn]|(k & d2 & Hk & Hn & Hf)]; [left; split; [done|]; by eapply nsteps_l|].
  right. exists (S k), d2. split; [lia|]. split; [by eapply nsteps_l|done].
Qed.

(** C39: the length check can be bypassed.  A shift of 2^32-7 or more bits
    (here its ten octets are at the start of the receive buffer) is taken for
    a vector of zero bytes, which is within every limit.  For any driver,
    the connection then asks the driver to shift no bits, over and over: it
    never completes the request, and whatever number of [rounds] it is
    watched for, either the driver has been asked that many times and has
    returned each time, or one of these calls has failed and its failure is
    that of the request. *)
Theorem shift_never_returns `{Platform} {D} `{JtagDriverIfc D} bits (c : XvcConn D) : 2 ^ 32 - 7 ≤ bits < 2 ^ 32 →
  10 ≤ rl_ c < 2 ^ 64 → rd (rp_ c + 6) 4 (rxb_ c) = Ret (le_bytes 4 bits) → 0 ≤ maxVecLen_ c → 0 ≤ supVecLen_ c →
  let (o, c') := do_shift c in
  o = NoFuel ∧ nsteps asked rounds (drv_ c) (drv_ c') ∨
  ∃ k d, (k < rounds)%nat ∧ nsteps asked k (drv_ c) d ∧ fails o d (drv_ c').
Proof.
  intros Hb Hl Hrd Hm Hs. assert (Eb : wrap32 (bits + 7) / 8 = 0) by (unfold wrap32; Z.div_mod_to_equations; lia).
  assert (Ev : le_val (le_bytes 4 bits) = bits) by (rewrite le_val_le_bytes; apply Z.mod_small; lia).
  unfold do_shift. rewrite (M_bind_ret (fill 10) _ c tt c) by (unfold fill, mbind, M_bind; cbn [gets id]; by rewrite (proj2 (Z.leb_le 10 _)) by lia).
  rewrite (M_bind_ret (peek 6 4) _ c (le_bytes 4 bits) c) by (unfold peek, mbind, M_bind; cbn [gets id lift]; by rewrite Hrd).
  cbv zeta. rewrite Ev, Eb. rewrite (M_bind_ret (gets maxVecLen_) _ c (maxVecLen_ c) c) by done.
  rewrite (proj2 (Z.ltb_ge (maxVecLen_ c) 0)) by done.
  destruct (bump 10 c) as [[[]| | |] c1] eqn:Ebump; try done. rewrite (M_bind_ret (bump 10) _ c tt c1) by done.
  assert (Hc1 : drv_ c1 = drv_ c ∧ supVecLen_ c1 = supVecLen_ c ∧ 0 ≤ rl_ c1).
  { injection Ebump as <-. assert (0 ≤ wrap64 (rl_ c - 10)) by (apply Z.mod_pos_bound; lia). by case_match. }
  destruct Hc1 as (Ed & Es & Hr). change (2 * 0) with 0.
  rewrite (M_bind_ret (fill 0) _ c1 tt c1) by (unfold fill, mbind, M_bind; cbn [gets id]; by rewrite (proj2 (Z.leb_le 0 _)) by lia).
  rewrite (M_bind_ret (gets supVecLen_) _ c1 (supVecLen_ c1) c1) by done. rewrite (proj2 (Z.ltb_ge (supVecLen_ c1) 0)) by lia.
  pose proof (shift_loop_spins bits (Z.to_nat 0 + rounds) ltac:(lia) c1) as Hx. change (Z.to_nat 0 + rounds)%nat with rounds in *.
  unfold mbind at 1, M_bind at 1. destruct (shift_loop rounds 0 0 0 bits c1) as [o c']. rewrite Ed in Hx.
  destruct Hx as [[-> Hn]|(k & d & Hk & Hn & Hf)]; [by left|].
  destruct o as [[]| | |]; [|right; by exists k, d..]. destruct Hf as (tms & tdi & tdo & [] & _ & []).
Qed.

(** ** Instances *)

(** A driver that returns TDI, and one that returns what it is given. *)
Module Spinning.
#[local] Existing Instance some_platform.
Definition null : JtagDriverIfc unit := {|
  drv_query := mret 0;
  drv_getMaxVectorSize _ := 0;
  drv_setPeriodNs := mret;
  drv_sendVectors _ _ _ tdo := mret tdo;
|}.
Definition wire : JtagDriverIfc unit := {|
  drv_query := mret 0;
  drv_getMaxVectorSize _ := 0;
  drv_setPeriodNs := mret;
  drv_sendVectors bits _ tdi tdo :=
    let n := Z.to_nat ((bits + 7) / 8) in let tdo' := take n tdi ++ drop n tdo in
    if (length tdo' =? length tdo)%nat then mret tdo' else throw TimeoutErr;
|}.

(** 50 bits in pieces of three bytes. *)
Definition buffers : XvcConn (logged unit) :=
  mkConn (Logged tt []) (mkNet [] [] [] [] 0 true) ([9; 9] ++ seqZ 1 7 ++ seqZ 101 7 ++ [9]) 2 14 0 (replicate 144 0) 16 3 160.

Lemma chunks_partition_witness :
  let (o, c') := @shift_loop _ (@logged_ifc _ wire) 7 7 3 0 50 buffers in
  (o = Ret tt ∧ length (calls (drv_ c')) = 3%nat) ∧
  ∃ l, calls (drv_ c') = [] ++ l ∧ Forall (λ k, 1 ≤ call_bits k ≤ 8 * 3) l ∧
    let first v := take (Z.to_nat (total l)) (bits_of v) in
    gather call_tms l = first (slice 2 7 (rxb_ buffers)) ∧ gather call_tdi l = first (slice (2 + 7) 7 (rxb_ buffers)) ∧
    gather call_tdo l = first (txb_ c') ∧
    match o with
    | Ret _ => total l = 50
    | NoFuel => ∃ b tms tdi tdo (d : unit), fst (@drv_sendVectors _ wire b tms tdi tdo d) = NoFuel
    | _ => total l ≤ 50
    end.
Proof.
  pose proof (@chunks_partition unit wire 7 50 3 buffers) as Hp. cbv zeta in Hp. change ((50 + 7) / 8) with 7 in Hp.
  assert (Ht : let (o, c') := @shift_loop _ (@logged_ifc _ wire) 7 7 3 0 50 buffers in o = Ret tt ∧ length (calls (drv_ c')) = 3%nat)
    by (vm_compute; done).
  destruct (shift_loop _ _ _ _ _ _) as [o c']. split; [exact Ht|].
  apply Hp; [|lia..|simpl; lia|simpl; lia|simpl; lia|simpl; lia].
  intros d d' b tms tdi tdo tdo'. cbn. destruct (Nat.eqb_spec (length (take (Z.to_nat ((b + 7) / 8)) tdi ++ drop (Z.to_nat ((b + 7) / 8)) tdo)) (length tdo));
    [|done]. by intros [= <- _].
Defined.

(** The request at the start of the buffer. *)
Definition request : XvcConn unit :=
  mkConn tt (mkNet [] [] [] [] 0 true) (text "shift:" ++ le_bytes 4 (2 ^ 32 - 1) ++ replicate 54 0) 0 10 0 (replicate 144 0) 16 16 160.

Lemma shift_never_returns_witness :
  fst (@do_shift _ _ null request) = NoFuel ∧
  let (o, c') := @do_shift _ _ null request in
  o = NoFuel ∧ nsteps (@asked _ null) rounds tt (drv_ c') ∨
  ∃ k d, (k < rounds)%nat ∧ nsteps (@asked _ null) k tt d ∧ @fails _ null o d (drv_ c').
Proof.
  split; [by vm_compute|]. apply (@shift_never_returns _ _ null (2 ^ 32 - 1) request); [lia|simpl; lia|by vm_compute|simpl; lia..].
Defined.
End Spinning.
