(* ===== verification/Server.v ===== *)
(** * The server, the driver registry and [main] (xvcSrv.cc)

    The accept loop ([XvcServer]), the table of the drivers
    ([DriverRegistry], [DriverRegistrar]) and the main program: its
    options, the choice and set-up of the driver, and its exit status.  The
    drivers are an argument; what is proved is in ServerSpec.v. *)

From stdpp Require Import base numbers option list strings.
From Stdlib Require Import ZArith Lia.
From S2P Require Import Prelude Driver LoopBack Udp Conn.
#[local] Open Scope Z_scope.

(** ** Class [XvcServer] *)

(** [closed] are the connections that have been served. *)
Record XvcServer (D : Type) := mkServer {
  srv_port : Z;
  srv_drv : D;
  srv_debug : Z;
  maxMsgSize_ : Z;
  once_ : bool;
  closed : list net;
}.
Arguments mkServer {D}. Arguments srv_port {D}. Arguments srv_drv {D}. Arguments srv_debug {D}.
Arguments maxMsgSize_ {D}. Arguments once_ {D}. Arguments closed {D}.

(** What the system calls of the set-up say. *)
Record sys := mkSys {
  socket_ok : bool;
  reuse_ok : bool;
  bind_ok : Z → bool;   (* the port *)
  listen_ok : bool;
  thread_ok : bool;
}.

Definition SockSd_new (ok : bool) : outcome unit :=
  if ok then Ret tt else Throw (SysErr "Unable to create Socket").

(** The port is a [uint16_t]. *)
Definition XvcServer_new {D} (y : sys) (port : Z) (drv : D) (debug maxMsgSize : Z) (once : bool) :
    outcome (XvcServer D) :=
  let port := port `mod` 2 ^ 16 in
  SockSd_new (socket_ok y) ;;
  if negb (reuse_ok y) then Throw (SysErr "setsockopt(SO_REUSEADDR) failed")
  else if negb (bind_ok y port) then Throw (SysErr "Unable to bind Stream socket to local address")
  else if negb (listen_ok y) then Throw (SysErr "Unable to listen on socket")
  else Ret (mkServer port drv debug maxMsgSize once []).

(** How [run] ends: it waits for the next client, it was to serve one
    connection only, an exception leaves it, or a connection never ends. *)
Inductive server_end :=
  | Waiting
  | Stopped
  | Died (e : exn)
  | Broken (u : fault)
  | Stuck.

Section server.
Context `{Platform} {D : Type} `{JtagDriverIfc D}.

Definition after_conn (c : XvcConn D) (s : XvcServer D) : XvcServer D :=
  mkServer (srv_port s) (drv_ c) (srv_debug s) (maxMsgSize_ s) (once_ s) (closed s ++ [sd_ c]).

(** [XvcServer::run]: an element of [clients] is what [accept] yields
    ([None]: it fails); with no client left the server waits.  The
    constructor of the connection is outside of the [try] block. *)
Fixpoint XvcServer_run (clients : list (option net)) (s : XvcServer D) : server_end * XvcServer D :=
  match clients with
  | [] => (Waiting, s)
  | None :: _ => (Died (SysErr "Unable to accept connection"), s)
  | Some n :: clients =>
      let (o, c) := run (XvcConn_new (srv_drv s) n (maxMsgSize_ s)) in
      let s := after_conn c s in
      let loop := if once_ s then (Stopped, s) else XvcServer_run clients s in
      match o with
      | Ret _ => loop
      | Throw (SysErr _) => loop
      | Throw e => (Died e, s)
      | Fault u => (Broken u, s)
      | NoFuel => (Stuck, s)
      end
  end.
End server.

(** ** Class [DriverRegistry] *)

Section registry.
Context {D : Type}.

(** The creator gets the arguments of the program and the target; the
    helper prints. *)
Record RegEntry := mkEntry {
  name_ : list Z;
  creator_ : option (list (list Z) → option (list Z) → outcome (option D));
  helper_ : bool;
  needTargetArg_ : bool;
}.

Definition registerFactory (name : list Z) f h (needTargetArg : bool) (entries : list RegEntry) : list RegEntry :=
  entries ++ [mkEntry name f h needTargetArg].

(** [DriverRegistrar<T>]: [createP] is [new T], which is never null, and
    [T::needTargetArg] is the one of the base class in all drivers. *)
Definition DriverRegistrar (nm : list Z) (new : list (list Z) → option (list Z) → outcome D)
    (entries : list RegEntry) : list RegEntry :=
  registerFactory nm (Some (λ argv arg, d ← new argv arg; Ret (Some d))) true true entries.

(** [while ( i >= 0 ) { if ( .. ) break; i--; }] from [i = n - 1] on. *)
Fixpoint find_down (entries : list RegEntry) (drvnam : list Z) (n : nat) : option RegEntry :=
  match n with
  | O => None
  | S i =>
      match entries !! i with
      | Some e => if decide (name_ e = drvnam) then Some e else find_down entries drvnam i
      | None => None
      end
  end.

(** Without a name, the last entry. *)
Definition find (entries : list RegEntry) (drvnam : option (list Z)) : option RegEntry :=
  match drvnam with
  | None | Some [] => entries !! pred (length entries)
  | Some nm => find_down entries nm (length entries)
  end.

Definition has (entries : list RegEntry) (drvnam : option (list Z)) : bool :=
  match find entries drvnam with Some _ => true | None => false end.

Definition create (entries : list RegEntry) (name : option (list Z)) (argv : list (list Z))
    (arg : option (list Z)) : outcome (option D) :=
  match find entries name with
  | Some e =>
      match creator_ e with
      | Some f =>
          if needTargetArg_ e && match arg with None | Some [] => true | _ => false end
          then Throw (RuntimeErr "Missing <target>")
          else f argv arg
      | None => Throw (RuntimeErr "Internal Error: No driver module registered")
      end
  | None => Throw (RuntimeErr "Internal Error: No driver module registered")
  end.
End registry.
Arguments RegEntry : clear implicits.

(** [new JtagDriverLoopBack( argc, argv, arg )]; [fopen] yields the content
    of a file. *)
Definition new_JtagDriverLoopBack `{Platform} (fopen : string → option (list Z)) (xid0 : Z) (f0 : FILE_ptr)
    (argv : list (list Z)) (arg : option (list Z)) : outcome (JtagDriverAxisToJtag JtagDriverLoopBack) :=
  let fnam := of_text (default [] arg) in
  d ← JtagDriverLoopBack_new fnam (fopen fnam) f0;
  Ret (JtagDriverAxisToJtag_new 0 xid0 d).

(** ** The main program *)

Definition DEFAULTDRVNAME : list Z := text "udp".

(** The local variables that the options set. *)
Record main_opts := mkOpts {
  m_debug : Z;
  m_target : option (list Z);
  m_drvnam : list Z;
  m_port : Z;
  m_maxMsg : Z;
  m_setTest : bool;
  m_testMode : Z;
  m_once : bool;
  m_help : bool;
}.

Definition main_init : main_opts := mkOpts 0 None DEFAULTDRVNAME 2542 32768 false 0 false false.

(** One round of the option loop; [inr] is the argument of [return].  An
    unknown option or a missing argument is ['?']. *)
Definition main_option (opt : Z) (optarg : list Z) (o : main_opts) : main_opts + Z :=
  let '(mkOpts debug target drvnam port maxMsg setTest testMode once help) := o in
  let scan f := match scan_i optarg with Some v => inl (f v) | None => inr 1 end in
  if opt =? 104 (* h *) then inl (mkOpts debug target drvnam port maxMsg setTest testMode once true)
  else if opt =? 118 (* v *) then inl (mkOpts (wrap32 (debug + 1)) target drvnam port maxMsg setTest testMode once help)
  else if opt =? 86 (* V *) then inr 0
  else if opt =? 116 (* t *) then inl (mkOpts debug (Some optarg) drvnam port maxMsg setTest testMode once help)
  else if opt =? 115 (* s *) then inl (mkOpts (Z.lor debug 0x100) target drvnam port maxMsg setTest testMode once help)
  else if opt =? 68 (* D *) then inl (mkOpts debug target optarg port maxMsg setTest testMode once help)
  else if opt =? 77 (* M *) then scan (λ v, mkOpts debug target drvnam port v setTest testMode once help)
  else if opt =? 112 (* p *) then scan (λ v, mkOpts debug target drvnam v maxMsg setTest testMode once help)
  else if opt =? 84 (* T *) then scan (λ v, mkOpts debug target drvnam port maxMsg true v once help)
  else if opt =? 111 (* o *) then inl (mkOpts debug target drvnam port maxMsg setTest testMode true help)
  else inr 1.

(** [getopt] yields the pairs of an option and its argument. *)
Fixpoint main_options (opts : list (Z * list Z)) (o : main_opts) : main_opts + Z :=
  match opts with
  | [] => inl o
  | (opt, optarg) :: opts =>
      match main_option opt optarg o with
      | inl o => main_options opts o
      | inr code => inr code
      end
  end.

(** What [main] does to a driver besides serving. *)
Class MainDriver (D : Type) := {
  drv_setDebug : Z → D → D;
  drv_init : M D unit;
  drv_setTestMode : Z → D → D;
}.

(** The AxisToJtag drivers; each transport has its own [init]. *)
Definition axis_main {T} (init : M (JtagDriverAxisToJtag T) unit) : MainDriver (JtagDriverAxisToJtag T) := {|
  drv_setDebug debug a := set_jd (setDebug debug (jd a)) a;
  drv_init := init;
  drv_setTestMode flags a := set_jd (setTestMode flags (jd a)) a;
|}.

(** The end of the program: an exit status, an exception that leaves
    [main], undefined behaviour, or it serves for ever. *)
Inductive status :=
  | Exit (code : Z)
  | Uncaught (e : exn)
  | Crashed (u : fault)
  | Hangs
  | Serves.

Section main.
Context `{Platform} {D L : Type} `{JtagDriverIfc D} `{MainDriver D}.

(** The constructors and the entry points of the classes [JtagDriverUdp]
    and [UdpLoopBack]; [dlopen] loads a library, whose registrars add
    entries, or says why it cannot. *)
Context (new_JtagDriverUdp : list (list Z) → list Z → outcome D).
Context (new_UdpLoopBack : option (list Z) → Z → outcome L) (loop_start : Z → L → outcome unit).
Context (dlopen : list Z → string + list (RegEntry D)).

(** The [try] block of [main]; [inl] is the argument of [return]. *)
Definition main_driver (entries : list (RegEntry D)) (o : main_opts) (argv : list (list Z)) :
    outcome (Z + option D * option L) :=
  if decide (m_drvnam o = text "udpLoopback") then
    if m_help o then Ret (inl 0)
    else
      drv ← new_JtagDriverUdp argv (text "localhost:2543");
      loop ← new_UdpLoopBack (m_target o) 2543;
      Ret (inr (Some drv, Some loop))
  else
    found ← (if has entries (Some (m_drvnam o)) then Ret (entries, Some (m_drvnam o))
             else match dlopen (m_drvnam o) with
                  | inl msg => Throw (RuntimeErr (String.append "Unable to load requested driver: " msg))
                  | inr l => Ret (entries ++ l, None)
                  end);
    if m_help o then Ret (inl 0)
    else
      drv ← create (fst found) (snd found) argv (m_target o);
      Ret (inr (drv, None)).

(** From the driver to the server; an exception leaves [main]. *)
Definition main_setup (y : sys) (o : main_opts) (drv : D) (loop : option L) : outcome (XvcServer D) :=
  match loop with
  | Some l =>
      loop_start (m_debug o) l ;;
      if thread_ok y then Ret tt else Throw (SysErr "Unable to launch UDP loopback test thread")
  | None => Ret tt
  end ;;
  let (r, drv) := drv_init (drv_setDebug (m_debug o) drv) in
  r ;;
  let drv := if m_setTest o then drv_setTestMode (m_testMode o) drv else drv in
  XvcServer_new y (m_port o) drv (m_debug o) (m_maxMsg o) (m_once o).

Definition main (entries : list (RegEntry D)) (opts : list (Z * list Z)) (argv : list (list Z)) (y : sys)
    (clients : list (option net)) : status * list net :=
  match main_options opts main_init with
  | inr code => (Exit code, [])
  | inl o =>
      match main_driver entries o argv with
      | Throw _ => (Exit 1, [])
      | Fault u => (Crashed u, [])
      | NoFuel => (Hangs, [])
      | Ret (inl code) => (Exit code, [])
      | Ret (inr (None, _)) => (Exit 1, [])
      | Ret (inr (Some drv, loop)) =>
          match main_setup y o drv loop with
          | Throw e => (Uncaught e, [])
          | Fault u => (Crashed u, [])
          | NoFuel => (Hangs, [])
          | Ret s =>
              let (r, s) := XvcServer_run clients s in
              (match r with
               | Waiting => Serves
               | Stopped => Exit 0
               | Died e => Uncaught e
               | Broken u => Crashed u
               | Stuck => Hangs
               end, closed s)
          end
      end
  end.
End main.
