(* ===== verification/Simulation.v ===== *)
(** * Connections and servers on drivers that behave alike

    Two actions agree when, in related states, they have the same outcome
    and leave related states; faults of the first one may be excused.  If
    the operations of two drivers agree, so do the connection and the
    server on them: what a client sees depends on nothing else.  Used for
    the sniffer, which is to be invisible (Sniffer.v), and for the virtual
    calls through which [main] reaches its driver (Drivers.v). *)

From stdpp Require Import base numbers option list strings.
From Stdlib Require Import ZArith Lia.
From S2P Require Import Prelude Conn Server.
#[local] Open Scope Z_scope.

Create HintDb agree discriminated.

(** ** Actions that agree *)

Section agree.
Context {S1 S2 : Type} (R : S1 → S2 → Prop) (excused : fault → Prop).

(** The outcomes are equal, or the first is an excused fault. *)
Definition alike {A} (r1 : outcome A * S1) (r2 : outcome A * S2) : Prop :=
  fst r1 = fst r2 ∧ R (snd r1) (snd r2) ∨ ∃ u, fst r1 = Fault u ∧ excused u.

Definition agree {A} (m1 : M S1 A) (m2 : M S2 A) : Prop := ∀ s1 s2, R s1 s2 → alike (m1 s1) (m2 s2).

Lemma agree_ret {A} (a : A) : agree (mret a) (mret a).
Proof. by intros s1 s2 Hs; left. Qed.
Lemma agree_throw {A} e : agree (throw e : M S1 A) (throw e).
Proof. by intros s1 s2 Hs; left. Qed.
Lemma agree_undefined {A} u : agree (undefined u : M S1 A) (undefined u).
Proof. by intros s1 s2 Hs; left. Qed.
Lemma agree_no_fuel {A} : agree (no_fuel : M S1 A) no_fuel.
Proof. by intros s1 s2 Hs; left. Qed.
Lemma agree_lift {A} (o : outcome A) : agree (lift o) (lift o).
Proof. by intros s1 s2 Hs; left. Qed.
Lemma agree_modify f1 f2 : (∀ s1 s2, R s1 s2 → R (f1 s1) (f2 s2)) → agree (modify f1) (modify f2).
Proof. intros H s1 s2 Hs; left. split; [done|by apply H]. Qed.
Lemma agree_gets {A} f1 f2 : (∀ s1 s2, R s1 s2 → f1 s1 = f2 s2) → agree (gets f1 : M S1 A) (gets f2).
Proof. intros H s1 s2 Hs; left. cbn. by rewrite (H s1 s2). Qed.

Lemma agree_bind {A B} (m1 : M S1 A) m2 (k1 : A → M S1 B) k2 :
  agree m1 m2 → (∀ a, agree (k1 a) (k2 a)) → agree (m1 ≫= k1) (m2 ≫= k2).
Proof.
  intros Hm Hk s1 s2 Hs. specialize (Hm s1 s2 Hs). unfold alike, mbind, M_bind in *.
  destruct (m1 s1) as [o1 s1'], (m2 s2) as [o2 s2']. cbn [fst snd] in *.
  destruct Hm as [[-> Hs']|(u & -> & Hu)]; [|right; by exists u].
  destruct o2; [by apply Hk|by left..].
Qed.

(** The whole state is read. *)
Lemma agree_get {A X1 X2} (f1 : S1 → X1) (f2 : S2 → X2) (k1 : X1 → M S1 A) (k2 : X2 → M S2 A) :
  (∀ s1 s2, R s1 s2 → agree (k1 (f1 s1)) (k2 (f2 s2))) → agree (gets f1 ≫= k1) (gets f2 ≫= k2).
Proof. intros H s1 s2 Hs. exact (H s1 s2 Hs s1 s2 Hs). Qed.

Lemma agree_if {A} (b : bool) (m1 : M S1 A) m2 n1 n2 : agree m1 m2 → agree n1 n2 →
  agree (if b then m1 else n1) (if b then m2 else n2).
Proof. by destruct b. Qed.

(** Only the first of the two does something more, which is not seen. *)
Lemma agree_more {A} (m1 : M S1 unit) (k1 : M S1 A) k2 :
  (∀ s1 s2, R s1 s2 → match m1 s1 with (Ret _, s1') => R s1' s2 | (Fault u, _) => excused u | _ => False end) →
  agree k1 k2 → agree (m1 ;; k1) k2.
Proof.
  intros Hm Hk s1 s2 Hs. specialize (Hm s1 s2 Hs). unfold mbind, M_bind. destruct (m1 s1) as [[[]|e|u|] s1']; try done.
  - by apply Hk.
  - right. by exists u.
Qed.
End agree.

Lemma agree_zoom {S1 S2 T1 T2 A} (R : S1 → S2 → Prop) (RT : T1 → T2 → Prop) excused get1 get2 set1 set2
    (m1 : M T1 A) (m2 : M T2 A) : agree RT excused m1 m2 → (∀ s1 s2, R s1 s2 → RT (get1 s1) (get2 s2)) →
  (∀ s1 s2 t1 t2, R s1 s2 → RT t1 t2 → R (set1 t1 s1) (set2 t2 s2)) →
  agree R excused (zoom get1 set1 m1) (zoom get2 set2 m2).
Proof.
  intros Hm Hg Hs s1 s2 Hr. specialize (Hm _ _ (Hg _ _ Hr)). unfold zoom, alike in *.
  destruct (m1 (get1 s1)) as [o1 t1], (m2 (get2 s2)) as [o2 t2]. cbn [fst snd] in *.
  destruct Hm as [[-> Ht]|?]; [left; split; [done|by apply Hs]|by right].
Qed.

Lemma agree_same {T A} excused (m : M T A) : agree eq excused m m.
Proof. intros s1 s2 ->. by left. Qed.

Ltac agree_step :=
  match goal with
  | |- agree _ _ (mret _) (mret _) => apply agree_ret
  | |- agree _ _ (throw _) (throw _) => apply agree_throw
  | |- agree _ _ (undefined _) (undefined _) => apply agree_undefined
  | |- agree _ _ no_fuel no_fuel => apply agree_no_fuel
  | |- agree _ _ (lift _) (lift _) => apply agree_lift
  | |- agree _ _ (if ?b then _ else _) (if ?b then _ else _) => apply agree_if
  | |- agree _ _ (if ?b then _ else _) (if ?b then _ else _) => destruct b
  | |- agree _ _ (match ?o with Some _ => _ | None => _ end) (match ?o with Some _ => _ | None => _ end) => destruct o
  | H : _ |- agree _ _ _ _ => apply H
  end.

(** ** The connection *)

Section simulation.
Context `{Plat : Platform} {D1 D2 : Type} `{I1 : JtagDriverIfc D1} `{I2 : JtagDriverIfc D2} (R : D1 → D2 → Prop) (excused : fault → Prop).

Record same_driver : Prop := {
  same_query : agree R excused (drv_query (D := D1)) (drv_query (D := D2));
  same_max d1 d2 : R d1 d2 → drv_getMaxVectorSize d1 = drv_getMaxVectorSize d2;
  same_period p : agree R excused (drv_setPeriodNs (D := D1) p) (drv_setPeriodNs (D := D2) p);
  same_send bits tms tdi tdo :
    agree R excused (drv_sendVectors (D := D1) bits tms tdi tdo) (drv_sendVectors (D := D2) bits tms tdi tdo);
}.
Context (HR : same_driver).

(** Connections that differ in the driver only. *)
Definition same_conn (c1 : XvcConn D1) (c2 : XvcConn D2) : Prop :=
  R (drv_ c1) (drv_ c2) ∧ c2 = mkConn (drv_ c2) (sd_ c1) (rxb_ c1) (rp_ c1) (rl_ c1) (tl_ c1) (txb_ c1)
    (maxVecLen_ c1) (supVecLen_ c1) (chunk_ c1).
Abbreviation conns := (agree same_conn excused).

Lemma same_conn_cases c1 c2 : same_conn c1 c2 → ∃ d1 d2 n b p l t x m v k, R d1 d2 ∧
  c1 = mkConn d1 n b p l t x m v k ∧ c2 = mkConn d2 n b p l t x m v k.
Proof. destruct c1. intros [Hd ->]. by do 11 eexists. Qed.

Ltac cases H := destruct (same_conn_cases _ _ H) as (? & ? & ? & ? & ? & ? & ? & ? & ? & ? & ? & ? & -> & ->).
(** Fields other than the driver, and updates of them. *)
Ltac fields := first
  [ apply agree_gets; intros ? ? Hc; cases Hc; reflexivity
  | apply agree_modify; intros ? ? Hc; cases Hc; split; [assumption|reflexivity] ].
#[local] Hint Extern 1 (agree same_conn _ _ _) => fields : agree.

Lemma on_drv_conns {A} (m1 : M D1 A) m2 : agree R excused m1 m2 → conns (on_drv m1) (on_drv m2).
Proof.
  intros Hm. apply (agree_zoom _ R); [done|by intros ? ? []|]. intros c1 c2 d1 d2 Hc Hd. by cases Hc.
Qed.
Lemma on_sd_conns {A} (m : M net A) : conns (zoom sd_ set_sd m) (zoom sd_ set_sd m).
Proof.
  apply (agree_zoom _ eq); [apply agree_same| |]; [intros c1 c2 Hc; by cases Hc|].
  intros c1 c2 n1 n2 Hc ->. by cases Hc.
Qed.

(** The two connections are read at once. *)
Lemma get_conns {A} (k1 : XvcConn D1 → M (XvcConn D1) A) k2 :
  (∀ d1 d2 n b p l t x m v k, R d1 d2 →
    conns (k1 (mkConn d1 n b p l t x m v k)) (k2 (mkConn d2 n b p l t x m v k))) →
  conns (gets id ≫= k1) (gets id ≫= k2).
Proof. intros H. apply agree_get. intros c1 c2 Hc. cases Hc. by apply H. Qed.

#[local] Hint Resolve on_sd_conns on_drv_conns same_query same_period same_send : agree.
Ltac conn := repeat first
  [ agree_step | solve [auto with agree] | apply get_conns; intros; cbn | apply agree_bind; [|intros ?] ].

Lemma read_conns p l : conns (read p l) (read p l).
Proof. unfold read. conn. Qed.
#[local] Hint Resolve read_conns : agree.

Lemma fill_loop_conns fuel : ∀ p k, conns (fill_loop fuel p k) (fill_loop fuel p k).
Proof. induction fuel as [|fuel IH]; intros p k; cbn [fill_loop]; conn. Qed.
#[local] Hint Resolve fill_loop_conns : agree.

Lemma fill_conns n : conns (fill n) (fill n).
Proof. unfold fill. conn. Qed.

Lemma bump_conns n : conns (bump n) (bump n).
Proof.
  apply agree_modify. intros c1 c2 Hc. cases Hc. cbv zeta. cbn [rl_ rp_ set_rl set_rp]. by destruct (_ =? 0).
Qed.

Lemma allocBufs_conns : conns allocBufs allocBufs.
Proof.
  apply agree_bind; [by apply on_drv_conns, HR|intros t]. apply agree_modify. intros c1 c2 Hc. cases Hc.
  cbn [drv_ maxVecLen_]. erewrite (same_max HR) by done. done.
Qed.

Lemma flush_loop_conns fuel : ∀ p, conns (flush_loop fuel p) (flush_loop fuel p).
Proof. induction fuel as [|fuel IH]; intros p; cbn [flush_loop]; conn. Qed.

Lemma put_tx_conns bs : conns (put_tx bs) (put_tx bs).
Proof. unfold put_tx. conn. Qed.
Lemma peek_conns i n : conns (peek i n) (peek i n).
Proof. unfold peek. conn. Qed.
#[local] Hint Resolve fill_conns bump_conns allocBufs_conns flush_loop_conns put_tx_conns peek_conns : agree.

Lemma shift_loop_conns fuel : ∀ bytes vecLen off left,
  conns (shift_loop fuel bytes vecLen off left) (shift_loop fuel bytes vecLen off left).
Proof. induction fuel as [|fuel IH]; intros bytes vecLen off left; cbn [shift_loop]; conn. Qed.
#[local] Hint Resolve shift_loop_conns : agree.

Lemma message_conns : conns message message.
Proof. unfold message, do_getinfo, do_settck, do_shift, flush. conn. Qed.
#[local] Hint Resolve message_conns : agree.

Lemma messages_conns fuel : conns (messages fuel) (messages fuel).
Proof. induction fuel as [|fuel IH]; cbn [messages]; conn. Qed.
#[local] Hint Resolve messages_conns : agree.

Lemma serve_conns fuel fuel' : conns (serve fuel fuel') (serve fuel fuel').
Proof. revert fuel'. induction fuel as [|fuel IH]; intros fuel'; cbn [serve]; conn. Qed.
#[local] Hint Resolve serve_conns : agree.

Lemma run_conns : conns run run.
Proof. unfold run. conn. Qed.

(** ** The server *)

(** The debug level of the server is not used. *)
Definition same_server (s1 : XvcServer D1) (s2 : XvcServer D2) : Prop :=
  R (srv_drv s1) (srv_drv s2) ∧ s2 = mkServer (srv_port s1) (srv_drv s2) (srv_debug s2) (maxMsgSize_ s1)
    (once_ s1) (closed s1).

(** The two servers end the same way after the same traffic, or the first
    one is broken by an excused fault. *)
Lemma servers_agree clients : ∀ s1 s2, same_server s1 s2 →
  let r1 := XvcServer_run clients s1 in let r2 := XvcServer_run clients s2 in
  fst r1 = fst r2 ∧ same_server (snd r1) (snd r2) ∨ ∃ u, fst r1 = Broken u ∧ excused u.
Proof.
  induction clients as [|[n|] clients IH]; intros [p1 d1 g1 x1 o1 l1] [p2 d2 g2 x2 o2 l2] [Hd E];
    cbn in E, Hd; simplify_eq; cbn [XvcServer_run]; [by left| |by left].
  pose proof (run_conns (XvcConn_new d1 n x1) (XvcConn_new d2 n x1)) as Hr.
  cbn [srv_drv maxMsgSize_]. unfold alike in Hr.
  destruct (run (XvcConn_new d1 n x1)) as [r1 c1], (run (XvcConn_new d2 n x1)) as [r2 c2]. cbn [fst snd] in Hr.
  destruct Hr as [[-> Hc]|(u & -> & Hu)]; [by split|..].
  - cases Hc. unfold after_conn. cbn [srv_port srv_drv srv_debug maxMsgSize_ once_ closed sd_ drv_].
    destruct o1, r2 as [a|[]|u|]; first [by left|by apply IH].
  - right. exists u. by cbn.
Qed.

End simulation.

(** ** From the set-up of a driver on *)

Definition status_of (r : server_end) : status :=
  match r with
  | Waiting => Serves
  | Stopped => Exit 0
  | Died e => Uncaught e
  | Broken u => Crashed u
  | Stuck => Hangs
  end.

(** What [main] does once there is a driver; [status_of] is its end. *)
Definition launch `{Platform} {D L} `{JtagDriverIfc D} `{MainDriver D} (loop_start : Z → L → outcome unit) y o drv loop clients :
    status * list net :=
  match main_setup loop_start y o drv loop with
  | Throw e => (Uncaught e, [])
  | Fault u => (Crashed u, [])
  | NoFuel => (Hangs, [])
  | Ret s => let (r, s) := XvcServer_run clients s in (status_of r, closed s)
  end.

Definition with_debug (g : Z) (o : main_opts) : main_opts :=
  mkOpts g (m_target o) (m_drvnam o) (m_port o) (m_maxMsg o) (m_setTest o) (m_testMode o) (m_once o) (m_help o).

Section launches.
Context `{Plat : Platform} {D1 D2 L1 L2 : Type} `{JtagDriverIfc D1} `{JtagDriverIfc D2} `{MainDriver D1} `{MainDriver D2}.
Context (R : D1 → D2 → Prop) (excused : fault → Prop) (HR : same_driver R excused).
Context (loop_start1 : Z → L1 → outcome unit) (loop_start2 : Z → L2 → outcome unit).

(** The same command line, but for the debug level. *)
Lemma launches_agree y g o d1 d2 l1 l2 clients :
  R (drv_setDebug g d1) (drv_setDebug (m_debug o) d2) → agree R excused drv_init drv_init →
  (∀ e1 e2, R e1 e2 → R (drv_setTestMode (m_testMode o) e1) (drv_setTestMode (m_testMode o) e2)) →
  (match l1, l2 with Some a, Some b => loop_start1 g a = loop_start2 (m_debug o) b | None, None => True | _, _ => False end) →
  let r1 := launch loop_start1 y (with_debug g o) d1 l1 clients in
  let r2 := launch loop_start2 y o d2 l2 clients in
  r1 = r2 ∨ ∃ u, fst r1 = Crashed u ∧ excused u.
Proof.
  intros Hd Hi Ht Hl. cbv zeta. unfold launch, main_setup. cbn [m_debug m_setTest m_testMode m_port m_maxMsg m_once with_debug].
  match goal with |- match ?a ;; _ with _ => _ end = match ?b ;; _ with _ => _ end ∨ _ => assert (a = b) as -> end.
  { destruct l1 as [a|], l2 as [b|]; try done. by rewrite Hl. }
  destruct (match l2 with Some _ => _ | None => _ end) as [[]|e|u|]; cbn [mbind outcome_bind]; [|by left..].
  specialize (Hi _ _ Hd). unfold alike in Hi. destruct (drv_init (drv_setDebug g d1)) as [r1 e1], (drv_init (drv_setDebug _ d2)) as [r2 e2].
  cbn [fst snd] in Hi. destruct Hi as [[-> He]|(u & -> & Hu)]; [|right; by exists u].
  destruct r2 as [[]|e|u|]; cbn [mbind outcome_bind]; [|by left..]. unfold XvcServer_new.
  destruct (SockSd_new _) as [[]|e|u|]; cbn [mbind outcome_bind]; [|by left..].
  destruct (negb (reuse_ok y)); [by left|]. destruct (negb (bind_ok y _)); [by left|]. destruct (negb (listen_ok y)); [by left|].
  match goal with |- (let (_, _) := XvcServer_run _ ?s1 in _) = (let (_, _) := XvcServer_run _ ?s2 in _) ∨ _ =>
    pose proof (servers_agree R excused HR clients s1 s2) as Hs end.
  cbv zeta in Hs. destruct (XvcServer_run _ _) as [q1 s1'], (XvcServer_run _ _) as [q2 s2'].
  destruct Hs as [[Eq [_ Es]]|(u & Eq & Hu)]; cbn [fst snd] in *.
  - split; [|done]. cbn. destruct (m_setTest o); [by apply Ht|done].
  - left. subst q2. by rewrite Es.
  - right. exists u. by rewrite Eq.
Qed.
End launches.
