(* ===== verification/ServerSpec.v ===== *)
(** * What the server and the main program do

    The accept loop serves one client after the other as the specification
    of the connection says (ConnSpec.v), until an exception other than
    [SysErr] leaves it; the registry finds the driver that was registered
    last; the options of [main], the ways it ends, and the whole program
    from the command line to the replies. *)

From stdpp Require Import base numbers option list strings.
From Stdlib Require Import ZArith Lia.
From S2P Require Import Prelude Driver LoopBack Udp Conn ConnSpec Target Player Stack Server Simulation.
#[local] Open Scope Z_scope.

(** ** The accept loop *)

Section spec_server.
Context `{Platform} {D : Type} `{JtagDriverIfc D} (maxVecLen : Z) (once : bool).

(** The specification: how it ends, the driver, and what every client that
    was served has been told. *)
Fixpoint spec_server (clients : list net) (d : D) : server_end * D * list (list Z) :=
  match clients with
  | [] => (Waiting, d, [])
  | n :: clients =>
      let (o, s) := spec_run maxVecLen (spec_start d n maxVecLen) in
      let '(r, d', outs) :=
        match o with
        | Ret _ | Throw (SysErr _) => if once then (Stopped, s_drv s, []) else spec_server clients (s_drv s)
        | Throw e => (Died e, s_drv s, [])
        | Fault u => (Broken u, s_drv s, [])
        | NoFuel => (Stuck, s_drv s, [])
        end in
      (r, d', s_out s :: outs)
  end.

(** A client in whose connection no system call fails. *)
Definition client_ok (n : net) : Prop := net_good n ∧ nodelay_ok n = true.
(** One that announces a vector of 2^32-7 or more bits. *)
Definition client_overlong (n : net) : Prop := overlong (S (length (inp n))) maxVecLen (inp n) = true.
End spec_server.

Section server.
Context `{Platform} {D : Type} `{JtagDriverIfc D}.
Implicit Types s : XvcServer D.

(** Serving goes on where it stopped. *)
Lemma server_app l l' s : XvcServer_run (l ++ l') s =
  match XvcServer_run l s with (Waiting, s') => XvcServer_run l' s' | r => r end.
Proof.
  revert s. induction l as [|[n|] l IH]; intros s; [done| |done]. cbn [app XvcServer_run].
  destruct (run _) as [[[]|[]|u|] c]; try done; destruct (once_ _); done.
Qed.

Context `{!JtagDriverLaws D}.

(** C12: the accept loop implements its specification.  The driver respects
    the interface and has room, whenever a client connects and whatever its
    target then announces, for every vector up to the server's limit (with
    the drivers of JtagDriverAxisToJtag a limit of 1001 bytes, or of 1020
    with words of four bytes, is small enough); no system call fails on the
    connections.  Then for every sequence of clients, each with its own
    octets, segmentation and intruders: the clients are served in order,
    each is told exactly what the specification of the connection says with
    the driver the previous one left, and the server ends in the same way.
    It never runs into undefined behaviour, and can hang only when a client
    announces a vector of 2^32-7 or more bits. *)
Theorem server_refines clients s : drv_ok (srv_drv s) → 1 ≤ maxMsgSize_ s ≤ 2 ^ 17 →
  (∀ d, drv_ok d → roomy d (maxMsgSize_ s)) → Forall client_ok clients →
  let (r, s') := XvcServer_run (Some <$> clients) s in
  let '(r', d', outs) := spec_server (maxMsgSize_ s) (once_ s) clients (srv_drv s) in
  r = r' ∧
  match r with
  | Broken _ => False
  | Stuck => Exists (client_overlong (maxMsgSize_ s)) clients
  | _ => srv_drv s' = d' ∧ out <$> closed s' = (out <$> closed s) ++ outs
  end.
Proof.
  revert s. induction clients as [|n clients IH]; intros s Hd Hm Hr Hc.
  { cbn. by rewrite app_nil_r. }
  inversion Hc as [|? ? [Hn Hok] Hc']; subst. cbn [fmap list_fmap XvcServer_run spec_server].
  pose proof (run_sim (srv_drv s) n (maxMsgSize_ s) Hd Hn Hok Hm (Hr _ Hd)) as Hs. unfold simulates in Hs.
  destruct (run _) as [[[]|e|u|] c], (spec_run _ _) as [[[]|e'|u'|] s0]; try done; [|split; [done|by left]].
  destruct Hs as (<- & (Edrv & Eout) & Hsys).
  set (s1 := after_conn c s). assert (Ecl : out <$> closed s1 = (out <$> closed s) ++ [s_out s0])
    by (subst s1; cbn [closed after_conn]; by rewrite fmap_app, <-Eout).
  change (once_ s1) with (once_ s).
  destruct e; [destruct (once_ s) eqn:Eon|..]; try (split; [done|split; [exact Edrv|exact Ecl]]).
  pose proof (IH s1 (Hsys eq_refl) Hm Hr Hc') as Hi. change (once_ s1) with (once_ s) in Hi. rewrite Eon in Hi.
  change (srv_drv s1) with (drv_ c) in Hi. change (maxMsgSize_ s1) with (maxMsgSize_ s) in Hi. rewrite Edrv in Hi.
  destruct (XvcServer_run _ s1) as [r s2]. destruct (spec_server _ _ _ _) as [[r' d'] outs].
  destruct Hi as [<- Hi]. split; [done|]. destruct r; try done; [..|by right].
  all: destruct Hi as [-> ->]; by rewrite Ecl, <-app_assoc.
Qed.

(** C26: a message that is not understood ends the server, not just the
    connection: whatever clients were served before, a client that starts
    with two octets other than those of the three messages makes [run]
    throw; it is told nothing, and the clients after it are not served. *)
Theorem server_fatal pre n post s s1 tgt d1 :
  XvcServer_run pre s = (Waiting, s1) → drv_ok (srv_drv s1) → drv_query (srv_drv s1) = (Ret tgt, d1) →
  1 ≤ maxMsgSize_ s1 ≤ 2 ^ 17 → roomy (srv_drv s1) (maxMsgSize_ s1) → net_good n → nodelay_ok n = true →
  2 ≤ zlen (inp n) → take 2 (inp n) ≠ text "ge" ∧ take 2 (inp n) ≠ text "se" ∧ take 2 (inp n) ≠ text "sh" →
  ∃ s' n', XvcServer_run (pre ++ Some n :: post) s = (Died (ProtoErr "unsupported message received"), s') ∧
    closed s' = closed s1 ++ [n'] ∧ out n' = out n.
Proof.
  intros Epre Hd Eq Hm Hr Hn Hok Hl Hno. rewrite server_app, Epre. cbn [XvcServer_run].
  pose proof (run_sim (srv_drv s1) n (maxMsgSize_ s1) Hd Hn Hok Hm Hr) as Hs. unfold simulates, spec_run in Hs.
  assert (Es : s_on_drv drv_query (spec_start (srv_drv s1) n (maxMsgSize_ s1)) = (Ret tgt, spec_start d1 n (maxMsgSize_ s1)))
    by (unfold s_on_drv, zoom; cbn [spec_start s_drv]; by rewrite Eq).
  rewrite (M_bind_ret _ _ _ _ _ Es) in Hs. set (s0 := spec_start d1 n (maxMsgSize_ s1)) in Hs.
  assert (En : need 2 s0 = (Ret (take 2 (inp n)), s0)) by (unfold need; cbn [s_in s0 spec_start]; by zbool).
  assert (Em : ∀ sup, spec_message (maxMsgSize_ s1) sup s0 = (Throw (ProtoErr "unsupported message received"), s0)).
  { intros sup. unfold spec_message. rewrite (M_bind_ret _ _ _ _ _ En).
    by rewrite !decide_False by apply Hno. }
  rewrite (M_bind_ret _ _ s0 s0 s0) in Hs by done. cbn [spec_serve] in Hs. unfold mbind, M_bind in Hs. rewrite Em in Hs.
  destruct (run _) as [[[]|e|u|] c]; try done. destruct Hs as (-> & (_ & Eo) & _).
  exists (after_conn c s1), (sd_ c). split; [done|]. split; [done|exact Eo].
Qed.
End server.

(** *** Clients of a target *)

(** A client that sends the requests [rs] and closes the connection. *)
Definition asks (maxVecLen : Z) (c : net * list request) : Prop :=
  Forall (valid maxVecLen) (snd c) ∧ net_good (fst c) ∧ nodelay_ok (fst c) = true ∧
  inp (fst c) = concat (encode <$> snd c) ∧ out (fst c) = [].

Fixpoint all_replies `{Target St} (maxVecLen : Z) (st : St) (cs : list (net * list request)) : St * list (list Z) :=
  match cs with
  | [] => (st, [])
  | c :: cs =>
      let (st1, o) := replies maxVecLen (queried st) (snd c) in
      let (st2, os) := all_replies maxVecLen st1 cs in (st2, o :: os)
  end.

(** The target can take the vectors of every client. *)
Fixpoint all_takes `{Target St} (maxVecLen : Z) (st : St) (cs : list (net * list request)) : Prop :=
  match cs with
  | [] => True
  | c :: cs =>
      takes maxVecLen (queried st) (snd c) ∧ all_takes maxVecLen (fst (replies maxVecLen (queried st) (snd c))) cs
  end.
Lemma all_takes_all `{Target St} maxVecLen st cs : (∀ st bits, able st bits) → all_takes maxVecLen st cs.
Proof. intros Ha. revert st. induction cs as [|c cs IH]; intros st; [done|]. split; [by apply takes_all|apply IH]. Qed.

(** The clients are served one after the other on the same target, and the
    server then waits for the next one. *)
Lemma clients_served `{Platform} `{HD : Drives D St} cs : ∀ st (s : XvcServer D), idle st (srv_drv s) → 1 ≤ maxMsgSize_ s ≤ 2 ^ 17 →
  (∀ st d, idle st d → roomy d (maxMsgSize_ s) ∧ cuts d (maxMsgSize_ s)) → once_ s = false →
  all_takes (maxMsgSize_ s) st cs → Forall (asks (maxMsgSize_ s)) cs →
  let (st', os) := all_replies (maxMsgSize_ s) st cs in
  ∃ s', XvcServer_run (Some ∘ fst <$> cs) s = (Waiting, s') ∧ idle st' (srv_drv s') ∧
    out <$> closed s' = (out <$> closed s) ++ os.
Proof.
  induction cs as [|[n rs] cs IH]; intros st s Hd Hm Hr Hon Hab Hc.
  { exists s. by rewrite app_nil_r. }
  inversion Hc as [|? ? (Hv & Hn & Hok & Ei & Eo) Hc']; subst. cbn [fst snd all_takes] in *.
  destruct Hab as [Hab Habs]. destruct (Hr _ _ Hd) as [Hro Hcu].
  pose proof (session_served (maxMsgSize_ s) (srv_drv s) n st rs Hd Hm Hro Hcu Hab Hv Hn Hok Ei) as Hs.
  cbn [all_replies snd]. destruct (replies (maxMsgSize_ s) (queried st) rs) as [st1 o]. destruct Hs as (c & E & Htr & Ho).
  specialize (IH st1 (after_conn c s) (tracks_idle _ _ Htr) Hm Hr Hon Habs Hc').
  change (maxMsgSize_ (after_conn c s)) with (maxMsgSize_ s) in IH.
  destruct (all_replies (maxMsgSize_ s) st1 cs) as [st2 os]. destruct IH as (s' & E' & Hd' & Ho').
  exists s'. split; [|split; [done|]].
  - cbn [fmap list_fmap XvcServer_run compose fst]. rewrite E. cbn [once_ after_conn]. by rewrite Hon.
  - rewrite Ho'. cbn [closed after_conn]. rewrite fmap_app, <-app_assoc. cbn. by rewrite Ho, Eo.
Qed.

(** The loop-back driver as a player. *)
Lemma played_served `{Platform} `{Target St} (plays : St → JtagDriverLoopBack → Prop) (HP : player plays) (HLE : isLE = true)
    clients st s :
  shifts (λ st a, plays st (tp a)) st (srv_drv s) → 1 ≤ maxMsgSize_ s ≤ 1020 → (grain (St := St) | maxMsgSize_ s) →
  once_ s = false → all_takes (maxMsgSize_ s) st clients → Forall (asks (maxMsgSize_ s)) clients →
  let (st', os) := all_replies (maxMsgSize_ s) st clients in
  ∃ s', XvcServer_run (Some ∘ fst <$> clients) s = (Waiting, s') ∧ shifts (λ st a, plays st (tp a)) st' (srv_drv s') ∧
    out <$> closed s' = (out <$> closed s) ++ os.
Proof.
  intros Hd Hm Hg Hon Hab Hc. set (HS := player_shifter plays HP HLE).
  apply (clients_served (HD := shifter_drives _ _ _ _ _ HS)); try done; [lia|]. intros st0 d Hd0. split.
  - apply (shifter_roomy _ _ _ _ _ HS st0 d _ 1020 Hd0); [left; lia|by right].
  - apply (shifter_cuts _ _ _ _ _ HS st0 d _ Hd0); [exact Hg|]. change (supported _ 0 0) with (maxMsgSize_ s). lia.
Qed.

(** The server on the loop-back driver with a file of TDO words (of
    which [vs] are left): each session starts at the top of the file, each
    shift is answered with the next words, as many as it has bits for, and
    each client is told these bytes, its periods and the greetings; as long
    as the words suffice the server serves every sequence of clients that
    send valid requests, and then waits for the next. *)
Theorem server_plays_back `{Platform} all vs clients s :
  isLE = true → shifts (λ st a, plays_back all st (tp a)) vs (srv_drv s) →
  1 ≤ maxMsgSize_ s ≤ 1020 → (4 | maxMsgSize_ s) → once_ s = false →
  @all_takes _ (playback all) (maxMsgSize_ s) vs clients → Forall (asks (maxMsgSize_ s)) clients →
  let (vs', os) := @all_replies _ (playback all) (maxMsgSize_ s) vs clients in
  ∃ s', XvcServer_run (Some ∘ fst <$> clients) s = (Waiting, s') ∧
    shifts (λ st a, plays_back all st (tp a)) vs' (srv_drv s') ∧
    out <$> closed s' = (out <$> closed s) ++ os.
Proof.
  intros HLE Hd Hm Hg Hon Hab Hc.
  by apply (played_served (H0 := playback all) (plays_back all) (playback_player all) HLE).
Qed.

(** ** The registry *)

Section registry.
Context {D : Type}.
Implicit Types l : list (RegEntry D).

Lemma find_down_app l e nm n : (n ≤ length l)%nat → find_down (l ++ [e]) nm n = find_down l nm n.
Proof.
  induction n as [|n IH]; intros Hn; [done|]. cbn [find_down]. rewrite lookup_app_l by lia.
  destruct (l !! n); [|done]. by rewrite IH by lia.
Qed.

(** [find] is the last entry of that name. *)
Lemma find_last l nm : nm ≠ [] → find l (Some nm) = last (filter (λ e, name_ e = nm) l).
Proof.
  intros Hnm. assert (Ef : find l (Some nm) = find_down l nm (length l)) by (by destruct nm). rewrite Ef. clear Ef.
  induction l as [|e l IH] using rev_ind; [done|].
  rewrite length_app, Nat.add_comm, filter_app. cbn [length Nat.add find_down].
  rewrite (list_lookup_middle l [] e) by done. cbn [filter list_filter]. destruct (decide (name_ e = nm)).
  - by rewrite last_snoc.
  - rewrite app_nil_r, find_down_app by done. exact IH.
Qed.

(** The drivers of the program, registered in this order. *)
Definition registered (drivers : list (list Z * (list (list Z) → option (list Z) → outcome D))) : list (RegEntry D) :=
  foldl (λ l d, DriverRegistrar (fst d) (snd d) l) [] drivers.

Definition entry_of (d : list Z * (list (list Z) → option (list Z) → outcome D)) : RegEntry D :=
  mkEntry (fst d) (Some (λ argv arg, x ← snd d argv arg; Ret (Some x))) true true.

Lemma registered_entries drivers : registered drivers = entry_of <$> drivers.
Proof.
  unfold registered. change (entry_of <$> drivers) with ([] ++ (entry_of <$> drivers)). generalize (@nil (RegEntry D)).
  induction drivers as [|d drivers IH]; intros l; cbn; [by rewrite app_nil_r|]. rewrite IH.
  unfold DriverRegistrar, registerFactory. by rewrite <-app_assoc.
Qed.

Lemma find_registered drivers nm : nm ≠ [] →
  find (registered drivers) (Some nm) = entry_of <$> last (filter (λ d, fst d = nm) drivers).
Proof.
  intros Hnm. rewrite find_last, registered_entries by done.
  induction drivers as [|d drivers IH] using rev_ind; [done|].
  rewrite fmap_app, !filter_app. cbn [fmap list_fmap filter list_filter]. cbn [name_ entry_of].
  destruct (decide (fst d = nm)); [by rewrite !last_snoc|]. by rewrite !app_nil_r.
Qed.
End registry.

(** ** The options of the main program *)

(** The options that are understood; the numbers can be scanned. *)
Definition option_ok (p : Z * list Z) : bool :=
  bool_decide (fst p ∈ [104; 118; 116; 115; 68; 111]) ||
  bool_decide (fst p ∈ [77; 112; 84]) && bool_decide (is_Some (scan_i (snd p))).

Definition given (c : Z) (opts : list (Z * list Z)) : bool := existsb (λ p, fst p =? c) opts.
Definition last_arg (c : Z) (opts : list (Z * list Z)) : option (list Z) := snd <$> last (filter (λ p, fst p = c) opts).
Definition count (c : Z) (opts : list (Z * list Z)) : Z := zlen (filter (λ p, fst p = c) opts).

Lemma given_snoc c opts p : given c (opts ++ [p]) = given c opts || (fst p =? c).
Proof. unfold given. rewrite existsb_app. cbn. by rewrite orb_false_r. Qed.
Lemma last_arg_snoc c opts p : last_arg c (opts ++ [p]) = if fst p =? c then Some (snd p) else last_arg c opts.
Proof.
  unfold last_arg. rewrite filter_app. cbn. destruct (Z.eqb_spec (fst p) c).
  - by rewrite decide_True, last_snoc by done.
  - by rewrite decide_False, app_nil_r by done.
Qed.
Lemma count_snoc c opts p : count c (opts ++ [p]) = count c opts + (if fst p =? c then 1 else 0).
Proof.
  unfold count. rewrite filter_app, length_app. cbn. destruct (Z.eqb_spec (fst p) c).
  - rewrite decide_True by done. simpl length. lia.
  - rewrite decide_False by done. simpl length. lia.
Qed.

Ltac opts_step :=
  rewrite ?given_snoc, ?last_arg_snoc, ?count_snoc;
  cbn [m_debug m_target m_drvnam m_port m_maxMsg m_setTest m_testMode m_once m_help fst snd Z.eqb Pos.eqb];
  rewrite ?orb_false_r, ?orb_true_r, ?Z.add_0_r.

(** What the options say, in terms of the last of each. *)
Record says (opts : list (Z * list Z)) (o : main_opts) : Prop := {
  says_target : m_target o = last_arg 116 opts;
  says_drvnam : m_drvnam o = default DEFAULTDRVNAME (last_arg 68 opts);
  says_port : m_port o = default 2542 (last_arg 112 opts ≫= scan_i);
  says_maxMsg : m_maxMsg o = default 32768 (last_arg 77 opts ≫= scan_i);
  says_setTest : m_setTest o = given 84 opts;
  says_testMode : m_testMode o = default 0 (last_arg 84 opts ≫= scan_i);
  says_once : m_once o = given 111 opts;
  says_help : m_help o = given 104 opts;
  says_debug : count 118 opts < 256 → m_debug o = count 118 opts + (if given 115 opts then 256 else 0);
}.

(** The variables are unsigned numbers of 32 bits. *)
Definition typed (o : main_opts) : Prop :=
  is_u32 (m_debug o) ∧ is_u32 (m_port o) ∧ is_u32 (m_maxMsg o) ∧ is_u32 (m_testMode o).

Lemma main_options_app l l' o : main_options (l ++ l') o =
  match main_options l o with inl o => main_options l' o | inr c => inr c end.
Proof.
  revert o. induction l as [|[c arg] l IH]; intros o; [done|]. cbn [app main_options].
  destruct (main_option c arg o); [apply IH|done].
Qed.

Lemma scan_i_u32 arg v : scan_i arg = Some v → is_u32 v.
Proof. unfold scan_i. destruct (scan_li arg); [|done]. intros [= <-]. apply wrap32_u32. Qed.

Lemma lor_256 n b : 0 ≤ n < 256 → Z.lor (n + if b : bool then 256 else 0) 0x100 = n + 256.
Proof.
  intros Hn. assert (E : Z.lor n (1 * 2 ^ 8) = n + 1 * 2 ^ 8) by (apply lor_add; lia). change (1 * 2 ^ 8) with 256 in E.
  destruct b; [|by rewrite Z.add_0_r]. by rewrite <-E, <-Z.lor_assoc, Z.lor_diag.
Qed.
Lemma lor_256_u32 n : is_u32 n → is_u32 (Z.lor n 0x100).
Proof.
  unfold is_u32. intros Hn. split; [apply Z.lor_nonneg; lia|].
  destruct (Z.eq_dec n 0) as [->|Hne]; [done|]. apply Z.log2_lt_pow2.
  - assert (Z.lor n 0x100 ≠ 0) by (rewrite Z.lor_eq_0_iff; lia). assert (0 ≤ Z.lor n 0x100) by (apply Z.lor_nonneg; lia). lia.
  - rewrite Z.log2_lor by lia. apply Z.max_lub_lt; [apply Z.log2_lt_pow2; lia|done].
Qed.

Lemma main_option_says opts o p : says opts o → typed o → option_ok p = true →
  ∃ o', main_option (fst p) (snd p) o = inl o' ∧ says (opts ++ [p]) o' ∧ typed o'.
Proof.
  destruct p as [c arg], o as [dbg tgt drv port mx st tm once help]. intros [] (T1 & T2 & T3 & T4). cbn [fst snd] in *.
  cbn [m_debug m_target m_drvnam m_port m_maxMsg m_setTest m_testMode m_once m_help] in *.
  assert (Hcnt : 0 ≤ count 118 opts) by (unfold count; lia).
  unfold option_ok. cbn [fst snd]. intros [Ho%bool_decide_eq_true|[Ho%bool_decide_eq_true Hs%bool_decide_eq_true]%andb_true_iff]%orb_true_iff.
  - rewrite !elem_of_cons, elem_of_nil in Ho. destruct Ho as [->|[->|[->|[->|[->|[->|[]]]]]]]; (eexists; split; [reflexivity|]);
      (split; [split|unfold typed]; opts_step; try done).
    + intros Hc. rewrite says_debug0, wrap32_small by (try (unfold is_u32; destruct (given 115 opts)); lia). lia.
    + split; [apply wrap32_u32|done].
    + intros Hc. by rewrite says_debug0, lor_256 by lia.
    + split; [by apply lor_256_u32|done].
  - destruct Hs as [v Hv]. pose proof (scan_i_u32 arg v Hv). rewrite !elem_of_cons, elem_of_nil in Ho.
    destruct Ho as [->|[->|[->|[]]]]; unfold main_option; cbn [Z.eqb Pos.eqb]; rewrite Hv;
      (eexists; split; [reflexivity|]); (split; [split|unfold typed]; opts_step; cbn [mbind option_bind]; rewrite ?Hv; done).
Qed.

Lemma main_option_fails c arg o : option_ok (c, arg) = false → main_option c arg o = inr (if c =? 86 then 0 else 1).
Proof.
  unfold option_ok. cbn [fst snd]. intros [H1%bool_decide_eq_false H2]%orb_false_iff. rewrite !not_elem_of_cons in H1.
  destruct o. unfold main_option. destruct H1 as (N1 & N2 & N3 & N4 & N5 & N6 & _).
  rewrite (proj2 (Z.eqb_neq c 104)), (proj2 (Z.eqb_neq c 118)), (proj2 (Z.eqb_neq c 116)), (proj2 (Z.eqb_neq c 115)),
    (proj2 (Z.eqb_neq c 68)), (proj2 (Z.eqb_neq c 111)) by done.
  assert (Hs : c ∈ [77; 112; 84] → scan_i arg = None).
  { intros Hc. rewrite bool_decide_eq_true_2 in H2 by done. cbn [andb] in H2. apply bool_decide_eq_false in H2.
    destruct (scan_i arg); [by destruct H2|done]. }
  rewrite !elem_of_cons in Hs.
  destruct (Z.eqb_spec c 86); [done|]. destruct (Z.eqb_spec c 77); [by rewrite Hs by auto|].
  destruct (Z.eqb_spec c 112); [by rewrite Hs by auto|]. destruct (Z.eqb_spec c 84); [by rewrite Hs by auto|]. done.
Qed.

Lemma main_options_says opts : forallb option_ok opts = true → ∃ o, main_options opts main_init = inl o ∧ says opts o ∧ typed o.
Proof.
  induction opts as [|p opts IH] using rev_ind; [exists main_init; by split; [|split; [split|]]|].
  rewrite forallb_app. cbn [forallb]. rewrite andb_true_r. intros [Ha Ep]%andb_true_iff.
  destruct (IH Ha) as (o & E & Hs & Ht). destruct (main_option_says opts o p Hs Ht Ep) as (o' & E' & Hs' & Ht').
  exists o'. rewrite main_options_app, E. destruct p as [c arg]. cbn [main_options fst snd] in *. by rewrite E'.
Qed.

(** C29: the options of [main]: when all are understood, the local variables
    are set by the last option of each kind, a flag by any, and the debug
    level counts the [-v] (up to 255; [-s] is bit 8); all of them are
    unsigned numbers of 32 bits.  Otherwise the first that is not ends the
    program, with status 0 for the version and 1 for all others. *)
Theorem main_options_typed opts :
  if forallb option_ok opts then ∃ o, main_options opts main_init = inl o ∧ says opts o ∧ typed o
  else ∃ pre p post, opts = pre ++ p :: post ∧ forallb option_ok pre = true ∧ option_ok p = false ∧
    main_options opts main_init = inr (if fst p =? 86 then 0 else 1).
Proof.
  destruct (forallb option_ok opts) eqn:Eall; [by apply main_options_says|].
  induction opts as [|p opts IH] using rev_ind; [done|]. rewrite forallb_app in Eall. cbn [forallb] in Eall.
  rewrite andb_true_r in Eall. rewrite main_options_app. destruct (forallb option_ok opts) eqn:Ea.
  - destruct (main_options_says opts Ea) as (o & -> & _). exists opts, p, []. split; [done|]. split; [done|]. split; [done|].
    destruct p as [c arg]. cbn [main_options fst]. by rewrite (main_option_fails c arg o Eall).
  - destruct (IH eq_refl) as (pre & q & post & -> & Hpre & Hq & ->). exists pre, q, (post ++ [p]). by rewrite <-app_assoc.
Qed.

(** ** Before there is a driver *)

Section refusals.
Context `{Platform} {D L : Type} `{JtagDriverIfc D} `{MainDriver D}.
Context (new_udp : list (list Z) → list Z → outcome D) (new_loop : option (list Z) → Z → outcome L).
Context (loop_start : Z → L → outcome unit) (dlopen : list Z → string + list (RegEntry D)).
Abbreviation main := (main new_udp new_loop loop_start dlopen).

(** C28: how [main] ends before it serves, for a driver other than the
    loop-back over UDP.  The driver that counts is the last one registered
    under the name.  With [-h] the exit status is 0 and no driver is
    constructed; without a target it is 1, for every driver; every
    exception of the constructor is reported with status 1, while one of
    [init] leaves [main].  A name that is neither registered nor can be
    loaded gives status 1.  No client is served in any of these cases. *)
Theorem main_refusals drivers opts o argv y clients :
  main_options opts main_init = inl o → m_drvnam o ≠ text "udpLoopback" → m_drvnam o ≠ [] →
  let result := main (registered drivers) opts argv y clients in
  match last (filter (λ d, fst d = m_drvnam o) drivers) with
  | Some (_, new) =>
      (m_help o = true → result = (Exit 0, [])) ∧
      (m_help o = false → m_target o = None ∨ m_target o = Some [] → result = (Exit 1, [])) ∧
      (∀ c t e, m_help o = false → m_target o = Some (c :: t) → new argv (Some (c :: t)) = Throw e → result = (Exit 1, [])) ∧
      (∀ c t d e, m_help o = false → m_target o = Some (c :: t) → new argv (Some (c :: t)) = Ret d →
         fst (drv_init (drv_setDebug (m_debug o) d)) = Throw e → result = (Uncaught e, []))
  | None => ∀ msg, dlopen (m_drvnam o) = inl msg → result = (Exit 1, [])
  end.
Proof.
  intros Eo Hu Hne. cbv zeta. unfold main. rewrite Eo. unfold main_driver. rewrite decide_False by done.
  pose proof (find_registered drivers (m_drvnam o) Hne) as Hf. unfold has, create.
  destruct (last _) as [[nm new]|]; cbn [fmap option_fmap option_map] in Hf; rewrite Hf; cbn [mbind outcome_bind fst snd];
    [|by intros msg ->]. rewrite Hf. cbn [creator_ entry_of needTargetArg_ andb fst snd]. split_and!.
  - by intros ->.
  - by intros -> [-> | ->].
  - intros c t e -> -> Hn. cbn [mbind outcome_bind]. by rewrite Hn.
  - intros c t d e -> -> Hn Hi. cbn [mbind outcome_bind]. rewrite Hn. cbn [mbind outcome_bind].
    unfold main_setup. cbn [mbind outcome_bind]. destruct (drv_init _) as [r d']. cbn [fst] in Hi. by rewrite Hi.
Qed.

(** The system calls of the set-up work for this port. *)
Definition listens (y : sys) (port : Z) : Prop :=
  socket_ok y = true ∧ reuse_ok y = true ∧ bind_ok y port = true ∧ listen_ok y = true.

(** With a driver that can be constructed and initialised, [main] runs the
    server on it. *)
Lemma main_runs drivers opts o argv y clients nm new c t d d' : let port := m_port o `mod` 2 ^ 16 in
  main_options opts main_init = inl o → m_drvnam o ≠ text "udpLoopback" → m_drvnam o ≠ [] → m_help o = false →
  last (filter (λ d, fst d = m_drvnam o) drivers) = Some (nm, new) → m_target o = Some (c :: t) →
  new argv (Some (c :: t)) = Ret d → drv_init (drv_setDebug (m_debug o) d) = (Ret tt, d') → listens y port →
  main (registered drivers) opts argv y clients =
    let (r, s) := XvcServer_run clients
      (mkServer port (if m_setTest o then drv_setTestMode (m_testMode o) d' else d') (m_debug o) (m_maxMsg o) (m_once o) []) in
    (status_of r, closed s).
Proof.
  intros port Eo Hu Hne Hh El Et En Ei (Y1 & Y2 & Y3 & Y4). unfold main. rewrite Eo. unfold main_driver.
  rewrite decide_False by done. pose proof (find_registered drivers (m_drvnam o) Hne) as Hf. rewrite El in Hf. cbn [fmap option_fmap option_map] in Hf.
  unfold has, create. rewrite Hf. cbn [mbind outcome_bind fmap option_fmap option_map fst snd]. rewrite Hh, Hf, Et.
  rewrite andb_false_r. cbn [creator_ entry_of mbind outcome_bind fst snd]. rewrite En. cbn [mbind outcome_bind].
  unfold main_setup. cbn [mbind outcome_bind]. rewrite Ei. cbn [mbind outcome_bind].
  unfold XvcServer_new, SockSd_new. fold port. rewrite Y1, Y2, Y3, Y4. cbn [mbind outcome_bind negb].
  by destruct (XvcServer_run _ _) as [[] s].
Qed.
End refusals.

(** ** From the command line to the replies *)

(** The options name the driver and its target, and vectors of [M] bytes;
    there may be others, but not [-h], [-o] and [-s]. *)
Record command (opts : list (Z * list Z)) (drv target : list Z) (M : Z) : Prop := {
  cmd_ok : forallb option_ok opts = true;
  cmd_drv : last_arg 68 opts = Some drv;
  cmd_target : last_arg 116 opts = Some target;
  cmd_maxMsg : last_arg 77 opts ≫= scan_i = Some M;
  cmd_help : given 104 opts = false;
  cmd_once : given 111 opts = false;
  cmd_sniff : given 115 opts = false;
  cmd_verbose : count 118 opts < 256;
}.

Lemma land_256 n : 0 ≤ n < 256 → Z.land n 0x100 = 0.
Proof.
  intros Hn. apply Z.bits_inj'. intros i Hi. change 0x100 with (2 ^ 8). rewrite Z.land_spec, Z.pow2_bits_eqb, Z.bits_0 by lia.
  destruct (Z.eqb_spec 8 i) as [<-|]; [|by rewrite andb_false_r].
  rewrite Z.testbit_eqb, Z.div_small by lia. done.
Qed.

(** Debug level and test mode do not matter to the driver's invariant. *)
Lemma shifts_set_jd `{Platform} {T} `{!Transport T} `{!TransportLaws T} {St} (R0 : St → JtagDriverAxisToJtag T → Prop) st j a :
  (∀ st j a, R0 st a → R0 st (set_jd j a)) → getSniff j = false → shifts R0 st a → shifts R0 st (set_jd j a).
Proof. intros HR Hj [[A _] Ha]. split; [|by apply HR]. split; [|done]. destruct A. by split. Qed.

Section playing.
Context `{Platform} (HLE : isLE = true) {L : Type}.
Abbreviation Drv := (JtagDriverAxisToJtag JtagDriverLoopBack).
Context (new_udp : list (list Z) → list Z → outcome Drv) (new_loop : option (list Z) → Z → outcome L).
Context (loop_start : Z → L → outcome unit) (dlopen : list Z → string + list (RegEntry Drv)).
#[local] Instance loopback_main : MainDriver Drv := axis_main init.
Abbreviation main := (main new_udp new_loop loop_start dlopen).
Abbreviation playing ws := (shifts (λ st a, plays_back ws st (tp a))).

(** The driver as [main] hands it to the server. *)
Lemma playback_started fopen xid0 f0 file ws argv debug : is_byte xid0 → Forall is_u32 ws →
  fopen file = Some (tdo_file ws) → text file ≠ [] → strstr (text file) (text "TdoOnly") = true → Z.land debug 0x100 = 0 →
  ∃ d d', new_JtagDriverLoopBack fopen xid0 f0 argv (Some (text file)) = Ret d ∧
    drv_init (drv_setDebug debug d) = (Ret tt, d') ∧ ∀ flags, playing ws ws d' ∧ playing ws ws (drv_setTestMode flags d').
Proof.
  intros Hx Hw Ho Hne Ht Hs. destruct (opened_plays ws file (tdo_file ws) f0 Hne Ht (tdo_file_script ws Hw)) as (lb & E & Hp).
  set (d := JtagDriverAxisToJtag_new 0 xid0 lb). assert (Hd : playing ws ws d).
  { split; [split; [apply axis_new_ok; [done|exact (plays_ok _ (playback_player ws) _ _ Hp)]|done]|done]. }
  pose proof (shifts_set_jd (λ st a, plays_back ws st (tp a)) ws (setDebug debug (jd d)) d ltac:(done) ltac:(unfold getSniff; cbn; by rewrite Hs) Hd) as Hd'.
  destruct (shifts_query _ _ _ _ _ (player_shifter (plays_back ws) (playback_player ws) HLE) ws _ Hd') as (d' & Eq & Hok & Hp' & _).
  exists d, d'. split; [|split].
  - unfold new_JtagDriverLoopBack. change (default [] (Some (text file))) with (text file). by rewrite of_text_text, Ho, E.
  - cbn [drv_init drv_setDebug loopback_main axis_main]. unfold init. by rewrite (M_bind_ret _ _ _ _ _ Eq).
  - intros flags. split; [by split|]. apply (shifts_set_jd (λ st a, plays_back ws st (tp a)) ws (setTestMode flags (jd d')) d'); [done|apply Hok|by split].
Qed.

(** With the loop-back driver, a file of TDO words and vectors of [M] bytes
    (at most 1020, in whole words), [main] opens the file, binds the port, and
    serves every sequence of clients that send valid requests, as long as the
    words suffice: each client is told the words of the file, from the top,
    as many as its shifts have bits for. *)
Lemma playback_main drivers xid0 f0 fopen file ws opts argv y M clients :
  last (filter (λ d, fst d = text "loopback") drivers) = Some (text "loopback", new_JtagDriverLoopBack fopen xid0 f0) →
  is_byte xid0 → Forall is_u32 ws → fopen file = Some (tdo_file ws) → strstr (text file) (text "TdoOnly") = true →
  command opts (text "loopback") (text file) M → 1 ≤ M ≤ 1020 → (4 | M) →
  listens y (default 2542 (last_arg 112 opts ≫= scan_i) `mod` 2 ^ 16) →
  @all_takes _ (playback ws) M ws clients → Forall (asks M) clients →
  ∃ ns, main (registered drivers) opts argv y (Some ∘ fst <$> clients) = (Serves, ns) ∧
    out <$> ns = snd (@all_replies _ (playback ws) M ws clients).
Proof.
  intros El Hx Hw Ho Ht [C1 C2 C3 C4 C5 C6 C7 C8] HM Hg Hy Hab Hc. destruct (main_options_says opts C1) as (o & Eo & [] & _).
  rewrite C2 in says_drvnam0. rewrite C3 in says_target0. rewrite C4 in says_maxMsg0. rewrite C5 in says_help0.
  rewrite C6 in says_once0. specialize (says_debug0 C8). rewrite C7 in says_debug0. cbn [default] in *.
  assert (Hne : text file ≠ []) by (intros E; by rewrite E in Ht).
  destruct (playback_started fopen xid0 f0 file ws argv (m_debug o)) as (d & d' & En & Ei & Hd); try done.
  { rewrite says_debug0, Z.add_0_r. apply land_256. unfold count in *. lia. }
  destruct (text file) as [|c t] eqn:Ef; [done|]. rewrite <-says_port0 in Hy.
  rewrite (main_runs new_udp new_loop loop_start dlopen drivers opts o argv y _ _ _ c t d d' Eo) by (rewrite ?says_drvnam0; first [done | discriminate]).
  rewrite says_maxMsg0, says_once0. set (s := mkServer _ _ _ _ _ _).
  pose proof (played_served (H0 := playback ws) (plays_back ws) (playback_player ws) HLE clients ws s
    ltac:(by cbn; destruct (m_setTest o); apply (Hd (m_testMode o))) HM Hg eq_refl Hab Hc) as Hs.
  change (maxMsgSize_ s) with M in Hs. destruct (all_replies M ws clients) as [vs' os].
  destruct Hs as (s' & E & _ & Eo'). rewrite E. by exists (closed s').
Qed.
End playing.

(** ** Instances *)

Module Accept.
#[local] Existing Instance le_platform.
Abbreviation Drv := (JtagDriverAxisToJtag JtagDriverLoopBack).

Definition server : XvcServer Drv := mkServer 2542 (loopback_driver 1) 0 1000 false [].

Lemma both_ask : Forall (asks 1000) [(Session.wire, Session.client); (Session.wire, Session.client)].
Proof.
  assert (Ha : asks 1000 (Session.wire, Session.client)).
  { split; [exact Session.client_valid|]. split; [exact Session.wire_good|]. split; [reflexivity|]. split; reflexivity. }
  by repeat constructor.
Qed.

(** A client that says hello in a language of its own. *)
Definition stranger : net := mkNet (text "hello world!") [Sel (Some false) (Some 1)] [3] [] 0 true.

Lemma stranger_good : net_good stranger.
Proof. split; [repeat constructor|repeat constructor|]. apply (bool_decide_unpack _). by vm_compute. Qed.

Lemma always_roomy (d : Drv) : drv_ok d → roomy d 1000.
Proof.
  intros Hd. by apply (axis_roomy d 1000 Hd).
Qed.

Lemma wire_client : client_ok Session.wire.
Proof. split; [exact Session.wire_good|reflexivity]. Qed.

Lemma stranger_client : client_ok stranger.
Proof. split; [exact stranger_good|reflexivity]. Qed.

(** The driver "loopback", which here cannot open its file. *)
#[local] Instance lb_main : MainDriver Drv := axis_main init.
Definition drivers : list (list Z * (list (list Z) → option (list Z) → outcome Drv)) :=
  [(text "loopback", λ _ _, Throw (SysErr "playback.txt")); (text "udp", λ _ _, Ret (loopback_driver 1))].
Definition quiet : sys := mkSys true true (λ _, true) true true.

Lemma server_refines_witness :
  let (r, s') := XvcServer_run (Some <$> [Session.wire; stranger; Session.wire]) server in
  let '(r', d', outs) := spec_server 1000 false [Session.wire; stranger; Session.wire] (loopback_driver 1) in
  r = r' ∧
  match r with
  | Broken _ => False
  | Stuck => Exists (client_overlong 1000) [Session.wire; stranger; Session.wire]
  | _ => srv_drv s' = d' ∧ out <$> closed s' = [] ++ outs
  end.
Proof.
  apply (server_refines [Session.wire; stranger; Session.wire] server);
    [exact (proj1 (loopback_driver_ok 1 Session.byte_1))|simpl; lia|exact always_roomy|].
  do 3 (apply Forall_cons; split; [first [exact wire_client | exact stranger_client]|]). constructor.
Defined.

Lemma server_serves_one : ∃ s1, XvcServer_run [Some Session.wire] server = (Waiting, s1) ∧ lb_drv (srv_drv s1) ∧ maxMsgSize_ s1 = 1000.
Proof.
  destruct (@session_loops_back le_platform eq_refl 1000 Session.wire (loopback_driver 1) Session.client (loopback_driver_ok 1 Session.byte_1))
    as (c & E & Hd & _); [lia|exact Session.client_valid|exact Session.wire_good|reflexivity..|].
  exists (after_conn c server). split; [|split; [exact Hd|reflexivity]]. cbn [XvcServer_run srv_drv server maxMsgSize_]. by rewrite E.
Qed.

(** The first client is served; the stranger ends the server before the
    last one is. *)
Lemma server_fatal_witness :
  ∃ s' n', XvcServer_run ([Some Session.wire] ++ Some stranger :: [Some Session.wire]) server =
      (Died (ProtoErr "unsupported message received"), s') ∧
    closed s' = closed (snd (XvcServer_run [Some Session.wire] server)) ++ [n'] ∧ out n' = [].
Proof.
  destruct server_serves_one as (s1 & E & Hd & Hm). rewrite E. cbn [snd].
  destruct (@lb_query le_platform eq_refl (srv_drv s1) Hd) as (d1 & Eq & _).
  assert (Hok : drv_ok (srv_drv s1)) by exact (proj1 Hd).
  apply (server_fatal [Some Session.wire] stranger [Some Session.wire] server s1 0 d1 E Hok Eq);
    [lia|rewrite Hm; exact (always_roomy _ Hok)|exact stranger_good|reflexivity|simpl; lia|].
  vm_compute. split; [|split]; congruence.
Defined.

(** A file of three words, and two clients that shift two vectors each, with
    one word each. *)
Definition words : list Z := [0x00060504; 0x01aa; 7].
Definition tdo_player : JtagDriverLoopBack := mkLoopBack (FOpen (tdo_file words) (tdo_file words)) false true 1.
Lemma words_u32 : Forall is_u32 words.
Proof. repeat constructor; unfold is_u32; lia. Qed.
Lemma tdo_player_plays : plays_back words words tdo_player.
Proof.
  split; [done|]. split; [done|]. exists (tdo_file words), (tdo_file words). split; [done|].
  split; apply tdo_file_script, words_u32.
Qed.

Definition tdo_server : XvcServer Drv := mkServer 2542 (JtagDriverAxisToJtag_new 0 1 tdo_player) 0 1000 false [].

Lemma server_plays_back_witness :
  ∃ s', XvcServer_run (Some ∘ fst <$> [(Session.wire, Session.client); (Session.wire, Session.client)]) tdo_server = (Waiting, s') ∧
    shifts (λ st a, plays_back words st (tp a)) [7] (srv_drv s') ∧
    out <$> closed s' = [] ++ replicate 2 (greeting 1000 ++ [100; 0; 0; 0] ++ [4; 5; 6] ++ [170; 1]).
Proof.
  apply (@server_plays_back le_platform words words [(Session.wire, Session.client); (Session.wire, Session.client)] tdo_server eq_refl).
  - split; [split; [apply axis_new_ok; [exact Session.byte_1|done]|reflexivity]|exact tdo_player_plays].
  - simpl. lia.
  - exists 250. reflexivity.
  - reflexivity.
  - vm_compute. repeat split; lia.
  - exact both_ask.
Defined.

(** [-v -D loopback -t run.TdoOnly.txt -p 2600 -M 1000]. *)
Definition fopen (file : string) : option (list Z) :=
  if decide (file = "run.TdoOnly.txt"%string) then Some (tdo_file words) else None.
Definition tdo_drivers : list (list Z * (list (list Z) → option (list Z) → outcome Drv)) :=
  drivers ++ [(text "loopback", new_JtagDriverLoopBack fopen 1 FWild)].
Definition tdo_options : list (Z * list Z) :=
  [(118, []); (68, text "loopback"); (116, text "run.TdoOnly.txt"); (112, text "2600"); (77, text "1000")].

(** [-D loopback] without a target. *)
Lemma main_refusals_witness :
  main (λ _ _, Throw (SysErr "no socket")) (λ _ _, Ret tt) (λ _ _, Ret tt) (λ _, inl "cannot open"%string)
    (registered drivers) [(68, text "loopback"); (118, [])] [] quiet [Some Session.wire] = (Exit 1, []).
Proof.
  apply (main_refusals (λ _ _, Throw (SysErr "no socket")) (λ _ _, Ret tt) (λ _ _, Ret tt) (λ _, inl "cannot open"%string)
    drivers [(68, text "loopback"); (118, [])]
    (mkOpts 1 None (text "loopback") 2542 32768 false 0 false false) [] quiet [Some Session.wire] eq_refl);
    [vm_compute; congruence|vm_compute; congruence|reflexivity|by left].
Defined.
End Accept.
