(* ===== verification/Chain.v ===== *)
(** * The server on a JTAG chain

    The whole program on the drivers that shift the bits themselves: a scan
    chain as a target in the sense of Target.v, the debug bridge and the
    TMEM driver (without the FIFO) as drivers for it, and what clients of
    the server then see. *)

From stdpp Require Import base numbers option list strings.
From Stdlib Require Import ZArith Lia.
From S2P Require Import Prelude Header Driver LoopBack Vectors Mmio DbgBridge Tmem TmemSpec Conn ConnSpec Target Stack Server ServerSpec.
#[local] Open Scope Z_scope.

(** ** A scan chain as a target *)

(** The TMS/TDI pairs of a shift. *)
Definition pairs (bits : Z) (tms tdi : list Z) : list (bool * bool) :=
  zip (take (Z.to_nat bits) (bits_of tms)) (take (Z.to_nat bits) (bits_of tdi)).

Lemma take_bits_split v a bits : 0 ≤ a → 8 * a < bits → zlen v = (bits + 7) / 8 →
  take (Z.to_nat bits) (bits_of v) =
    take (Z.to_nat (8 * a)) (bits_of (take (Z.to_nat a) v)) ++ take (Z.to_nat (bits - 8 * a)) (bits_of (drop (Z.to_nat a) v)) ∧
  length (take (Z.to_nat (8 * a)) (bits_of (take (Z.to_nat a) v))) = Z.to_nat (8 * a).
Proof.
  intros Ha Hlt Hv. assert (Hav : a ≤ zlen v) by (rewrite Hv; clear -Ha Hlt; Z.div_mod_to_equations; lia).
  assert (Hl : length (bits_of (take (Z.to_nat a) v)) = Z.to_nat (8 * a)) by (rewrite bits_of_length, length_take; lia).
  split; [|rewrite take_ge; lia]. rewrite (take_ge (bits_of (take _ v))) by lia.
  rewrite <-(take_drop (Z.to_nat a) v) at 1. unfold bits_of. rewrite fmap_app, concat_app, take_app.
  fold (bits_of (take (Z.to_nat a) v)) (bits_of (drop (Z.to_nat a) v)). rewrite Hl, take_ge by lia. do 2 f_equal. lia.
Qed.

Lemma pairs_split a bits tms tdi : 0 ≤ a → 8 * a < bits → zlen tms = (bits + 7) / 8 → zlen tdi = (bits + 7) / 8 →
  let ps := pairs (8 * a) (take (Z.to_nat a) tms) (take (Z.to_nat a) tdi) in
  pairs bits tms tdi = ps ++ pairs (bits - 8 * a) (drop (Z.to_nat a) tms) (drop (Z.to_nat a) tdi) ∧
  length ps = Z.to_nat (8 * a).
Proof.
  intros Ha Hlt Lt Ld ps. subst ps. unfold pairs.
  destruct (take_bits_split tms a bits Ha Hlt Lt) as [-> El], (take_bits_split tdi a bits Ha Hlt Ld) as [-> Er].
  split; [by apply zip_with_app; rewrite El, Er|]. rewrite length_zip_with, El, Er. lia.
Qed.

Section chain.
Context (F : list (bool * bool) → bool).

(** Its state is the history of the pairs that were clocked in. *)
#[local] Program Instance scan_chain : Target (list (bool * bool)) := {
  grain := 1;
  tck := 0;
  able _ _ := True;
  queried log := log;
  shifted log bits tms tdi :=
    let ps := pairs bits tms tdi in (log ++ ps, tdo_image F ((bits + 7) / 8) log ps);
}.
Next Obligation. intros st. cbn. by rewrite app_nil_r. Qed.
Next Obligation.
  intros log a bits tms tdi Ha _ Hlt Lt Ld _. cbn zeta. split; [done|]. split; [done|]. destruct (pairs_split a bits tms tdi Ha Hlt Lt Ld) as [-> El].
  rewrite (tdo_image_app F log _ _ a) by (rewrite ?El; clear -Ha Hlt; Z.div_mod_to_equations; lia).
  rewrite app_assoc. do 2 f_equal; f_equal; clear; Z.div_mod_to_equations; lia.
Qed.

(** The pairs a client asks for. *)
Definition requested (r : request) : list (bool * bool) :=
  match r with Shift bits tms tdi => pairs bits tms tdi | _ => [] end.

Lemma replies_log maxVecLen rs : ∀ log, fst (replies maxVecLen log rs) = log ++ concat (requested <$> rs).
Proof.
  induction rs as [|r rs IH]; intros log; [by rewrite app_nil_r|]. cbn [replies fmap list_fmap concat].
  specialize (IH (log ++ requested r)). rewrite app_assoc, <-IH.
  assert (E : fst (reply maxVecLen log r) = log ++ requested r) by (destruct r; cbn; by rewrite ?app_nil_r).
  destruct (reply maxVecLen log r) as [l o]. cbn in E. subst l. by destruct (replies _ _ rs).
Qed.
Lemma all_replies_log maxVecLen cs : ∀ log,
  fst (all_replies maxVecLen log cs) = log ++ concat (requested <$> concat (snd <$> cs)).
Proof.
  induction cs as [|c cs IH]; intros log; [by rewrite app_nil_r|]. cbn [all_replies queried scan_chain fmap list_fmap concat].
  rewrite fmap_app, concat_app, app_assoc, <-(replies_log maxVecLen (snd c) log), <-IH.
  destruct (replies maxVecLen log (snd c)) as [l o]. cbn [fst]. by destruct (all_replies _ _ cs).
Qed.

(** ** The debug bridge *)

Section bridge.
Context `{Platform} (busy : list (Z * Z * Z) → nat) (polls : nat) (Hbusy : ∀ log, (busy log < polls)%nat).
Abbreviation Drv := (JtagDriverAxisToJtag (JtagDriverZynqAxiDbgBridgeIP ip)).
#[local] Hint Extern 0 (Transport (JtagDriverZynqAxiDbgBridgeIP ip)) =>
  exact (bridge_transport (word_resp F) busy polls) : typeclass_instances.
#[local] Hint Extern 0 (TransportLaws (JtagDriverZynqAxiDbgBridgeIP ip)) =>
  exact (bridge_laws (word_resp F) busy polls (word_resp_u32 F) Hbusy) : typeclass_instances.

(** What the device behind the driver has clocked into the chain. *)
Definition bridge_log (d : Drv) : list (bool * bool) := scan_bits (ip_log (DbgBridge.dev (tp d))).

Abbreviation bridging M := (λ log (a : Drv), DbgBridge.maxVec_ (tp a) = M ∧ bridge_log a = log).

Lemma bridge_shifter M : shifter (bridging M) (bridging M) 0 M (2 ^ 17).
Proof.
  split; [by intros log a A _; apply (ok_word _ A)|done|by intros log b [<- _]| |].
  - intros log a A [Hm Hlog]. destruct (bridge_query (word_resp F) busy polls (word_resp_u32 F) Hbusy a A)
      as (a' & E & _ & _ & _ & Ep & _ & _ & Em & _ & Ed). exists a'. unfold bridge_log in *. by rewrite Em, Ed.
  - intros log a bits tms tdi tdo n. cbn [shifted scan_chain]. intros A [Hm Hlog] _ _ Hs Hb Bt Bd _ Lt Ld Lo Hr.
    unfold bridge_log in *. destruct (bridge_send (word_resp F) busy polls (word_resp_u32 F) Hbusy a bits tms tdi tdo A Hs Hb Bt Bd)
      as (msg & tdo' & a' & E & Em & El & Es & Et); [fold n; lia..|fold n; exact Hr|]. fold n in Et.
    exists tdo', a'. split; [exact E|]. split; [split; [by rewrite Em|]|].
    + rewrite El, <-Hlog. unfold scan_bits at 1. rewrite fmap_app, concat_app.
      change (concat (scan_of <$> ?l)) with (scan_bits l). by rewrite Es.
    + rewrite Et, take_app_length' by (rewrite length_take, tdo_bytes_length, asked_length;
        clear -Hb; subst n; Z.div_mod_to_equations; lia).
      unfold tdo_bytes. subst n. rewrite answers_image by (clear -Hb; Z.div_mod_to_equations; lia). by rewrite Es, <-Hlog.
Qed.

Lemma bridge_shifts M (d : Drv) maxVecLen log : shifts (bridging M) log d → maxVecLen ≤ 2 ^ 17 →
  maxVecLen ≤ 1020 ∨ 1 ≤ M ≤ 1020 →
  roomy d maxVecLen ∧ cuts (H2 := shifter_drives _ _ _ _ _ (bridge_shifter M)) d maxVecLen.
Proof.
  intros Hd Hm Hor. split.
  - apply (shifter_roomy _ _ _ _ _ (bridge_shifter M) log d maxVecLen 1020 Hd); [|by right].
    pose proof (supported_streaming maxVecLen M). lia.
  - apply (shifter_cuts _ _ _ _ _ (bridge_shifter M) log); [done|apply Z.divide_1_l|lia].
Qed.

(** C5: the whole program on a debug bridge that behaves as documented, in
    front of any scan chain, when the server's limit for vectors (the -M
    option) or the driver's limit for pieces of vectors is at most 1020
    bytes.  (With the default settings, 32768 and 1024 bytes, neither is:
    the transmit buffer is then overrun by the longest pieces,
    [bridge_init_overflow].)  Every sequence of clients that send valid
    requests (in any segmentation) is served: the scan chain has then been
    clocked with exactly the TMS/TDI bits of all their
    shifts, in order and nothing else, each client has been told the
    greetings, its periods and, for each shift, the bits TDO showed before
    each clock; and the server waits for the next client. *)
Theorem bridge_server_scans (clients : list (net * list request)) (s : XvcServer Drv) :
  axis_drv_ok (srv_drv s) → 1 ≤ maxMsgSize_ s ≤ 2 ^ 17 →
  maxMsgSize_ s ≤ 1020 ∨ 1 ≤ DbgBridge.maxVec_ (tp (srv_drv s)) ≤ 1020 →
  once_ s = false → Forall (asks (maxMsgSize_ s)) clients →
  let log := bridge_log (srv_drv s) in
  ∃ s', XvcServer_run (Some ∘ fst <$> clients) s = (Waiting, s') ∧
    bridge_log (srv_drv s') = log ++ concat (requested <$> concat (snd <$> clients)) ∧
    out <$> closed s' = (out <$> closed s) ++ snd (all_replies (maxMsgSize_ s) log clients).
Proof.
  intros Hd Hm Hmax Hon Hc log. set (M := DbgBridge.maxVec_ (tp (srv_drv s))) in *.
  pose proof (clients_served (HD := shifter_drives _ _ _ _ _ (bridge_shifter M)) clients log s ltac:(done) Hm
    (λ l d Hd, bridge_shifts M d _ l Hd (proj2 Hm) Hmax) Hon ltac:(by apply all_takes_all) Hc) as Hs.
  pose proof (all_replies_log (maxMsgSize_ s) clients log) as Hl.
  destruct (all_replies (maxMsgSize_ s) log clients) as [log' os]. destruct Hs as (s' & E & (_ & _ & El) & Eo).
  exists s'. by rewrite El, <-Hl.
Qed.
End bridge.
End chain.

(** ** The TMEM driver without the FIFO *)

Section tmem.
Context `{Platform} (F : fw_cfg) (polls : nat) (HF : cfg_ok F polls).
Abbreviation Drv := (JtagDriverAxisToJtag (JtagDriverTmemFifo tmem_fw)).
#[local] Hint Extern 0 (Transport (JtagDriverTmemFifo tmem_fw)) =>
  exact (tmem_transport F polls) : typeclass_instances.
#[local] Hint Extern 0 (TransportLaws (JtagDriverTmemFifo tmem_fw)) =>
  exact (tmem_raw_laws F polls HF) : typeclass_instances.

Abbreviation banging M := (λ log (a : Drv), Tmem.maxVec_ (tp a) = M ∧ tm_log (Tmem.dev (tp a)) = log).
#[local] Instance fw_chain : Target (list (bool * bool)) := scan_chain (chain F).

Lemma tmem_shifter M : shifter (banging M) (banging M) 0 M (2 ^ 17).
Proof.
  split; [by intros log a A _; apply (ok_word _ A)|done|by intros log b [<- _]| |].
  - intros log a A [Hm Hlog]. destruct (tmem_query F polls HF a A) as (a' & E & _ & _ & _ & Ep & _ & _ & Em & El).
    exists a'. by rewrite Em, El.
  - intros log a bits tms tdi tdo n. cbn [shifted fw_chain scan_chain]. intros A [Hm Hlog] _ _ Hs Hb Bt Bd _ Lt Ld Lo Hr.
    destruct (tmem_send F polls HF a bits tms tdi tdo A Hs Hb Bt Bd) as (tdo' & a' & E & Em & El & Et);
      [fold n; lia..|fold n; exact Hr|]. fold n in Et.
    exists tdo', a'. rewrite Hlog in *. split; [exact E|]. split; [split; [by rewrite Em|exact El]|].
    by rewrite Et, take_app_length' by (by rewrite le_bytes_length).
Qed.

Lemma tmem_shifts M (d : Drv) maxVecLen log : shifts (banging M) log d → maxVecLen ≤ 2 ^ 17 →
  maxVecLen ≤ 1020 ∨ 1 ≤ M ≤ 1020 →
  roomy d maxVecLen ∧ cuts (H2 := shifter_drives _ _ _ _ _ (tmem_shifter M)) d maxVecLen.
Proof.
  intros Hd Hm Hor. split.
  - apply (shifter_roomy _ _ _ _ _ (tmem_shifter M) log d maxVecLen 1020 Hd); [|by right].
    pose proof (supported_streaming maxVecLen M). lia.
  - apply (shifter_cuts _ _ _ _ _ (tmem_shifter M) log); [done|apply Z.divide_1_l|lia].
Qed.

(** C8: the whole program on the TMEM driver without the FIFO, whether the
    signals are driven by software or by the serializer of the firmware,
    when the server's limit for vectors (the -M option) or the driver's is at
    most 1020 bytes.  (The driver's limit on firmware with a FIFO of 2 KB,
    as it is shipped, is 1022 bytes; with the server's default of 32768 the
    transmit buffer is then overrun by the longest pieces,
    [tmem_default_overrun].)  For every sequence of clients that send valid
    requests the chain has been clocked with exactly the TMS/TDI bits of the shifts
    of all clients, in order, and each client has been told the greetings,
    its periods and the bits TDO showed. *)
Theorem tmem_server_scans (clients : list (net * list request)) (s : XvcServer Drv) :
  axis_drv_ok (srv_drv s) → 1 ≤ maxMsgSize_ s ≤ 2 ^ 17 →
  maxMsgSize_ s ≤ 1020 ∨ 1 ≤ Tmem.maxVec_ (tp (srv_drv s)) ≤ 1020 →
  once_ s = false → Forall (asks (maxMsgSize_ s)) clients →
  let log := tm_log (Tmem.dev (tp (srv_drv s))) in
  ∃ s', XvcServer_run (Some ∘ fst <$> clients) s = (Waiting, s') ∧
    tm_log (Tmem.dev (tp (srv_drv s'))) = log ++ concat (requested <$> concat (snd <$> clients)) ∧
    out <$> closed s' = (out <$> closed s) ++
      snd (@all_replies _ (scan_chain (chain F)) (maxMsgSize_ s) log clients).
Proof.
  intros Hd Hm Hmax Hon Hc log. set (M := Tmem.maxVec_ (tp (srv_drv s))) in *.
  pose proof (clients_served (HD := shifter_drives _ _ _ _ _ (tmem_shifter M)) clients log s ltac:(done) Hm
    (λ l d Hd, tmem_shifts M d _ l Hd (proj2 Hm) Hmax) Hon ltac:(by apply all_takes_all) Hc) as Hs.
  pose proof (all_replies_log (chain F) (maxMsgSize_ s) clients log) as Hl.
  change (scan_chain (chain F)) with fw_chain in *. destruct (all_replies (maxMsgSize_ s) log clients) as [log' os].
  destruct Hs as (s' & E & (_ & _ & El) & Eo). exists s'. by rewrite El, <-Hl.
Qed.
End tmem.

(** ** Instances: a bypass register, which delays TDI by one clock *)

Module Bypass.
#[local] Existing Instance some_platform.

Definition bypass (log : list (bool * bool)) : bool := match last log with Some (_, d) => d | None => false end.

(** A bridge that takes vectors of up to two bytes, so that the ones of
    the client are cut, and is busy for up to two polls. *)
Definition bridge : JtagDriverZynqAxiDbgBridgeIP ip :=
  mkBridge (mkMap 0x43c00000 4096 0) (mkIp 0 0 0 0 0 []) 2 4 0 false 100 0 [5; 9; 11] 0.
Definition bridge_server : XvcServer (JtagDriverAxisToJtag (JtagDriverZynqAxiDbgBridgeIP ip)) :=
  mkServer 2542 (JtagDriverAxisToJtag_new 0 254 bridge) 0 32768 false [].

Definition clients : list (net * list request) := [(Session.wire, Session.client); (Session.wire, Session.client)].
Lemma clients_ask m : 1000 ≤ m → Forall (asks m) clients.
Proof.
  intros Hm. assert (Ha : asks m (Session.wire, Session.client)); [|by do 2 (apply Forall_cons; split; [exact Ha|])].
  split; [|split; [exact Session.wire_good|done]]. eapply Forall_impl; [exact Session.client_valid|].
  intros [|p|bits tms tdi] Hv; [done|done|]. destruct Hv as (? & ? & ?). split_and!; try done; [lia|..]; tauto.
Qed.

Lemma bridge_server_scans_witness :
  ∃ s', @XvcServer_run _ _ (@axis_ifc _ _ (bridge_transport (word_resp bypass) Inverter.busy 3))
      (Some ∘ fst <$> clients) bridge_server = (Waiting, s') ∧
    bridge_log (srv_drv s') = [] ++ concat (requested <$> concat (snd <$> clients)) ∧
    out <$> closed s' = [] ++ snd (@all_replies _ (scan_chain bypass) 32768 [] clients).
Proof.
  apply (bridge_server_scans bypass Inverter.busy 3 Inverter.busy_polls clients bridge_server);
    [split; [apply axis_new_ok; [unfold is_byte; lia|done]|reflexivity]|simpl; lia|right; simpl; lia|reflexivity|].
  apply clients_ask. simpl. lia.
Defined.

(** Pieces of 1022 bytes, and the transmit buffer that they are packed into:
    the last two bytes of TDI do not fit. *)
Lemma tmem_default_overrun : let v := replicate 1022 0 in
  bufSz_ Board.drv = 2048 ∧ fst (@sendVectors _ _ (tmem_transport (Board.board false) 4) (8 * 1022) v v v Board.drv) = Fault OutOfBounds.
Proof. split; [reflexivity|by vm_compute]. Qed.

Definition tmem_server : XvcServer (JtagDriverAxisToJtag (JtagDriverTmemFifo tmem_fw)) :=
  mkServer 2542 Board.drv 0 1000 false [].

Lemma tmem_server_scans_witness :
  ∃ s', @XvcServer_run _ _ (@axis_ifc _ _ (tmem_transport (Board.board false) 4))
      (Some ∘ fst <$> clients) tmem_server = (Waiting, s') ∧
    tm_log (Tmem.dev (tp (srv_drv s'))) = [] ++ concat (requested <$> concat (snd <$> clients)) ∧
    out <$> closed s' = [] ++ snd (@all_replies _ (scan_chain (chain (Board.board false))) 1000 [] clients).
Proof.
  apply (tmem_server_scans (Board.board false) 4 (Board.board_ok false) clients tmem_server);
    [split; [exact Board.banged_ok|reflexivity]|simpl; lia|left; simpl; lia|reflexivity|].
  apply clients_ask. simpl. lia.
Defined.
End Bypass.
