(* ===== verification/Firmware.v ===== *)
(** * The firmware behind a FIFO

    The drivers of Fifo.v and Tmem.v hand packets to the AxisToJtag core,
    which is not C++ code (rtl/Axis2Jtag): it is a function of the packets it
    has got.  [speaks] is what the protocol of the core asks of this function
    when it has a target in the sense of Target.v behind it: the core
    announces its memory and its period, and answers a shift again from its
    memory when the transaction ID is the one of the shift before.  A driver
    that carries the packets ([carries]) then drives the target, and with it
    the server: this is proved once and applied to both FIFO drivers.  The
    last part is a core as a function, for any target, memory and period. *)

From stdpp Require Import base numbers option list strings.
From Stdlib Require Import ZArith Lia.
From S2P Require Import Prelude Header Tap Driver LoopBack Mmio Vectors Stream Fifo Tmem TmemSpec Conn ConnSpec Target Player Stack Server ServerSpec Chain.
#[local] Open Scope Z_scope.

(** ** The protocol *)

(** The word that a query is answered with by a core with words of four
    bytes, a memory of [depth] words (0: none), and the code [raw] of its
    period (0: unknown). *)
Definition announced (depth raw : Z) : Z := 3 + depth * 2 ^ 4 + raw * 2 ^ 20.

Lemma announced_fields depth raw : 0 ≤ depth < 2 ^ 16 → 0 ≤ raw < 2 ^ 8 → let h := announced depth raw in
  is_u32 h ∧ wordSize h = 4 ∧ memDepth h = depth ∧ getErr h = 0.
Proof.
  intros Hd Hr h. assert (Hh : 0 ≤ h < 2 ^ 28) by (subst h; unfold announced; lia).
  split; [unfold is_u32; lia|]. rewrite memDepth_digit. unfold wordSize. change 0xf with (Z.ones 4). rewrite Z.land_ones by lia.
  subst h. unfold announced in *. split; [Z.div_mod_to_equations; lia|]. split; [Z.div_mod_to_equations; lia|].
  apply getErr_no_error. rewrite getCmd_digit. unfold CMD_E. Z.div_mod_to_equations. lia.
Qed.

Section speaks.
Context {St : Type} `{Target St} (fw : list (list Z) → list Z) (state : list (list Z) → St).
(** The transaction ID of the shift whose answer is in the memory. *)
Context (stored : list (list Z) → option Z) (depth raw : Z).

(** A query is answered with [announced] and empties the memory; a shift of
    a vector that fits the memory, if there is one, and whose transaction ID
    is not that of the answer in the memory is executed, and may be stored.
    Replies may be padded. *)
Record speaks : Prop := {
  fw_depth : 0 ≤ depth < 2 ^ 16;
  fw_raw : 0 ≤ raw < 2 ^ 8;
  fw_tck : cvtPerNs (announced depth raw) = tck (St := St);
  fw_query log p : le_val p = mkQuery → length p = 4%nat →
    state (log ++ [p]) = queried (state log) ∧ stored (log ++ [p]) = None ∧
    ∃ pad, fw (log ++ [p]) = le_bytes 4 (announced depth raw) ++ pad;
  fw_shift log p bits tms tdi : let xid := getXid (le_val (take 4 p)) in let (st', o) := shifted (state log) bits tms tdi in
    shift_packet bits tms tdi p → able (state log) bits → depth = 0 ∨ bits ≤ 32 * depth → stored log ≠ Some xid →
    state (log ++ [p]) = st' ∧ (stored (log ++ [p]) = None ∨ stored (log ++ [p]) = Some xid) ∧
    zlen o = (bits + 7) / 8 ∧ ∃ pad, fw (log ++ [p]) = take 4 p ++ o ++ pad;
}.

Lemma speaks_words : speaks → announces fw (λ w, w = 4).
Proof.
  intros HF log p Lp Hq. destruct (fw_query HF log p) as (_ & _ & pad & ->); [|lia|].
  { by rewrite take_ge in Hq by lia. }
  destruct (announced_fields depth raw (fw_depth HF) (fw_raw HF)) as (Hu & Hw & _).
  rewrite take_app_length' by (by rewrite le_bytes_length). right. rewrite le_val_le_bytes. by rewrite Z.mod_small.
Qed.
End speaks.

(** A transport that carries packets of up to [K] words, in the
    configuration [good], and remembers those it has carried. *)
Record carries `{Platform} {T : Type} `{Transport T} (fw : list (list Z) → list Z)
    (good : T → Prop) (log : T → list (list Z)) (K : Z) : Prop := {
  carries_packet txb k size s : let sent := log (io_tp s) ++ [take (Z.to_nat (4 * k)) txb] in
    let r := fw sent in let n := Z.min size (zlen r - 4) in
    good (io_tp s) → drEn_ (io_jd s) = false → bytes txb → 1 ≤ k ≤ K → 4 * k ≤ zlen txb → 4 * k < 2 ^ 31 →
    zlen (io_hd s) = 16 → 0 ≤ size ≤ zlen (io_rx s) → 4 ≤ zlen r →
    ∃ s', xfer txb (4 * k) 4 size s = (Ret n, s') ∧ good (io_tp s') ∧ log (io_tp s') = sent ∧ io_jd s' = io_jd s ∧
      io_hd s' = take 4 r ++ drop 4 (io_hd s) ∧ io_rx s' = take (Z.to_nat n) (drop 4 r) ++ drop (Z.to_nat n) (io_rx s);
}.

Section carried.
Context `{Platform} {T : Type} `{Transport T} `{!TransportLaws T} {St : Type} `{Target St}.
Context (fw : list (list Z) → list Z) (state : list (list Z) → St) (stored : list (list Z) → option Z) (depth raw : Z).
Context (good : T → Prop) (log : T → list (list Z)).
Context (K n_max Max : Z) (HC : carries fw good log K) (HF : speaks fw state stored depth raw) (HW : ∀ w, word_ok w → w = 4).
Context (Hn4 : (4 | n_max)) (Hnm : 0 ≤ n_max ≤ 2 ^ 17) (HK : 4 + 2 * n_max ≤ 4 * K) (HM : ∀ t, good t → getMaxVectorSize 4 t = Max).
Abbreviation Axis := (JtagDriverAxisToJtag T).

(** The driver has carried packets that leave the target in [st]; after a
    query the answer in the memory, if any, is the one to its last shift. *)
Definition carrying (st : St) (a : Axis) : Prop :=
  wordSize_ a = 4 ∧ drEn_ (jd a) = false ∧ good (tp a) ∧ state (log (tp a)) = st.
Definition in_step (st : St) (a : Axis) : Prop :=
  carrying st a ∧ (stored (log (tp a)) = None ∨ stored (log (tp a)) = Some (xid_ a)).

(** The vectors that the transport carries and the memory holds. *)
Definition held : Z := if depth =? 0 then n_max else Z.min n_max (4 * depth).

Lemma carrying_query st a : axis_ok a → carrying st a →
  ∃ a', query a = (Ret (4 * depth), a') ∧ periodNs_ a' = tck (St := St) ∧ in_step (queried st) a'.
Proof.
  intros A (Hw & Hdr & Hg & Hst). destruct (ok_hdBuf _ A) as [Hhb Hhl].
  destruct (announced_fields depth raw (fw_depth _ _ _ _ _ HF) (fw_raw _ _ _ _ _ HF)) as (Hu & Hws & Hmd & He).
  destruct (query_announced a 0 (announced depth raw) (λ t, good t ∧ state (log t) = queried st ∧ stored (log t) = None) A Hw Hws He)
    as (a' & E & Ew & _ & _ & Ep & _ & _ & Ej & Hg' & Hst' & Hso).
  2: { exists a'. rewrite Hmd in E. split; [exact E|]. rewrite Ep. split; [apply (fw_tck _ _ _ _ _ HF)|].
       rewrite <-Ej in Hdr. split; [done|by left]. }
  intros txb Hb Hl Hm. set (p := take (Z.to_nat (4 * 1)) txb).
  destruct (fw_query _ _ _ _ _ HF (log (tp a)) p) as (Eq & Eso & pad & Er); [exact Hm|subst p; rewrite length_take; lia|].
  assert (Lr : 4 ≤ zlen (fw (log (tp a) ++ [p]))) by (rewrite Er; len).
  destruct (carries_packet fw good log K HC txb 1 0 (mkIo (jd a) (tp a) (hdBuf_ a) []))
    as (s' & E & Hg' & El & Ej & Eh & _); try done; cbn [io_tp io_hd io_jd] in *; [lia..|].
  rewrite Z.min_l in E by (fold p; lia). exists s'. split; [exact E|]. split; [done|]. fold p in El, Eh. rewrite Eh, Er.
  rewrite (take_app_length' (le_bytes 4 _)) by (by rewrite le_bytes_length).
  split; [apply bytes_app; auto with xvc|]. split; [len|].
  rewrite take_app_length', le_val_le_bytes by (by rewrite le_bytes_length).
  split; [by apply Z.mod_small|]. rewrite El. split; [done|]. by rewrite Eq, Hst.
Qed.

Lemma in_step_send st a bits tms tdi tdo : let n := (bits + 7) / 8 in
  let (st', o) := shifted st bits tms tdi in
  axis_ok a → in_step st a → able st bits → n ≤ held → getSniff (jd a) = false → 1 ≤ bits ≤ 2 ^ 20 →
  bytes tms → bytes tdi → bytes tdo →
  zlen tms = n → zlen tdi = n → n ≤ zlen tdo → 4 + 2 * word_ceil 4 n ≤ bufSz_ a →
  ∃ tdo' a', sendVectors bits tms tdi tdo a = (Ret tdo', a') ∧ in_step st' a' ∧ take (Z.to_nat n) tdo' = o.
Proof.
  intros n. pose proof (fw_shift _ _ _ _ _ HF (log (tp a))) as Hf.
  destruct (shifted st bits tms tdi) as [st' o] eqn:Esh.
  intros A ((Hw & Hdr & Hg & Hst) & Hmem) Hab Hheld Hs Hb Bt Bd Bo Lt Ld Lo Hr. destruct (ok_hdBuf _ A) as [_ Hhl].
  assert (Hn1 : 1 ≤ n) by (subst n; Z.div_mod_to_equations; lia).
  assert (Hnn : n ≤ n_max ∧ (depth = 0 ∨ bits ≤ 32 * depth)).
  { unfold held in Hheld. destruct (Z.eqb_spec depth 0); [lia|]. split; [lia|right]. subst n. Z.div_mod_to_equations. lia. }
  destruct Hnn as [Hnn Hdp]. pose proof (word_ceil_bounds 4 n ltac:(lia)) as Hwc.
  assert (Hk : ∃ k, 4 + 2 * word_ceil 4 n = 4 * k ∧ 1 ≤ k ≤ K ∧ 4 * k < 2 ^ 31).
  { exists (1 + 2 * ((n + 3) / 4)). unfold word_ceil in *. replace (n + 4 - 1) with (n + 3) in * by lia.
    destruct Hn4 as [q ->]. Z.div_mod_to_equations. lia. }
  destruct Hk as (k & Ek & Hk & Hk31). pose proof (newXid_next (xid_ a) (ok_xid _ A)) as Hnx.
  pose proof (ok_xid _ A) as Hxid. unfold is_byte in Hxid.
  assert (Hnew : shift_xid a ≠ xid_ a) by (unfold shift_xid; rewrite Hnx; cbn [fst]; Z.div_mod_to_equations; lia).
  destruct (sendVectors_tagged bits tms tdi tdo a (λ s', good (io_tp s') ∧ state (log (io_tp s')) = st' ∧
      (stored (log (io_tp s')) = None ∨ stored (log (io_tp s')) = Some (shift_xid a)) ∧ take (Z.to_nat n) (io_rx s') = o)
    A Hs Hb Bt Bd) as (s' & a' & E & Et & (Hg' & Hst' & Hso' & Eo) & Ej & Ew & Ex); [fold n; rewrite ?Hw; lia..| |].
  - fold n. rewrite Hw. intros msg Bm Lm Hpk h Hv Hc Hgl Hx.
    destruct (message_packet bits tms tdi msg h Bm ltac:(fold n; lia) Hb Lt Ld Bt Bd Hpk eq_refl Hv Hc Hgl) as (_ & Hsp & E4 & _).
    fold n in Hsp, E4. rewrite Ek in *. set (p := take (Z.to_nat (4 * k)) msg) in *.
    specialize (Hf p bits tms tdi). cbv zeta in Hf. rewrite Hst, Esh, E4 in Hf. fold h in Hf. rewrite Hx in Hf.
    destruct (Hf Hsp Hab Hdp) as (Es & Eso & Lon & pad & Er); [destruct Hmem as [-> | ->]; congruence|].
    fold n in Lon. set (r := fw (log (tp a) ++ [p])) in *.
    assert (L4 : length (take 4 msg) = 4%nat) by (rewrite length_take; lia).
    assert (Lr : 4 + n ≤ zlen r) by (rewrite Er, !length_app; lia).
    destruct (carries_packet fw good log K HC msg k n (mkIo (jd a) (tp a) (hdBuf_ a) tdo))
      as (s' & E & Hg' & El & Ej & Eh & Ex); try done; cbn [io_tp io_hd io_rx] in *; [lia|fold p r; lia|].
    fold p in El, Eh, E, Ex. fold r in Eh, E, Ex. rewrite Z.min_l in E, Ex by lia. exists s'. split; [exact E|]. split; [exact Ej|].
    assert (E4r : take 4 r = take 4 msg) by (rewrite Er; by apply take_app_length').
    split; [by rewrite Eh, E4r, take_app_length'|].
    split; [rewrite Eh, E4r, length_app, L4, length_drop; lia|].
    split; [intros Bh; rewrite Eh, E4r; apply bytes_app; split; auto with xvc|].
    rewrite El, Ex. split; [done|]. split; [done|]. split; [done|].
    rewrite Er, drop_app_length' by done. rewrite take_app_le, take_app_length' by (rewrite ?length_take, ?length_app; lia).
    apply take_ge. lia.
  - exists (io_rx s'), a'. split; [done|]. split; [|done]. unfold in_step, carrying. rewrite Ej, Ew, Et, Hw, Ex. done.
Qed.

Lemma carrying_shifter : shifter carrying in_step (4 * depth) Max held.
Proof.
  split; [by intros st a _ [[] _]|by intros st a []| |by intros; apply carrying_query|exact in_step_send].
  intros st a [(_ & _ & Hg & _) _]. by apply HM.
Qed.

Lemma carrying_served clients st (s : XvcServer Axis) : let sup := supported (maxMsgSize_ s) (4 * depth) Max in
  shifts carrying st (srv_drv s) → 1 ≤ maxMsgSize_ s ≤ 2 ^ 17 → 0 ≤ Max → (grain (St := St) | sup) →
  0 < depth ∨ Z.min sup (maxMsgSize_ s) ≤ 1020 → Z.min sup (maxMsgSize_ s) ≤ n_max →
  once_ s = false → all_takes (maxMsgSize_ s) st clients → Forall (asks (maxMsgSize_ s)) clients →
  let (st', os) := all_replies (maxMsgSize_ s) st clients in
  ∃ s', XvcServer_run (Some ∘ fst <$> clients) s = (Waiting, s') ∧ shifts carrying st' (srv_drv s') ∧
    out <$> closed s' = (out <$> closed s) ++ os.
Proof.
  intros sup Hd Hm HMx Hg Hor Hor2 Hon Hab Hc. pose proof (fw_depth _ _ _ _ _ HF) as Hdp.
  apply (clients_served (HD := shifter_drives _ _ _ _ _ carrying_shifter)); try done. intros st0 d Hd0. split.
  - destruct (Z.eq_dec depth 0) as [E0|E0].
    + apply (shifter_roomy _ _ _ _ _ carrying_shifter st0 d _ 1020 Hd0); [|by right]. lia.
    + apply (shifter_roomy_memory _ _ _ _ _ carrying_shifter st0 d _ Hd0); [done|lia].
  - apply (shifter_cuts _ _ _ _ _ carrying_shifter st0 d _ Hd0 Hg). unfold held. fold sup.
    destruct (Z.eqb_spec depth 0); [lia|]. apply Z.min_glb; [done|]. subst sup. unfold supported.
    rewrite (proj2 (Z.eqb_neq 0 (4 * depth))) by lia. destruct (Max =? 0); lia.
Qed.
End carried.

(** ** The Zynq FIFO driver *)

Section zynq.
Context `{Platform} (HLE : isLE = true).
Context (firmware : list (list Z) → list Z) (delay : list (list Z) → nat) (siz : Z) (reset_delay polls : nat).
Context (Hfw : ∀ sent, bytes (firmware sent) ∧ zlen (firmware sent) < 2 ^ 31) (Hdelay : ∀ sent, (delay sent < polls)%nat).
Context {St : Type} `{Target St} (state : list (list Z) → St) (stored : list (list Z) → option Z) (depth raw : Z).
Context (HS : speaks firmware state stored depth raw).
Abbreviation FD := (JtagDriverZynqFifo axis_fifo).
#[local] Hint Extern 0 (Transport (JtagDriverZynqFifo axis_fifo)) =>
  exact (fifo_transport firmware delay siz reset_delay polls) : typeclass_instances.
#[local] Hint Extern 0 (TransportLaws (JtagDriverZynqFifo axis_fifo)) =>
  exact (fifo_laws HLE firmware delay siz reset_delay polls Hfw Hdelay (λ w, w = 4) eq_refl (speaks_words _ _ _ _ _ HS)) : typeclass_instances.

Abbreviation fifo_ready M := (λ b : FD, fifo_ok b ∧ Fifo.maxVec_ b = M).
Abbreviation fifo_log := (λ b : FD, af_sent (Fifo.dev b)).

Lemma fifo_carries M K : carries firmware (fifo_ready M) fifo_log K.
Proof.
  split. intros txb k size s sent r n [(Hm & Hirq & Htx) HM] Hdr Hb Hk Hl Hl31 Hh Hsz Hr.
  pose proof (fifo_xfer_does HLE firmware delay siz reset_delay polls Hfw Hdelay txb k 4 size s Hm Hirq Htx Hb
    ltac:(lia) Hl Hl31 ltac:(lia) eq_refl Hsz) as Hx. cbv zeta in Hx. unfold xfer, fifo_transport.
  destruct (fifo_xfer polls txb (4 * k) 4 size s) as [o s']. destruct Hx as (Hv & [_ Hj] & Hx).
  change (v_dev (fview (io_tp s))) with (Fifo.dev (io_tp s)) in Hx, Hv. fold sent r in Hx, Hv. fold n in Hx.
  rewrite (proj2 (Z.ltb_ge _ _)) in Hx by done. destruct Hx as ([-> |[_ Hd]] & Eh & Ex); [|congruence].
  injection Hv as Emap Emx _ _ Eirq Edev. exists s'. split; [done|]. unfold fifo_ok. rewrite Emap, Eirq, Emx, Edev.
  split; [done|]. split; [done|]. split; [by apply Hj|]. split; [exact Eh|exact Ex].
Qed.

(** C7: the whole program on the Zynq FIFO, in front of any AxisToJtag core
    with words of four bytes that speaks the protocol, whatever memory and
    period it announces, with any target behind the core.  The core has
    memory (then the driver's buffer holds what fits the memory), or the
    vectors handed to the driver are limited to 1020 bytes, by the -M option
    or by the FIFO (otherwise the buffer is overrun, [streaming_overflow]); the host is
    little-endian and the FIFO takes every packet.  Then every sequence of
    clients that send valid requests is served, the target has been given
    exactly the vectors of their shifts, in order (and a query per session
    and greeting), no shift being answered from the memory of the core
    instead, and each client has been told what the target answered; the
    server waits for the next client. *)
Theorem fifo_server_shifts clients (s : XvcServer (JtagDriverAxisToJtag FD)) :
  let d := srv_drv s in let st := state (af_sent (Fifo.dev (tp d))) in
  let sup := supported (maxMsgSize_ s) (4 * depth) (Fifo.maxVec_ (tp d)) in
  axis_drv_ok d → wordSize_ d = 4 → drEn_ (jd d) = false →
  1 ≤ maxMsgSize_ s ≤ 2 ^ 17 → 0 < depth ∨ Z.min sup (maxMsgSize_ s) ≤ 1020 →
  (grain (St := St) | sup) → once_ s = false →
  all_takes (maxMsgSize_ s) st clients → Forall (asks (maxMsgSize_ s)) clients →
  let (st', os) := all_replies (maxMsgSize_ s) st clients in
  ∃ s', XvcServer_run (Some ∘ fst <$> clients) s = (Waiting, s') ∧ state (af_sent (Fifo.dev (tp (srv_drv s')))) = st' ∧
    out <$> closed s' = (out <$> closed s) ++ os.
Proof.
  intros d st sup Hd Hw Hdr Hm Hor Hg Hon Hab Hc. destruct (ok_tp _ (proj1 Hd)) as [Hok HM].
  pose proof (carrying_served firmware state stored depth raw (fifo_ready (Fifo.maxVec_ (tp d))) fifo_log (2 ^ 17) (2 ^ 17)
    (Fifo.maxVec_ (tp d)) (fifo_carries _ (2 ^ 17)) HS (λ w Hw, Hw)
    ltac:(by exists (2 ^ 15)) ltac:(lia) ltac:(lia) ltac:(by intros t [_ <-]) clients st s) as Hs.
  destruct (all_replies _ _ _) as [st' os]. destruct Hs as (s' & E & (_ & _ & _ & _ & Est) & Eo); try done; [lia|by exists s'].
Qed.
End zynq.

(** ** The TMEM driver on the FIFO *)

Section tmem_queue.
Context `{Platform} (F : fw_cfg) (polls : nat) (HF : cfg_ok F polls) (HBE : isLE = false).
Context {St : Type} `{Target St} (state : list (list Z) → St) (stored : list (list Z) → option Z) (depth raw : Z).
Context (HS : speaks (TmemSpec.answer F) state stored depth raw).
Abbreviation TD := (JtagDriverTmemFifo tmem_fw).
#[local] Hint Extern 0 (Transport (JtagDriverTmemFifo tmem_fw)) =>
  exact (tmem_transport F polls) : typeclass_instances.
#[local] Hint Extern 0 (TransportLaws (JtagDriverTmemFifo tmem_fw)) =>
  exact (tmem_queue_laws F polls HF HBE (λ w, w = 4) eq_refl (speaks_words _ _ _ _ _ HS)) : typeclass_instances.

Abbreviation queue_ready M := (λ b : TD, queue_ok F b ∧ Tmem.maxVec_ b = M).
Abbreviation queue_log := (λ b : TD, tm_sent (Tmem.dev b)).

(** Packets that fit the FIFO of the firmware. *)
Lemma queue_carries M : carries (TmemSpec.answer F) (queue_ready M) queue_log (256 * kbytes F).
Proof.
  split. intros txb k size s sent r n [Hq HM] Hdr Hb Hk Hl Hl31 Hh Hsz Hr. pose proof Hq as (Hhere & _ & _ & Hw & _).
  pose proof (xferFifo_does F polls HF HBE txb k 4 size s (stat (io_tp s)) (Tmem.dev (io_tp s)) _ Hhere Hw (queue_view F _ Hq) Hb
    ltac:(lia) Hl Hl31 ltac:(lia) eq_refl Hsz) as Hx. cbv zeta in Hx. unfold xfer, tmem_transport.
  rewrite (tmem_xfer_queue F polls) by done. destruct (xferFifo polls txb (4 * k) 4 size s) as [o s'].
  unfold packet in Hx. rewrite Z.min_l in Hx by lia. fold sent r in Hx. fold n in Hx.
  destruct Hx as ([mode' Hv] & [_ Hj] & Hx).
  rewrite (proj2 (Z.ltb_ge _ _)) in Hx by done. destruct Hx as ([-> |[_ Hd]] & Eh & Ex); [|congruence].
  destruct (queue_ok_kept F _ _ _ _ Hq Hv) as [Hq' Es]. injection Hv as _ _ Emx _.
  exists s'. split; [done|]. split; [split; [done|by rewrite Emx]|]. split; [done|]. split; [by apply Hj|]. done.
Qed.

(** C9: the same on the TMEM driver with the FIFO (whose host is big-endian),
    when the vectors handed to the driver fit the FIFO of the firmware
    ([kbytes] KB; a message has 1 + 2 n words for a vector of 4 n bytes).
    With the FIFO of 2 KB of the shipped firmware, whose core announces a
    memory of 512 words, this is a limit of 1020 bytes by the -M option; the
    driver's own limit is two bytes more and loses a word ([tmem_max_message]). *)
Theorem tmem_fifo_server_shifts clients (s : XvcServer (JtagDriverAxisToJtag TD)) :
  let d := srv_drv s in let st := state (tm_sent (Tmem.dev (tp d))) in
  let sup := supported (maxMsgSize_ s) (4 * depth) (Tmem.maxVec_ (tp d)) in
  let fits := 4 * (128 * kbytes F - 1) in
  axis_drv_ok d → wordSize_ d = 4 → drEn_ (jd d) = false →
  1 ≤ maxMsgSize_ s ≤ 2 ^ 17 → 0 < depth ∨ Z.min sup (maxMsgSize_ s) ≤ 1020 → Z.min sup (maxMsgSize_ s) ≤ fits →
  (grain (St := St) | sup) → once_ s = false →
  all_takes (maxMsgSize_ s) st clients → Forall (asks (maxMsgSize_ s)) clients →
  let (st', os) := all_replies (maxMsgSize_ s) st clients in
  ∃ s', XvcServer_run (Some ∘ fst <$> clients) s = (Waiting, s') ∧ state (tm_sent (Tmem.dev (tp (srv_drv s')))) = st' ∧
    out <$> closed s' = (out <$> closed s) ++ os.
Proof.
  intros d st sup fits Hd Hw Hdr Hm Hor Hft Hg Hon Hab Hc. pose proof (ok_kbytes F polls HF) as Hkb.
  destruct (ok_tp _ (proj1 Hd)) as [Hok HM].
  pose proof (carrying_served (TmemSpec.answer F) state stored depth raw (queue_ready (Tmem.maxVec_ (tp d))) queue_log
    (256 * kbytes F) fits (Tmem.maxVec_ (tp d)) (queue_carries _) HS (λ w Hw, Hw)
    ltac:(by exists (128 * kbytes F - 1); subst fits; lia) ltac:(subst fits; lia) ltac:(subst fits; lia) ltac:(by intros t [_ <-]) clients st s) as Hs.
  destruct (all_replies _ _ _) as [st' os]. destruct Hs as (s' & E & (_ & _ & _ & _ & Est) & Eo); try done; by exists s'.
Qed.
End tmem_queue.

(** ** A core as a function

    A core that executes packets on a target, for targets whose TDO vectors
    have the right length whatever the packets are: what AxisToJtag.vhd does
    with a packet in the state IDLE_S. *)

Section core.
Context {St : Type} `{Target St} (st0 : St) (depth raw : Z).
Context (Hdepth : 0 ≤ depth < 2 ^ 16) (Hraw : 0 ≤ raw < 2 ^ 8) (Htck : cvtPerNs (announced depth raw) = tck (St := St)).
Context (Hout : ∀ st bits tms tdi, 0 ≤ bits → let o := snd (shifted st bits tms tdi) in zlen o = (bits + 7) / 8 ∧ bytes o).

(** The target and the memory: the transaction ID of the shift and the TDO. *)
Record core := Core { c_target : St; c_memory : option (Z * list Z) }.

Definition core_step (c : core) (p : list Z) : core * list Z :=
  let h := le_val (take 4 p) in
  let refuse code := (c, le_bytes 4 (getXid h * 2 ^ 20 + CMD_E + code)) in
  if negb (getVrs h =? PVER0) then refuse ERR_BAD_VERSION
  else if getCmd h =? CMD_Q then (Core (queried (c_target c)) None, le_bytes 4 (announced depth raw))
  else
    match getLen h with
    | Ret bits =>
        let word := λ k, (λ i, default 0 (ix p (pos 4 i + k))) <$> seqZ 0 ((bits + 7) / 8) in
        let run :=
          let (st', o) := shifted (c_target c) bits (word 0) (word 4) in
          (Core st' (if depth =? 0 then None else Some (getXid h, o)), (wrap8 <$> take 4 p) ++ o) in
        if (zlen p <=? 4) || negb (depth =? 0) && (32 * depth <? bits) then refuse ERR_TRUNCATED
        else
          match c_memory c with
          | Some (xid, o) => if xid =? getXid h then (c, (wrap8 <$> take 4 p) ++ o) else run
          | None => run
          end
    | _ => refuse ERR_BAD_COMMAND
    end.

Definition core_run (log : list (list Z)) : core * list Z :=
  foldl (λ co p, core_step (fst co) p) (Core st0 None, le_bytes 4 (announced depth raw)) log.
Definition core_state (log : list (list Z)) : St := c_target (fst (core_run log)).
Definition core_stored (log : list (list Z)) : option Z := fst <$> c_memory (fst (core_run log)).
Definition core_reply (log : list (list Z)) : list Z := snd (core_run log).

Lemma core_run_snoc log p : core_run (log ++ [p]) = core_step (fst (core_run log)) p.
Proof. unfold core_run. by rewrite foldl_app. Qed.

(** Replies have a header and the TDO of at most 2^20 bits, those from the
    memory too. *)
Definition short (o : list Z) : Prop := bytes o ∧ zlen o ≤ 2 ^ 17.
Definition memory_short (c : core) : Prop := match c_memory c with Some (_, o) => short o | None => True end.
Definition core_sized (co : core * list Z) : Prop :=
  memory_short (fst co) ∧
  bytes (snd co) ∧ 1 ≤ zlen (snd co) ≤ 4 + 2 ^ 17.

Lemma core_word_sized c w : memory_short c → core_sized (c, le_bytes 4 w).
Proof. intros Hc. split; [done|]. cbn [snd]. split; [apply le_bytes_bytes|]. rewrite le_bytes_length. lia. Qed.

Lemma core_answer_sized c p o : memory_short c → 4 < zlen p → short o →
  core_sized (c, (wrap8 <$> take 4 p) ++ o).
Proof.
  intros Hc Hp [Bo Lo]. split; [done|]. cbn [snd]. split; [|rewrite length_app, length_fmap, length_take; lia].
  apply bytes_app. split; [|done]. apply Forall_fmap, Forall_forall. intros b _. apply wrap8_byte.
Qed.

Lemma core_step_size c p : memory_short c → core_sized (core_step c p).
Proof.
  intros Hc. unfold core_step. cbv zeta. destruct (negb (getVrs _ =? _)); [by apply core_word_sized|].
  destruct (getCmd _ =? CMD_Q); [by apply core_word_sized|].
  destruct (Z.eq_dec (getCmd (le_val (take 4 p))) CMD_S) as [Hcm|Hcm]; cycle 1.
  { unfold getLen. rewrite (proj2 (Z.eqb_neq _ _) Hcm). by apply core_word_sized. }
  rewrite (getLen_digit _ Hcm). pose proof (Z.mod_pos_bound (le_val (take 4 p)) (2 ^ 20) ltac:(lia)).
  set (bits := _ + 1). destruct (Z.leb_spec (zlen p) 4) as [|Hp]; cbn [orb]; [by apply core_word_sized|].
  destruct (negb _ && _); [by apply core_word_sized|]. set (x := _ <$> seqZ 0 _). set (y := _ <$> seqZ 0 _).
  pose proof (Hout (c_target c) bits x y ltac:(lia)) as Ho. destruct (shifted (c_target c) bits x y) as [st' o]. destruct Ho as [Lo Bo].
  assert (So : short o) by (split; [done|]; cbn [snd] in Lo; rewrite Lo; Z.div_mod_to_equations; lia).
  assert (Hrun : core_sized (Core st' (if depth =? 0 then None else Some (getXid (le_val (take 4 p)), o)), (wrap8 <$> take 4 p) ++ o))
    by (apply core_answer_sized; [unfold memory_short; cbn; by destruct (depth =? 0)|done|done]).
  destruct (c_memory c) as [[xid o']|] eqn:Em; [|exact Hrun]. destruct (xid =? _); [|exact Hrun].
  apply core_answer_sized; [done|done|]. unfold memory_short in Hc. by rewrite Em in Hc.
Qed.

Lemma core_run_size log : core_sized (core_run log).
Proof.
  induction log as [|p log IH] using rev_ind; [by apply core_word_sized|]. rewrite core_run_snoc. apply core_step_size, IH.
Qed.
Lemma core_reply_size log : bytes (core_reply log) ∧ 1 ≤ zlen (core_reply log) ≤ 4 + 2 ^ 17.
Proof. apply core_run_size. Qed.

Lemma wrap8_bytes l : bytes l → wrap8 <$> l = l.
Proof. induction 1 as [|b l Hb Hl IH]; [done|]. rewrite fmap_cons, IH. f_equal. apply Z.mod_small, Hb. Qed.

(** The vectors are recovered from the packet. *)
Lemma unpack_packet k l p n : 0 ≤ n → zlen l = n → (∀ i, 0 ≤ i < n → ix p (pos 4 i + k) = ix l i) →
  (λ i, default 0 (ix p (pos 4 i + k))) <$> seqZ 0 n = l.
Proof.
  intros Hn Ll Hp. apply list_eq. intros j. rewrite list_lookup_fmap. destruct (decide (Z.of_nat j < n)).
  - rewrite lookup_seqZ_lt by lia. cbn [fmap option_fmap option_map]. rewrite Z.add_0_l, Hp, ix_nat by lia.
    destruct (lookup_lt_is_Some_2 l j) as [x ->]; [lia|done].
  - rewrite lookup_seqZ_ge by lia. symmetry. apply lookup_ge_None_2. lia.
Qed.

Lemma not_stored {A} c xid (again : list Z → A) (r : A) : fst <$> c_memory c ≠ Some xid →
  match c_memory c with Some (x, o) => if x =? xid then again o else r | None => r end = r.
Proof.
  destruct (c_memory c) as [[x o]|]; [|done]. intros Hx. destruct (Z.eqb_spec x xid) as [->|]; [by destruct Hx|done].
Qed.

Lemma core_speaks : speaks core_reply core_state core_stored depth raw.
Proof.
  split; [done..| |].
  - intros log p Hp Hl. unfold core_reply, core_state at 1, core_stored. rewrite core_run_snoc. unfold core_step.
    rewrite take_ge, Hp by lia. change (negb (getVrs mkQuery =? PVER0)) with false. change (getCmd mkQuery =? CMD_Q) with true.
    split; [done|]. split; [done|]. exists []. by rewrite app_nil_r.
  - intros log p bits tms tdi. cbv zeta. destruct (shifted (core_state log) bits tms tdi) as [st' o] eqn:Es.
    intros [Bp Hb Lp Hv Hc Hg [Lt _] [Ld _] Hpk] _ Hd Hso. unfold core_reply, core_state at 1. unfold core_stored in *. rewrite core_run_snoc.
    set (c := fst (core_run log)) in *. change (core_state log) with (c_target c) in Es.
    unfold core_step. rewrite Hv, Hc, Hg. change (negb (PVER0 =? PVER0)) with false. change (CMD_S =? CMD_Q) with false. cbv iota zeta.
    assert (Hn : 1 ≤ (bits + 7) / 8) by (Z.div_mod_to_equations; lia). pose proof (word_ceil_bounds 4 ((bits + 7) / 8) ltac:(lia)).
    rewrite (unpack_packet 0 tms), (unpack_packet 4 tdi) by ((done || lia) || (intros i Hi; rewrite ?Z.add_0_r; by apply Hpk)).
    rewrite Es. pose proof (Hout (c_target c) bits tms tdi ltac:(lia)) as Ho. rewrite Es in Ho.
    rewrite (proj2 (Z.leb_gt (zlen p) 4)) by lia. cbn [orb].
    assert (negb (depth =? 0) && (32 * depth <? bits) = false) as ->.
    { destruct (Z.eqb_spec depth 0), (Z.ltb_spec (32 * depth) bits); done || lia. }
    rewrite (not_stored c) by done. cbn [fst snd c_target c_memory]. split; [done|]. split; [destruct (depth =? 0); [by left|by right]|].
    split; [apply Ho|]. exists []. by rewrite app_nil_r, wrap8_bytes by auto with xvc.
Qed.

(** A shift that is sent again is answered again, and not executed. *)
Lemma core_replays log p bits tms tdi : let again := log ++ [p] ++ [p] in 0 < depth → bits ≤ 32 * depth →
  core_stored log ≠ Some (getXid (le_val (take 4 p))) → shift_packet bits tms tdi p →
  core_state again = core_state (log ++ [p]) ∧ core_reply again = core_reply (log ++ [p]).
Proof.
  intros again Hd Hbd Hso [Bp Hb Lp Hv Hc Hg _ _ _]. subst again. rewrite app_assoc. unfold core_state, core_reply, core_stored in *.
  rewrite (core_run_snoc (log ++ [p])), (core_run_snoc log). set (c := fst (core_run log)) in *.
  unfold core_step. rewrite Hv, Hc, Hg. change (negb (PVER0 =? PVER0)) with false. change (CMD_S =? CMD_Q) with false. cbv iota zeta.
  assert (Hn : 1 ≤ (bits + 7) / 8) by (Z.div_mod_to_equations; lia). pose proof (word_ceil_bounds 4 ((bits + 7) / 8) ltac:(lia)).
  rewrite (proj2 (Z.leb_gt (zlen p) 4)), (proj2 (Z.ltb_ge (32 * depth) bits)), (proj2 (Z.eqb_neq depth 0)) by lia. cbn [orb negb andb].
  destruct (shifted (c_target c) bits _ _) as [st' o].
  rewrite (not_stored c) by done. cbn [fst snd c_target c_memory]. by rewrite Z.eqb_refl.
Qed.

(** The same in words, for the TMEM FIFO. *)
Lemma words_of_pad n : ∀ l, bytes l → (length l ≤ n)%nat →
  Forall is_u32 (words_of l) ∧ zlen (words_of l) = (zlen l + 3) / 4 ∧ ∃ pad, concat (le_bytes 4 <$> words_of l) = l ++ pad.
Proof.
  assert (Hu : ∀ w, bytes w → (length w ≤ 4)%nat → is_u32 (le_val w)).
  { intros w Bw Lw. pose proof (le_val_bounds w Bw) as Hv. pose proof (Z.pow_le_mono_r 256 (zlen w) 4 ltac:(lia) ltac:(lia)).
    unfold is_u32. lia. }
  assert (Hs : ∀ w, bytes w → (1 ≤ length w ≤ 4)%nat → words_of w = [le_val w] →
    Forall is_u32 (words_of w) ∧ zlen (words_of w) = (zlen w + 3) / 4 ∧ ∃ pad, concat (le_bytes 4 <$> words_of w) = w ++ pad).
  { intros w Bw Lw Ew. rewrite Ew. split; [apply Forall_singleton, Hu; (done || lia)|].
    split; [cbn [length]; Z.div_mod_to_equations; lia|]. cbn [fmap list_fmap concat].
    rewrite word_padded, app_nil_r by (done || lia). by eexists. }
  induction n as [|n IH]; intros l Bl Ll.
  { destruct l; [split; [constructor|]; split; [done|by exists []]|simpl in Ll; lia]. }
  destruct l as [|a [|b [|c [|d t]]]]; [split; [constructor|]; split; [done|by exists []]|apply Hs; (done || simpl; lia)..|].
  change (words_of (a :: b :: c :: d :: t)) with (le_val [a; b; c; d] :: words_of t).
  change (a :: b :: c :: d :: t) with ([a; b; c; d] ++ t) in *. apply bytes_app in Bl as [Bw Bt]. rewrite length_app in Ll.
  destruct (IH t Bt) as (Hf & Hl & pad & Ep); [simpl in Ll; lia|].
  split; [apply Forall_cons; split; [apply Hu; (done || simpl; lia)|done]|].
  split; [rewrite length_app; cbn [length]; Z.div_mod_to_equations; lia|].
  exists pad. rewrite fmap_cons. cbn [concat]. rewrite Ep, word_padded by (done || simpl; lia). done.
Qed.

Lemma core_words log : Forall is_u32 (words_of (core_reply log)) ∧ 1 ≤ zlen (words_of (core_reply log)) ≤ 2 ^ 15 + 1.
Proof.
  destruct (core_reply_size log) as [Hb Hl]. destruct (words_of_pad _ _ Hb (le_n _)) as (Hf & El & _).
  split; [done|]. rewrite El. Z.div_mod_to_equations. lia.
Qed.

Lemma core_words_speak : speaks (λ log, concat (le_bytes 4 <$> words_of (core_reply log))) core_state core_stored depth raw.
Proof.
  assert (Hp : ∀ log, ∃ pad, concat (le_bytes 4 <$> words_of (core_reply log)) = core_reply log ++ pad).
  { intros log. by apply (words_of_pad _ _ (proj1 (core_reply_size log)) (le_n _)). }
  split; [done..| |].
  - intros log p E L. destruct (fw_query _ _ _ _ _ core_speaks log p E L) as (Eq & Eso & pad & Er). split; [done|]. split; [done|].
    destruct (Hp (log ++ [p])) as [pad' ->]. rewrite Er, <-app_assoc. by eexists.
  - intros log p bits tms tdi. pose proof (fw_shift _ _ _ _ _ core_speaks log p bits tms tdi) as Hs. cbv zeta in *.
    destruct (shifted (core_state log) bits tms tdi) as [st' o]. intros Hsp Hab Hd Hso.
    destruct (Hs Hsp Hab Hd Hso) as (Eq & Eso & Lo & pad & Er). split; [done|]. split; [done|]. split; [done|].
    destruct (Hp (log ++ [p])) as [pad' ->]. rewrite Er, <-!app_assoc. by eexists.
Qed.
End core.

(** ** Instances: cores in front of a bypass register *)

(** A target with a clock of a fixed period. *)
Definition clocked {St} `{Target St} (t : Z) : Target St := {|
  grain := grain;
  tck := t;
  able := able;
  queried := queried;
  shifted := shifted;
  shifted_nil := shifted_nil;
  shifted_app := shifted_app;
|}.

(** The core as AxisToJtag.vhd has it by default: a memory of four words,
    no period. *)
Module Core.
#[local] Existing Instance le_platform.
#[local] Instance bypassed : Target (list (bool * bool)) := scan_chain Bypass.bypass.

Lemma image_size st bits tms tdi : 0 ≤ bits → let o := snd (shifted st bits tms tdi) in zlen o = (bits + 7) / 8 ∧ bytes o.
Proof.
  intros Hb o. subst o. cbn [shifted bypassed scan_chain snd]. unfold tdo_image. split; [|apply le_bytes_bytes].
  rewrite le_bytes_length, Z2Nat.id; [done|]. apply Z.div_pos; lia.
Qed.

Definition fw (log : list (list Z)) : list Z := core_reply [] 4 0 log.
Definition behind (log : list (list Z)) : list (bool * bool) := core_state [] 4 0 log.
Definition memory (log : list (list Z)) : option Z := core_stored [] 4 0 log.
Definition delay (log : list (list Z)) : nat := (length log mod 3)%nat.

Lemma fw_bytes sent : bytes (fw sent) ∧ zlen (fw sent) < 2 ^ 31.
Proof. destruct (core_reply_size [] 4 0 ltac:(lia) ltac:(lia) image_size sent) as [Hb Hl]. split; [done|]. unfold fw. lia. Qed.
Lemma delay_polls sent : (delay sent < 5)%nat.
Proof. unfold delay. pose proof (Nat.mod_upper_bound (length sent) 3 ltac:(lia)). lia. Qed.
Lemma fw_speaks : speaks fw behind memory 4 0.
Proof. apply core_speaks; [lia|lia|by vm_compute|exact image_size]. Qed.

Definition zynq : JtagDriverZynqFifo axis_fifo := mkFifo (mkMap 0x43c00000 4096 16) (d_empty []) 510 4 true [Irq 7; Irq 1].
Definition zynq_server : XvcServer (JtagDriverAxisToJtag (JtagDriverZynqFifo axis_fifo)) :=
  mkServer 2542 (JtagDriverAxisToJtag_new 0 1 zynq) 0 32768 false [].

Lemma fifo_server_shifts_witness :
  let (log', os) := all_replies 32768 [] Bypass.clients in
  ∃ s', @XvcServer_run _ _ (@axis_ifc _ _ (fifo_transport fw delay 0x04000201 2 5)) (Some ∘ fst <$> Bypass.clients) zynq_server = (Waiting, s') ∧
    behind (af_sent (Fifo.dev (tp (srv_drv s')))) = log' ∧ out <$> closed s' = [] ++ os.
Proof.
  apply (@fifo_server_shifts le_platform eq_refl fw delay 0x04000201 2 5 fw_bytes delay_polls _ bypassed behind memory 4 0 fw_speaks
    Bypass.clients zynq_server).
  - split; [apply axis_new_ok; [exact Session.byte_1|]|reflexivity]. split; [|simpl; lia]. split; [reflexivity|]. split; reflexivity.
  - reflexivity.
  - reflexivity.
  - simpl. lia.
  - left. lia.
  - apply Z.divide_1_l.
  - reflexivity.
  - by apply all_takes_all.
  - apply Bypass.clients_ask. simpl. lia.
Defined.
End Core.

(** The core of Tmem2BSCANWrapper.vhd: a memory of 512 words, and a clock of
    125 MHz / 10; the FIFO has 2 KB. *)
Module BigCore.
#[local] Existing Instance some_platform.
#[local] Instance bypassed : Target (list (bool * bool)) := @clocked _ Core.bypassed 80.

Lemma big_image_size (st : list (bool * bool)) bits tms tdi : 0 ≤ bits →
  let o := snd (shifted st bits tms tdi) in zlen o = (bits + 7) / 8 ∧ bytes o.
Proof. exact (Core.image_size st bits tms tdi). Qed.

Definition fw (log : list (list Z)) : list Z := core_reply [] 512 77 log.
Definition behind (log : list (list Z)) : list (bool * bool) := core_state [] 512 77 log.
Definition memory (log : list (list Z)) : option Z := core_stored [] 512 77 log.

Definition board : fw_cfg := {|
  TmemSpec.serdes := false;
  TmemSpec.fw_version := 1;
  TmemSpec.kbytes := 2;
  TmemSpec.chain _ := false;
  TmemSpec.late _ := true;
  TmemSpec.status _ := 0x7ff;
  TmemSpec.busy _ := O;
  TmemSpec.reply sent := words_of (fw sent);
  TmemSpec.delay := Core.delay;
  TmemSpec.at_space := 2;
  TmemSpec.at_base := 0x200000;
  TmemSpec.parse_space l := (2, drop 6 l);
|}.

Lemma big_board_ok : cfg_ok board 5.
Proof.
  split; cbn -[fw]; intros; try lia; [].
  destruct (core_words [] 512 77 ltac:(lia) ltac:(lia) big_image_size sent) as [Hf Hl]. split; [exact Hf|]. unfold fw. lia.
Qed.
Lemma board_speaks : speaks (TmemSpec.answer board) behind memory 512 77.
Proof. apply core_words_speak; [lia|lia|by vm_compute|exact big_image_size]. Qed.

Definition tmem : JtagDriverTmemFifo tmem_fw :=
  mkTmem 2 0x200000 (mkTm [] [] [] 0 0x80000 0 0 0 10 0 false false true false []) 1022 4 true [Irq 3; Irq 1]
    false false false 0 false 0 0 1 [] 0.
Definition tmem_server : XvcServer (JtagDriverAxisToJtag (JtagDriverTmemFifo tmem_fw)) :=
  mkServer 2542 (JtagDriverAxisToJtag_new 0 1 tmem) 0 1020 false [].

Lemma tmem_fifo_server_shifts_witness :
  let (log', os) := all_replies 1020 [] Bypass.clients in
  ∃ s', @XvcServer_run _ _ (@axis_ifc _ _ (tmem_transport board 5)) (Some ∘ fst <$> Bypass.clients) tmem_server = (Waiting, s') ∧
    behind (tm_sent (Tmem.dev (tp (srv_drv s')))) = log' ∧ out <$> closed s' = [] ++ os.
Proof.
  apply (@tmem_fifo_server_shifts some_platform board 5 big_board_ok eq_refl _ bypassed behind memory 512 77 board_speaks
    Bypass.clients tmem_server).
  - split; [apply axis_new_ok; [exact Session.byte_1|]|reflexivity]. split; [|simpl; lia]. by split_and!.
  - reflexivity.
  - reflexivity.
  - simpl. lia.
  - left. lia.
  - simpl. lia.
  - apply Z.divide_1_l.
  - reflexivity.
  - by apply all_takes_all.
  - apply Bypass.clients_ask. simpl. lia.
Defined.
End BigCore.
