(* ===== verification/Link.v ===== *)
(** * The UDP driver and its test peer, with a network between them

    The driver of Udp.v sends its messages to the [UdpLoopBack] of the same
    file.  The network loses requests and replies, the peer drops requests
    on purpose, and a reply may be late; what happens to the datagrams is a
    parameter.  When no reply is late and of any six transmissions two
    come through, the driver and the peer together are a target in the sense of
    Target.v: each vector is shifted exactly once, and the clients of the
    server do not notice the network.  A late reply is another matter: the
    driver takes it for the answer to its next query. *)

From stdpp Require Import base numbers option list strings.
From Stdlib Require Import ZArith Lia.
From S2P Require Import Prelude Header Driver LoopBack Udp Vectors Conn ConnSpec Target Player Stack Server ServerSpec.
#[local] Open Scope Z_scope.

(** ** The network *)

(** What happens to a request and its reply: one of them is lost, the reply
    arrives in time, or it arrives when the driver has stopped waiting. *)
Inductive fate := LoseRequest | LoseReply | Prompt | Late.

Record Link := mkLink {
  l_udp : JtagDriverUdp;
  l_peer : option UdpLoopBack;   (* [None]: an exception has ended it *)
  l_queue : list (list Z);       (* the datagrams the driver has not read *)
  l_clock : nat;                 (* how many it has sent *)
}.

Section link.
Context `{Platform} (net : nat → fate) (limit : Z).

(** The peer and the datagram [dg], and what it replies; its system calls do
    not fail. *)
Definition heard (f : fate) (dg : list Z) (p : option UdpLoopBack) : option UdpLoopBack * option (list Z) :=
  match f, p with
  | LoseRequest, _ | _, None => (p, None)
  | _, Some u =>
      match peer_serve (Some dg) true u with
      | (Ret r, u') => (Some u', r)
      | _ => (None, None)
      end
  end.

(** Datagrams of more than [limit] octets are not sent (the driver has asked
    the system not to cut them); [poll] returns at once when there is a
    datagram, otherwise it waits for the reply. *)
Definition transmit (dg : list Z) (l : Link) : udp_event * Link :=
  if limit <? zlen dg then (WriteFails true, l)
  else
    let f := net (l_clock l) in
    let (p, r) := heard f dg (l_peer l) in
    let now := match f, r with Prompt, Some r => [r] | _, _ => [] end in
    let later := match f, r with Late, Some r => [r] | _, _ => [] end in
    match l_queue l ++ now with
    | [] => (Silence, mkLink (l_udp l) p later (S (l_clock l)))
    | dg :: q => (Revents POLLIN (Some dg), mkLink (l_udp l) p (q ++ later) (S (l_clock l)))
    end.

(** The driver's [xfer], with what its system calls return. *)
Definition link_xfer (txb : list Z) (txBytes hsize size : Z) : M (io Link) Z := λ s,
  let (ev, l) := transmit (take (Z.to_nat txBytes) txb) (io_tp s) in
  let d := l_udp l in
  let (o, s') := udp_xfer txb txBytes hsize size
    (mkIo (io_jd s) (mkUdp (timeoutMs_ d) (mtu_ d) [ev] (sent d)) (io_hd s) (io_rx s)) in
  (o, mkIo (io_jd s') (mkLink (io_tp s') (l_peer l) (l_queue l) (l_clock l)) (io_hd s') (io_rx s')).

#[local] Instance link_transport : Transport Link := {
  xfer := link_xfer;
  getMaxVectorSize wsz l := udp_getMaxVectorSize wsz (l_udp l);
}.

(** ** The peer *)

Record peer_ok (u : UdpLoopBack) : Prop := {
  pk_rbuf : zlen (rbuf_ u) = 1500 ∧ bytes (rbuf_ u);
  pk_tbuf : zlen (tbuf_ u) = 1500 ∧ bytes (tbuf_ u);
  pk_lb : lb_ok (u_lb u);
}.

(** The datagram is in the receive buffer; it has been counted, and is not
    looked at when [drops]. *)
Definition arrived (dg : list Z) (u : UdpLoopBack) : UdpLoopBack :=
  let u1 := set_rbuf (dg ++ drop (length dg) (rbuf_ u)) u in
  if drEn_ (u_jd u) then count_drop u1 else u1.
Definition drops (u : UdpLoopBack) : bool := drEn_ (u_jd u) && (Z.land (drop_ (u_jd u)) 0xff =? 0).

Definition answer_of (dg : list Z) : M UdpLoopBack (option (list Z)) :=
  b ← gets rbuf_;
  pld ← peer_xfer b (zlen dg) 4 1496;
  u ← gets id;
  r ← lift (rd 0 (pld + 4) (tbuf_ u));
  mret (Some r).

Lemma serve_arrived dg u : peer_ok u → 4 ≤ zlen dg ≤ 1500 →
  peer_serve (Some dg) true u = if drops (arrived dg u) then (Ret None, arrived dg u) else answer_of dg (arrived dg u).
Proof.
  intros [[Lr _] _ _] Hl. unfold peer_serve, mbind, M_bind. cbn [gets id lift].
  rewrite !(take_ge dg) by lia. rewrite wr_ok by lia.
  change (take (Z.to_nat 0) (rbuf_ u)) with (@nil Z). rewrite app_nil_l.
  change (Z.to_nat 0 + length dg)%nat with (length dg). cbn [modify]. rewrite (proj2 (Z.ltb_ge _ _)) by lia.
  unfold drops, arrived. cbn [u_jd set_rbuf]. destruct (drEn_ (u_jd u)) eqn:Ed.
  - cbn [modify gets id u_jd count_drop set_rbuf drEn_ set_drop]. rewrite Ed. cbn [andb]. by destruct (_ =? 0).
  - cbn [mret M_ret gets id u_jd set_rbuf]. rewrite Ed. reflexivity.
Qed.

Lemma arrived_same dg u : u_lb (arrived dg u) = u_lb u ∧ tbuf_ (arrived dg u) = tbuf_ u ∧ tsiz_ (arrived dg u) = tsiz_ u ∧
  rbuf_ (arrived dg u) = dg ++ drop (length dg) (rbuf_ u) ∧ drEn_ (u_jd (arrived dg u)) = drEn_ (u_jd u).
Proof. unfold arrived. by destruct (drEn_ _) eqn:E. Qed.

Lemma arrived_ok dg u : peer_ok u → zlen dg ≤ 1500 → bytes dg → peer_ok (arrived dg u).
Proof.
  intros [[Lr Br] Ht Hl] Hd Bd. destruct (arrived_same dg u) as (El & Et & _ & Er & _).
  split; rewrite ?El, ?Et, ?Er; try done. split; [len|]. apply bytes_app. auto with xvc.
Qed.

Section plays.
Context {St : Type} `{Target St} (plays : St → JtagDriverLoopBack → Prop) (HP : player plays) (HLE : isLE = true).

(** The word the peer answers queries with. *)
Definition peer_word : Z := query_word udp_emulMemDepth.

(** The reply that is in the transmit buffer, and will be sent again. *)
Definition stored (h : Z) (o : list Z) (u : UdpLoopBack) : Prop :=
  tsiz_ u = zlen o ∧ take (4 + length o) (tbuf_ u) = store32 h ++ o.

Lemma stored_header h o u : stored h o u → take 4 (tbuf_ u) = store32 h.
Proof.
  intros [_ E]. pose proof (f_equal (take 4) E) as E4. rewrite take_take in E4.
  replace (4 `min` (4 + length o))%nat with 4%nat in E4 by lia. rewrite E4. apply take_app_length'. by rewrite store32_length.
Qed.

(** What [JtagDriverLoopBack::xfer] leaves in the transmit buffer. *)
Lemma loopback_tbuf h o u s' : let s := mkIo (u_jd u) (u_lb u) (take 4 (tbuf_ u)) (drop 4 (tbuf_ u)) in
  peer_ok u → lb_ok (io_tp s') → zlen o ≤ 1496 → replied h o s s' →
  let u' n := mkUdpLB (io_jd s') (io_tp s') (rbuf_ u) (io_hd s' ++ io_rx s') n in
  (∀ n, peer_ok (u' n)) ∧ take (4 + length o) (io_hd s' ++ io_rx s') = store32 h ++ o ∧ io_jd s' = u_jd u.
Proof.
  intros s [Hr [Lt Bt] _] Hlb Lo (Ej & T4 & Lh & Bh & Br & Et & [Lr _]). cbn [s io_jd io_hd io_rx] in *.
  rewrite length_take in Lh. rewrite length_drop in Lr. assert (L4 : length (io_hd s') = 4%nat) by lia. split_and!.
  - intros n. split; [done| |done]. cbn [tbuf_]. rewrite length_app. split; [lia|].
    apply bytes_app. auto with xvc.
  - rewrite <-L4, take_app_add, Et. rewrite take_ge in T4 by lia. by rewrite T4.
  - done.
Qed.

Lemma gethdr_rbuf u dg rest : rbuf_ u = dg ++ rest → 4 ≤ zlen dg → getHdr (rbuf_ u) = Ret (le_val (take 4 dg)).
Proof. intros -> Hl. rewrite (getHdr_LE HLE), take_app_le by len. done. Qed.

Lemma answer_run n h o dg u u' : peer_xfer (rbuf_ u) (zlen dg) 4 1496 u = (Ret n, u') → n = zlen o → zlen o ≤ 1496 →
  peer_ok u' → take (4 + length o) (tbuf_ u') = store32 h ++ o → answer_of dg u = (Ret (Some (store32 h ++ o)), u').
Proof.
  intros E -> Lo [_ [Lt _] _] Et. unfold answer_of, mbind, M_bind. cbn [gets]. rewrite E. cbn [gets id lift].
  rewrite rd_ok by lia. rewrite drop_0. replace (Z.to_nat (zlen o + 4)) with (4 + length o)%nat by lia. by rewrite Et.
Qed.

(** A query is answered, and rewinds the script. *)
Lemma answer_query st u dg rest : peer_ok u → rbuf_ u = dg ++ rest → 4 ≤ zlen dg ≤ 1500 → le_val (take 4 dg) = mkQuery →
  plays st (u_lb u) →
  ∃ u', answer_of dg u = (Ret (Some (store32 peer_word ++ [])), u') ∧ peer_ok u' ∧ plays (queried st) (u_lb u') ∧
    getXid (le_val (take 4 (tbuf_ u'))) = XID_ANY ∧ u_jd u' = u_jd u.
Proof.
  intros Hu Hr Hl Hm Hp. pose proof Hu as [_ [Lt _] _].
  destruct (play_query plays HP udp_emulMemDepth st (rbuf_ u) (zlen dg) 4 1496
    (mkIo (u_jd u) (u_lb u) (take 4 (tbuf_ u)) (drop 4 (tbuf_ u)))) as (s' & E & Hp' & Hre);
    [done|by rewrite Hr, take_app_le by lia|lia|rewrite Hr; len|cbn [io_hd]; len|].
  destruct (loopback_tbuf peer_word [] u s' Hu (plays_ok plays HP _ _ Hp') ltac:(simpl; lia) Hre) as (Hok & Et & Ej).
  specialize (Hok (-1)). eexists. split; [eapply (answer_run 0); [|done|simpl; lia|exact Hok|exact Et]|].
  - unfold peer_xfer, mbind, M_bind. cbn [lift gets id].
    rewrite (gethdr_rbuf u dg rest Hr ltac:(lia)), Hm, (getHdr_LE HLE) by lia. cbn [gets id lift].
    change (getCmd mkQuery =? CMD_Q) with true. cbn [modify]. unfold peer_loopback.
    cbn [u_jd u_lb tbuf_ set_tsiz rbuf_ tsiz_]. by rewrite E.
  - split; [done|]. split; [done|]. split; [|exact Ej]. cbn [tbuf_]. change (4 + length (@nil Z))%nat with 4%nat in Et.
    rewrite Et, app_nil_r, (le_val_store32 HLE) by done. done.
Qed.
Lemma packed_app wsz hi tms tdi dg rest : packed wsz 0 hi tms tdi dg → hi ≤ zlen tms → hi ≤ zlen tdi →
  packed wsz 0 hi tms tdi (dg ++ rest).
Proof.
  intros Hp Ht Hd i Hi. destruct (Hp i Hi) as [E1 E2].
  assert (Hs : ∀ l j, 0 ≤ j < zlen l → is_Some (ix l j)).
  { intros l j Hj. unfold ix. zbool. apply lookup_lt_is_Some. lia. }
  assert (Ha : ∀ j, is_Some (ix dg j) → ix (dg ++ rest) j = ix dg j).
  { intros j [x Hx]. unfold ix in *. destruct (0 <=? j); [|done]. rewrite Hx. by apply lookup_app_l_Some. }
  split; rewrite Ha; try done; rewrite ?E1, ?E2; apply Hs; lia.
Qed.

(** A new shift is executed, and its reply stored. *)
Lemma answer_shift st u bits tms tdi dg rest : let (st', o) := shifted st bits tms tdi in
  let h := le_val (take 4 dg) in
  peer_ok u → rbuf_ u = dg ++ rest → bytes rest → shift_packet bits tms tdi dg → zlen dg ≤ 1500 → plays st (u_lb u) → able st bits →
  getXid h ≠ getXid (le_val (take 4 (tbuf_ u))) →
  zlen o = (bits + 7) / 8 ∧
  ∃ u', answer_of dg u = (Ret (Some (store32 h ++ o)), u') ∧ peer_ok u' ∧ plays st' (u_lb u') ∧ stored h o u' ∧
    u_jd u' = u_jd u.
Proof.
  pose proof (play_shift plays HP udp_emulMemDepth st (rbuf_ u) (zlen dg) 4 1496
    (mkIo (u_jd u) (u_lb u) (take 4 (tbuf_ u)) (drop 4 (tbuf_ u))) bits tms tdi) as Hx. cbv zeta in Hx.
  destruct (shifted st bits tms tdi) as [st' o]. intros h Hu Hr Hrest [Bd Hb Hl Hv Hc Hg [Lt _] [Ld _] Hp] Hl15 Hpl Hab Hne.
  pose proof Hu as [_ [Lt' _] _]. pose proof (word_ceil_bounds 4 ((bits + 7) / 8) ltac:(lia)) as Hw.
  assert (Hn : 1 ≤ (bits + 7) / 8) by (Z.div_mod_to_equations; lia).
  assert (E4 : take 4 (rbuf_ u) = take 4 dg) by (rewrite Hr, take_app_le by lia; done). rewrite E4 in Hx.
  destruct Hx as (s' & E & Hp' & Lo & Hre); cbn [io_rx io_hd]; try done;
    [rewrite Hr; apply bytes_app; auto|lia|rewrite Hr; len|rewrite Hr; apply packed_app; (done || lia)|len|len|].
  split; [done|]. fold h in Hre.
  destruct (loopback_tbuf h o u s' Hu (plays_ok plays HP _ _ Hp') ltac:(lia) Hre) as (Hok & Et & Ej).
  specialize (Hok (zlen o)). eexists. split; [eapply (answer_run (zlen o)); [|done|lia|exact Hok|exact Et]|].
  - unfold peer_xfer, mbind, M_bind. cbn [lift gets id].
    rewrite (gethdr_rbuf u dg rest Hr ltac:(lia)), (getHdr_LE HLE) by lia. cbn [gets id lift].
    subst h. rewrite Hc. change (CMD_S =? CMD_Q) with false. change (CMD_S =? CMD_S) with true. cbv iota.
    rewrite (proj2 (Z.eqb_neq _ _) Hne). unfold peer_loopback. rewrite E. cbn [modify]. unfold set_tsiz.
    cbn [u_jd u_lb rbuf_ tbuf_]. by rewrite <-Lo.
  - split; [done|]. split; [done|]. split; [done|exact Ej].
Qed.

(** When it comes again, the stored reply is sent. *)
Lemma answer_again u h o dg rest : peer_ok u → rbuf_ u = dg ++ rest → 4 ≤ zlen dg → h = le_val (take 4 dg) → is_u32 h →
  getCmd h = CMD_S → stored h o u → zlen o ≤ 1496 → answer_of dg u = (Ret (Some (store32 h ++ o)), u).
Proof.
  intros Hu Hr Hl Eh Hh Hc Hs Lo. pose proof (stored_header h o u Hs) as E4. destruct Hs as [Ets Et].
  apply (answer_run (zlen o)); try done. unfold peer_xfer, mbind, M_bind. cbn [lift gets id]. pose proof Hu as [_ [Lt _] _].
  rewrite (gethdr_rbuf u dg rest Hr Hl), (getHdr_LE HLE) by lia. cbn [gets id lift]. rewrite <-Eh, Hc.
  change (CMD_S =? CMD_Q) with false. change (CMD_S =? CMD_S) with true. cbv iota.
  rewrite E4, (le_val_store32 HLE), Z.eqb_refl, Ets, (proj2 (Z.ltb_ge _ _)) by (done || lia). done.
Qed.
End plays.

(** *** The peer on any message *)

Section safe.
Context (HLE : isLE = true).

(** A message is a query, the word of a shift of no bits, or a shift that can
    be answered. *)
Lemma message_cases txBytes size txb : message_ok 4 txBytes size txb → txBytes ≤ 1500 →
  let h := le_val (take 4 txb) in
  h = mkQuery ∨ h = no_bits ∨ getVrs h = PVER0 ∧ getCmd h = CMD_S ∧ 0 ≤ size ≤ 1496.
Proof.
  intros (Ht & Hb & Hc) Hl h. destruct Hc as [[Hq _]|[[Hz _]|(Hv & Hc & bits & Hg & Hs & Htx)]]; [by left|by right; left|right; right].
  fold h in Hv, Hc, Hg. split; [done|]. split; [done|].
  fold (word_ceil 4 size) in Htx. pose proof (word_ceil_bounds 4 size ltac:(lia)).
  rewrite (getLen_digit h Hc) in Hg. injection Hg as <-. pose proof (Z.mod_pos_bound h (2 ^ 20) ltac:(lia)).
  split; [|lia]. rewrite Hs. apply Z.div_pos; lia.
Qed.

(** The datagram of a message, in the receive buffer. *)
Lemma message_dgram txBytes size txb rest : message_ok 4 txBytes size txb → bytes rest →
  let dg := take (Z.to_nat txBytes) txb in
  zlen dg = txBytes ∧ bytes dg ∧ take 4 dg = take 4 txb ∧ message_ok 4 (zlen dg) size (dg ++ rest).
Proof.
  intros (Ht & Hb & Hc) Hr dg. assert (Ld : zlen dg = txBytes) by (subst dg; len). split; [done|].
  assert (Bd : bytes dg) by (subst dg; auto with xvc). split; [done|].
  assert (E4 : take 4 dg = take 4 txb) by (subst dg; rewrite take_take; f_equal; lia). split; [done|].
  split; [rewrite Ld; len|]. split; [apply bytes_app; auto|]. by rewrite take_app_le, E4, Ld by lia.
Qed.

Definition good_reply (dg : list Z) (u' : UdpLoopBack) (r : list Z) : Prop :=
  peer_ok u' ∧ bytes r ∧ 4 ≤ zlen r ∧ (le_val (take 4 dg) = mkQuery → le_val (take 4 r) = peer_word).

Lemma answer_good dg u n u' : peer_xfer (rbuf_ u) (zlen dg) 4 1496 u = (Ret n, u') → 0 ≤ n → peer_ok u' →
  (le_val (take 4 dg) = mkQuery → le_val (take 4 (tbuf_ u')) = peer_word) →
  returns (answer_of dg) u (λ r u', ∃ r', r = Some r' ∧ good_reply dg u' r').
Proof.
  intros E Hn Hu Hq. unfold returns, answer_of, mbind, M_bind. cbn [gets]. rewrite E. cbn [gets id lift].
  unfold rd. destruct (_ && _) eqn:Ec; [|done]. cbn [mret M_ret]. eexists. split; [done|].
  apply andb_true_iff in Ec as [_ Ec%Z.leb_le]. pose proof Hu as [_ [Lt Bt] _]. rewrite drop_0.
  split; [done|]. split; [by auto with xvc|]. split; [len|]. rewrite take_take. by replace (4 `min` Z.to_nat (n + 4))%nat with 4%nat by lia.
Qed.

(** What is left of [peer_xfer] after it has looked at the headers. *)
Lemma answer_returns_run dg u : (∀ n u', peer_xfer (rbuf_ u) (zlen dg) 4 1496 u = (Ret n, u') → 0 ≤ n ∧ peer_ok u') →
  le_val (take 4 dg) ≠ mkQuery → returns (answer_of dg) u (λ r u', ∃ r', r = Some r' ∧ good_reply dg u' r').
Proof.
  intros Hk Hnq. destruct (peer_xfer (rbuf_ u) (zlen dg) 4 1496 u) as [o u'] eqn:Ek.
  destruct o as [n|e|w|];
    [|unfold returns, answer_of, mbind, M_bind; cbn [gets]; by rewrite Ek..].
  destruct (Hk n u' eq_refl) as [Hn Hu']. by eapply answer_good.
Qed.

(** The buffers that the loop-back finds in the peer. *)
Abbreviation peer_io u := (mkIo (u_jd u) (u_lb u) (take 4 (tbuf_ u)) (drop 4 (tbuf_ u))).

Lemma answer_query_returns dg u rest : peer_ok u → rbuf_ u = dg ++ rest → 4 ≤ zlen dg ≤ 1500 →
  le_val (take 4 dg) = mkQuery → returns (answer_of dg) u (λ r u', ∃ r', r = Some r' ∧ good_reply dg u' r').
Proof.
  intros Hu Hr Hl Hq. assert (E4 : take 4 (rbuf_ u) = take 4 dg) by (rewrite Hr, take_app_le by lia; done).
  pose proof Hu as [[Lrb _] [Lt _] Hlb]. pose proof (gethdr_rbuf HLE u dg rest Hr ltac:(lia)) as Hg.
  destruct (query_run udp_emulMemDepth (rbuf_ u) (zlen dg) 4 1496 (peer_io u)) as (s' & E & Hre & Et);
    [by rewrite E4|lia|lia|cbn [io_hd]; rewrite length_take; lia|done|]. cbn [io_tp] in Et.
  assert (Hlb' : lb_ok (io_tp s')) by (rewrite Et; unfold lb_ok in *; by destruct (f_ (u_lb u)) eqn:Ef; rewrite ?Ef).
  destruct (loopback_tbuf peer_word [] u s' Hu Hlb' ltac:(simpl; lia) Hre) as (Hok & Etb & _).
  eapply (answer_good _ _ 0 _); [|lia|exact (Hok (-1))|].
  - unfold peer_xfer, mbind, M_bind. cbn [lift gets id]. rewrite Hg, Hq, (getHdr_LE HLE) by lia. cbn [gets id lift].
    change (getCmd mkQuery =? CMD_Q) with true. cbn [modify]. unfold peer_loopback.
    cbn [u_jd u_lb tbuf_ set_tsiz rbuf_ tsiz_]. by rewrite E.
  - intros _. cbn [tbuf_]. change (4 + length (@nil Z))%nat with 4%nat in Etb.
    by rewrite Etb, app_nil_r, (le_val_store32 HLE).
Qed.

(** The word of a shift of no bits is answered with an error. *)
Lemma answer_none_returns dg u rest : peer_ok u → rbuf_ u = dg ++ rest → 4 ≤ zlen dg ≤ 1500 →
  le_val (take 4 dg) = no_bits → returns (answer_of dg) u (λ r u', ∃ r', r = Some r' ∧ good_reply dg u' r').
Proof.
  intros Hu Hr Hl Hz. assert (E4 : take 4 (rbuf_ u) = take 4 dg) by (rewrite Hr, take_app_le by lia; done).
  pose proof Hu as [[Lrb Brb] [Lt Bt] Hlb]. apply answer_returns_run; [|by rewrite Hz]. intros n u'.
  unfold peer_xfer, mbind, M_bind. cbn [lift gets id].
  rewrite (gethdr_rbuf HLE u dg rest Hr ltac:(lia)), Hz, (getHdr_LE HLE) by lia. cbn [gets id lift].
  change (getCmd no_bits =? CMD_Q) with false. change (getCmd no_bits =? CMD_S) with false. cbv iota.
  unfold peer_loopback, loopback_xfer. rewrite (proj2 (Z.ltb_ge _ _)), rd_ok by lia. unfold mbind, M_bind. cbn [lift].
  change (Z.to_nat 4) with 4%nat. rewrite drop_0, E4, Hz. change (negb (getVrs no_bits =? PVER0)) with true. cbv iota beta.
  match goal with |- context [put_header ?h ?s] => destruct (put_header_run h s) as (hd & -> & _ & Lh & Bh) end;
    [cbn [io_hd]; rewrite length_take; lia|]. cbn [mret M_ret io_jd io_tp io_hd io_rx set_hd] in *. intros [= <- <-].
  split; [done|]. split; [done| |done]. cbn [tbuf_]. rewrite length_take in Lh. rewrite length_app, length_drop. split; [lia|].
  apply bytes_app. auto with xvc.
Qed.

Lemma answer_returns size dg u rest : peer_ok u → rbuf_ u = dg ++ rest → 4 ≤ zlen dg ≤ 1500 →
  message_ok 4 (zlen dg) size (rbuf_ u) →
  returns (answer_of dg) u (λ r u', ∃ r', r = Some r' ∧ good_reply dg u' r').
Proof.
  intros Hu Hr Hl Hm. assert (E4 : take 4 (rbuf_ u) = take 4 dg) by (rewrite Hr, take_app_le by lia; done).
  pose proof Hu as [[Lrb Brb] [Lt Bt] Hlb]. pose proof (message_cases _ _ _ Hm ltac:(lia)) as Hc. rewrite E4 in Hc.
  destruct Hc as [Hq|[Hz|(Hv & Hc & Hs)]]; [by eapply answer_query_returns|by eapply answer_none_returns|].
  apply answer_returns_run; [|intros E; by rewrite E in Hc]. intros n u'.
  unfold peer_xfer, mbind, M_bind. cbn [lift gets id].
  rewrite (gethdr_rbuf HLE u dg rest Hr ltac:(lia)), (getHdr_LE HLE) by lia. cbn [gets id lift].
  rewrite Hc. change (CMD_S =? CMD_Q) with false. change (CMD_S =? CMD_S) with true. cbv iota.
  destruct (_ =? getXid _).
  { destruct (Z.ltb_spec (tsiz_ u) 0); [done|]. by intros [= <- <-]. }
  unfold peer_loopback. set (s := peer_io u).
  assert (Hio : io_ok 4 size (io_rx s) (debug_ (io_jd s)) s).
  { split; [done|]. split; [split; [cbn [io_hd s]; rewrite length_take; lia|by apply bytes_take]|].
    split; [by apply bytes_drop|]. split; [apply rx_frame_refl|done]. }
  pose proof (loopback_xfer_ok 4 size (io_rx s) (debug_ (io_jd s)) ltac:(lia) ltac:(cbn [io_rx s]; rewrite length_drop; lia)
    udp_emulMemDepth (rbuf_ u) (zlen dg) 4 Hm s Hio) as Hk.
  pose proof (loopback_shift_returns HLE udp_emulMemDepth (rbuf_ u) (zlen dg) 4 size s ltac:(lia) ltac:(rewrite Hr; len)) as Hsr.
  cbv zeta in Hsr. rewrite E4 in Hsr. specialize (Hsr Hv Hc). unfold returns in Hsr.
  change (loopback_xfer ?a ?b ?c ?d 1496) with (loopback_xfer a b c d size).
  destruct (loopback_xfer _ _ _ _ size s) as [[got|e|w|] s'] eqn:Ex; try done. cbn [modify]. intros [= <- <-].
  destruct Hsr as (_ & Hn & _). destruct Hk as (Hlb' & [Lh Bh] & Br & [Lr _] & _). cbn [io_rx s] in Lr. rewrite length_drop in Lr.
  split; [done|]. split; [done| |done]. cbn [tbuf_ set_tsiz]. rewrite length_app. split; [lia|]. by apply bytes_app.
Qed.

Lemma serve_returns txBytes size txb u : peer_ok u → message_ok 4 txBytes size txb → txBytes ≤ 1500 →
  let dg := take (Z.to_nat txBytes) txb in
  returns (peer_serve (Some dg) true) u (λ r u', peer_ok u' ∧ ∀ r', r = Some r' → good_reply dg u' r').
Proof.
  intros Hu Hm Hl dg. pose proof Hu as [[Lr Br] _ _].
  destruct (message_dgram txBytes size txb (drop (length dg) (rbuf_ u)) Hm ltac:(auto with xvc)) as (Ld & Bd & E4 & Hm').
  fold dg in Ld, Bd, E4, Hm'. assert (Hdg : 4 ≤ zlen dg ≤ 1500) by (destruct Hm; lia).
  unfold returns. rewrite serve_arrived by done. destruct (arrived_same dg u) as (_ & _ & _ & Er & _).
  pose proof (arrived_ok dg u Hu ltac:(lia) Bd) as Hu1. destruct (drops _); [by split|].
  rewrite <-Er in Hm'. pose proof (answer_returns size dg _ _ Hu1 Er Hdg Hm') as Ha. unfold returns in Ha.
  destruct (answer_of _ _) as [[r|e|w|] u']; try done. destruct Ha as (r' & -> & Hg). split; [apply Hg|]. by intros ? [= <-].
Qed.

(** *** The driver on this network *)

Context (Hnet : ∀ t, net t ≠ Late) (Hlimit : limit ≤ 1500).

Definition link_ok (l : Link) : Prop := l_queue l = [] ∧ ∀ u, l_peer l = Some u → peer_ok u.

Lemma transmit_ok txBytes size txb l : message_ok 4 txBytes size txb → link_ok l →
  let dg := take (Z.to_nat txBytes) txb in
  let (ev, l') := transmit dg l in
  link_ok l' ∧ match ev with
    | Revents r (Some r') => r = POLLIN ∧ bytes r' ∧ 4 ≤ zlen r' ∧ (le_val (take 4 dg) = mkQuery → le_val (take 4 r') = peer_word)
    | WriteFails _ | Silence => True
    | _ => False
    end.
Proof.
  intros Hm [Hq Hp] dg. assert (Ld : zlen dg = txBytes) by (destruct Hm; subst dg; len).
  unfold transmit. destruct (Z.ltb_spec limit (zlen dg)); [done|]. rewrite Hq.
  pose proof (Hnet (l_clock l)) as Hn. unfold heard. destruct (l_peer l) as [u|] eqn:Eu; cycle 1.
  { destruct (net _); try done; (split; [split|]; [done|by intros ? [=]|done]). }
  pose proof (serve_returns txBytes size txb u (Hp u eq_refl) Hm ltac:(lia)) as Hs. cbv zeta in Hs. fold dg in Hs.
  unfold returns in Hs. destruct (net _); [|..|done].
  - split; [split|]; [done|by intros ? [= <-]; auto|done].
  - destruct (peer_serve (Some dg) true u) as [[r|e|w|] u']; (split; [split|]; [done| |done]); try (by intros ? [=]).
    intros ? [= <-]. by destruct Hs.
  - destruct (peer_serve (Some dg) true u) as [[[r|]|e|w|] u']; cbn [app]; try (split; [split|]; [done|by intros ? [=]|done]).
    + destruct Hs as [Hu' Hr]. destruct (Hr r eq_refl) as (_ & Br & Lr & Hw).
      split; [split|]; [done|by intros ? [= <-]|done].
    + destruct Hs as [Hu' _]. split; [split|]; [done|by intros ? [= <-]|done].
Qed.

#[local] Program Instance link_laws : TransportLaws Link := {
  tp_ok := link_ok;
  word_ok w := w = 4;
}.
Next Obligation. done. Qed.
Next Obligation.
  intros txb txBytes hsize size s Hh -> Hm Hb Hok. unfold xfer, link_transport, link_xfer.
  pose proof (transmit_ok txBytes size txb (io_tp s) Hm Hok) as Ht. cbv zeta in Ht.
  assert (E4 : take 4 (take (Z.to_nat txBytes) txb) = take 4 txb)
    by (destruct Hm; rewrite take_take; f_equal; lia). rewrite E4 in Ht.
  destruct (transmit _ _) as [ev l]. destruct Ht as [Hl Hev]. set (d := mkUdp _ _ [ev] _).
  set (s0 := mkIo (io_jd s) d (io_hd s) (io_rx s)).
  assert (Hd : udp_ok d) by (apply Forall_singleton; destruct ev as [| | |? []]; try done; apply Hev).
  pose proof (xfer_safe txb txBytes 4 size s0 Hh I Hm Hb Hd) as Hs.
  unfold xfer, udp_transport in Hs.
  assert (Hw : ∀ n s', udp_xfer txb txBytes 4 size s0 = (Ret n, s') → le_val (take 4 txb) = mkQuery →
    le_val (take 4 (io_hd s')) = peer_word).
  { intros n s' E Hq. assert (Htx : 0 ≤ txBytes ≤ zlen txb) by (destruct Hm; lia).
    pose proof (udp_xfer_run txb txBytes 4 size s0 ev [] Htx Hh Hb eq_refl) as Hx.
    destruct ev as [b| | |r [r'|]]; try done.
    - unfold udp_xfer, mbind, M_bind, lift, udp_send in E. rewrite rd_ok in E by lia. done.
    - cbv zeta in Hx. by rewrite E in Hx.
    - destruct Hev as (-> & Br & Lr & Hw). destruct (Hx Br Lr) as (s2 & E2 & _ & _ & _ & T4 & _).
      rewrite E in E2. injection E2 as _ <-. rewrite T4. auto. }
  destruct (udp_xfer _ _ _ _ s0) as [o s']. destruct Hs as (Ho & Hb' & _ & Hf & Hdb).
  split; [|split; [exact Hb'|split; [exact Hl|split; [exact Hf|exact Hdb]]]].
  destruct o; try done. intros Hq. right. cbn [io_hd]. by rewrite (Hw _ _ eq_refl Hq).
Qed.
Next Obligation. intros w l _. apply Z.div_pos; [apply wrap32_u32|lia]. Qed.

(** ** Exchanges over this network *)

(** The intentional loss: the counter, and whether a request is dropped. *)
Definition counted (dr : bool) (c : Z) : Z := if dr then wrap32 (c + 1) else c.
Definition dropped (dr : bool) (c : Z) : bool := dr && (Z.land c 0xff =? 0).

(** One of the next [n] transmissions is answered. *)
Fixpoint answered (n t : nat) (dr : bool) (c : Z) : bool :=
  match n with
  | O => false
  | S n =>
      match net t with
      | LoseRequest => answered n (S t) dr c
      | Late => false
      | f =>
          let c := counted dr c in
          if dropped dr c then answered n (S t) dr c
          else match f with Prompt => true | _ => answered n (S t) dr c end
      end
  end.

Abbreviation Axis := (JtagDriverAxisToJtag Link).

(** The link is [l], but for what the driver noted about its socket. *)
Definition link_is (l : Link) (a : Axis) : Prop :=
  l_peer (tp a) = l_peer l ∧ l_queue (tp a) = l_queue l ∧ l_clock (tp a) = l_clock l ∧
  mtu_ (l_udp (tp a)) = mtu_ (l_udp l).

Lemma call_link txBytes size (s : @Rel Link) ev l : rel_pre txBytes size s →
  transmit (take (Z.to_nat txBytes) (txBuf_ (fst s))) (tp (fst s)) = (ev, l) →
  match ev with
  | Silence => ∃ s', call_xfer txBytes size s = (Throw TimeoutErr, s') ∧ rel_step size s s' ∧ link_is l (fst s')
  | Revents 1 (Some r) => bytes r → zlen r = 4 + size →
      ∃ s', call_xfer txBytes size s = (Ret size, s') ∧ rel_step size s s' ∧ link_is l (fst s') ∧
        getHdr (hdBuf_ (fst s')) = Ret (le_val (take 4 r)) ∧ take (Z.to_nat size) (snd s') = drop 4 r
  | _ => True
  end.
Proof.
  intros Hs Et. pose proof (call_xfer_ok txBytes size s Hs) as Hok. unfold total in Hok.
  destruct s as [a rx]. destruct Hs as (A & (Ht & Hb & _) & Hl & Hr). cbn [fst snd] in *.
  pose proof (ok_word _ A) as Hw. cbn in Hw. destruct (ok_hdBuf _ A) as [Bh Lh]. rewrite Hw in Ht.
  unfold call_xfer, zoom in *. cbn [fst snd xfer link_transport] in *. unfold link_xfer in *. cbn [io_tp io_jd io_hd io_rx] in *.
  rewrite Et in *. change (getWordSize a) with (wordSize_ a) in *. rewrite Hw in *.
  set (d := mkUdp _ _ [ev] _) in *.
  pose proof (udp_xfer_run (txBuf_ a) txBytes 4 size (mkIo (jd a) d (hdBuf_ a) rx) ev [] ltac:(lia) ltac:(lia)
    (conj Lh (conj Bh (conj Hl Hr))) eq_refl) as Hx. cbv zeta in Hx. cbn [io_jd io_tp io_hd io_rx] in Hx.
  destruct ev as [b| | |r dg]; try done.
  - rewrite Hx in *. eexists. split; [reflexivity|]. by split; [apply Hok|].
  - destruct r as [|[r|r|]|r]; try done. destruct dg as [r|]; [|done]. intros Br Lr.
    destruct (Hx Br ltac:(lia)) as (s2 & E & Ej & Etp & (B1 & _) & Hh & _ & Hk). rewrite E in *.
    replace (size `min` (zlen r - 4)) with size in * by lia.
    eexists. split; [reflexivity|]. split; [apply Hok|]. cbn [fst snd hdBuf_ io_hd io_rx]. split; [unfold link_is; cbn; by rewrite Etp|].
    rewrite (getHdr_LE HLE) by (rewrite B1; lia). rewrite Hh. split; [done|]. rewrite Hk. apply take_ge. len.
Qed.

Lemma arrived_count dg u : drEn_ (u_jd (arrived dg u)) = drEn_ (u_jd u) ∧
  drop_ (u_jd (arrived dg u)) = counted (drEn_ (u_jd u)) (drop_ (u_jd u)) ∧
  drops (arrived dg u) = dropped (drEn_ (u_jd u)) (counted (drEn_ (u_jd u)) (drop_ (u_jd u))).
Proof. unfold arrived, drops, counted, dropped. by destruct (drEn_ (u_jd u)) eqn:E; cbn; rewrite ?E. Qed.

(** One exchange with retries: the peer is in [P], answers the request with
    [r] whenever it looks at it, and is then in [Q]. *)
Section exchange.
Context (P Q : UdpLoopBack → Prop) (dg r : list Z) (xid txBytes size : Z).
Context (Hr : bytes r) (Hrl : zlen r = 4 + size) (He : getErr (le_val (take 4 r)) = 0)
  (Hx : xid = XID_ANY ∨ getXid (le_val (take 4 r)) = xid) (Hlim : zlen dg ≤ limit)
  (Hpk : ∀ u, P u → peer_ok u) (HQP : ∀ u, Q u → P u) (Hd : 4 ≤ zlen dg ≤ 1500)
  (Hskip : ∀ u, P u → P (arrived dg u))
  (Hserve : ∀ u, P u → drops (arrived dg u) = false →
    ∃ u', answer_of dg (arrived dg u) = (Ret (Some r), u') ∧ Q u' ∧ u_jd u' = u_jd (arrived dg u)).

Definition meets (n : nat) (R : UdpLoopBack → Prop) (a : Axis) : Prop :=
  l_queue (tp a) = [] ∧ ∃ u, l_peer (tp a) = Some u ∧ R u ∧
    answered n (l_clock (tp a)) (drEn_ (u_jd u)) (drop_ (u_jd u)) = true.

(** One transmission: there is an answer, or the wait goes on. *)
Lemma transmit_link n a : meets (S n) P a →
  let (ev, l) := transmit dg (tp a) in
  mtu_ (l_udp l) = mtu_ (l_udp (tp a)) ∧ l_queue l = [] ∧ ∃ u', l_peer l = Some u' ∧
  (ev = Revents 1 (Some r) ∧ Q u' ∨
   ev = Silence ∧ P u' ∧ answered n (l_clock l) (drEn_ (u_jd u')) (drop_ (u_jd u')) = true).
Proof.
  intros (Hq & u & Hu & HP & Ha). unfold transmit. rewrite (proj2 (Z.ltb_ge _ _)), Hq, Hu by lia. cbn [answered] in Ha.
  destruct (arrived_count dg u) as (E1 & E2 & E3).
  assert (Hs : peer_serve (Some dg) true u = if drops (arrived dg u) then (Ret None, arrived dg u) else answer_of dg (arrived dg u))
    by (apply serve_arrived; auto).
  unfold heard. destruct (net (l_clock (tp a))) eqn:Ef; cbn [l_udp l_queue l_peer l_clock app]; [|..|done].
  - split; [done|]. split; [done|]. exists u. split; [done|]. right. auto.
  - rewrite Hs, E3 in *. destruct (dropped _ _) eqn:Ed.
    + split; [done|]. split; [done|]. exists (arrived dg u). split; [done|]. right. rewrite E1, E2. auto.
    + destruct (Hserve u HP) as (u' & -> & HQ & Ej); [by rewrite E3|].
      split; [done|]. split; [done|]. exists u'. split; [done|]. right. rewrite Ej, E1, E2. auto.
  - rewrite Hs, E3 in *. destruct (dropped _ _) eqn:Ed; cbn [app].
    + split; [done|]. split; [done|]. exists (arrived dg u). split; [done|]. right. cbn. rewrite E1, E2. auto.
    + destruct (Hserve u HP) as (u' & -> & HQ & Ej); [by rewrite E3|].
      split; [done|]. split; [done|]. exists u'. split; [done|]. by left.
Qed.

Lemma attempts_link n : ∀ (s : @Rel Link), rel_pre txBytes size s → take (Z.to_nat txBytes) (txBuf_ (fst s)) = dg →
  meets n P (fst s) →
  ∃ s' u', attempts n xid txBytes size s = (Ret (size, le_val (take 4 r)), s') ∧ rel_step size s s' ∧
    l_queue (tp (fst s')) = [] ∧ l_peer (tp (fst s')) = Some u' ∧ Q u' ∧
    mtu_ (l_udp (tp (fst s'))) = mtu_ (l_udp (tp (fst s))) ∧ take (Z.to_nat size) (snd s') = drop 4 r.
Proof.
  induction n as [|n IH]; intros s Hs Hdg Hm; [by destruct Hm as (_ & u & _ & _ & [=])|].
  pose proof (transmit_link n (fst s) Hm) as Ht. pose proof (call_link txBytes size s) as Hc. rewrite Hdg in Hc.
  destruct (transmit dg (tp (fst s))) as [ev l]. specialize (Hc ev l Hs eq_refl).
  destruct Ht as (Em & Eq & u' & Eu & [[-> HQ]|(-> & HP & Ha)]).
  - destruct (Hc Hr Hrl) as (s1 & E & Rs & (L1 & L2 & L3 & L4) & Eh & Ek). exists s1, u'.
    rewrite L1, L2, L4. split; [|done]. cbn [attempts]. unfold mbind at 1, M_bind at 1, catch_timeout, attempt.
    unfold mbind, M_bind. rewrite E. cbn [gets id lift]. rewrite Eh, He. cbn [negb].
    assert (Exid : (xid =? XID_ANY) || (xid =? getXid (le_val (take 4 r))) = true)
      by (destruct Hx as [->| ->]; [done|rewrite Z.eqb_refl; apply orb_true_r]).
    by rewrite Exid.
  - destruct Hc as (s1 & E & Rs & (L1 & L2 & L3 & L4)).
    destruct (IH s1) as (s2 & u2 & E2 & Rs2 & Q2 & U2 & HQ2 & M2 & K2).
    { by eapply rel_pre_step. }
    { destruct Rs as ((_ & _ & -> & _) & _). done. }
    { split; [by rewrite L2|]. exists u'. by rewrite L1, L3. }
    exists s2, u2. rewrite M2, L4. split; [|split; [by eapply rel_step_trans|done]].
    cbn [attempts]. unfold mbind at 1, M_bind at 1, catch_timeout, attempt. unfold mbind at 1, M_bind at 1.
    rewrite E. exact E2.
Qed.
End exchange.

(** ** The driver and the peer as a target *)

Section target.
Context {St : Type} `{Target St} (plays : St → JtagDriverLoopBack → Prop) (HP : player plays).
Context (Hqq : ∀ st, queried (queried st) = queried st) (M : Z) (Hlow : 1444 ≤ limit).
Context (Hfair : ∀ t dr c, answered 6 t dr c = true).

(** The driver is connected: the peer is in a state in [R], no datagram is
    under way. *)
Definition connected (R : UdpLoopBack → Prop) (a : Axis) : Prop :=
  retry_ a = 5 ∧ mtu_ (l_udp (tp a)) = M ∧ l_queue (tp a) = [] ∧ ∃ u, l_peer (tp a) = Some u ∧ R u.

Definition linked0 (st : St) (a : Axis) : Prop := connected (λ u, peer_ok u ∧ plays st (u_lb u)) a.
(** After a query, the next transaction ID is not that of the reply the peer
    holds. *)
Definition linked (st : St) (a : Axis) : Prop :=
  connected (λ u, peer_ok u ∧ plays st (u_lb u) ∧
    (getXid (le_val (take 4 (tbuf_ u))) = XID_ANY ∨ getXid (le_val (take 4 (tbuf_ u))) = xid_ a)) a.

Lemma connected_meets R a : connected R a → meets 6 R a.
Proof. intros (_ & _ & Hq & u & Hu & HR). split; [done|]. by exists u. Qed.

Lemma connected_mono (R R' : UdpLoopBack → Prop) a : (∀ u, R u → R' u) → connected R a → connected R' a.
Proof. intros Hm (? & ? & ? & u & ? & ?). split_and!; try done. exists u. auto. Qed.

(** *** The query *)

(** Six transmissions of the query: whatever was lost, the peer has answered
    it, and one of the answers has come back. *)
Lemma query_exchange st (a : Axis) dg : axis_ok a → linked0 st a →
  dg = take (Z.to_nat 4) (txBuf_ a) → header_at 4 mkQuery (txBuf_ a) →
  ∃ a' rx u', attempts 6 XID_ANY 4 0 (a, []) = (Ret (0, peer_word), (a', rx)) ∧ rel_step 0 (a, []) (a', rx) ∧
    l_queue (tp a') = [] ∧ l_peer (tp a') = Some u' ∧ mtu_ (l_udp (tp a')) = M ∧
    peer_ok u' ∧ plays (queried st) (u_lb u') ∧ getXid (le_val (take 4 (tbuf_ u'))) = XID_ANY.
Proof.
  intros A Hc Ed Hh. pose proof (header_at_val 4 mkQuery _ ltac:(done) Hh) as Hm. pose proof Hc as (_ & HM & _). pose proof (ok_word _ A) as Hw. cbn in Hw.
  destruct (ok_txBuf _ A) as [Btx Htl]. pose proof (ok_bufSz _ A) as Hbz.
  assert (Ldg : zlen dg = 4) by (subst dg; rewrite length_take; lia).
  assert (Edg : le_val (take 4 dg) = mkQuery) by (subst dg; rewrite take_take; exact Hm).
  assert (Bdg : bytes dg) by (subst dg; auto with xvc).
  set (P := λ u, peer_ok u ∧ (plays st (u_lb u) ∨ plays (queried st) (u_lb u))).
  set (Q := λ u, peer_ok u ∧ plays (queried st) (u_lb u) ∧ getXid (le_val (take 4 (tbuf_ u))) = XID_ANY).
  assert (Hpw : le_val (take 4 (store32 peer_word ++ [])) = peer_word)
    by (rewrite app_nil_r, take_ge, (le_val_store32 HLE) by (rewrite ?store32_length; done); done).
  destruct (attempts_link P Q dg (store32 peer_word ++ []) XID_ANY 4 0) with (n := 6%nat) (s := (a, [] : list Z))
    as ([a' rx] & u' & Ea & Rs & Eq & Eu & HQ & EM & _).
  - rewrite app_nil_r. apply store32_bytes.
  - by rewrite app_nil_r, store32_length.
  - by rewrite Hpw.
  - by left.
  - lia.
  - by intros u [? _].
  - intros u (? & ? & _). split; [done|by right].
  - lia.
  - intros u [Hu Hpl]. split; [by apply arrived_ok; [..|lia|]|]. by destruct (arrived_same dg u) as (-> & _).
  - intros u [Hu Hpl] _. destruct (arrived_same dg u) as (El & _ & _ & Er & _). rewrite <-El in Hpl.
    pose proof (arrived_ok dg u Hu ltac:(lia) Bdg) as Hu1.
    assert (Hq : ∃ st0, plays st0 (u_lb (arrived dg u)) ∧ queried st0 = queried st)
      by (destruct Hpl; [by exists st|by exists (queried st)]). destruct Hq as (st0 & Hpl0 & Eq0).
    destruct (answer_query plays HP HLE st0 _ dg _ Hu1 Er ltac:(lia) Edg Hpl0) as (u' & E & Hu' & Hp' & Ex & Ej).
    exists u'. rewrite Eq0 in Hp'. done.
  - split; [done|]. split; [|split; [done|constructor]]. cbn [fst]. rewrite Hw. apply mkQuery_message; [lia|auto|done].
  - done.
  - apply (connected_meets P a). apply (connected_mono _ P) in Hc; [exact Hc|]. intros u [? ?]. split; auto.
  - rewrite Hpw in Ea. cbn [fst snd] in *. exists a', rx, u'. rewrite <-HM. done.
Qed.

Lemma link_query st a : axis_ok a → linked0 st a →
  ∃ a', query a = (Ret 720, a') ∧ periodNs_ a' = UNKNOWN_PERIOD ∧ linked (queried st) a'.
Proof.
  intros A Hc. pose proof Hc as (Hre & _). pose proof (ok_word _ A) as Hw. cbn in Hw.
  destruct (ok_txBuf _ A) as [_ Htl]. pose proof (ok_bufSz _ A) as Hbz.
  destruct (query_by a A) as (b & A1 & _ & Hh & _ & L & ->). rewrite Hw in *. set (a1 := set_txBuf b a) in *.
  destruct (query_exchange st a1 _ A1 Hc eq_refl Hh) as (a2 & rx & u' & Ea & Rs & Eq & Eu & EM & Hu & Hp & Hx).
  assert (Exf : xferRel 4 0 (a1, []) = (Ret (0, peer_word), (a2, rx))).
  { unfold xferRel, mbind, M_bind. cbn [gets id lift fst]. rewrite (getHdr_LE HLE) by (change (txBuf_ a1) with b; lia).
    change (txBuf_ a1) with b. rewrite (header_at_val 4 mkQuery b) by done. change (retry_ a1) with (retry_ a). rewrite Hre.
    by change (Z.to_nat (5 + 1)) with 6%nat. }
  rewrite Exf. eexists. split; [reflexivity|]. split; [reflexivity|].
  split; [reflexivity|]. split; [exact EM|]. split; [exact Eq|]. exists u'. split; [exact Eu|].
  split; [done|]. split; [done|by left].
Qed.

(** *** Vectors *)

Lemma new_xid x : is_byte x → fst (newXid x) ≠ XID_ANY ∧ fst (newXid x) ≠ x.
Proof.
  intros Hx. unfold is_byte in Hx. rewrite newXid_next by done. unfold XID_ANY. cbn [fst].
  split; Z.div_mod_to_equations; lia.
Qed.

(** The peer and the datagram of a shift: executed once. *)
Lemma arrived_shift st st' o bits tms tdi dg u : let h := le_val (take 4 dg) in
  shifted st bits tms tdi = (st', o) → shift_packet bits tms tdi dg → is_u32 h → able st bits → 4 ≤ zlen dg ≤ 1500 →
  peer_ok u → plays st (u_lb u) → getXid h ≠ getXid (le_val (take 4 (tbuf_ u))) →
  zlen o = (bits + 7) / 8 ∧ ∃ u', answer_of dg (arrived dg u) = (Ret (Some (store32 h ++ o)), u') ∧ peer_ok u' ∧
    plays st' (u_lb u') ∧ stored h o u' ∧ u_jd u' = u_jd (arrived dg u).
Proof.
  intros h Esh Hsd Hh Hab Hdl Hu Hpl Hne. destruct (arrived_same dg u) as (El & Et & _ & Er & _). pose proof Hsd as [Bd _ _ _ _ _ _ _ _].
  pose proof (answer_shift plays HP HLE st (arrived dg u) bits tms tdi dg (drop (length dg) (rbuf_ u))) as Ha. cbv zeta in Ha.
  rewrite Esh, El, Et in Ha. assert (Br : bytes (rbuf_ u)) by apply Hu.
  apply Ha; first [done | by apply arrived_ok; (done || lia) | by auto with xvc | lia].
Qed.

Lemma shift_exchange st st' o bits tms tdi dg txBytes size (s : @Rel Link) :
  let h := le_val (take 4 dg) in
  shifted st bits tms tdi = (st', o) → shift_packet bits tms tdi dg → is_u32 h → able st bits → zlen dg ≤ limit →
  rel_pre txBytes size s → take (Z.to_nat txBytes) (txBuf_ (fst s)) = dg → size = (bits + 7) / 8 → getErr h = 0 →
  connected (λ u, peer_ok u ∧ plays st (u_lb u) ∧ getXid h ≠ getXid (le_val (take 4 (tbuf_ u)))) (fst s) →
  ∃ s' u', attempts 6 (getXid h) txBytes size s = (Ret (size, h), s') ∧ rel_step size s s' ∧
    l_queue (tp (fst s')) = [] ∧ l_peer (tp (fst s')) = Some u' ∧
    (peer_ok u' ∧ plays st' (u_lb u') ∧ stored h o u') ∧
    mtu_ (l_udp (tp (fst s'))) = mtu_ (l_udp (tp (fst s))) ∧ take (Z.to_nat size) (snd s') = o.
Proof.
  intros h Esh Hsd Hh Hab Hlim Hs Hdg Hsz He Hc.
  pose proof Hsd as [Bd Hb Hl Hv Hcm Hg [Lt _] [Ld _] Hp]. fold h in Hv, Hcm, Hg.
  assert (Hdl : 4 ≤ zlen dg ≤ 1500) by (pose proof (word_ceil_bounds 4 ((bits + 7) / 8)); Z.div_mod_to_equations; lia).
  assert (Ho : zlen o = size ∧ bytes o).
  { destruct Hc as (_ & _ & _ & u & _ & Hu & Hpl & Hne).
    destruct (arrived_shift st st' o bits tms tdi dg u Esh Hsd Hh Hab Hdl Hu Hpl Hne) as (Lo & u' & _ & [_ [_ Bt] _] & _ & [_ Est] & _).
    split; [lia|]. apply (bytes_take (4 + length o)) in Bt. rewrite Est in Bt. by apply bytes_app in Bt as [_ Bt]. }
  destruct Ho as [Lo Bo].
  set (P := λ u, peer_ok u ∧ (plays st (u_lb u) ∧ getXid h ≠ getXid (le_val (take 4 (tbuf_ u))) ∨
    plays st' (u_lb u) ∧ stored h o u)).
  set (Q := λ u, peer_ok u ∧ plays st' (u_lb u) ∧ stored h o u).
  assert (Hr4 : take 4 (store32 h ++ o) = store32 h) by (apply take_app_length'; by rewrite store32_length).
  destruct (attempts_link P Q dg (store32 h ++ o) (getXid h) txBytes size) with (n := 6%nat) (s := s)
    as (s' & u' & Ea & Rs & Eq & Eu & HQ & EM & Ek).
  - apply bytes_app. split; [apply store32_bytes|done].
  - rewrite length_app, store32_length. lia.
  - by rewrite Hr4, (le_val_store32 HLE).
  - right. by rewrite Hr4, (le_val_store32 HLE).
  - done.
  - by intros u [? _].
  - intros u (? & ?). split; [done|by right].
  - lia.
  - intros u [Hu Hpl]. split; [by apply arrived_ok; (done || lia)|]. unfold stored.
    destruct (arrived_same dg u) as (-> & -> & -> & _). exact Hpl.
  - intros u [Hu Hpl] _. destruct (arrived_same dg u) as (El & Et & Ets & Er & _).
    pose proof (arrived_ok dg u Hu ltac:(lia) Bd) as Hu1.
    destruct Hpl as [[Hpl Hne]|[Hpl Hst]].
    + destruct (arrived_shift st st' o bits tms tdi dg u Esh Hsd Hh Hab Hdl Hu Hpl Hne) as (_ & u' & E & Hu' & Hp' & Hs' & Ej).
      by exists u'.
    + exists (arrived dg u). split; [|split; [|done]].
      * eapply (answer_again HLE _ h o dg); try done; [lia|unfold stored; by rewrite Et, Ets|].
        pose proof (word_ceil_bounds 4 ((bits + 7) / 8)). lia.
      * split; [done|]. unfold stored. by rewrite El, Et, Ets.
  - done.
  - done.
  - apply (connected_meets P). apply (connected_mono _ P) in Hc; [exact Hc|]. intros u (? & ? & ?). split; auto.
  - exists s', u'. rewrite Hr4, (le_val_store32 HLE) in Ea by done. split; [done|]. split; [done|]. split; [done|].
    split; [done|]. split; [exact HQ|]. split; [done|]. rewrite Ek. apply drop_app_length'. by rewrite store32_length.
Qed.

Lemma link_send st a bits tms tdi tdo : let n := (bits + 7) / 8 in
  let (st', o) := shifted st bits tms tdi in
  axis_ok a → linked st a → able st bits → n ≤ 720 → getSniff (jd a) = false → 1 ≤ bits ≤ 2 ^ 20 →
  bytes tms → bytes tdi → bytes tdo → zlen tms = n → zlen tdi = n → n ≤ zlen tdo → 4 + 2 * word_ceil 4 n ≤ bufSz_ a →
  ∃ tdo' a', sendVectors bits tms tdi tdo a = (Ret tdo', a') ∧ linked st' a' ∧ take (Z.to_nat n) tdo' = o.
Proof.
  intros n. destruct (shifted st bits tms tdi) as [st' o] eqn:Esh.
  intros A Hc Hab Hnm Hs Hb Bt Bd Bo Lt Ld Lo Hf. pose proof Hc as (Hre & HM & _). pose proof (ok_word _ A) as Hw. cbn in Hw.
  destruct (send_layout bits tms tdi tdo a A Hb) as (msg & E & L & H1 & Hp & B); [fold n; lia..|fold n; rewrite Hw; lia|].
  specialize (B Bt Bd). rewrite Hw in H1, Hp. fold n in Hp.
  pose proof (ok_xid _ A) as Hxid. pose proof (newXid_range _ Hxid) as Hxr. destruct (new_xid _ Hxid) as [Hx0 Hx1].
  pose proof (mkShift_fields (xid_ a) bits Hxid Hb) as Hsf. unfold shift_header in H1.
  destruct (mkShift _ _) as [x h]. cbn [snd] in H1. destruct Hsf as (Hu & Hv & Hcm & He & Hgx & Hx & Hg).
  pose proof (header_at_val 4 h msg Hu H1) as Hm. set (a1 := set_txBuf msg (set_xid (shift_xid a) a)).
  assert (A1 : axis_ok a1) by (apply set_tx_axis_ok; try done; unfold is_byte, shift_xid; lia).
  pose proof (word_ceil_bounds 4 n ltac:(lia)) as Hwc. pose proof (ok_bufSz _ A) as Hbz.
  assert (Hn : 1 ≤ n) by (subst n; Z.div_mod_to_equations; lia).
  assert (Hwc2 : word_ceil 4 n ≤ 720) by (unfold word_ceil; Z.div_mod_to_equations; lia).
  assert (Hmsg : 4 + 2 * word_ceil 4 n ≤ zlen msg) by lia.
  destruct (message_packet bits tms tdi msg h B Hmsg Hb Lt Ld Bt Bd Hp Hm Hv Hcm Hg) as (Hmo & Hsd & Edg & Ldg).
  fold n in Hmo, Hsd, Edg, Ldg. set (txb := 4 + 2 * word_ceil 4 n) in *. set (dg := take (Z.to_nat txb) msg) in *.
  destruct (shift_exchange st st' o bits tms tdi dg txb n (a1, tdo)) as (s' & u' & Ea & Rs & Eq & Eu & (Hu' & Hp' & Hst) & EM & Ek);
    rewrite ?Edg, ?Hm; try done; [lia|..].
  - split; [exact A1|]. split; [|split; [cbn [snd]; lia|done]]. cbn [fst]. change (wordSize_ a1) with (wordSize_ a). by rewrite Hw.
  - apply (connected_mono _ _ a1) with (2 := Hc). intros u (Hu1 & Hpu & Hxu). split; [done|]. split; [done|].
    rewrite Hgx, Hx. destruct Hxu as [->| ->]; [done|exact Hx1].
  - rewrite Edg, Hm in Ea. destruct s' as [a2 rx]. cbn [fst snd] in *.
    destruct Rs as ((R1 & R2 & R3 & R4 & R5 & R6 & R7 & R8) & A2 & _ & _). cbn [fst] in *.
    exists rx, a2. split; [|split; [|exact Ek]].
    + rewrite E. fold a1. unfold transfer, mbind, M_bind. cbn [gets]. change (getWordSize a1) with (wordSize_ a).
      rewrite Hw. fold n. fold txb. unfold with_rx, xferRel, mbind, M_bind. cbn [gets id lift fst].
      change (txBuf_ a1) with msg. rewrite (getHdr_LE HLE), Hm by lia. change (retry_ a1) with (retry_ a). rewrite Hre.
      change (Z.to_nat (5 + 1)) with 6%nat. rewrite Ea. cbn [snd].
      assert (getSniff (jd a2) = false) as ->; [|done]. unfold getSniff in *. by rewrite R8.
    + split; [by rewrite R5|]. split; [rewrite EM; exact HM|]. split; [exact Eq|]. exists u'. split; [exact Eu|].
      split; [done|]. split; [done|]. right. rewrite (stored_header _ _ _ Hst), Edg, Hm, (le_val_store32 HLE) by done.
      rewrite R6, Hgx, Hx. done.
Qed.

Lemma link_shifter : shifter linked0 linked 720 (wrap32 (M - 4) / 2) 720.
Proof.
  split; [by intros st a A _; apply (ok_word _ A)| | |intros st a; rewrite (play_tck plays HP); apply link_query|apply link_send].
  - intros st a. apply connected_mono. by intros u (? & ? & _).
  - intros st a (_ & <- & _). done.
Qed.
End target.

(** ** Networks that are good enough

    The peer drops one request of 256 on purpose, so that two of any six
    transmissions must come through. *)

Fixpoint prompts (n t : nat) : nat :=
  match n with
  | O => 0
  | S n => (if net t is Prompt then 1 else 0) + prompts n (S t)
  end.

Lemma land_255 c : Z.land c 0xff = c `mod` 256.
Proof. change 0xff with (Z.ones 8). by rewrite Z.land_ones. Qed.

Lemma counted_mod c : wrap32 (c + 1) `mod` 256 = (c + 1) `mod` 256.
Proof. unfold wrap32. Z.div_mod_to_equations. lia. Qed.

(** Right after a drop, or with many requests to go until the next. *)
Lemma answered_undropped n : ∀ t dr c, (1 ≤ prompts n t)%nat → c `mod` 256 + Z.of_nat n < 256 → answered n t dr c = true.
Proof.
  induction n as [|n IH]; intros t dr c Hp Hc; cbn [prompts answered] in *; [lia|].
  pose proof (Z.mod_pos_bound c 256 ltac:(lia)) as Hb. pose proof (Hnet t) as Ht.
  assert (Hd : dropped dr (counted dr c) = false ∧ (counted dr c) `mod` 256 + Z.of_nat n < 256).
  { unfold dropped, counted. destruct dr; cbn [andb]; [|split; [done|lia]]. rewrite land_255, counted_mod.
    assert (E : (c + 1) `mod` 256 = c `mod` 256 + 1) by (Z.div_mod_to_equations; lia). rewrite E.
    split; [apply Z.eqb_neq|]; lia. }
  destruct Hd as [Hd Hc']. destruct (net t); [apply IH; lia|..|done]; rewrite Hd; [by apply IH|done].
Qed.

Lemma answered_two n : ∀ t dr c, (n ≤ 255)%nat → (2 ≤ prompts n t)%nat → answered n t dr c = true.
Proof.
  induction n as [|n IH]; intros t dr c Hn Hp; cbn [prompts answered] in *; [lia|]. pose proof (Hnet t) as Ht.
  assert (Hd : dropped dr (counted dr c) = true → (counted dr c) `mod` 256 = 0).
  { unfold dropped. rewrite land_255. destruct dr; cbn [andb]; [apply Z.eqb_eq|done]. }
  destruct (net t); [apply IH; lia|..|done]; (destruct (dropped _ _); [rewrite answered_undropped; [done|lia|]; rewrite Hd by done; lia|]).
  - apply IH; lia.
  - done.
Qed.

(** ** The server *)

Section server.
Context {St : Type} `{Target St} (plays : St → JtagDriverLoopBack → Prop) (HP : player plays).
Context (Hqq : ∀ st, queried (queried st) = queried st) (M : Z) (Hlow : 1444 ≤ limit).
Context (Htwo : ∀ t, (2 ≤ prompts 6 t)%nat).

#[local] Definition player_link_shifter :=
  link_shifter plays HP Hqq M Hlow (λ t dr c, answered_two 6 t dr c ltac:(lia) (Htwo t)).

Lemma supported_720 maxVecLen Max : supported maxVecLen 720 Max ≤ 720.
Proof. unfold supported. change (0 =? 720) with false. cbv iota. destruct (Max =? 0); lia. Qed.

Lemma link_served clients st (s : XvcServer Axis) : shifts (linked0 plays M) st (srv_drv s) →
  1 ≤ maxMsgSize_ s ≤ 2 ^ 17 → (grain (St := St) | supported (maxMsgSize_ s) 720 (wrap32 (M - 4) / 2)) →
  once_ s = false → all_takes (maxMsgSize_ s) st clients → Forall (asks (maxMsgSize_ s)) clients →
  let (st', os) := all_replies (maxMsgSize_ s) st clients in
  ∃ s', XvcServer_run (Some ∘ fst <$> clients) s = (Waiting, s') ∧ shifts (linked0 plays M) st' (srv_drv s') ∧
    out <$> closed s' = (out <$> closed s) ++ os.
Proof.
  intros Hd Hm Hg Hon Hab Hc. pose proof (supported_720 (maxMsgSize_ s) (wrap32 (M - 4) / 2)) as Hs.
  apply (clients_served (HD := shifter_drives _ _ _ _ _ player_link_shifter)); try done. intros st0 d Hd0. split.
  - apply (shifter_roomy _ _ _ _ _ player_link_shifter st0 d _ 1020 Hd0); [right; lia|by right].
  - apply (shifter_cuts _ _ _ _ _ player_link_shifter st0 d _ Hd0 Hg). lia.
Qed.
End server.
End safe.
End link.

(** ** Instances *)

Module OverUdp.
#[local] Existing Instance le_platform.

(** Of three transmissions the first request and the second reply are
    lost. *)
Fixpoint lossy (t : nat) : fate :=
  match t with O => LoseRequest | 1%nat => LoseReply | 2%nat => Prompt | S (S (S t)) => lossy t end.
Lemma lossy_in_time : ∀ t, lossy t ≠ Late.
Proof. fix IH 1. intros [|[|[|t]]]; [discriminate..|]. exact (IH t). Qed.
Lemma lossy_enough : ∀ t, (2 ≤ prompts lossy 6 t)%nat.
Proof. fix IH 1. intros [|[|[|t]]]; [clear; cbn; lia..|]. exact (IH t). Qed.

(** The reply to the first transmission of a shift of 17 bits is late.  The
    driver repeats the message and reads the late reply, which is as good;
    the second reply stays in the socket.  The query of the next client
    reads it, finds words of one byte, and the server dies. *)
Definition late (t : nat) : fate := match t with 1%nat => Late | _ => Prompt end.
Definition shift17 : list request := [Shift 17 [1; 2; 1] [4; 5; 1]].
Definition polite (rs : list request) : net := mkNet (concat (encode <$> rs)) [] [] [] 0 true.
Definition echo_server : XvcServer (JtagDriverAxisToJtag Link) :=
  mkServer 2542 (JtagDriverAxisToJtag_new 0 1
    (mkLink (mkUdp 500 1450 [] []) (Some (UdpLoopBack_new (mkLoopBack FNull true false 1))) [] 0)) 0 1000 false [].

Lemma late_reply_ends_server :
  let (r, s') := @XvcServer_run _ _ (@axis_ifc _ _ (link_transport late 1472))
    [Some (polite shift17); Some (polite shift17)] echo_server in
  r = Died (ProtoErr "Received invalid word size") ∧ out <$> closed s' = [[4; 5; 1]; []].
Proof. vm_compute. done. Qed.
End OverUdp.
