(* ===== verification/Sniffer.v ===== *)
(** * The sniffer changes nothing

    With [-s] the driver runs the sniffer of Tap.v over every vector it has
    shifted.  A transport looks neither at the verbosity nor at the sniffer
    ([BlindTransport]; it holds for every transport of the program), so that
    the driver, the connection and the server do for the clients exactly
    what they do without the sniffer, unless its register arithmetic is
    undefined. *)

From stdpp Require Import base numbers option list strings.
From Stdlib Require Import ZArith Lia Ascii.
From S2P Require Import Prelude Header Tap Driver LoopBack Foo Udp Mmio DbgBridge Stream Fifo Tmem Conn Stack Server Simulation ServerSpec.
#[local] Open Scope Z_scope.

(** Two base classes that differ in what a transport does not look at: the
    debug level and the sniffer.  [Q] relates these. *)
Record deaf (Q : JtagDriver → JtagDriver → Prop) : Prop := {
  deaf_drop j1 j2 : Q j1 j2 → drop_ j1 = drop_ j2 ∧ drEn_ j1 = drEn_ j2;
  deaf_count j1 j2 n : Q j1 j2 → Q (set_drop n j1) (set_drop n j2);
}.

Definition same_io {T} (Q : JtagDriver → JtagDriver → Prop) (s1 s2 : io T) : Prop :=
  Q (io_jd s1) (io_jd s2) ∧ s2 = mkIo (io_jd s2) (io_tp s1) (io_hd s1) (io_rx s1).

Class BlindTransport (T : Type) `{Transport T} := xfer_blind : ∀ Q excused, deaf Q → ∀ txb txBytes hsize size,
  agree (same_io Q) excused (xfer txb txBytes hsize size) (xfer txb txBytes hsize size).

(** ** The transports are blind *)

Section blind.
Context {T : Type} (Q : JtagDriver → JtagDriver → Prop) (excused : fault → Prop).
Abbreviation quiet m := (agree (@same_io T Q) excused m m).

Lemma same_io_cases (s1 s2 : io T) : same_io Q s1 s2 → ∃ j1 j2 t h r, Q j1 j2 ∧
  s1 = mkIo j1 t h r ∧ s2 = mkIo j2 t h r.
Proof. destruct s1. intros [Hj ->]. by do 5 eexists. Qed.
Ltac cases H := destruct (same_io_cases _ _ H) as (? & ? & ? & ? & ? & ? & -> & ->).

Lemma blind_get {A} (k : io T → M (io T) A) :
  (∀ j1 j2 t h r, Q j1 j2 → agree (same_io Q) excused (k (mkIo j1 t h r)) (k (mkIo j2 t h r))) →
  quiet (gets id ≫= k).
Proof. intros Hk. apply agree_get. intros s1 s2 Hs. cases Hs. by apply Hk. Qed.

Lemma blind_gets {A} (f : io T → A) : (∀ j1 j2 t h r, Q j1 j2 → f (mkIo j1 t h r) = f (mkIo j2 t h r)) →
  quiet (gets f).
Proof. intros Hf. apply agree_gets. intros s1 s2 Hs. cases Hs. by apply Hf. Qed.

Lemma blind_modify (f : io T → io T) :
  (∀ j1 j2 t h r, Q j1 j2 → same_io Q (f (mkIo j1 t h r)) (f (mkIo j2 t h r))) → quiet (modify f).
Proof. intros Hf. apply agree_modify. intros s1 s2 Hs. cases Hs. by apply Hf. Qed.

Lemma blind_tp {A} (m : M T A) : quiet (zoom io_tp (λ t s, mkIo (io_jd s) t (io_hd s) (io_rx s)) m).
Proof.
  apply (agree_zoom _ eq); [apply agree_same| |]; [intros ? ? Hs; by cases Hs|].
  intros ? ? ? ? Hs ->. by cases Hs.
Qed.

(** Any other action on the state of the transport. *)
Lemma blind_step {A} (m : M (io T) A) :
  (∀ t, ∃ o t', ∀ j h r, m (mkIo j t h r) = (o, mkIo j t' h r)) → quiet m.
Proof. intros Hm s1 s2 Hs. cases Hs. destruct (Hm x1) as (o & t' & E). rewrite !E. by left. Qed.
End blind.

Create HintDb blind discriminated.
#[export] Hint Resolve blind_tp : blind.

Ltac blind_side := intros; cbn; first [reflexivity | by split].
Ltac blind := repeat first
  [ agree_step | solve [auto with blind]
  | apply blind_get; intros; cbn
  | apply blind_gets; blind_side
  | apply blind_modify; blind_side
  | apply agree_bind; [|intros ?]
  | match goal with |- agree _ _ (match ?x with _ => _ end) _ => destruct x end ].

Section transports.
Context `{Platform} (Q : JtagDriver → JtagDriver → Prop) (HQ : deaf Q) (excused : fault → Prop).
Abbreviation quiet m := (agree (same_io Q) excused m m).

Lemma put_header_blind h : quiet (put_header h).
Proof. unfold put_header. blind. Qed.
Lemma lb_blind {A} (m : M JtagDriverLoopBack A) : quiet (lb m).
Proof. apply blind_tp. Qed.
#[local] Hint Resolve put_header_blind lb_blind : blind.

Lemma loop_word_blind txb wsz i j n : quiet (loop_word txb wsz i j n).
Proof. unfold loop_word. blind. Qed.
#[local] Hint Resolve loop_word_blind : blind.
Lemma loop_words_blind fuel : ∀ txb wsz wbytes i j, quiet (loop_words fuel txb wsz wbytes i j).
Proof. induction fuel as [|fuel IH]; intros; cbn [loop_words]; blind. Qed.
Lemma play_words_blind fuel : ∀ wsz n i, quiet (play_words fuel wsz n i).
Proof. induction fuel as [|fuel IH]; intros; cbn [play_words]; blind. Qed.
#[local] Hint Resolve loop_words_blind play_words_blind : blind.
Lemma loopback_blind dpt txb txBytes hsize size : quiet (loopback_xfer dpt txb txBytes hsize size).
Proof. unfold loopback_xfer. blind. Qed.

Lemma udp_blind txb txBytes hsize size : quiet (udp_xfer txb txBytes hsize size).
Proof.
  assert (Hs : ∀ bs, quiet (udp_send bs)) by (intros bs; apply blind_step; intros t; do 2 eexists; intros; unfold udp_send; cbn; reflexivity).
  unfold udp_xfer, readv. blind.
Qed.

(** *** The bridge *)

Section bridge.
Context {Dev : Type} `{Mmio Dev}.

Lemma bridge_rd_blind idx : quiet (DbgBridge.i32 (Dev := Dev) idx).
Proof.
  apply blind_step. intros t. unfold DbgBridge.i32. cbn.
  destruct (map_rd (DbgBridge.map_ t) idx (DbgBridge.dev t)). do 2 eexists. reflexivity.
Qed.
Lemma bridge_wr_blind idx v : quiet (DbgBridge.o32 (Dev := Dev) idx v).
Proof.
  apply blind_step. intros t. unfold DbgBridge.o32. cbn.
  destruct (map_wr (DbgBridge.map_ t) idx v (DbgBridge.dev t)). do 2 eexists. reflexivity.
Qed.
Lemma tp_upd_blind f : quiet (tp_upd (Dev := Dev) f).
Proof. unfold tp_upd. blind. Qed.
Lemma measure_start_blind : quiet (measure_start (Dev := Dev)).
Proof. apply blind_step. intros t. unfold measure_start. cbn.
  destruct (negb (_ =? 0)); do 2 eexists; reflexivity. Qed.
#[local] Hint Resolve bridge_rd_blind bridge_wr_blind tp_upd_blind measure_start_blind : blind.

Lemma bridge_poll_blind fuel : quiet (poll (Dev := Dev) fuel).
Proof. induction fuel as [|fuel IH]; cbn [poll]; unfold DbgBridge.wait; blind. Qed.
Lemma bridge_put_blind off w l : quiet (DbgBridge.put_rx (Dev := Dev) off w l).
Proof. unfold DbgBridge.put_rx. blind. Qed.
Lemma set_hdr_blind wsz h : quiet (set_hdr (Dev := Dev) wsz h).
Proof. unfold set_hdr. blind. Qed.
#[local] Hint Resolve bridge_poll_blind bridge_put_blind set_hdr_blind : blind.
Lemma shift_words_blind polls fuel : ∀ txb nbits pi po l lb, quiet (shift_words (Dev := Dev) polls fuel txb nbits pi po l lb).
Proof. induction fuel as [|fuel IH]; intros; cbn [shift_words]; unfold measure_end; cbv zeta; blind. Qed.
#[local] Hint Resolve shift_words_blind : blind.
Lemma bridge_blind polls txb txBytes hsize size : quiet (bridge_xfer (Dev := Dev) polls txb txBytes hsize size).
Proof. unfold bridge_xfer. cbv zeta. blind. Qed.
End bridge.

(** *** The word FIFOs *)

Section stream.
Context {T : Type} (push : Z → M T unit) (pull : M T Z).
Lemma on_tp_blind {A} (m : M T A) : quiet (on_tp m).
Proof. apply blind_tp. Qed.
Lemma put_hd_blind f : quiet (put_hd (T := T) f).
Proof. unfold put_hd. blind. Qed.
Lemma put_rx_blind f : quiet (Stream.put_rx (T := T) f).
Proof. unfold Stream.put_rx. blind. Qed.
Lemma drop_reply_blind : quiet (drop_reply (T := T)).
Proof.
  apply agree_bind; [apply blind_gets; by intros ? ? ? ? ? (_ & He)%(deaf_drop _ HQ)|]. intros []; [|blind].
  apply agree_bind.
  - apply blind_modify. intros j1 j2 t h r Hj. cbn. split; [|done]. cbn.
    destruct (deaf_drop _ HQ _ _ Hj) as [-> _]. by apply deaf_count.
  - intros []. apply agree_bind; [|intros n; blind]. apply blind_gets. by intros ? ? ? ? ? (Hd & _)%(deaf_drop _ HQ).
Qed.
#[local] Hint Resolve on_tp_blind put_hd_blind put_rx_blind drop_reply_blind : blind.

Lemma push_words_blind fuel : ∀ txb n i, quiet (push_words push fuel txb n i).
Proof. induction fuel as [|fuel IH]; intros; cbn [push_words]; blind. Qed.
Lemma pull_header_blind fuel : ∀ hsize got i, quiet (pull_header pull fuel hsize got i).
Proof. induction fuel as [|fuel IH]; intros; cbn [pull_header]; blind. Qed.
Lemma pull_words_blind fuel : ∀ lim i, quiet (pull_words pull fuel lim i).
Proof. induction fuel as [|fuel IH]; intros; cbn [pull_words]; blind. Qed.
Lemma discard_blind fuel : ∀ got i, quiet (discard pull fuel got i).
Proof. induction fuel as [|fuel IH]; intros; cbn [discard]; blind. Qed.
#[local] Hint Resolve pull_header_blind pull_words_blind discard_blind : blind.
Lemma receive_blind hsize size got : quiet (receive pull hsize size got).
Proof. unfold receive, pull_payload. cbv zeta. blind. Qed.
End stream.
#[local] Hint Resolve on_tp_blind put_hd_blind put_rx_blind push_words_blind receive_blind : blind.

Section fifo.
Context {Dev : Type} `{Mmio Dev}.
Lemma await_blind fuel : quiet (await (Dev := Dev) fuel).
Proof. induction fuel as [|fuel IH]; cbn [await]; blind. Qed.
#[local] Hint Resolve await_blind : blind.
Lemma fifo_blind polls txb txBytes hsize size : quiet (fifo_xfer (Dev := Dev) polls txb txBytes hsize size).
Proof. unfold fifo_xfer, exchange. cbv zeta. blind. Qed.
End fifo.

Section tmem.
Context {Dev : Type} `{Tosca Dev}.
Lemma tmem_await_blind fuel : quiet (tmem_await (Dev := Dev) fuel).
Proof. induction fuel as [|fuel IH]; cbn [tmem_await]; blind. Qed.
Lemma tmem_shift_blind polls fuel : ∀ txb nbits pi po l lb, quiet (Tmem.shift_loop (Dev := Dev) polls fuel txb nbits pi po l lb).
Proof. induction fuel as [|fuel IH]; intros; cbn [Tmem.shift_loop]; cbv zeta; blind. Qed.
#[local] Hint Resolve tmem_await_blind tmem_shift_blind : blind.
Lemma tmem_blind polls txb txBytes hsize size : quiet (tmem_xfer (Dev := Dev) polls txb txBytes hsize size).
Proof. unfold tmem_xfer, xferFifo, tmem_exchange, push_message, xferSdes. cbv zeta. blind. Qed.
End tmem.
End transports.

#[export] Instance loopback_blindness `{Platform} : BlindTransport JtagDriverLoopBack.
Proof. intros Q excused _. apply loopback_blind. Qed.
#[export] Instance udp_blindness : BlindTransport JtagDriverUdp.
Proof. intros Q excused _. apply udp_blind. Qed.
#[export] Instance foo_blindness : BlindTransport JtagDriverFoo.
Proof. intros Q excused _ txb txBytes hsize size. apply agree_ret. Qed.

(** ** The sniffer itself only fails where its arithmetic is undefined *)

(** A shift of [int] by 32 or more, or a register read beyond the vector. *)
Definition sniff_fault (u : fault) : Prop := u = BadShift ∨ u = OutOfBounds.

Definition sniffs {A} (m : Dump A) (P : A → Prop) : Prop := ∀ c,
  match m c with (Ret a, _) => P a | (Fault u, _) => sniff_fault u | _ => False end.

Lemma sniffs_bind {A B} (m : Dump A) P (k : A → Dump B) Q :
  sniffs m P → (∀ a, P a → sniffs (k a) Q) → sniffs (m ≫= k) Q.
Proof. intros Hm Hk c. specialize (Hm c). unfold mbind, M_bind. destruct (m c) as [[]]; try done. by apply Hk. Qed.

Lemma sniffs_byte k buf : sniffs (lift (byte_at k buf)) (λ _, True).
Proof.
  intros c. unfold lift, byte_at, rd. destruct (_ && _ && _); [|by right]. cbn [mbind outcome_bind].
  destruct (take _ _) as [|b [|? ?]]; [by right|done|by right].
Qed.

Lemma sniffs_advance tms tdo tdi : sniffs (advance tms tdo tdi) (λ _, True).
Proof.
  intros c. pose proof (advance_next tms tdo tdi c) as Hn.
  destruct (advance tms tdo tdi c) as [[a|e|[]|] c']; try done; [by right|by left].
Qed.

Lemma processByte_sniffs k tmsb tdob tdib until d : ∀ fuel j nbits, (d ≤ fuel)%nat → 0 ≤ j → j + Z.of_nat d ≤ 8 →
  sniffs (processByte fuel (2 ^ (j + Z.of_nat d)) (2 ^ j) nbits k tmsb tdob tdib until)
    (λ r, match r with inl rest => rest = nbits - Z.of_nat d | inr _ => True end).
Proof.
  induction d as [|d IH]; intros fuel j nbits Hf Hj Hd.
  - rewrite Z.add_0_r. intros c. destruct fuel; cbn [processByte]; rewrite Z.ltb_irrefl; cbn; lia.
  - destruct fuel as [|fuel]; [lia|]. cbn [processByte]. rewrite (proj2 (Z.ltb_lt _ _)) by (apply Z.pow_lt_mono_r; lia).
    eapply (sniffs_bind _ (λ _, True)); [done|]. intros [] _; [done|].
    do 3 (eapply sniffs_bind; [apply sniffs_byte|intros ? _]).
    eapply sniffs_bind; [apply sniffs_advance|intros [] _].
    assert (2 ^ (j + 1) ≤ 2 ^ 8) by (apply Z.pow_le_mono_r; lia).
    rewrite Z.shiftl_mul_pow2, <-Z.pow_add_r, wrap32_small by (unfold is_u32; lia).
    replace (j + Z.of_nat (S d)) with (j + 1 + Z.of_nat d) by lia. intros c.
    pose proof (IH fuel (j + 1) (nbits - 1) ltac:(lia) ltac:(lia) ltac:(lia) c) as Hc.
    destruct (processByte _ _ _ _ _ _ _ _ _ c) as [[[]|e|u|] c']; try done. lia.
Qed.

Lemma processBuf_loop_sniffs tmsb tdob tdib until fuel : ∀ k nbits, nbits ≤ 8 * Z.of_nat fuel →
  sniffs (processBuf_loop fuel k nbits tmsb tdob tdib until) (λ _, True).
Proof.
  induction fuel as [|fuel IH]; intros k nbits Hf; cbn [processBuf_loop].
  - destruct (Z.ltb_spec 0 nbits); [lia|done].
  - destruct (Z.ltb_spec 0 nbits); [|done]. set (d := Z.to_nat (Z.min nbits 8)).
    replace (Z.shiftl 1 _) with (2 ^ (0 + Z.of_nat d)); cycle 1.
    { destruct (Z.ltb_spec nbits 8); rewrite Z.shiftl_mul_pow2 by lia; rewrite Z.mul_1_l; f_equal; lia. }
    change 1 with (2 ^ 0) at 2. eapply sniffs_bind; [apply (processByte_sniffs _ _ _ _ _ d); lia|].
    intros [rest|rest] Hr; [|done]. apply IH. lia.
Qed.

Lemma processBuf_sniffs nbits tmsb tdob tdib until : sniffs (processBuf nbits tmsb tdob tdib until) (λ _, True).
Proof.
  destruct (Z.lt_ge_cases 0 nbits).
  - apply processBuf_loop_sniffs. Z.div_mod_to_equations. lia.
  - intros c. unfold processBuf. destruct (Z.to_nat _); cbn [processBuf_loop]; by rewrite (proj2 (Z.ltb_ge 0 nbits)) by lia.
Qed.

(** ** The driver *)

Section axis.
Context `{Platform} {T : Type} `{Transport T} `{!BlindTransport T}.
Abbreviation Axis := (JtagDriverAxisToJtag T).

Context (Q : JtagDriver → JtagDriver → Prop).
Definition same_axis (a1 a2 : Axis) : Prop :=
  Q (jd a1) (jd a2) ∧ a2 = mkAxis (jd a2) (wordSize_ a1) (memDepth_ a1) (txBuf_ a1) (hdBuf_ a1) (bufSz_ a1)
    (retry_ a1) (xid_ a1) (periodNs_ a1) (tp a1).
Definition same_rel (s1 s2 : @Rel T) : Prop := same_axis (fst s1) (fst s2) ∧ snd s1 = snd s2.

Lemma same_axis_cases a1 a2 : same_axis a1 a2 → ∃ j1 j2 w m t h b r x p tr, Q j1 j2 ∧
  a1 = mkAxis j1 w m t h b r x p tr ∧ a2 = mkAxis j2 w m t h b r x p tr.
Proof. destruct a1. intros [Hj ->]. by do 11 eexists. Qed.
Context (HQ : deaf Q) (excused : fault → Prop).
Ltac cases H := destruct (same_axis_cases _ _ H) as (? & ? & ? & ? & ? & ? & ? & ? & ? & ? & ? & ? & -> & ->); clear H.

Abbreviation axes := (agree same_axis excused).
Abbreviation rels := (agree same_rel excused).

Lemma axis_get {A} (k : Axis → M Axis A) : (∀ j1 j2 w m t h b r x p tr, Q j1 j2 →
    axes (k (mkAxis j1 w m t h b r x p tr)) (k (mkAxis j2 w m t h b r x p tr))) → axes (gets id ≫= k) (gets id ≫= k).
Proof. intros Hk. apply agree_get. intros a1 a2 Ha. cases Ha. by apply Hk. Qed.
Ltac fields := first
  [ apply agree_gets; intros ? ? Ha; cases Ha; reflexivity
  | apply agree_modify; intros ? ? Ha; cases Ha; split; [assumption|reflexivity] ].
#[local] Hint Extern 1 (agree same_axis _ _ _) => fields : blind.
Ltac axis := repeat first
  [ agree_step | solve [auto with blind] | apply axis_get; intros; cbn | apply agree_bind; [|intros ?]
  | match goal with |- agree _ _ (match ?x with _ => _ end) _ => destruct x end ].

Lemma call_xfer_same txBytes size : rels (call_xfer txBytes size) (call_xfer txBytes size).
Proof.
  intros [a1 rx1] [a2 rx2] [Ha Hr]. cbn in Ha, Hr. subst rx2. cases Ha.
  refine (agree_zoom same_rel (same_io Q) _ _ _ _ _ _ _ (xfer_blind _ _ HQ _ _ _ _) _ _ _ _ _); cbn.
  - intros [? ?] [? ?] [Ha Hr]. cbn in Ha, Hr. subst. cases Ha. by split.
  - intros [? ?] [? ?] i1 i2 [Ha Hr] Hi. cbn in Ha, Hr. subst. cases Ha.
    destruct (same_io_cases _ _ _ Hi) as (? & ? & ? & ? & ? & ? & -> & ->). by split; [split|].
  - by split; [split|].
Qed.

Lemma attempt_same xid txBytes size : rels (attempt xid txBytes size) (attempt xid txBytes size).
Proof.
  apply agree_bind; [apply call_xfer_same|intros got]. apply agree_get.
  intros [a1 rx1] [a2 rx2] [Ha Hr]. cbn in Ha, Hr. subst. cases Ha. cbn. axis.
Qed.

Lemma catch_timeout_same {A} (m : M (@Rel T) A) a : rels m m → rels (catch_timeout m a) (catch_timeout m a).
Proof.
  intros Hm s1 s2 Hs. specialize (Hm s1 s2 Hs). unfold alike, catch_timeout in *.
  destruct (m s1) as [o1 s1'], (m s2) as [o2 s2']. cbn [fst snd] in *.
  destruct Hm as [[-> Hs']|(u & -> & Hu)]; [|right; by exists u]. left. by destruct o2 as [|[]| |].
Qed.

Lemma attempts_same n : ∀ xid txBytes size, rels (attempts n xid txBytes size) (attempts n xid txBytes size).
Proof.
  induction n as [|n IH]; intros xid txBytes size; cbn [attempts]; [axis|].
  apply agree_bind; [apply catch_timeout_same, attempt_same|intros r]. axis.
Qed.

Lemma xferRel_same txBytes size : rels (xferRel txBytes size) (xferRel txBytes size).
Proof.
  assert (G : ∀ A (f : @Rel T → A), (∀ s1 s2, same_rel s1 s2 → f s1 = f s2) → rels (gets f) (gets f)).
  { intros A f Hf. by apply agree_gets. }
  apply agree_bind.
  - apply agree_get. intros [a1 rx1] [a2 rx2] [Ha Hr]. cbn in Ha. cases Ha. cbn. axis.
  - intros h. apply agree_bind; [|intros n; apply attempts_same]. apply G.
    intros [a1 rx1] [a2 rx2] [Ha Hr]. cbn in Ha. by cases Ha.
Qed.

Lemma with_rx_same {A} rx (m : M (@Rel T) A) : rels m m → axes (with_rx rx m) (with_rx rx m).
Proof.
  intros Hm a1 a2 Ha. specialize (Hm (a1, rx) (a2, rx) (conj Ha eq_refl)). unfold alike, with_rx in *.
  destruct (m (a1, rx)) as [o1 [a1' rx1]], (m (a2, rx)) as [o2 [a2' rx2]]. cbn [fst snd] in *.
  destruct Hm as [[-> [Ha' Hr]]|(u & -> & Hu)]; [|right; by exists u]. cbn in Ha', Hr. subst. left. by destruct o2.
Qed.

Lemma write_tx_same f : axes (write_tx f) (write_tx f).
Proof. unfold write_tx. axis. Qed.
#[local] Hint Resolve xferRel_same with_rx_same write_tx_same : blind.

Lemma query_same : axes query query.
Proof. unfold query. axis. Qed.
Lemma init_same : axes init init.
Proof. unfold init. apply agree_bind; [apply query_same|intros n]. axis. Qed.
Lemma setPeriodNs_same p : axes (setPeriodNs p) (setPeriodNs p).
Proof. unfold setPeriodNs. axis. Qed.

(** What [sendVectors] does before the sniffer. *)
Definition ship (bits : Z) (tms tdi tdo : list Z) : M Axis (list Z) :=
  wsz ← gets getWordSize;
  let bytesCeil := wrap64 (bits + 8 - 1) / 8 in
  let wholeWords := wrap32 (bytesCeil / wsz) in
  let wholeWordBytes := wrap32 (wholeWords * wsz) in
  let wordCeilBytes := wrap32 (wrap64 (wrap64 (bytesCeil + wsz - 1) / wsz * wsz)) in
  let bytesLeft := wrap32 (bytesCeil - wholeWordBytes) in
  let bytesTot := wrap32 (wsz + 2 * wordCeilBytes) in
  x ← gets xid_;
  let '(xid, hdr) := mkShift x (wrap32 bits) in
  modify (set_xid xid) ;;
  write_tx (setHdr wsz hdr) ;;
  write_tx (pack wsz wholeWordBytes bytesLeft tms tdi) ;;
  r ← with_rx tdo (xferRel bytesTot (wrap32 bytesCeil));
  mret (snd r).

Definition sniff_step (n : Z) (tms tdi tdo : list Z) : M Axis (list Z) :=
  sniff ← gets (λ a, getSniff (jd a));
  (if sniff : bool then
     zoom (λ a, snif_ (jd a)) (λ c a, set_jd (set_snif c (jd a)) a) (processBuf n tms tdi tdo None) ;; mret tt
   else mret tt) ;;
  mret tdo.

Lemma sendVectors_split bits tms tdi tdo a : sendVectors bits tms tdi tdo a =
  (tdo' ← ship bits tms tdi tdo; sniff_step (int_of bits) tms tdi tdo') a.
Proof.
  unfold sendVectors, ship, mbind, M_bind. cbn [gets]. destruct (mkShift _ _). cbn [modify].
  destruct (write_tx _ _) as [[[]|e|u|] a1]; try done. destruct (write_tx _ _) as [[[]|e|u|] a2]; try done.
  by destruct (with_rx _ _ _) as [[r|e|u|] a3].
Qed.

Lemma ship_same bits tms tdi tdo : axes (ship bits tms tdi tdo) (ship bits tms tdi tdo).
Proof.
  unfold ship. cbv zeta. do 2 (apply agree_bind; [fields|intros ?]). destruct (mkShift _ _). axis.
Qed.
End axis.

(** The second of two drivers does not sniff. *)
Definition hushed (j1 j2 : JtagDriver) : Prop :=
  drop_ j1 = drop_ j2 ∧ drEn_ j1 = drEn_ j2 ∧ getSniff j2 = false.
Lemma hushed_deaf : deaf hushed.
Proof. split; [by intros j1 j2 (? & ? & _)|by intros j1 j2 n (? & ? & ?)]. Qed.

(** Debug level and sniffer are these. *)
Definition kept (g : Z) (c : JtagDumpCtx) (j1 j2 : JtagDriver) : Prop := j1 = j2 ∧ debug_ j1 = g ∧ snif_ j1 = c.
Lemma kept_deaf g c : deaf (kept g c).
Proof. split; [by intros j1 j2 (-> & _)|by intros j1 j2 n (-> & ? & ?)]. Qed.

Section sniffer.
Context `{Platform} {T : Type} `{Transport T} `{!BlindTransport T}.
Abbreviation Axis := (JtagDriverAxisToJtag T).

(** The shift leaves the sniffer alone. *)
Lemma ship_keeps bits tms tdi tdo (a : Axis) : let a' := snd (ship bits tms tdi tdo a) in
  debug_ (jd a') = debug_ (jd a) ∧ snif_ (jd a') = snif_ (jd a).
Proof.
  destruct (ship_same (T := T) _ (kept_deaf (debug_ (jd a)) (snif_ (jd a))) (λ _, False) bits tms tdi tdo a a)
    as [(_ & (_ & Hg & Hs) & _)|(? & _ & [])]; [by destruct a|done].
Qed.

(** What the sniffer does after the shift is not seen. *)
Lemma sniff_step_same n tms tdi tdo : agree (same_axis (T := T) hushed) sniff_fault (sniff_step n tms tdi tdo) (sniff_step n tms tdi tdo).
Proof.
  intros a1 a2 Ha. destruct (same_axis_cases _ _ _ Ha) as (j1 & j2 & ? & ? & ? & ? & ? & ? & ? & ? & ? & (Hd & He & Hs) & -> & ->).
  unfold sniff_step, mbind, M_bind, gets, zoom. cbn [jd]. rewrite Hs.
  destruct (getSniff j1); [|left; split; [done|]; by split; [split|]]. cbn [mret M_ret snd].
  match goal with |- context [processBuf _ _ _ _ _ ?c] => pose proof (processBuf_sniffs n tms tdi tdo None c) as Hp;
    destruct (processBuf n tms tdi tdo None c) as [[rest|e|u|] c'] end; try done.
  - left. split; [done|]. by split.
  - right. by exists u.
Qed.

Lemma sendVectors_same bits tms tdi tdo :
  agree (same_axis (T := T) hushed) sniff_fault (sendVectors bits tms tdi tdo) (sendVectors bits tms tdi tdo).
Proof.
  intros a1 a2 Ha. rewrite !sendVectors_split. revert a1 a2 Ha.
  apply agree_bind; [apply ship_same, hushed_deaf|intros tdo'; apply sniff_step_same].
Qed.
End sniffer.

(** ** The report *)

Section report.
Context `{Platform} {T : Type} `{Transport T} `{!BlindTransport T}.
Abbreviation Axis := (JtagDriverAxisToJtag T).

Definition hex_prefix : list ascii := ["0"%char; "x"%char].

Lemma sniff_step_run n tms tdi tdo (a : Axis) : getSniff (jd a) = true →
  1 ≤ n → n ≤ 8 * zlen tms → n ≤ 8 * zlen tdi → n ≤ 8 * zlen tdo →
  sniff_step n tms tdi tdo a =
    let (o, c) := Tap.run (take (Z.to_nat n) (clocks tms tdi tdo)) (snif_ (jd a)) in
    (_ ← o; Ret tdo, set_jd (set_snif c (jd a)) a).
Proof.
  intros Hs H1 Ht Hd Ho. unfold sniff_step, mbind at 1, M_bind at 1, gets. rewrite Hs.
  unfold mbind at 1, M_bind at 1, mbind at 1, M_bind at 1, zoom. rewrite processBuf_clocks, run_until_none by lia.
  unfold mbind, M_bind. by destruct (Tap.run _ _) as [[[]|e|u|] c].
Qed.

(** C31: what the sniffer reports: when a shift is a data register scan, from
    Run-Test/Idle back to Run-Test/Idle, the driver with the sniffer prints
    one record, with the instruction register as it is, the number of data
    bits, the number the TDI bits sent make up and the number the TDO bits
    received make up, in hexadecimal; besides that it does what it does
    without the sniffer.  (The data may not have a set bit beyond the 31st of
    a word of 64, where the arithmetic of the sniffer fails.) *)
Theorem sniffer_reports bits tms tdi tdo tdo' x data (a q : Axis) :
  getSniff (jd a) = true → state_ (snif_ (jd a)) = RunTestIdle → 1 ≤ bits < 2 ^ 31 →
  sendVectors bits tms tdi tdo (set_jd (setDebug 0 (jd a)) a) = (Ret tdo', q) →
  bits ≤ 8 * zlen tms → bits ≤ 8 * zlen tdi → bits ≤ 8 * zlen tdo' →
  take (Z.to_nat bits) (clocks tms tdi tdo') = dr_scan x data → data ≠ [] →
  all_ok data.*1 → all_ok data.*2 →
  ∃ a' sent rcvd, sendVectors bits tms tdi tdo a = (Ret tdo', a') ∧ same_axis hushed a' q ∧
    let c := snif_ (jd a) in let c' := snif_ (jd a') in
    log_ c' = log_ c ++ [DumpDR (print (iro_ c)) (zlen data) (hex_prefix ++ sent) (hex_prefix ++ rcvd)] ∧
    hex_val_from 0 sent = bits_val data.*1 ∧ hex_val_from 0 rcvd = bits_val data.*2 ∧
    state_ c' = RunTestIdle ∧ iro_ c' = iro_ c.
Proof.
  intros Hs Hc Hb Eq Ht Hd Ho Hscan Hne Hok1 Hok2. set (h := set_jd _ a) in Eq.
  assert (Hh : same_axis hushed a h) by (split; [by split; [|split]|by destruct a]).
  pose proof (ship_keeps bits tms tdi tdo a) as Hk. pose proof (ship_same hushed hushed_deaf (λ _, False) bits tms tdi tdo a h Hh) as Hsh.
  rewrite sendVectors_split in Eq. rewrite sendVectors_split. unfold mbind, M_bind in Eq |- *. unfold alike in Hsh.
  destruct (ship bits tms tdi tdo h) as [[r|e|u|] h1]; try done. destruct (ship bits tms tdi tdo a) as [o a1].
  cbn [fst snd] in *. destruct Hsh as [[-> Hsame]|(u & _ & [])]. destruct Hk as [Hdb Hsn].
  assert (Hs1 : getSniff (jd a1) = true) by (unfold getSniff in *; by rewrite Hdb).
  assert (Hq : (r, h1) = (tdo', q)).
  { destruct Hsame as [(_ & _ & Hquiet) _]. unfold sniff_step, mbind, M_bind, gets in Eq. rewrite Hquiet in Eq. by injection Eq as -> ->. }
  injection Hq as -> ->. assert (Hl : 0 < zlen data) by (destruct data; [done|cbn; lia]).
  assert (Hi : int_of bits = bits) by (unfold int_of; rewrite wrap32_small by (unfold is_u32; lia); by zbool).
  rewrite Hi, sniff_step_run, Hscan, Hsn by (done || lia).
  assert (Hn : zlen data < 2 ^ 32).
  { apply (f_equal length) in Hscan. rewrite length_take in Hscan. unfold dr_scan in Hscan. rewrite !length_app in Hscan.
    assert (length (shift_clocks data) = length data) as El by (clear; induction data as [|[] data IH]; cbn; [done|by rewrite IH]).
    rewrite El in Hscan. lia. }
  destruct (dr_scan_run x data (snif_ (jd a)) Hc Hne Hn Hok1 Hok2) as (c' & ro & ri & -> & Hst & (Wo & _ & Vo) & (Wi & _ & Vi) & Hiro & Hlog).
  destruct (print_digits ro Wo) as (sent & Es & Vs). destruct (print_digits ri Wi) as (rcvd & Er & Vr).
  eexists _, sent, rcvd. split; [reflexivity|]. cbn [jd snif_ set_jd set_snif]. split.
  - destruct (same_axis_cases _ _ _ Hsame) as (j1 & j2 & ? & ? & ? & ? & ? & ? & ? & ? & ? & (Hd1 & Hd2 & Hd3) & -> & ->). by split.
  - rewrite Hlog, Es, Er, Vs, Vr. done.
Qed.
End report.

(** ** The program *)

(** A driver that hides its sniffer; the first of two related drivers may
    sniff. *)
Class Unheard (D : Type) `{JtagDriverIfc D} `{MainDriver D} := {
  unheard : D → D → Prop;
  unheard_debug g1 g2 d : Z.land g2 0x100 = 0 → unheard (drv_setDebug g1 d) (drv_setDebug g2 d);
  unheard_mode flags d1 d2 : unheard d1 d2 → unheard (drv_setTestMode flags d1) (drv_setTestMode flags d2);
  unheard_init : agree unheard sniff_fault drv_init drv_init;
  unheard_driver : same_driver unheard sniff_fault;
}.

Lemma axis_unheard `{Platform} {T} `{BlindTransport T} : same_driver (same_axis (T := T) hushed) sniff_fault.
Proof.
  split; [apply query_same, hushed_deaf| |apply setPeriodNs_same|exact sendVectors_same].
  intros a1 a2 Ha. by destruct (same_axis_cases _ _ _ Ha) as (? & ? & ? & ? & ? & ? & ? & ? & ? & ? & ? & ? & -> & ->).
Qed.

Lemma axis_debug {T} g1 g2 (a : JtagDriverAxisToJtag T) : Z.land g2 0x100 = 0 →
  same_axis hushed (set_jd (setDebug g1 (jd a)) a) (set_jd (setDebug g2 (jd a)) a).
Proof. intros Hg. split; [|by destruct a]. split; [done|]. split; [done|]. unfold getSniff. cbn. by rewrite Hg. Qed.

Lemma axis_mode {T} flags (a1 a2 : JtagDriverAxisToJtag T) : same_axis hushed a1 a2 →
  same_axis hushed (set_jd (setTestMode flags (jd a1)) a1) (set_jd (setTestMode flags (jd a2)) a2).
Proof.
  intros Ha. destruct (same_axis_cases _ _ _ Ha) as (? & ? & ? & ? & ? & ? & ? & ? & ? & ? & ? & (Hd & He & Hs) & -> & ->).
  by split; [split; [|split]|].
Qed.

(** *** The options *)

Lemma option_debug opt arg g o : ∃ g', main_option opt arg (with_debug g o) =
  match main_option opt arg o with inl o' => inl (with_debug g' o') | inr code => inr code end.
Proof.
  destruct o as [g0 ta dr po ma st te on he]. unfold main_option, with_debug. cbn [m_target m_drvnam m_port m_maxMsg
    m_setTest m_testMode m_once m_help].
  repeat match goal with |- context [opt =? ?c] => destruct (opt =? c) end;
    try destruct (scan_i arg); first [exists 0; reflexivity | eexists; reflexivity].
Qed.

Lemma options_debug opts : ∀ g o, ∃ g', main_options opts (with_debug g o) =
  match main_options opts o with inl o' => inl (with_debug g' o') | inr code => inr code end.
Proof.
  induction opts as [|[opt arg] opts IH]; intros g o; cbn [main_options]; [by exists g|].
  destruct (option_debug opt arg g o) as [g' ->]. destruct (main_option opt arg o); [apply IH|by exists 0].
Qed.

(** The option [-s], wherever it is given, changes the debug level only. *)
Lemma option_s opts1 opts2 arg o : ∃ g, main_options (opts1 ++ (115, arg) :: opts2) o =
  match main_options (opts1 ++ opts2) o with inl o' => inl (with_debug g o') | inr code => inr code end.
Proof.
  rewrite !main_options_app. destruct (main_options opts1 o) as [[]|code]; [|by exists 0].
  exact (options_debug opts2 _ (mkOpts _ _ _ _ _ _ _ _ _)).
Qed.

Section program.
Context `{Platform} {D L : Type} `{Unheard D}.
Context (new_udp : list (list Z) → list Z → outcome D) (new_loop : option (list Z) → Z → outcome L).
Context (loop_start : Z → L → outcome unit) (dlopen : list Z → string + list (RegEntry D)).
Context (loop_starts : ∀ g1 g2 l, loop_start g1 l = loop_start g2 l).
Abbreviation main := (main new_udp new_loop loop_start dlopen).

(** The option [-s], given anywhere, has no other effect than that of the
    arithmetic of the sniffer where it is undefined. *)
Lemma main_sniffing entries opts1 opts2 arg argv y clients :
  (∀ o, main_options (opts1 ++ opts2) main_init = inl o → Z.land (m_debug o) 0x100 = 0) →
  let sniffing := main entries (opts1 ++ (115, arg) :: opts2) argv y clients in
  sniffing = main entries (opts1 ++ opts2) argv y clients ∨ ∃ u, fst sniffing = Crashed u ∧ sniff_fault u.
Proof.
  intros Hg. destruct (option_s opts1 opts2 arg main_init) as [g Eo]. cbv zeta. unfold main. rewrite Eo.
  destruct (main_options (opts1 ++ opts2) main_init) as [o|code]; [|by left]. specialize (Hg o eq_refl).
  change (main_driver new_udp new_loop dlopen entries (with_debug g o) argv)
    with (main_driver new_udp new_loop dlopen entries o argv).
  destruct (main_driver _ _ _ _ _ _) as [[code|[[drv|] loop]]|e|u|]; [by left| |by left..].
  apply (launches_agree unheard sniff_fault unheard_driver loop_start loop_start y g o drv drv loop loop clients).
  - by apply unheard_debug.
  - apply unheard_init.
  - apply unheard_mode.
  - by destruct loop.
Qed.
End program.

(** ** An instance

    Three bits are shifted through the data register of a loop-back
    target. *)
Module Report.
#[local] Existing Instance le_platform.
Definition sniffer : JtagDumpCtx := snd (changeState RunTestIdle JtagDumpCtx_new).
Definition driver : JtagDriverAxisToJtag JtagDriverLoopBack :=
  let a := JtagDriverAxisToJtag_new 0 1 (mkLoopBack FNull true false 1) in
  set_jd (set_snif sniffer (setDebug 0x100 (jd a))) a.
Definition silent := set_jd (setDebug 0 (jd driver)) driver.
Definition surround : around :=
  mkAround (false, false) (true, true) (false, false) (true, true) (false, false).

Lemma sniffer_reports_witness :
  ∃ a' sent rcvd, sendVectors 8 [0x61] [0x6a] [0] driver = (Ret [0x6a], a') ∧
    same_axis hushed a' (snd (sendVectors 8 [0x61] [0x6a] [0] silent)) ∧
    log_ (snif_ (jd a')) = [DumpDR (print JtagRegType_new) 3 (hex_prefix ++ sent) (hex_prefix ++ rcvd)] ∧
    hex_val_from 0 sent = 5 ∧ hex_val_from 0 rcvd = 5 ∧ state_ (snif_ (jd a')) = RunTestIdle ∧
    iro_ (snif_ (jd a')) = JtagRegType_new.
Proof.
  apply (sniffer_reports 8 [0x61] [0x6a] [0] [0x6a] surround [(true, true); (false, false); (true, true)] driver
    (snd (sendVectors 8 [0x61] [0x6a] [0] silent))).
  - reflexivity.
  - reflexivity.
  - lia.
  - vm_compute. reflexivity.
  - simpl. lia.
  - simpl. lia.
  - simpl. lia.
  - vm_compute. reflexivity.
  - discriminate.
  - apply (bool_decide_unpack _). by vm_compute.
  - apply (bool_decide_unpack _). by vm_compute.
Defined.
End Report.
