(* ===== verification/Drivers.v ===== *)
(** * The program with all its drivers

    The server sees its driver through the virtual functions of the class
    [JtagDriver]: [AnyDriver] is an object of one of the classes that are
    registered, and a virtual call goes by the class.  The registrars, the
    constructors as [createP] calls them and the test peer complete [main]:
    only what the system calls return is left as an argument ([world]).  It
    is shown that a virtual call is the call of the class, so that the
    program does what was shown for the driver it is started with; that the
    order in which the drivers are registered does not matter; and that the
    sniffer changes nothing. *)

From stdpp Require Import base numbers option list strings.
From Stdlib Require Import ZArith Lia.
From S2P Require Import Prelude Header Tap Driver LoopBack Foo Udp Mmio DbgBridge Stream Fifo Tmem Conn Target Stack Server Simulation ServerSpec Sniffer Player.
#[local] Open Scope Z_scope.

(** ** The test peer as a driver

    The class [UdpLoopBack] is derived from the loop-back driver, so that
    [main] can call its [init], a query that its own [xfer] answers.  The
    members besides those of the base classes are the loop-back state and
    [tsiz_]. *)

Section peer.
Context `{Platform}.

Definition Peer : Type := JtagDriverLoopBack * Z.

Definition base_xfer (txb : list Z) (txBytes hsize size : Z) : M (io Peer) Z :=
  zoom (λ s, mkIo (io_jd s) (fst (io_tp s)) (io_hd s) (io_rx s))
    (λ i s, mkIo (io_jd i) (io_tp i, snd (io_tp s)) (io_hd i) (io_rx i))
    (loopback_xfer udp_emulMemDepth txb txBytes hsize size).

Definition set_size (n : Z) : M (io Peer) unit :=
  modify (λ s, mkIo (io_jd s) (fst (io_tp s), n) (io_hd s) (io_rx s)).

(** [UdpLoopBack::xfer] *)
Definition UdpLoopBack_xfer (txb : list Z) (txBytes hsize size : Z) : M (io Peer) Z :=
  txh ← lift (getHdr txb);
  s ← gets id;
  rxh ← lift (getHdr (io_hd s));
  if getCmd txh =? CMD_Q then
    set_size (-1) ;; base_xfer txb txBytes hsize size
  else if getCmd txh =? CMD_S then
    if getXid txh =? getXid rxh then
      if snd (io_tp s) <? 0
      then throw (RuntimeErr "ERROR: UdpLoopBack - attempted retry but have no valid message!")
      else mret (snd (io_tp s))
    else
      got ← base_xfer txb txBytes hsize size;
      set_size got ;; mret got
  else base_xfer txb txBytes hsize size.

#[export] Instance peer_transport : Transport Peer := {
  xfer := UdpLoopBack_xfer;
  getMaxVectorSize _ _ := 0;
}.

(** [UdpLoopBack( fnam, port )]: what [fopen] and the three system calls
    say are arguments. *)
Definition new_UdpLoopBack (fopen : string → option (list Z)) (xid0 : Z) (f0 : FILE_ptr)
    (socket_ok reuse_ok : bool) (bind_ok : Z → bool) (fnam : option (list Z)) (port : Z) :
    outcome (JtagDriverAxisToJtag Peer) :=
  a ← new_JtagDriverLoopBack fopen xid0 f0 [] fnam;
  SockSd_new socket_ok ;;
  if negb reuse_ok then Throw (SysErr "setsockopt(SO_REUSEADDR) failed")
  else if negb (bind_ok port) then Throw (SysErr "Unable to bind Stream socket to local address")
  else Ret (JtagDriverAxisToJtag_new 0 (xid_ a) (tp a, -1)).

(** [loop->setDebug( debug ); loop->init();] *)
Definition loop_init (debug : Z) (l : JtagDriverAxisToJtag Peer) : outcome unit :=
  fst (init (set_jd (setDebug debug (jd l)) l)).

(** As the thread calls it, with both buffers in [tbuf_], this is the
    [xfer] of Udp.v. *)
Lemma peer_xfer_is txb txBytes size (u : UdpLoopBack) : 4 ≤ zlen (tbuf_ u) →
  let (o, s) := UdpLoopBack_xfer txb txBytes 4 size
    (mkIo (u_jd u) (u_lb u, tsiz_ u) (take 4 (tbuf_ u)) (drop 4 (tbuf_ u))) in
  peer_xfer txb txBytes 4 size u = (o, mkUdpLB (io_jd s) (fst (io_tp s)) (rbuf_ u) (io_hd s ++ io_rx s) (snd (io_tp s))).
Proof.
  intros Hl. destruct u as [j l rb tb n]. unfold UdpLoopBack_xfer, peer_xfer, base_xfer, peer_loopback, set_size.
  cbn [u_jd u_lb tbuf_ tsiz_ rbuf_] in *.
  assert (E : getHdr (take 4 tb) = getHdr tb).
  { unfold getHdr, getw32. change (take 4 tb) with (take (Z.to_nat 4) tb). by rewrite rd_take by lia. }
  unfold mbind, M_bind, mret, M_ret, lift, gets, modify, zoom, throw. cbn [id io_hd io_tp io_jd io_rx fst snd u_lb u_jd tbuf_ rbuf_ tsiz_ set_tsiz]. rewrite E.
  assert (Et : take 4 tb ++ drop 4 tb = tb) by apply take_drop.
  destruct (getHdr txb) as [txh|e|w|]; [|cbn; by rewrite Et..]. destruct (getHdr tb) as [rxh|e|w|]; [|cbn; by rewrite Et..].
  destruct (getCmd txh =? CMD_Q), (getCmd txh =? CMD_S), (getXid txh =? getXid rxh), (n <? 0);
    cbn [u_lb u_jd tbuf_ rbuf_ tsiz_ io_hd io_tp io_jd io_rx fst snd]; rewrite ?Et; try done;
    by destruct (loopback_xfer _ _ _ _ _ _) as [[] s].
Qed.

Lemma peer_blind Q excused : deaf Q → ∀ txb txBytes hsize size,
  agree (same_io Q) excused (UdpLoopBack_xfer txb txBytes hsize size) (UdpLoopBack_xfer txb txBytes hsize size).
Proof.
  intros HQ txb txBytes hsize size. assert (Hb : agree (same_io Q) excused (base_xfer txb txBytes hsize size) (base_xfer txb txBytes hsize size)).
  { refine (agree_zoom (same_io Q) (same_io Q) _ _ _ _ _ _ _ (loopback_blind Q excused _ _ _ _ _) _ _).
    - intros s1 s2 Hs. by destruct (same_io_cases _ _ _ Hs) as (? & ? & ? & ? & ? & ? & -> & ->).
    - intros s1 s2 i1 i2 Hs Hi. destruct (same_io_cases _ _ _ Hs) as (? & ? & ? & ? & ? & ? & -> & ->).
      by destruct (same_io_cases _ _ _ Hi) as (? & ? & ? & ? & ? & ? & -> & ->). }
  unfold UdpLoopBack_xfer, set_size. blind.
Qed.
#[export] Instance peer_blindness : BlindTransport Peer.
Proof. intros Q excused. apply peer_blind. Qed.

(** How verbose it is does not matter. *)
Definition muted (j1 j2 : JtagDriver) : Prop := drop_ j1 = drop_ j2 ∧ drEn_ j1 = drEn_ j2.
Lemma muted_deaf : deaf muted.
Proof. split; [done|]. by intros j1 j2 n [_ ?]. Qed.

Lemma loop_init_any g1 g2 l : loop_init g1 l = loop_init g2 l.
Proof.
  unfold loop_init. destruct (init_same muted muted_deaf (λ _, False) (set_jd (setDebug g1 (jd l)) l) (set_jd (setDebug g2 (jd l)) l))
    as [[E _]|(? & _ & [])]; [|done]. by destruct l.
Qed.
End peer.

(** ** The objects of the class [JtagDriver] *)

Section drivers.
Context `{Platform} {BDev FDev TDev : Type} `{Mmio BDev} `{!Mmio FDev} `{Tosca TDev} (polls : nat).

#[local] Instance any_bridge : Transport (JtagDriverZynqAxiDbgBridgeIP BDev) := {
  xfer := bridge_xfer polls;
  getMaxVectorSize _ := bridge_getMaxVectorSize;
}.
#[local] Instance any_fifo : Transport (JtagDriverZynqFifo FDev) := {
  xfer := fifo_xfer polls;
  getMaxVectorSize _ := fifo_getMaxVectorSize;
}.
#[local] Instance any_tmem : Transport (JtagDriverTmemFifo TDev) := {
  xfer := tmem_xfer polls;
  getMaxVectorSize _ := tmem_getMaxVectorSize;
}.

Inductive AnyDriver :=
  | LoopBackDriver (a : JtagDriverAxisToJtag JtagDriverLoopBack)
  | UdpDriver (a : JtagDriverAxisToJtag JtagDriverUdp)
  | FooDriver (a : JtagDriverAxisToJtag JtagDriverFoo)
  | BridgeDriver (a : JtagDriverAxisToJtag (JtagDriverZynqAxiDbgBridgeIP BDev))
  | FifoDriver (a : JtagDriverAxisToJtag (JtagDriverZynqFifo FDev))
  | TmemDriver (a : JtagDriverAxisToJtag (JtagDriverTmemFifo TDev)).

(** An action on the object of one class. *)
Definition as_any {T A} (mk : T → AnyDriver) (m : M T A) (a : T) : outcome A * AnyDriver :=
  let (o, a) := m a in (o, mk a).

(** A virtual function that the classes do not override. *)
Definition virtual {A} (m : ∀ T, Transport T → M (JtagDriverAxisToJtag T) A) : M AnyDriver A := λ d,
  match d with
  | LoopBackDriver a => as_any LoopBackDriver (m _ _) a
  | UdpDriver a => as_any UdpDriver (m _ _) a
  | FooDriver a => as_any FooDriver (m _ _) a
  | BridgeDriver a => as_any BridgeDriver (m _ _) a
  | FifoDriver a => as_any FifoDriver (m _ _) a
  | TmemDriver a => as_any TmemDriver (m _ _) a
  end.

Definition any_getMaxVectorSize (d : AnyDriver) : Z :=
  match d with
  | LoopBackDriver a => drv_getMaxVectorSize a
  | UdpDriver a => drv_getMaxVectorSize a
  | FooDriver a => drv_getMaxVectorSize a
  | BridgeDriver a => drv_getMaxVectorSize a
  | FifoDriver a => drv_getMaxVectorSize a
  | TmemDriver a => drv_getMaxVectorSize a
  end.

#[export] Instance any_ifc : JtagDriverIfc AnyDriver := {
  drv_query := virtual (λ _ _, query);
  drv_getMaxVectorSize := any_getMaxVectorSize;
  drv_setPeriodNs p := virtual (λ _ _, setPeriodNs p);
  drv_sendVectors bits tms tdi tdo := virtual (λ _ _, sendVectors bits tms tdi tdo);
}.

(** Members of the base class. *)
Definition on_base (f : JtagDriver → JtagDriver) (d : AnyDriver) : AnyDriver :=
  match d with
  | LoopBackDriver a => LoopBackDriver (set_jd (f (jd a)) a)
  | UdpDriver a => UdpDriver (set_jd (f (jd a)) a)
  | FooDriver a => FooDriver (set_jd (f (jd a)) a)
  | BridgeDriver a => BridgeDriver (set_jd (f (jd a)) a)
  | FifoDriver a => FifoDriver (set_jd (f (jd a)) a)
  | TmemDriver a => TmemDriver (set_jd (f (jd a)) a)
  end.

(** [init] is overridden by the drivers for hardware. *)
Definition any_init : M AnyDriver unit := λ d,
  match d with
  | LoopBackDriver a => as_any LoopBackDriver init a
  | UdpDriver a => as_any UdpDriver udp_init a
  | FooDriver a => as_any FooDriver init a
  | BridgeDriver a => as_any BridgeDriver bridge_init a
  | FifoDriver a => as_any FifoDriver (fifo_init polls) a
  | TmemDriver a => as_any TmemDriver (tmem_init polls) a
  end.

#[export] Instance any_main : MainDriver AnyDriver := {
  drv_setDebug debug := on_base (setDebug debug);
  drv_init := any_init;
  drv_setTestMode flags := on_base (setTestMode flags);
}.

(** ** The registrars

    What the constructors of the drivers get from the system. *)
Record world := mkWorld {
  w_getopt : string → list (list Z) → list (Z * list Z);
  w_xid : Z;                                   (* the memory of [xid_] *)
  w_fopen : string → option (list Z);
  w_file : FILE_ptr;                           (* the memory of [f_] *)
  w_resolve : list Z → list Z → option string;
  w_connect : bool;
  w_mtu : option Z;
  w_dontfrag : bool;
  w_events : list udp_event;
  w_open : bool;
  w_mmap : bool;
  w_pgsz : Z;
  w_bridge : BDev;
  w_fifo : FDev;
  w_tmem : TDev;
  w_irqs : list irq;
  w_irq_open : bool;
  w_useSdes : bool;                            (* the memory of [useSdes_] *)
  w_clock : list Z;
  w_socket : bool;
  w_reuse : bool;
  w_bind : Z → bool;
}.

Section world.
Context (w : world).

(** A class makes itself known by its name and its constructor. *)
Abbreviation registrar := (list Z * (list (list Z) → option (list Z) → outcome AnyDriver))%type.
Abbreviation object mk x := (a ← (d ← x; Ret (JtagDriverAxisToJtag_new 0 (w_xid w) d)); Ret (mk a)).

Definition r_loopback : registrar := (text "loopback", λ argv arg,
  a ← new_JtagDriverLoopBack (w_fopen w) (w_xid w) (w_file w) argv arg; Ret (LoopBackDriver a)).
Definition new_JtagDriverUdp (argv : list (list Z)) (target : list Z) : outcome AnyDriver :=
  object UdpDriver (JtagDriverUdp_new (w_getopt w "m:f" argv) target (w_resolve w) (w_connect w) (w_mtu w)
    (w_dontfrag w) (w_events w)).
Definition r_udp : registrar := (text "udp", λ argv arg, new_JtagDriverUdp argv (default [] arg)).
Definition r_axiDbgBridgeIP : registrar := (text "axiDbgBridgeIP", λ argv arg,
  object BridgeDriver (bridge_new (w_getopt w "M:" argv) (default [] arg) (w_pgsz w) (w_open w) (w_mmap w)
    (w_bridge w) (w_clock w))).
Definition r_zynqAxis : registrar := (text "zynqAxis", λ argv arg,
  object FifoDriver (fifo_new polls (fst <$> w_getopt w "i" argv) (default [] arg) (w_pgsz w) (w_open w) (w_mmap w)
    (w_fifo w) (w_irqs w))).
Definition r_tmem : registrar := (text "tmem", λ argv arg,
  object TmemDriver (tmem_new polls (fst <$> w_getopt w "i:bl" argv) (default [] arg) (w_irq_open w) (w_useSdes w)
    (w_tmem w) (w_irqs w) (w_clock w))).
Definition r_foo : registrar := (text "foo", λ argv arg, Ret (FooDriver (foo_new (w_xid w)))).

(** *** The registry

    [DriverRegistry::getP( creat )]: the static pointer [theR] afterwards,
    which is also what it returns. *)
Definition getP (creat : bool) (theR : option (list (RegEntry AnyDriver))) : option (list (RegEntry AnyDriver)) :=
  match theR with
  | None => if creat then Some [] else None
  | Some entries => Some entries
  end.
Definition registry_get := getP true.
Definition registry_init := getP true.

(** The constructor of a registrar. *)
Definition register (d : registrar) (theR : option (list (RegEntry AnyDriver))) : option (list (RegEntry AnyDriver)) :=
  match registry_get theR with
  | Some entries => Some (DriverRegistrar (fst d) (snd d) entries)
  | None => None
  end.

(** The registrars of the objects that are linked run before [main], in an
    order that the language does not say; those of a library when it is
    loaded. *)
Definition start (statics : list registrar) : option (list (RegEntry AnyDriver)) :=
  foldl (λ theR d, register d theR) None statics.
Definition load (libraries : list Z → string + list registrar) (file : list Z) : string + list (RegEntry AnyDriver) :=
  match libraries file with
  | inl msg => inl msg
  | inr ds => inr (registered ds)
  end.

Definition program (statics : list registrar) (libraries : list Z → string + list registrar) opts argv y clients :
    status * list net :=
  main new_JtagDriverUdp
    (new_UdpLoopBack (w_fopen w) (w_xid w) (w_file w) (w_socket w) (w_reuse w) (w_bind w)) loop_init
    (load libraries) (default [] (registry_init (start statics))) opts argv y clients.

Lemma start_registered statics : registry_init (start statics) = Some (registered statics).
Proof.
  unfold start, registry_init. assert (Hf : ∀ l ds, foldl (λ r d, register d r) (Some l) ds =
    Some (foldl (λ l d, DriverRegistrar (fst d) (snd d) l) l ds)).
  { intros l ds. revert l. induction ds as [|d ds IH]; intros l; [done|]. apply IH. }
  destruct statics as [|d ds]; [done|]. cbn [foldl]. change (register d None) with (register d (Some [])).
  cbn [register registry_get getP]. by rewrite Hf.
Qed.
End world.

(** ** A virtual call is the call of the class *)

Section class.
Context {T : Type} `{Transport T} (ini : M (JtagDriverAxisToJtag T) unit) (mk : JtagDriverAxisToJtag T → AnyDriver).
#[local] Instance class_main : MainDriver (JtagDriverAxisToJtag T) := axis_main ini.

(** [mk] makes the objects of a class that overrides [xfer],
    [getMaxVectorSize] and [init]. *)
Record class : Prop := {
  class_virtual A (m : ∀ T, Transport T → M (JtagDriverAxisToJtag T) A) a : virtual m (mk a) = as_any mk (m T _) a;
  class_max a : any_getMaxVectorSize (mk a) = drv_getMaxVectorSize a;
  class_base f a : on_base f (mk a) = mk (set_jd (f (jd a)) a);
  class_init a : any_init (mk a) = as_any mk ini a;
}.
Context (HC : class).

Definition is_any (a : JtagDriverAxisToJtag T) (d : AnyDriver) : Prop := d = mk a.

Lemma as_any_agrees {A} excused (m : M (JtagDriverAxisToJtag T) A) (v : M AnyDriver A) :
  (∀ a, v (mk a) = as_any mk m a) → agree is_any excused m v.
Proof. intros Hv a d ->. unfold alike. rewrite Hv. unfold as_any. left. by destruct (m a). Qed.

Lemma class_same excused : same_driver is_any excused.
Proof.
  split.
  - apply as_any_agrees. intros a. apply (class_virtual HC _ (λ _ _, query)).
  - intros a d ->. symmetry. apply (class_max HC).
  - intros p. apply as_any_agrees. intros a. apply (class_virtual HC _ (λ _ _, setPeriodNs p)).
  - intros bits tms tdi tdo. apply as_any_agrees. intros a. apply (class_virtual HC _ (λ _ _, sendVectors bits tms tdi tdo)).
Qed.

Lemma class_launch {L1 L2} (ls1 : Z → L1 → outcome unit) (ls2 : Z → L2 → outcome unit) y o a clients :
  launch ls1 y o a None clients = launch ls2 y o (mk a) None clients.
Proof.
  assert (Hl : let r1 := launch ls1 y (with_debug (m_debug o) o) a None clients in
    r1 = launch ls2 y o (mk a) None clients ∨ ∃ u, fst r1 = Crashed u ∧ False).
  { apply (launches_agree is_any (λ _, False) (class_same _)); [..|done].
    - apply (class_base HC).
    - apply as_any_agrees, (class_init HC).
    - intros a1 d ->. apply (class_base HC). }
  destruct Hl as [<-|(? & _ & [])]. by destruct o.
Qed.
End class.

Lemma loopback_class : class init LoopBackDriver.
Proof. by split. Qed.
Lemma udp_class : class udp_init UdpDriver.
Proof. by split. Qed.
Lemma foo_class : class init FooDriver.
Proof. by split. Qed.
Lemma bridge_class : class bridge_init BridgeDriver.
Proof. by split. Qed.
Lemma fifo_class : class (fifo_init polls) FifoDriver.
Proof. by split. Qed.
Lemma tmem_class : class (tmem_init polls) TmemDriver.
Proof. by split. Qed.

(** The program on a driver of the class [T], whose constructor is [new], is
    the server on that class. *)
Section program.
Context (w : world) (libraries : list Z → string + list (list Z * (list (list Z) → option (list Z) → outcome AnyDriver))).
Context {T : Type} `{Transport T} (ini : M (JtagDriverAxisToJtag T) unit) (mk : JtagDriverAxisToJtag T → AnyDriver).
Context (HC : class ini mk).
#[local] Existing Instance class_main.
Context {L : Type} (new_udp : list (list Z) → list Z → outcome (JtagDriverAxisToJtag T)).
Context (new_loop : option (list Z) → Z → outcome L) (ls : Z → L → outcome unit).
Context (dlopen : list Z → string + list (RegEntry (JtagDriverAxisToJtag T))).

Lemma program_driver statics nm new opts o argv y clients :
  main_options opts main_init = inl o → m_drvnam o = nm → nm ≠ text "udpLoopback" → nm ≠ [] →
  last (filter (λ d, fst d = nm) statics) = Some (nm, λ argv arg, a ← new argv arg; Ret (mk a)) →
  program w statics libraries opts argv y clients =
    @main _ _ _ _ (class_main ini) new_udp new_loop ls dlopen (registered [(nm, new)]) opts argv y clients.
Proof.
  intros Eo En Hu Hne El. unfold program. rewrite start_registered.
  change (default [] (Some (registered statics))) with (registered statics). unfold main. rewrite Eo. unfold main_driver.
  rewrite En, !decide_False by done. unfold has, create. rewrite !find_registered, El by done.
  assert (E1 : last (filter (λ d : list Z * (list (list Z) → option (list Z) → outcome (JtagDriverAxisToJtag T)),
    fst d = nm) [(nm, new)]) = Some (nm, new)) by (cbn [filter list_filter fst]; by rewrite decide_True).
  rewrite E1. cbn [fmap option_fmap option_map mbind outcome_bind fst snd default id].
  destruct (m_help o); [done|]. rewrite !find_registered, El, E1 by done.
  cbn [fmap option_fmap option_map entry_of creator_ needTargetArg_ mbind outcome_bind fst snd].
  destruct (true && _); [done|]. cbn [mbind outcome_bind]. destruct (new argv (m_target o)) as [a|e|u|]; [|done..].
  cbn [mbind outcome_bind]. symmetry. apply (class_launch ini mk HC).
Qed.
End program.

(** *** The order of the registrars *)

Lemma filter_name {A} (l1 l2 : list (list Z * A)) nm : l1 ≡ₚ l2 → NoDup l1.*1 →
  last (filter (λ d, fst d = nm) l1) = last (filter (λ d, fst d = nm) l2).
Proof.
  intros Hp Hn. assert (Hf : filter (λ d, fst d = nm) l1 ≡ₚ filter (λ d, fst d = nm) l2) by by rewrite Hp.
  assert (Hl : ∀ l : list (list Z * A), NoDup l.*1 → (length (filter (λ d, fst d = nm) l) ≤ 1)%nat).
  { intros l. induction l as [|d l IH]; [cbn; lia|]. cbn [fmap list_fmap]. intros [Hd Hl]%NoDup_cons.
    rewrite filter_cons. destruct (decide (fst d = nm)) as [<-|]; [|auto].
    replace (filter (λ d0, fst d0 = fst d) l) with (@nil (list Z * A)); [cbn; lia|].
    symmetry. apply elem_of_nil_inv. intros x [Ex Hx]%list_elem_of_filter. apply Hd. rewrite <-Ex. by apply list_elem_of_fmap_2. }
  specialize (Hl l1 Hn). destruct (filter _ l1) as [|d [|? ?]]; [|  |cbn in Hl; lia].
  - by apply Permutation_nil_l in Hf as ->.
  - by apply Permutation_singleton_l in Hf as ->.
Qed.

Lemma find_last_entry {D} (l l' : list (RegEntry D)) : l' ≠ [] → find (l ++ l') None = last l'.
Proof.
  intros Hne. unfold find. rewrite length_app. destruct l' as [|e l' _] using rev_ind; [done|].
  rewrite length_app, last_snoc, app_assoc. apply list_lookup_middle. cbn [length]. rewrite length_app. lia.
Qed.

Section order.
Context (w : world) (libraries : list Z → string + list (list Z * (list (list Z) → option (list Z) → outcome AnyDriver))).
(** Every library registers a driver. *)
Context (libraries_ok : ∀ file, libraries file ≠ inr []).

Lemma main_driver_order statics1 statics2 o argv new_udp new_loop :
  statics1 ≡ₚ statics2 → NoDup statics1.*1 → m_drvnam o ≠ [] →
  @main_driver AnyDriver (JtagDriverAxisToJtag Peer) new_udp new_loop (load libraries) (registered statics1) o argv =
  main_driver new_udp new_loop (load libraries) (registered statics2) o argv.
Proof.
  intros Hp Hn Hne. unfold main_driver. destruct (decide _); [done|]. unfold has, create.
  rewrite !find_registered by done. rewrite (filter_name _ _ (m_drvnam o) Hp Hn).
  destruct (last _) as [e|] eqn:El; cbn [fmap option_fmap option_map mbind outcome_bind fst snd].
  - destruct (m_help o); [done|]. by rewrite !find_registered, (filter_name _ _ (m_drvnam o) Hp Hn) by done.
  - unfold load. specialize (libraries_ok (m_drvnam o)). destruct (libraries _) as [msg|l]; [done|].
    cbn [mbind outcome_bind fst snd]. destruct (m_help o); [done|]. rewrite !find_last_entry; [done|..];
      rewrite registered_entries; by destruct l.
Qed.

(** C35: the order in which the static registrars run, which the language
    leaves open, does not matter: the program ends the same way and tells
    its clients the same, for every command line that does not ask for the
    driver of the empty name, when the drivers have different names and
    every library registers one. *)
Theorem registration_order statics1 statics2 opts argv y clients :
  statics1 ≡ₚ statics2 → NoDup statics1.*1 → (∀ o, main_options opts main_init = inl o → m_drvnam o ≠ []) →
  program w statics1 libraries opts argv y clients = program w statics2 libraries opts argv y clients.
Proof.
  intros Hp Hn Hd. unfold program. rewrite !start_registered.
  change (default [] (Some (registered ?l))) with (registered l). unfold main.
  destruct (main_options opts main_init) as [o|code]; [|done].
  by rewrite (main_driver_order statics1 statics2) by auto.
Qed.
End order.

(** *** No driver reveals its sniffer *)

Section init.
Context {T : Type} `{Transport T} `{!BlindTransport T}.
Abbreviation Axis := (JtagDriverAxisToJtag T).

(** [init] of the drivers for hardware: the word sizes are compared. *)
Lemma init_compare_same (f : T → Z) msg : let check :=
  init ;; a ← gets id; if negb (getWordSize a =? f (tp a)) then throw (RuntimeErr msg) else mret tt in
  agree (same_axis (T := T) hushed) sniff_fault check check.
Proof.
  apply agree_bind; [apply init_same, hushed_deaf|intros _]. apply axis_get. intros. cbn. repeat agree_step.
Qed.

Lemma reset_same (m : M T unit) : let reset :=
  zoom tp (λ b a, mkAxis (jd a) (wordSize_ a) (memDepth_ a) (txBuf_ a) (hdBuf_ a) (bufSz_ a) (retry_ a)
    (xid_ a) (periodNs_ a) b) m in
  agree (same_axis (T := T) hushed) sniff_fault reset reset.
Proof.
  apply (agree_zoom _ eq); [apply agree_same| |].
  - intros a1 a2 Ha. by destruct (same_axis_cases _ _ _ Ha) as (? & ? & ? & ? & ? & ? & ? & ? & ? & ? & ? & ? & -> & ->).
  - intros a1 a2 t1 t2 Ha ->. destruct (same_axis_cases _ _ _ Ha) as (? & ? & ? & ? & ? & ? & ? & ? & ? & ? & ? & ? & -> & ->).
    by split.
Qed.
End init.

#[local] Instance any_bridge_blind : BlindTransport (JtagDriverZynqAxiDbgBridgeIP BDev).
Proof. intros Q excused HQ. apply bridge_blind. Qed.
#[local] Instance any_fifo_blind : BlindTransport (JtagDriverZynqFifo FDev).
Proof. intros Q excused HQ. by apply fifo_blind. Qed.
#[local] Instance any_tmem_blind : BlindTransport (JtagDriverTmemFifo TDev).
Proof. intros Q excused HQ. by apply tmem_blind. Qed.

Definition same_any (d1 d2 : AnyDriver) : Prop :=
  match d1, d2 with
  | LoopBackDriver a1, LoopBackDriver a2 => same_axis hushed a1 a2
  | UdpDriver a1, UdpDriver a2 => same_axis hushed a1 a2
  | FooDriver a1, FooDriver a2 => same_axis hushed a1 a2
  | BridgeDriver a1, BridgeDriver a2 => same_axis hushed a1 a2
  | FifoDriver a1, FifoDriver a2 => same_axis hushed a1 a2
  | TmemDriver a1, TmemDriver a2 => same_axis hushed a1 a2
  | _, _ => False
  end.

Lemma as_any_same {T A} (mk : JtagDriverAxisToJtag T → AnyDriver) (m : M (JtagDriverAxisToJtag T) A) a1 a2 :
  (∀ a1 a2, same_axis hushed a1 a2 → same_any (mk a1) (mk a2)) →
  agree (same_axis hushed) sniff_fault m m → same_axis hushed a1 a2 →
  alike same_any sniff_fault (as_any mk m a1) (as_any mk m a2).
Proof.
  intros Hmk Hm Ha. specialize (Hm _ _ Ha). unfold alike, as_any in *.
  destruct (m a1) as [o1 b1], (m a2) as [o2 b2]. cbn [fst snd] in *. destruct Hm as [[-> Hb]|?]; [left; auto|by right].
Qed.

Lemma virtual_same {A} (m : ∀ T, Transport T → M (JtagDriverAxisToJtag T) A) :
  (∀ T `{BlindTransport T}, agree (same_axis hushed) sniff_fault (m T _) (m T _)) →
  agree same_any sniff_fault (virtual m) (virtual m).
Proof. intros Hm [] [] Hd; try done; apply as_any_same; try done; apply Hm, _. Qed.

Lemma on_base_same f1 f2 d1 d2 :
  (∀ T (a1 a2 : JtagDriverAxisToJtag T), same_axis hushed a1 a2 → same_axis hushed (set_jd (f1 (jd a1)) a1) (set_jd (f2 (jd a2)) a2)) →
  same_any d1 d2 → same_any (on_base f1 d1) (on_base f2 d2).
Proof. intros Hf Hd. destruct d1, d2; try done; by apply Hf. Qed.

#[export] Program Instance any_unheard : Unheard AnyDriver := { unheard := same_any }.
Next Obligation. intros g1 g2 [] Hg; by apply axis_debug. Qed.
Next Obligation. intros flags d1 d2 Hd. apply on_base_same; [|done]. intros T a1 a2. apply axis_mode. Qed.
Next Obligation.
  intros [] [] Hd; try done; apply as_any_same; try done; try (by apply init_same, hushed_deaf).
  - apply agree_bind; [apply init_same, hushed_deaf|intros _]. apply agree_bind; [|intros ?; apply agree_ret].
    apply agree_gets. intros a1 a2 Ha. by destruct (same_axis_cases _ _ _ Ha) as (? & ? & ? & ? & ? & ? & ? & ? & ? & ? & ? & ? & -> & ->).
  - apply init_compare_same.
  - apply agree_bind; [apply reset_same|intros _; apply init_compare_same].
  - apply agree_bind; [apply reset_same|intros _; apply init_compare_same].
Qed.
Next Obligation.
  split.
  - apply virtual_same. intros. apply query_same, hushed_deaf.
  - intros [] [] Hd; try done; by apply (same_max _ _ axis_unheard).
  - intros p. apply virtual_same. intros. apply setPeriodNs_same.
  - intros bits tms tdi tdo. apply virtual_same. intros. apply sendVectors_same.
Qed.

(** C4: sniffing is invisible: with the option [-s], given anywhere, the
    program ends the same way and tells every client the same as without it,
    for every driver, target and sequence of clients, unless it is broken by
    the sniffer itself (its bit arithmetic, or a read behind the vectors). *)
Theorem sniffing_invisible w statics libraries opts1 opts2 arg argv y clients :
  (∀ o, main_options (opts1 ++ opts2) main_init = inl o → Z.land (m_debug o) 0x100 = 0) →
  let sniffing := program w statics libraries (opts1 ++ (115, arg) :: opts2) argv y clients in
  sniffing = program w statics libraries (opts1 ++ opts2) argv y clients ∨
  ∃ u, fst sniffing = Crashed u ∧ sniff_fault u.
Proof. intros Hg. apply main_sniffing; [exact loop_init_any|exact Hg]. Qed.

(** *** From the command line to the replies *)

Lemma last_registered {A} (l : list (list Z * A)) nm x : NoDup l.*1 → (nm, x) ∈ l →
  last (filter (λ d, fst d = nm) l) = Some (nm, x).
Proof.
  intros Hn (l1 & l2 & ->)%list_elem_of_split.
  rewrite (filter_name _ ((nm, x) :: l1 ++ l2) nm) by (done || by rewrite Permutation_middle).
  assert (Hm : NoDup (nm :: (l1 ++ l2).*1)).
  { change (NoDup ((nm, x) :: l1 ++ l2).*1). by rewrite Permutation_middle. }
  apply NoDup_cons in Hm as [Hm _]. rewrite filter_cons, decide_True by done.
  replace (filter (λ d, fst d = nm) (l1 ++ l2)) with (@nil (list Z * A)); [done|].
  symmetry. apply elem_of_nil_inv. intros y [Ey Hy]%list_elem_of_filter. apply Hm. rewrite <-Ey. by apply list_elem_of_fmap_2.
Qed.

(** C2: the whole program, with all its drivers: whatever else is linked,
    in whatever order, with [-D loopback], a file of TDO words and vectors of
    [M] bytes (at most 1020, in whole words) it opens the file, binds the
    port, and serves every sequence of clients that send valid requests, as
    long as the words suffice: each client is told the words of the file,
    from the top, as many as its shifts have bits for. *)
Theorem program_plays_back (HLE : isLE = true) w statics libraries file ws opts argv y M clients :
  NoDup statics.*1 → r_loopback w ∈ statics →
  is_byte (w_xid w) → Forall is_u32 ws → w_fopen w file = Some (tdo_file ws) → strstr (text file) (text "TdoOnly") = true →
  command opts (text "loopback") (text file) M → 1 ≤ M ≤ 1020 → (4 | M) →
  listens y (default 2542 (last_arg 112 opts ≫= scan_i) `mod` 2 ^ 16) →
  @all_takes _ (playback ws) M ws clients → Forall (asks M) clients →
  ∃ ns, program w statics libraries opts argv y (Some ∘ fst <$> clients) = (Serves, ns) ∧
    out <$> ns = snd (@all_replies _ (playback ws) M ws clients).
Proof.
  intros Hn Hl Hx Hw Ho Ht Hc HM Hg Hy Ha Hcl. destruct (main_options_says opts (cmd_ok _ _ _ _ Hc)) as (o & Eo & Hs & _).
  pose proof (says_drvnam _ _ Hs) as Hd. rewrite (cmd_drv _ _ _ _ Hc) in Hd.
  rewrite (program_driver w libraries init LoopBackDriver loopback_class (L := unit) (λ _ _, Throw TimeoutErr) (λ _ _, Throw TimeoutErr)
    (λ _ _, Ret tt) (λ _, inl ""%string) statics (text "loopback") (new_JtagDriverLoopBack (w_fopen w) (w_xid w) (w_file w)) opts o)
    by (done || by apply last_registered).
  by apply (playback_main HLE _ _ _ _ _ (w_xid w) (w_file w) (w_fopen w) file).
Qed.

(** C3: the program is a server on the driver it is started with: when the
    class of the driver is among the registered ones, its constructor and
    its [init] succeed and the port can be bound, the program ends as the
    server on that class ends, and the clients are told the same; virtual
    calls, the other drivers and the registry do not show.  So what is shown
    for the servers on the single drivers holds for the program. *)
Theorem program_is_server {T} `{Transport T} ini mk (HC : class ini mk) w statics libraries nm new opts o argv y clients c t d d' :
  let port := m_port o `mod` 2 ^ 16 in
  main_options opts main_init = inl o → m_drvnam o = nm → nm ≠ text "udpLoopback" → nm ≠ [] →
  m_help o = false → m_target o = Some (c :: t) → listens y port →
  NoDup statics.*1 → (nm, λ argv arg, a ← new argv arg; Ret (mk a)) ∈ statics →
  new argv (Some (c :: t)) = Ret d → ini (set_jd (setDebug (m_debug o) (jd d)) d) = (Ret tt, d') →
  program w statics libraries opts argv y clients =
    let (r, s) := XvcServer_run clients (mkServer port
      (if m_setTest o then set_jd (setTestMode (m_testMode o) (jd d')) d' else d') (m_debug o) (m_maxMsg o) (m_once o) []) in
    (status_of r, closed s).
Proof.
  intros port Eo En Hu Hne Hh Et Hy Hn Hl Ed Ei.
  rewrite (program_driver w libraries ini mk HC (L := unit) (λ _ _, Throw TimeoutErr) (λ _ _, Throw TimeoutErr)
    (λ _ _, Ret tt) (λ _, inl ""%string) statics nm new opts o) by (done || by apply last_registered).
  apply (@main_runs _ _ _ _ (class_main ini) _ _ _ _ [(nm, new)] opts o argv y clients nm new c t d d'); rewrite ?En; try done.
  cbn [filter list_filter fst]. by rewrite decide_True.
Qed.
End drivers.

(** ** Instances *)

Module Program.
#[local] Existing Instance le_platform.
Import Accept.

(** There is no hardware; the file is there. *)
#[local] Instance no_mmio : Mmio unit := {| dev_rd _ d := (0, d); dev_wr _ _ d := d |}.
#[local] Instance no_tosca : Tosca unit := {|
  toscaRead _ _ d := (0, d);
  toscaWrite _ _ _ d := d;
  toscaStrToAddrSpace s := (0, s);
|}.
Definition desk : @world unit unit unit :=
  mkWorld (λ _ _, []) 1 fopen FWild (λ _ _, None) true None true [] true true 4096 tt tt tt [] true false [] true true (λ _, true).
Definition polls : nat := 9.
Definition built_in := [r_loopback desk; r_udp desk].
Definition in_reverse := [r_udp desk; r_loopback desk].
Definition no_library (file : list Z) : string + list (list Z * (list (list Z) → option (list Z) → outcome (@AnyDriver unit unit unit))) :=
  inl "cannot open shared object file"%string.
Abbreviation two := [(Session.wire, Session.client); (Session.wire, Session.client)].

Lemma names : NoDup built_in.*1.
Proof. apply (bool_decide_unpack _). by vm_compute. Qed.

(** [-v -D loopback -t run.TdoOnly.txt -p 2600 -M 1000] *)
Lemma program_plays_back_witness :
  ∃ ns, program polls desk built_in no_library tdo_options [] quiet (Some ∘ fst <$> two) = (Serves, ns) ∧
    out <$> ns = replicate 2 (greeting 1000 ++ [100; 0; 0; 0] ++ [4; 5; 6] ++ [170; 1]).
Proof.
  apply (program_plays_back polls (eq_refl : @isLE le_platform = true) desk built_in no_library "run.TdoOnly.txt" words tdo_options [] quiet 1000 two).
  - exact names.
  - left.
  - exact Session.byte_1.
  - exact words_u32.
  - reflexivity.
  - reflexivity.
  - split; reflexivity.
  - lia.
  - exists 250. reflexivity.
  - repeat split.
  - vm_compute. repeat split; lia.
  - exact both_ask.
Defined.

Lemma registration_order_witness :
  program polls desk built_in no_library tdo_options [] quiet (Some ∘ fst <$> two) =
  program polls desk in_reverse no_library tdo_options [] quiet (Some ∘ fst <$> two).
Proof.
  apply (registration_order polls desk no_library ltac:(discriminate) built_in in_reverse).
  - apply Permutation_swap.
  - exact names.
  - vm_compute. intros o [= <-]. discriminate.
Defined.

(** The same with [-s] after [-v]. *)
Lemma sniffing_invisible_witness :
  let sniffing := program polls desk built_in no_library ([(118, [])] ++ (115, []) :: tail tdo_options) [] quiet (Some ∘ fst <$> two) in
  sniffing = program polls desk built_in no_library ([(118, [])] ++ tail tdo_options) [] quiet (Some ∘ fst <$> two) ∨
  ∃ u, fst sniffing = Crashed u ∧ sniff_fault u.
Proof.
  apply (sniffing_invisible polls desk built_in no_library [(118, [])] (tail tdo_options) [] [] quiet (Some ∘ fst <$> two)).
  vm_compute. intros o [= <-]. reflexivity.
Defined.

(** The debug bridge, [-D axiDbgBridgeIP -t /dev/uio0 -M 1000]; the client
    only asks for the greeting. *)
Definition statics := [r_udp desk; r_axiDbgBridgeIP desk; r_loopback desk].
Definition bridge_options : list (Z * list Z) :=
  [(68, text "axiDbgBridgeIP"); (116, text "/dev/uio0"); (77, text "1000")].
Definition new_bridge (argv : list (list Z)) (arg : option (list Z)) : outcome (JtagDriverAxisToJtag (JtagDriverZynqAxiDbgBridgeIP unit)) :=
  d ← bridge_new [] (default [] arg) 4096 true true tt []; Ret (JtagDriverAxisToJtag_new 0 1 d).
Definition opened : JtagDriverAxisToJtag (JtagDriverZynqAxiDbgBridgeIP unit) :=
  JtagDriverAxisToJtag_new 0 1 (mkBridge (mkMap 0 4096 0) tt 1024 4 0 false 100 0 [] 0).
Definition started := snd (@bridge_init _ _ (any_bridge polls) opened).
Definition curious : net := mkNet (text "getinfo:") [] [] [] 0 true.

Definition chosen : main_opts := mkOpts 0 (Some (text "/dev/uio0")) (text "axiDbgBridgeIP") 2542 1000 false 0 false false.
Lemma bridge_chosen : main_options bridge_options main_init = inl chosen.
Proof. by vm_compute. Qed.
Lemma statics_names : NoDup statics.*1.
Proof. apply (bool_decide_unpack _). by vm_compute. Qed.
Lemma bridge_registered : (text "axiDbgBridgeIP", λ argv arg, a ← new_bridge argv arg; Ret (BridgeDriver a)) ∈ statics.
Proof. right. left. Qed.
Lemma bridge_opened : new_bridge [] (Some (47 :: text "dev/uio0")) = Ret opened.
Proof. by vm_compute. Qed.
Lemma bridge_started : @bridge_init _ _ (any_bridge polls) (set_jd (setDebug 0 (jd opened)) opened) = (Ret tt, started).
Proof. by vm_compute. Qed.

Lemma program_is_server_witness :
  program polls desk statics no_library bridge_options [] quiet [Some curious] =
    let (r, s) := @XvcServer_run _ _ (@axis_ifc _ _ (any_bridge polls)) [Some curious]
      (mkServer 2542 started 0 1000 false []) in
    (status_of r, closed s).
Proof.
  assert (Es : mkServer (m_port chosen `mod` 2 ^ 16) (if m_setTest chosen then set_jd (setTestMode (m_testMode chosen) (jd started)) started
    else started) (m_debug chosen) (m_maxMsg chosen) (m_once chosen) [] = mkServer 2542 started 0 1000 false []) by reflexivity.
  rewrite <-Es. clear Es.
  apply (program_is_server polls (H2 := any_bridge polls) bridge_init BridgeDriver (bridge_class polls) desk statics no_library
    (text "axiDbgBridgeIP") new_bridge bridge_options chosen [] quiet [Some curious] 47 (text "dev/uio0") opened started).
  - exact bridge_chosen.
  - reflexivity.
  - discriminate.
  - discriminate.
  - reflexivity.
  - reflexivity.
  - repeat split.
  - exact statics_names.
  - exact bridge_registered.
  - exact bridge_opened.
  - exact bridge_started.
Defined.
End Program.
