(* ===== verification/SelfTest.v ===== *)
(** * The self test: [-D udpLoopback]

    The program runs its UDP driver against a peer of its own, a thread that
    plays back a file.  The thread and the server share nothing but the
    network of Link.v between them; the peer is what [main] has constructed
    and initialised when it starts the thread.  From the command line to the
    replies: every client is told the words of the file, whatever the
    network loses. *)

From stdpp Require Import base numbers option list strings.
From Stdlib Require Import ZArith Lia.
From S2P Require Import Prelude Header Tap Driver LoopBack Udp Conn ConnSpec Target Player Stack Server ServerSpec Link Drivers.
#[local] Open Scope Z_scope.

(** ** The thread *)

Section thread.
Context `{Platform}.

(** [udpTestThread( loop )]: the peer that [run] makes of the object, with
    requests dropped on purpose. *)
Definition udpTestThread (loop : JtagDriverAxisToJtag Peer) : UdpLoopBack :=
  mkUdpLB (setTestMode 1 (jd loop)) (fst (tp loop)) (fresh 1500) (fresh 1500) (snd (tp loop)).

(** The query of [init] is answered by the object itself. *)
Section init.
Context {St : Type} `{Target St} (plays : St → JtagDriverLoopBack → Prop) (HP : player plays) (HLE : isLE = true).

Lemma peer_call st txb j t n hd : plays st t → le_val (take 4 txb) = mkQuery → 4 ≤ zlen txb → zlen hd = 16 →
  ∃ s', UdpLoopBack_xfer txb 4 4 0 (mkIo j (t, n) hd []) = (Ret 0, s') ∧ plays (queried st) (fst (io_tp s')) ∧ snd (io_tp s') = -1 ∧
    io_jd s' = j ∧ take 4 (io_hd s') = store32 peer_word ∧ zlen (io_hd s') = 16 ∧ (bytes hd → bytes (io_hd s')).
Proof.
  intros Hp Hm Hl Hh. destruct (play_query plays HP udp_emulMemDepth st txb 4 4 0 (mkIo j t hd [])) as (s' & E & Hp' & Hre);
    [done|done|lia|lia|cbn [io_hd]; lia|]. destruct Hre as (Ej & T4 & Lh & Bh & _). cbn [io_jd io_hd] in *.
  exists (mkIo (io_jd s') (io_tp s', -1) (io_hd s') (io_rx s')). split; [|split_and!; try done; cbn; lia].
  unfold UdpLoopBack_xfer, base_xfer, set_size, mbind, M_bind, zoom. cbn [lift gets modify id io_hd io_jd io_tp io_rx fst snd].
  rewrite !(getHdr_LE HLE), Hm by lia. change (getCmd mkQuery =? CMD_Q) with true. cbn [lift io_hd io_jd io_tp io_rx fst snd]. by rewrite E.
Qed.

Lemma peer_init st (l : JtagDriverAxisToJtag Peer) :
  plays st (fst (tp l)) → wordSize_ l = 4 → 0 ≤ retry_ l → zlen (txBuf_ l) = 2048 → bytes (txBuf_ l) →
  zlen (hdBuf_ l) = 16 → bytes (hdBuf_ l) →
  ∃ l', init l = (Ret tt, l') ∧ plays (queried st) (fst (tp l')) ∧ snd (tp l') = -1 ∧ jd l' = jd l.
Proof.
  intros Hp Hw Hr Lt Bt Lh Bh.
  destruct (setHdr_ok 4 mkQuery (txBuf_ l)) as (b & Es & L & Hh & _ & B); [done|lia|lia|].
  pose proof (header_at_val 4 mkQuery b ltac:(done) Hh) as Hm. specialize (B Bt).
  destruct (peer_call st b (jd l) (fst (tp l)) (snd (tp l)) (hdBuf_ l)) as (s' & E & Hp' & Hn & Ej & T4 & Lh' & Bh'); try done; [lia|].
  assert (Hx : xferRel 4 0 (set_txBuf b l, []) = (Ret (0, peer_word),
    (mkAxis (io_jd s') (wordSize_ l) (memDepth_ l) b (io_hd s') (bufSz_ l) (retry_ l) (xid_ l) (periodNs_ l) (io_tp s'), io_rx s'))).
  { apply (xferRel_first 4 0 0); cbn [fst snd txBuf_ set_txBuf retry_ hdBuf_]; try done; [lia| |auto|lia| |].
    - unfold call_xfer, zoom. cbn [fst snd jd tp hdBuf_ set_txBuf txBuf_ xfer peer_transport getWordSize wordSize_]. rewrite Hw.
      destruct (tp l) as [t n]. cbn [fst snd] in E. unfold Peer in *. by rewrite E.
    - by rewrite T4, (le_val_store32 HLE).
    - rewrite Hm. by left. }
  unfold init, query, mbind, M_bind. cbn [gets id]. change (getWordSize l) with (wordSize_ l). rewrite Hw, (write_tx_ok _ b l) by exact Es.
  unfold with_rx. rewrite Hx. eexists. split; [reflexivity|]. done.
Qed.
End init.

(** ** The program

    [net] and [limit] are the network of Link.v; [peer] is the other end. *)

Context {BDev FDev TDev : Type} (w : @world BDev FDev TDev) (net : nat → fate) (limit : Z).
#[local] Instance the_link : Transport Link := link_transport net limit.
Abbreviation Drv := (JtagDriverAxisToJtag Link).

Definition new_driver (peer : option UdpLoopBack) (argv : list (list Z)) (target : list Z) : outcome Drv :=
  d ← JtagDriverUdp_new (w_getopt w "m:f" argv) target (w_resolve w) (w_connect w) (w_mtu w) (w_dontfrag w) [];
  Ret (JtagDriverAxisToJtag_new 0 (w_xid w) (mkLink d peer [] 0)).
Definition new_loop : option (list Z) → Z → outcome (JtagDriverAxisToJtag Peer) :=
  new_UdpLoopBack (w_fopen w) (w_xid w) (w_file w) (w_socket w) (w_reuse w) (w_bind w).

(** [JtagDriverUdp::init] *)
Definition link_init : M Drv unit := init ;; d ← gets getMemDepth; mret tt.
#[local] Instance link_main : MainDriver Drv := axis_main link_init.

(** The peer that the thread runs: the object after [setDebug] and [init]. *)
Definition thread_peer (o : main_opts) : option UdpLoopBack :=
  match new_loop (m_target o) 2543 with
  | Ret l => Some (udpTestThread (snd (init (set_jd (setDebug (m_debug o) (jd l)) l))))
  | _ => None
  end.

Definition self_test (opts : list (Z * list Z)) argv y clients : status * list Conn.net :=
  match main_options opts main_init with
  | inl o => main (new_driver (thread_peer o)) new_loop loop_init
      (λ _, inl ""%string) [] opts argv y clients
  | inr code => (Exit code, [])
  end.

Context (HLE : isLE = true) (Hnet : ∀ t, net t ≠ Late) (Hlow : 1444 ≤ limit ≤ 1500) (Htwo : ∀ t, (2 ≤ prompts net 6 t)%nat).

(** The loop-back object opens its file, answers itself and is handed to the
    thread. *)
Lemma thread_plays o file ws : m_target o = Some (text file) → w_fopen w file = Some (tdo_file ws) → text file ≠ [] →
  strstr (text file) (text "TdoOnly") = true → Forall is_u32 ws →
  w_socket w = true → w_reuse w = true → w_bind w 2543 = true →
  ∃ l, new_loop (m_target o) 2543 = Ret l ∧ loop_init (m_debug o) l = Ret tt ∧
    ∃ u, thread_peer o = Some u ∧ peer_ok u ∧ plays_back ws ws (u_lb u).
Proof.
  intros Et Ef Hne Htd Hw Hs Hr Hb.
  destruct (opened_plays ws file (tdo_file ws) (w_file w) Hne Htd (tdo_file_script ws Hw)) as (lb & E & Hp).
  assert (El : new_loop (m_target o) 2543 = Ret (JtagDriverAxisToJtag_new 0 (w_xid w) (lb, -1))).
  { unfold new_loop, new_UdpLoopBack, new_JtagDriverLoopBack. rewrite Et. change (default [] (Some (text file))) with (text file).
    rewrite of_text_text, Ef, E, Hs, Hr, Hb. done. }
  set (l := JtagDriverAxisToJtag_new 0 (w_xid w) (lb, -1)) in *.
  destruct (peer_init (plays_back ws) (playback_player ws) HLE ws (set_jd (setDebug (m_debug o) (jd l)) l)) as (l' & Ei & Hp' & Hn & Ej);
    [exact Hp|done|done|cbn; rewrite fresh_length; done|apply fresh_bytes|done|by apply Forall_replicate|].
  exists l. split; [exact El|]. split; [exact (f_equal fst Ei)|]. exists (udpTestThread l'). split.
  { unfold thread_peer. rewrite El. exact (f_equal (λ x, Some (udpTestThread (snd x))) Ei). }
  split; [|exact Hp'].
  split; [cbn; rewrite fresh_length; split; [done|apply fresh_bytes]..|].
  exact (plays_ok _ (playback_player ws) _ _ Hp').
Qed.

#[local] Instance the_laws : TransportLaws Link := link_laws net limit HLE Hnet (proj2 Hlow).
Abbreviation linked0 ws M := (linked0 (plays_back ws) M).

(** The driver, connected to the peer, as [main] hands it to the server. *)
Lemma driver_started ws u debug d : is_byte (w_xid w) → peer_ok u → plays_back ws ws (u_lb u) → Z.land debug 0x100 = 0 →
  let a := JtagDriverAxisToJtag_new 0 (w_xid w) (mkLink d (Some u) [] 0) in
  ∃ a', link_init (set_jd (setDebug debug (jd a)) a) = (Ret tt, a') ∧
    ∀ flags, shifts (linked0 ws (mtu_ d)) ws a' ∧ shifts (linked0 ws (mtu_ d)) ws (drv_setTestMode flags a').
Proof.
  intros Hx Hu Hp Hs a.
  assert (Ha : shifts (linked0 ws (mtu_ d)) ws a).
  { split; [split; [apply axis_new_ok; [done|]|done]|].
    - split; [done|]. by intros u' [= <-].
    - split; [done|]. split; [done|]. split; [done|]. by exists u. }
  assert (Ha' : shifts (linked0 ws (mtu_ d)) ws (set_jd (setDebug debug (jd a)) a)).
  { apply shifts_set_jd; [done| |done]. unfold getSniff. cbn. by rewrite Hs. }
  pose proof (link_shifter net limit HLE Hnet (proj2 Hlow) (plays_back ws) (playback_player ws) ltac:(done) (mtu_ d) (proj1 Hlow)
    (λ t dr c, answered_two net Hnet 6 t dr c ltac:(lia) (Htwo t))) as HS.
  destruct (shifts_query _ _ _ _ _ HS ws _ Ha') as (a1 & Eq & Hok & Hl & _).
  exists a1. split; [unfold link_init, init, the_link, mbind, M_bind; by rewrite Eq|].
  assert (H1 : shifts (linked0 ws (mtu_ d)) ws a1) by (split; [done|exact (sh_idle _ _ _ _ _ HS ws a1 Hl)]).
  intros flags. split; [exact H1|]. apply (shifts_set_jd (linked0 ws (mtu_ d)) ws (setTestMode flags (jd a1)) a1); [done|apply Hok|exact H1].
Qed.

(** C6: the whole program with its own test peer, from the command line:
    [-D udpLoopback -t file].  It opens the file of TDO words, starts the
    peer and queries it across the network, binds the port and serves every
    sequence of clients that send valid requests, as long as the words
    suffice; whatever requests and replies are lost, if two of any six
    transmissions come through in time each word is handed out exactly once
    and in order, every session from the top of the file, and the program
    waits for the next client. *)
Theorem self_test_plays file ws d opts argv y M clients : let limit' := supported M 720 (wrap32 (mtu_ d - 4) / 2) in
  is_byte (w_xid w) → Forall is_u32 ws → w_fopen w file = Some (tdo_file ws) → strstr (text file) (text "TdoOnly") = true →
  w_socket w = true → w_reuse w = true → w_bind w 2543 = true →
  JtagDriverUdp_new (w_getopt w "m:f" argv) (text "localhost:2543") (w_resolve w) (w_connect w) (w_mtu w) (w_dontfrag w) [] = Ret d →
  command opts (text "udpLoopback") (text file) M → 1 ≤ M ≤ 2 ^ 17 → (4 | limit') →
  listens y (default 2542 (last_arg 112 opts ≫= scan_i) `mod` 2 ^ 16) → thread_ok y = true →
  @all_takes _ (playback ws) M ws clients → Forall (asks M) clients →
  ∃ ns, self_test opts argv y (Some ∘ fst <$> clients) = (Serves, ns) ∧
    out <$> ns = snd (@all_replies _ (playback ws) M ws clients).
Proof.
  intros limit' Hx Hws Hf Htd Hso Hre Hbi Ed [C1 C2 C3 C4 C5 C6 C7 C8] HM Hg (Y1 & Y2 & Y3 & Y4) Hth Hab Hc.
  destruct (main_options_says opts C1) as (o & Eo & Hs & _).
  pose proof (says_drvnam _ _ Hs) as Ho1. pose proof (says_target _ _ Hs) as Ho2. pose proof (says_maxMsg _ _ Hs) as Ho3.
  pose proof (says_help _ _ Hs) as Ho4. pose proof (says_once _ _ Hs) as Ho5. pose proof (says_debug _ _ Hs C8) as Ho6.
  pose proof (says_port _ _ Hs) as Ho7. rewrite C2 in Ho1. rewrite C3 in Ho2. rewrite C4 in Ho3. rewrite C5 in Ho4. rewrite C6 in Ho5.
  rewrite C7, Z.add_0_r in Ho6. cbn [default] in *. rewrite <-Ho7 in Y3. clear Ho7 Hs.
  assert (Hne : text file ≠ []) by (intros E; by rewrite E in Htd).
  assert (Hdbg : Z.land (m_debug o) 0x100 = 0) by (rewrite Ho6; apply land_256; unfold count in *; lia).
  destruct (thread_plays o file ws Ho2 Hf Hne Htd Hws Hso Hre Hbi) as (l & El & Ei & u & Eu & Hu & Hp).
  destruct (driver_started ws u (m_debug o) d Hx Hu Hp Hdbg) as (a' & Ea & Ha). specialize (Ha (m_testMode o)).
  unfold self_test. rewrite Eo, Eu. unfold main. rewrite Eo. unfold main_driver. rewrite decide_True, Ho4 by done.
  unfold new_driver. rewrite Ed. cbn [mbind outcome_bind]. rewrite El. cbn [mbind outcome_bind].
  unfold main_setup. rewrite Ei, Hth. cbn [mbind outcome_bind drv_init drv_setDebug link_main axis_main]. rewrite Ea. cbn [mbind outcome_bind].
  unfold XvcServer_new, SockSd_new. rewrite Y1, Y2, Y3, Y4. cbn [mbind outcome_bind negb]. rewrite Ho3, Ho5.
  set (s := mkServer _ _ _ _ _ _).
  assert (Hd : shifts (linked0 ws (mtu_ d)) ws (srv_drv s)) by (subst s; cbn [srv_drv]; destruct (m_setTest o); apply Ha).
  pose proof (link_served net limit HLE Hnet (proj2 Hlow) (plays_back ws) (playback_player ws) ltac:(done) (mtu_ d) (proj1 Hlow) Htwo
    clients ws s Hd ltac:(done) Hg eq_refl Hab Hc) as Hr.
  change (maxMsgSize_ s) with M in Hr. destruct (all_replies M ws clients) as [ws' os]. destruct Hr as (s' & E & _ & Eos).
  change (@axis_ifc _ _ the_link) with (@axis_ifc _ _ (link_transport net limit)). rewrite E. by exists (closed s').
Qed.
End thread.

(** ** An instance

    [-D udpLoopback -t run.TdoOnly.txt -M 1000] on a network where only
    every third exchange succeeds. *)
Module Run.
#[local] Existing Instance le_platform.
Import Accept Program OverUdp.

Definition test_options : list (Z * list Z) :=
  [(68, text "udpLoopback"); (116, text "run.TdoOnly.txt"); (77, text "1000")].

Lemma self_test_plays_witness :
  ∃ ns, self_test desk lossy 1472 test_options [] quiet (Some ∘ fst <$> two) = (Serves, ns) ∧
    out <$> ns = replicate 2 (greeting 1000 ++ [100; 0; 0; 0] ++ [4; 5; 6] ++ [170; 1]).
Proof.
  apply (self_test_plays desk lossy 1472 (eq_refl : @isLE le_platform = true) lossy_in_time ltac:(lia) lossy_enough
    "run.TdoOnly.txt" words (mkUdp 500 1450 [] []) test_options [] quiet 1000 two).
  - exact Session.byte_1.
  - exact words_u32.
  - reflexivity.
  - reflexivity.
  - reflexivity.
  - reflexivity.
  - reflexivity.
  - reflexivity.
  - split; reflexivity.
  - lia.
  - exists 180. reflexivity.
  - repeat split.
  - reflexivity.
  - vm_compute. repeat split; lia.
  - exact both_ask.
Defined.
End Run.
