(* ===== verification/Trace.v ===== *)
(** * What the program prints ([prwrds], [dumpInfo], the debug output of
    [sendVectors], the exceptions and the usage in xvcSrv.cc)

    With [-v -v] the AxisToJtag driver prints the vectors it sends and
    receives, word by word, as records for the VHDL test bench.  The output
    of a function is the list of what its calls of [fprintf] print.  It is
    shown that the words of the records are exactly the vectors, and
    where the number of bits in them is wrong. *)

From stdpp Require Import base numbers option list strings pretty.
From Stdlib Require Import ZArith Lia Ascii.
From S2P Require Import Prelude Header Tap Driver LoopBack Server.
#[local] Open Scope Z_scope.

Inductive FILE := Stdout | Stderr.
Definition output : Type := list (FILE * list ascii).

Definition quote : ascii := ascii_of_nat 34.
Definition newline : ascii := ascii_of_nat 10.
Definition str (s : string) : list ascii := String.list_ascii_of_string s.
(** [%d] *)
Definition dec (z : Z) : list ascii := str (pretty z).

(** ** [prwrds] *)

(** [while ( --i >= 0 ) fprintf( f, "%02x", p[i] );] from [i = n] on; the
    pointer is at the offset [off] of [p]. *)
Fixpoint pr_down (f : FILE) (p : list Z) (off : Z) (n : nat) : outcome output :=
  match n with
  | O => Ret []
  | S i =>
      b ← byte_at (off + Z.of_nat i) p;
      rest ← pr_down f p off i;
      Ret ((f, hex_pad 2 b) :: rest)
  end.

(** [for ( i = wsz; i > nbytes; i-- ) fprintf( f, "00" );] and the loop above. *)
Definition pr_word (f : FILE) (p : list Z) (off wsz nbytes : Z) : outcome output :=
  digits ← pr_down f p off (Z.to_nat (Z.min wsz nbytes));
  Ret (replicate (Z.to_nat (wsz - nbytes)) (f, str "00") ++ digits).

(** Both pointers are at the offset [off]. *)
Definition prwrds (f : FILE) (tms : list Z) (tdi : option (list Z)) (off wsz nbits : Z) : outcome output :=
  let nbytes := Z.quot (nbits + 7) 8 in
  let pre := str (if tdi is Some _ then "TMS" else "TDO") in
  t ← pr_word f tms off wsz nbytes;
  d ← match tdi with
      | Some tdi =>
          d ← pr_word f tdi off wsz nbytes;
          Ret ((Stderr, quote :: str ", TDI => x" ++ [quote]) :: d)
      | None => Ret []
      end;
  Ret ((f, str "( " ++ pre ++ str " => x" ++ [quote]) :: t ++ d ++
       [(Stderr, quote :: str ", nbits => " ++ dec nbits ++ str ")," ++ [newline])]).

(** ** The debug output of [sendVectors] *)

(** [for ( idx=0; idx < wholeWordBytes; idx += wsz )]; the result is [idx]
    and the output. *)
Fixpoint print_words (fuel : nat) (wsz whole idx : Z) (tms : list Z) (tdi : option (list Z)) : outcome (Z * output) :=
  if idx <? whole then
    match fuel with
    | O => NoFuel
    | S fuel =>
        l ← prwrds Stderr tms tdi idx wsz (8 * wsz);
        r ← print_words fuel wsz whole (wrap32 (idx + wsz)) tms tdi;
        Ret (fst r, l ++ snd r)
    end
  else Ret (idx, []).

(** Before the transfer with TMS and TDI, after it with TDO alone. *)
Definition print_vectors (wsz bits : Z) (tms : list Z) (tdi : option (list Z)) : outcome output :=
  let bytesCeil := wrap64 (bits + 8 - 1) / 8 in
  let wholeWords := wrap32 (bytesCeil / wsz) in
  let wholeWordBytes := wrap32 (wholeWords * wsz) in
  let bytesLeft := wrap32 (bytesCeil - wholeWordBytes) in
  let lastbits := int_of (bits - 8 * wholeWordBytes) in
  r ← print_words (Z.to_nat wholeWordBytes) wsz wholeWordBytes 0 tms tdi;
  if negb (bytesLeft =? 0) then
    l ← prwrds Stderr tms tdi (fst r) wsz lastbits;
    Ret (snd r ++ l)
  else Ret (snd r).

Section trace.
Context {T : Type}.

(** The first line; [%ld] and [%d] of numbers that fit. *)
Definition send_line (wsz bits : Z) : list ascii :=
  let bytesCeil := wrap64 (bits + 8 - 1) / 8 in
  let wordCeilBytes := wrap32 (wrap64 (wrap64 (bytesCeil + wsz - 1) / wsz * wsz)) in
  let bytesTot := wrap32 (wsz + 2 * wordCeilBytes) in
  str "sendVec -- bits " ++ dec bits ++ str ", bytes " ++ dec bytesCeil ++ str ", bytesTot " ++ dec bytesTot ++ [newline].

(** [sendVectors] and what it prints: an exception leaves out the part after
    the transfer. *)
Definition sendVectors_trace `{Platform} `{Transport T} (bits : Z) (tms tdi tdo : list Z) (a : JtagDriverAxisToJtag T) :
    (outcome (list Z) * JtagDriverAxisToJtag T) * outcome output :=
  let r := sendVectors bits tms tdi tdo a in
  let wsz := getWordSize a in
  (r,
   if 1 <? getDebug (jd a) then
     sent ← print_vectors wsz bits tms (Some tdi);
     rcvd ← match fst r with Ret tdo => print_vectors wsz bits tdo None | _ => Ret [] end;
     Ret ((Stderr, send_line wsz bits) :: sent ++ rcvd)
   else Ret []).

(** ** [dumpInfo] *)
Definition dumpInfo `{Transport T} (f : FILE) (a : JtagDriverAxisToJtag T) : output :=
  [(f, str "Word size:                  " ++ dec (int_of (getWordSize a)) ++ [newline]);
   (f, str "Target Memory Depth (bytes) " ++ dec (int_of (getWordSize a * getMemDepth a)) ++ [newline]);
   (f, str "Max. Vector Length  (bytes) " ++ dec (getMaxVectorSize (getWordSize a) (tp a)) ++ [newline]);
   (f, str "TCK Period             (ns) " ++ dec (getPeriodNs a) ++ [newline])].
End trace.

(** ** What the program says when it cannot start *)

Definition what (strerror : string) (e : exn) : list ascii :=
  match e with
  | SysErr prefix => str prefix ++ str ": " ++ str strerror
  | ProtoErr msg => str "Protocol error: " ++ str msg
  | TimeoutErr => str "Timeout error; too many retries failed"
  | RuntimeErr msg => str msg
  end.

Section usage.
Context {D : Type}.

(** The format is [before], [%s] and [after]. *)
Definition printRegisteredDrivers (f : FILE) (before after : list ascii) (entries : list (RegEntry D)) : output :=
  (λ e, (f, before ++ str (of_text (name_ e)) ++ after)) <$> entries.

Definition usage (nm : list ascii) (entries : list (RegEntry D)) : output :=
  let line l := (Stderr, str l ++ [newline]) in
  (Stderr, str "Usage: " ++ nm ++ str " [-v{v}] [-Vh] [-D <driver>] [-p <port>] -t <target> [ -- <driver_options>]" ++ [newline]) ::
  [line "  -t <target> : contact target (depends on driver; e.g., <ip[:port]>)"%string;
   line "  -h          : this message"%string;
   line "  -D <driver> : use transport driver 'driver'"%string;
   line "                   built-in drivers:"%string] ++
  printRegisteredDrivers Stderr (str "                   '") (str "'" ++ [newline]) entries ++
  [line "                   'udpLoopback'"%string;
   (Stderr, str "                the default driver is: '" ++ str (of_text DEFAULTDRVNAME) ++ str "'" ++ [newline]);
   line "  -p <port>   : bind to TCP port <port> (default: 2542)"%string;
   line "  -M          : max XVC vector size (default 32768)"%string;
   line "  -v          : verbose (more 'v's increase verbosity)"%string;
   line "  -V          : print version information"%string;
   line "  -T <mode>   : set test mode/flags"%string].

(** The reason and the usage, when no driver could be made. *)
Definition complaint (nm : list ascii) (strerror : string) (entries : list (RegEntry D)) (e : exn) : output :=
  (Stderr, what strerror e ++ [newline; newline]) :: usage nm entries.

(** Every driver that is registered is named. *)
Lemma usage_lists nm entries e : e ∈ entries →
  (Stderr, str "                   '" ++ str (of_text (name_ e)) ++ str "'" ++ [newline]) ∈ usage nm entries.
Proof.
  intros He. unfold usage. right. apply elem_of_app. right. apply elem_of_app. left.
  apply list_elem_of_fmap. by exists e.
Qed.
End usage.

(** The defaults in the text are those of [main]. *)
Lemma usage_defaults : m_port main_init = 2542 ∧ m_maxMsg main_init = 32768 ∧ m_drvnam main_init = DEFAULTDRVNAME.
Proof. done. Qed.

(** ** The records can be read back *)

(** All that goes to [stderr], in order. *)
Definition text_of (l : output) : list ascii := concat (snd <$> l).

(** A record: the word, most significant digit first, and the number of bits. *)
Definition record_of (wsz : Z) (t : Z) (d : option Z) (nbits : Z) : list ascii :=
  let digits v := hex_pad (Z.to_nat (2 * wsz)) v in
  str "( " ++ str (if d is Some _ then "TMS" else "TDO") ++ str " => x" ++ [quote] ++ digits t ++
  match d with Some d => quote :: str ", TDI => x" ++ [quote] ++ digits d | None => [] end ++
  quote :: str ", nbits => " ++ dec nbits ++ str ")," ++ [newline].

Lemma hex_pad_app m k a b : 0 ≤ a → 0 ≤ b < 16 ^ Z.of_nat k →
  hex_pad (m + k) (a * 16 ^ Z.of_nat k + b) = hex_pad m a ++ hex_pad k b.
Proof.
  revert b. induction k as [|k IH]; intros b Ha Hb.
  - rewrite Nat.add_0_r, Z.pow_0_r in *. cbn [hex_pad]. rewrite app_nil_r. f_equal. lia.
  - rewrite Nat.add_succ_r. cbn [hex_pad]. rewrite app_assoc. rewrite Nat2Z.inj_succ, Z.pow_succ_r in * by lia.
    replace ((a * (16 * 16 ^ Z.of_nat k) + b) / 16) with (a * 16 ^ Z.of_nat k + b / 16) by (Z.div_mod_to_equations; lia).
    rewrite IH by (Z.div_mod_to_equations; lia). f_equal. do 2 f_equal. Z.div_mod_to_equations. lia.
Qed.

Lemma hex_pad_0 n : hex_pad n 0 = replicate n "0"%char.
Proof.
  induction n as [|n IH]; [done|]. cbn [hex_pad]. change (0 / 16) with 0. rewrite IH.
  change [hex_digit (0 `mod` 16)] with (replicate 1 "0"%char). rewrite <-replicate_add. f_equal. lia.
Qed.

Lemma le_val_app l r : le_val (l ++ r) = le_val l + 256 ^ zlen l * le_val r.
Proof.
  induction l as [|b l IH]; [cbn; lia|]. cbn [app le_val length]. rewrite IH, Nat2Z.inj_succ, Z.pow_succ_r by lia. lia.
Qed.

Lemma le_val_snoc l b : le_val (l ++ [b]) = b * 256 ^ zlen l + le_val l.
Proof. rewrite le_val_app. cbn [le_val]. lia. Qed.

Lemma text_of_app l l' : text_of (l ++ l') = text_of l ++ text_of l'.
Proof. unfold text_of. by rewrite fmap_app, concat_app. Qed.

Lemma pr_down_text f p off n : bytes p → 0 ≤ off → off + Z.of_nat n ≤ zlen p →
  ∃ l, pr_down f p off n = Ret l ∧ text_of l = hex_pad (2 * n) (le_val (take n (drop (Z.to_nat off) p))).
Proof.
  intros Hb Ho. induction n as [|n IH]; intros Hl; [by exists []|].
  destruct IH as (l & E & El); [lia|]. set (q := drop (Z.to_nat off) p) in *.
  destruct (lookup_lt_is_Some_2 q n) as [b Eb]; [subst q; rewrite length_drop; lia|].
  assert (Hbyte : byte_at (off + Z.of_nat n) p = Ret b).
  { apply byte_at_ok; [lia|]. subst q. rewrite lookup_drop in Eb. rewrite <-Eb. f_equal. lia. }
  cbn [pr_down]. rewrite Hbyte, E. cbn [mbind outcome_bind]. eexists. split; [reflexivity|].
  change (text_of ((f, hex_pad 2 b) :: l)) with (hex_pad 2 b ++ text_of l). rewrite El, (take_S_r _ _ _ Eb), le_val_snoc.
  assert (Bq : bytes q) by (subst q; by apply bytes_drop).
  pose proof (proj1 (Forall_lookup _ _) Bq n b Eb) as Hb'. unfold is_byte in Hb'.
  assert (Ln : length (take n q) = n) by (apply lookup_lt_Some in Eb; rewrite length_take; lia). rewrite Ln.
  pose proof (le_val_bounds (take n q) (bytes_take n q Bq)) as Hv. rewrite Ln in Hv.
  replace (256 ^ Z.of_nat n) with (16 ^ Z.of_nat (2 * n)) in *.
  2:{ change 256 with (16 ^ 2). rewrite <-Z.pow_mul_r by lia. f_equal. lia. }
  replace (2 * S n)%nat with (2 + 2 * n)%nat by lia. rewrite hex_pad_app by lia. done.
Qed.

(** A word of [n] bytes, filled up with zeros to [wsz]. *)
Definition word_at (p : list Z) (off n : Z) : Z := le_val (take (Z.to_nat n) (drop (Z.to_nat off) p)).

Lemma pr_word_text f p off wsz n : bytes p → 0 ≤ off → 1 ≤ n ≤ wsz → off + n ≤ zlen p →
  ∃ l, pr_word f p off wsz n = Ret l ∧ text_of l = hex_pad (Z.to_nat (2 * wsz)) (word_at p off n).
Proof.
  intros Hb Ho Hn Hl. unfold pr_word. rewrite Z.min_r by lia.
  destruct (pr_down_text f p off (Z.to_nat n) Hb Ho) as (l & -> & El); [lia|]. cbn [mbind outcome_bind].
  eexists. split; [reflexivity|]. rewrite text_of_app, El.
  assert (Ez : ∀ k, text_of (replicate k (f, str "00")) = hex_pad (2 * k) 0).
  { intros k. rewrite hex_pad_0. induction k as [|k IH]; [done|]. replace (2 * S k)%nat with (2 + 2 * k)%nat by lia.
    cbn [replicate Nat.add]. change (text_of ((f, str "00") :: ?r)) with (str "00" ++ text_of r). by rewrite IH. }
  rewrite Ez. set (q := take (Z.to_nat n) (drop (Z.to_nat off) p)).
  assert (Bq : bytes q) by (subst q; by apply bytes_take, bytes_drop).
  pose proof (le_val_bounds q Bq) as Hv. assert (Lq : zlen q = n) by (subst q; rewrite length_take, length_drop; lia).
  rewrite Lq in Hv. rewrite <-hex_pad_app; [|lia|].
  - f_equal; lia.
  - replace (16 ^ Z.of_nat (2 * Z.to_nat n)) with (256 ^ n); [exact Hv|]. change 256 with (16 ^ 2). rewrite <-Z.pow_mul_r by lia. f_equal. lia.
Qed.

Lemma prwrds_text p1 p2 off wsz nbits : let n := (nbits + 7) / 8 in
  bytes p1 → (∀ p, p2 = Some p → bytes p ∧ off + n ≤ zlen p) → 0 ≤ off → 1 ≤ nbits → n ≤ wsz → off + n ≤ zlen p1 →
  ∃ l, prwrds Stderr p1 p2 off wsz nbits = Ret l ∧
    text_of l = record_of wsz (word_at p1 off n) ((λ p, word_at p off n) <$> p2) nbits.
Proof.
  intros n B1 B2 Ho Hn Hw L1. assert (1 ≤ n) by (subst n; Z.div_mod_to_equations; lia). unfold prwrds.
  rewrite Z.quot_div_nonneg by lia. fold n.
  destruct (pr_word_text Stderr p1 off wsz n B1 Ho ltac:(lia) L1) as (l1 & -> & E1). cbn [mbind outcome_bind].
  destruct p2 as [p|]; cbn [fmap option_fmap option_map].
  - destruct (B2 p eq_refl) as [Bp Lp]. destruct (pr_word_text Stderr p off wsz n Bp Ho ltac:(lia) Lp) as (l2 & -> & E2).
    cbn [mbind outcome_bind]. eexists. split; [reflexivity|].
    change (text_of (?x :: ?l)) with (snd x ++ text_of l). rewrite !text_of_app. unfold record_of. rewrite <-E1, <-E2.
    change (text_of (?x :: ?l)) with (snd x ++ text_of l). cbn [snd]. change (text_of []) with (@nil ascii). rewrite app_nil_r.
    rewrite <-!app_assoc. cbn [app]. rewrite <-!app_assoc. done.
  - eexists. split; [reflexivity|]. change (text_of (?x :: ?l)) with (snd x ++ text_of l). rewrite !text_of_app. unfold record_of. rewrite <-E1.
    change (text_of [?x]) with (snd x ++ []). change (text_of []) with (@nil ascii). cbn [snd app]. rewrite app_nil_r.
    by rewrite <-?app_assoc.
Qed.

(** ** The records of a vector *)

Record shifted := Shifted { s_tms : Z; s_tdi : option Z; s_bits : Z }.

Definition show (wsz : Z) (r : shifted) : list ascii := record_of wsz (s_tms r) (s_tdi r) (s_bits r).

(** The [i]-th: a whole word, or what is left at the end. *)
Definition nth_record (wsz bits : Z) (p : list Z) (d : option (list Z)) (i : Z) : shifted :=
  let n := (bits + 7) / 8 in
  let word p := word_at p (wsz * i) (Z.min wsz (n - wsz * i)) in
  Shifted (word p) (word <$> d) (if wsz * i + wsz <=? n then 8 * wsz else bits - 8 * (wsz * i)).

Definition records (wsz bits : Z) (p : list Z) (d : option (list Z)) : list shifted :=
  nth_record wsz bits p d <$> seqZ 0 (((bits + 7) / 8 + wsz - 1) / wsz).

Definition records_text (wsz bits : Z) (p : list Z) (d : option (list Z)) : list ascii :=
  concat (show wsz <$> records wsz bits p d).

(** The words put together again. *)
Definition unwords (wsz : Z) (ws : list Z) : Z := foldr (λ w acc, w + 256 ^ wsz * acc) 0 ws.

Definition total_bits (l : list shifted) : Z := foldr (λ r acc, s_bits r + acc) 0 l.

(** The vectors hold [n] bytes. *)
Definition filled (n : Z) (p : list Z) : Prop := bytes p ∧ n ≤ zlen p.

Section vector.
Context (wsz bits : Z) (p : list Z) (d : option (list Z)).
Context (Hw : 4 ≤ wsz ≤ 16) (Hb : 1 ≤ bits ≤ 2 ^ 20).
Let n := (bits + 7) / 8.
Context (Hp : filled n p) (Hd : ∀ q, d = Some q → filled n q).

Lemma record_text i k nbits : 0 ≤ i → 1 ≤ nbits → k = (nbits + 7) / 8 → k ≤ wsz → wsz * i + k ≤ n →
  k = Z.min wsz (n - wsz * i) → nbits = (if wsz * i + wsz <=? n then 8 * wsz else bits - 8 * (wsz * i)) →
  ∃ l, prwrds Stderr p d (wsz * i) wsz nbits = Ret l ∧ text_of l = show wsz (nth_record wsz bits p d i).
Proof.
  intros Hi Hn -> Hk Hl Em En. destruct Hp as [Bp Lp].
  destruct (prwrds_text p d (wsz * i) wsz nbits) as (l & E & El); [done|..|nia|lia|lia|lia|].
  { intros q Eq. destruct (Hd q Eq). split; [done|lia]. }
  exists l. split; [done|]. rewrite El. unfold show, nth_record. cbn [s_tms s_tdi s_bits]. fold n. by rewrite <-Em, <-En.
Qed.

Lemma print_words_text m : ∀ fuel k, (m ≤ fuel)%nat → 0 ≤ k → wsz * (k + Z.of_nat m) ≤ n →
  ∃ l, print_words fuel wsz (wsz * (k + Z.of_nat m)) (wsz * k) p d = Ret (wsz * (k + Z.of_nat m), l) ∧
    text_of l = concat (show wsz <$> (nth_record wsz bits p d <$> seqZ k (Z.of_nat m))).
Proof.
  assert (n ≤ 2 ^ 17) by (subst n; Z.div_mod_to_equations; lia).
  induction m as [|m IH]; intros fuel k Hf Hk Hl.
  - rewrite Z.add_0_r. exists []. split; [|done]. destruct fuel; cbn [print_words]; by rewrite Z.ltb_irrefl.
  - destruct fuel as [|fuel]; [lia|]. cbn [print_words]. rewrite (proj2 (Z.ltb_lt _ _)) by nia.
    destruct (record_text k wsz (8 * wsz)) as (l1 & E1 & T1); [done|lia|Z.div_mod_to_equations; lia|nia..| |].
    { zbool; nia. }
    rewrite E1. cbn [mbind outcome_bind]. rewrite wrap32_small by (unfold is_u32; nia).
    replace (wsz * k + wsz) with (wsz * (k + 1)) by lia. replace (k + Z.of_nat (S m)) with (k + 1 + Z.of_nat m) by lia.
    destruct (IH fuel (k + 1)) as (l2 & -> & T2); [lia..|]. cbn [mbind outcome_bind fst snd].
    exists (l1 ++ l2). split; [done|]. rewrite text_of_app, T1, T2. rewrite (seqZ_cons k) by lia.
    cbn [fmap list_fmap concat]. do 6 f_equal; lia.
Qed.

Lemma print_vectors_text : ∃ l, print_vectors wsz bits p d = Ret l ∧ text_of l = records_text wsz bits p d.
Proof.
  destruct (send_sizes bits wsz Hb Hw) as (E1 & E2 & E3 & E4 & E5 & E6 & E7 & Hn). fold n in E1, E4, E6, Hn.
  unfold print_vectors. rewrite E1. cbv zeta. rewrite E4, E6. set (q := n / wsz).
  pose proof (Z.div_mod n wsz ltac:(lia)) as Hq. pose proof (Z.mod_pos_bound n wsz ltac:(lia)) as Hr. fold q in Hq.
  assert (0 ≤ q) by (subst q; apply Z.div_pos; lia).
  destruct (print_words_text (Z.to_nat q) (Z.to_nat (wsz * q)) 0) as (l1 & P1 & T1); [nia|lia|lia|].
  rewrite Z2Nat.id, Z.add_0_l, Z.mul_0_r in P1 by lia. rewrite P1. rewrite Z2Nat.id in T1 by lia.
  cbn [mbind outcome_bind fst snd]. unfold records_text, records. fold n.
  destruct (Z.eqb_spec (n `mod` wsz) 0) as [Er|Er]; cbn [negb].
  - exists l1. split; [done|]. rewrite T1. assert ((n + wsz - 1) / wsz = q) as ->; [|done].
    symmetry. apply Z.div_unique with (wsz - 1); lia.
  - assert (8 * n - 7 ≤ bits ≤ 8 * n) by (subst n; Z.div_mod_to_equations; lia).
    replace (int_of (bits - 8 * (wsz * q))) with (bits - 8 * (wsz * q)).
    2:{ unfold int_of. rewrite wrap32_small by (unfold is_u32; lia). by zbool. }
    destruct (record_text q (n `mod` wsz) (bits - 8 * (wsz * q))) as (l2 & P2 & T2); [done|lia| |lia|lia|lia| |].
    { Z.div_mod_to_equations. lia. }
    { zbool; lia. }
    rewrite P2. cbn [mbind outcome_bind]. exists (l1 ++ l2). split; [done|]. rewrite text_of_app, T1, T2.
    assert ((n + wsz - 1) / wsz = q + 1) as ->.
    { symmetry. apply Z.div_unique with (n `mod` wsz - 1); lia. }
    rewrite seqZ_app, !fmap_app, concat_app by lia. f_equal. rewrite Z.add_0_l, (seqZ_cons q 1), (seqZ_nil _ (Z.pred 1)) by lia. cbn [fmap list_fmap concat].
    by rewrite app_nil_r.
Qed.

(** The words from the [k]-th on are the rest of the vector. *)
Lemma unwords_from q : filled n q → ∀ m k, 0 ≤ k → k + Z.of_nat m = (n + wsz - 1) / wsz →
  unwords wsz ((λ i, word_at q (wsz * i) (Z.min wsz (n - wsz * i))) <$> seqZ k (Z.of_nat m)) =
  le_val (take (Z.to_nat (n - wsz * k)) (drop (Z.to_nat (wsz * k)) q)).
Proof.
  intros [Bq Lq]. assert (1 ≤ n) by (subst n; Z.div_mod_to_equations; lia).
  assert (Hc : n ≤ wsz * ((n + wsz - 1) / wsz) < n + wsz) by (Z.div_mod_to_equations; lia).
  induction m as [|m IH]; intros k Hk Em.
  - rewrite seqZ_nil by lia. replace (Z.to_nat (n - wsz * k)) with 0%nat by nia. done.
  - rewrite seqZ_cons by lia. replace (Z.pred (Z.of_nat (S m))) with (Z.of_nat m) by lia. cbn [fmap list_fmap].
    unfold unwords. cbn [foldr]. fold (unwords wsz). rewrite <-Z.add_1_r.
    change (foldr _ 0 ?l) with (unwords wsz l). rewrite IH by lia. unfold word_at.
    assert (wsz * k < n) by nia. set (r := drop (Z.to_nat (wsz * k)) q).
    destruct (Z.le_gt_cases (wsz * (k + 1)) n) as [Hl|Hl].
    + rewrite Z.min_l by lia. replace (Z.to_nat (n - wsz * k)) with (Z.to_nat wsz + Z.to_nat (n - wsz * (k + 1)))%nat by lia.
      rewrite <-take_take_drop, le_val_app. f_equal.
      assert (zlen (take (Z.to_nat wsz) r) = wsz) as -> by (subst r; rewrite length_take, length_drop; lia).
      subst r. rewrite drop_drop. do 4 f_equal. lia.
    + rewrite Z.min_r by lia. replace (Z.to_nat (n - wsz * (k + 1))) with 0%nat by lia. rewrite take_0. cbn [le_val]. lia.
Qed.

Lemma unwords_all q : filled n q →
  unwords wsz ((λ i, word_at q (wsz * i) (Z.min wsz (n - wsz * i))) <$> seqZ 0 ((n + wsz - 1) / wsz)) =
  le_val (take (Z.to_nat n) q).
Proof.
  intros Hq. assert (0 ≤ (n + wsz - 1) / wsz) by (subst n; Z.div_mod_to_equations; lia).
  pose proof (unwords_from q Hq (Z.to_nat ((n + wsz - 1) / wsz)) 0 ltac:(lia)) as Hu.
  rewrite Z2Nat.id, Z.mul_0_r, Z.sub_0_r in Hu by lia. by apply Hu.
Qed.

Lemma total_bits_to m : ∀ k, 0 ≤ k → k + Z.of_nat m = n / wsz →
  total_bits (nth_record wsz bits p d <$> seqZ k (Z.of_nat m)) = 8 * (wsz * Z.of_nat m).
Proof.
  induction m as [|m IH]; intros k Hk Em; [rewrite seqZ_nil by lia; cbn; lia|].
  assert (wsz * (n / wsz) ≤ n) by (apply Z.mul_div_le; lia). assert (wsz * k + wsz ≤ n) by nia.
  rewrite seqZ_cons by lia. replace (Z.pred (Z.of_nat (S m))) with (Z.of_nat m) by lia. cbn [fmap list_fmap].
  unfold total_bits. cbn [foldr]. change (foldr _ 0 ?l) with (total_bits l). rewrite <-Z.add_1_r, IH by lia.
  unfold nth_record. cbn [s_bits]. fold n. zbool; lia.
Qed.

Lemma total_bits_all :
  total_bits (records wsz bits p d) = if n `mod` wsz =? 0 then 8 * n else bits.
Proof.
  assert (1 ≤ n) by (subst n; Z.div_mod_to_equations; lia). unfold records. fold n. set (q := n / wsz).
  pose proof (Z.div_mod n wsz ltac:(lia)) as Hq. pose proof (Z.mod_pos_bound n wsz ltac:(lia)) as Hr. fold q in Hq.
  assert (0 ≤ q) by (subst q; apply Z.div_pos; lia).
  pose proof (total_bits_to (Z.to_nat q) 0 ltac:(lia)) as Ht. rewrite Z2Nat.id, Z.add_0_l in Ht by lia. specialize (Ht eq_refl).
  destruct (Z.eqb_spec (n `mod` wsz) 0) as [Er|Er].
  - assert ((n + wsz - 1) / wsz = q) as -> by (symmetry; apply Z.div_unique with (wsz - 1); lia). rewrite Ht. lia.
  - assert ((n + wsz - 1) / wsz = q + 1) as -> by (symmetry; apply Z.div_unique with (n `mod` wsz - 1); lia).
    rewrite seqZ_app, fmap_app, Z.add_0_l, (seqZ_cons q 1), (seqZ_nil _ (Z.pred 1)) by lia.
    unfold total_bits in *. rewrite foldr_app. cbn [fmap list_fmap foldr].
    assert (Ef : ∀ l z, foldr (λ r acc, s_bits r + acc) z l = foldr (λ r acc, s_bits r + acc) 0 l + z).
    { intros l z. induction l as [|r l IH]; cbn [foldr]; lia. }
    rewrite Ef, Ht. unfold nth_record. cbn [s_bits]. fold n. zbool; lia.
Qed.
End vector.

(** What is read back from the records of a vector. *)
Definition read_back (wsz bits : Z) (p : list Z) (d : option (list Z)) : Z * option Z :=
  let l := records wsz bits p d in
  (unwords wsz (s_tms <$> l), unwords wsz <$> mapM s_tdi l).

Lemma read_back_all wsz bits p d : 4 ≤ wsz ≤ 16 → 1 ≤ bits ≤ 2 ^ 20 → let n := (bits + 7) / 8 in
  filled n p → (∀ q, d = Some q → filled n q) →
  read_back wsz bits p d = (le_val (take (Z.to_nat n) p), (λ q, le_val (take (Z.to_nat n) q)) <$> d).
Proof.
  intros Hw Hb n Hp Hd. assert (1 ≤ n) by (subst n; Z.div_mod_to_equations; lia). unfold read_back, records.
  fold n. rewrite <-list_fmap_compose. f_equal; [by apply unwords_all|]. destruct d as [q|].
  - pose proof (unwords_all wsz bits Hw Hb q (Hd q eq_refl)) as Hu. fold n in Hu.
    cbn [fmap option_fmap option_map].
    assert (Em : ∀ l, mapM s_tdi (nth_record wsz bits p (Some q) <$> l) =
      Some ((λ i, word_at q (wsz * i) (Z.min wsz (n - wsz * i))) <$> l)).
    { induction l as [|i l IH]; [done|]. cbn [fmap list_fmap mapM]. by rewrite IH. }
    rewrite Em. cbn [fmap option_fmap option_map]. by rewrite Hu.
  - assert (∃ i l, seqZ 0 ((n + wsz - 1) / wsz) = i :: l) as (i & l & ->); [|done].
    rewrite seqZ_cons; [by eexists _, _|]. apply Z.div_str_pos. lia.
Qed.

Section shown.
Context `{Platform} {T : Type} `{Transport T} `{!TransportLaws T}.

(** C32: the debug output of a shift shows the vectors: for vectors that
    [sendVectors] ships safely and a debug level above 1, the text is the
    first line, a record per word for TMS and TDI, and, if the transfer did
    not throw, a record per word for TDO.  The words in the records put
    together are exactly the bytes of the vectors.  The numbers of bits add
    up to the length of the vector unless the bytes fill whole words, when
    they add up to eight times the number of bytes (more than the length if
    that is not a multiple of eight). *)
Theorem trace_shows bits tms tdi tdo (a : JtagDriverAxisToJtag T) :
  axis_ok a → getSniff (jd a) = false → 1 < getDebug (jd a) → 1 ≤ bits ≤ 2 ^ 20 →
  bytes tms → bytes tdi → bytes tdo →
  let n := (bits + 7) / 8 in let wsz := wordSize_ a in
  n ≤ zlen tms → n ≤ zlen tdi → n ≤ zlen tdo → wsz + 2 * word_ceil wsz n ≤ bufSz_ a →
  let whole p := le_val (take (Z.to_nat n) p) in
  let (r, o) := sendVectors_trace bits tms tdi tdo a in
  let shown p d :=
    read_back wsz bits p d = (whole p, whole <$> d) ∧
    total_bits (records wsz bits p d) = (if n `mod` wsz =? 0 then 8 * n else bits) in
  ∃ l, o = Ret l ∧ shown tms (Some tdi) ∧
    (fst r = fst (sendVectors bits tms tdi tdo a)) ∧
    match fst r with
    | Ret tdo' => shown tdo' None ∧
        text_of l = send_line wsz bits ++ records_text wsz bits tms (Some tdi) ++ records_text wsz bits tdo' None
    | Throw _ => text_of l = send_line wsz bits ++ records_text wsz bits tms (Some tdi)
    | _ => False
    end.
Proof.
  intros A Hs Hg Hb Bt Bd Bo n wsz Ht Hd Ho Hf whole. pose proof (ok_wordSize _ A) as Hw. fold wsz in Hw.
  pose proof (send_ok bits tms tdi tdo a A Hs Hb Bt Bd Bo Ht Hd Ho Hf) as Hok.
  unfold sendVectors_trace. rewrite (proj2 (Z.ltb_lt _ _) Hg). change (getWordSize a) with wsz.
  destruct (sendVectors bits tms tdi tdo a) as [o a']. destruct Hok as [Hok _]. cbn [fst].
  assert (Fd : ∀ q, Some tdi = Some q → filled n q) by (by intros q [= <-]).
  destruct (print_vectors_text wsz bits tms (Some tdi) Hw Hb (conj Bt Ht) Fd) as (l1 & -> & T1).
  cbn [mbind outcome_bind].
  assert (S1 : read_back wsz bits tms (Some tdi) = (whole tms, Some (whole tdi))) by (by rewrite read_back_all).
  pose proof (total_bits_all wsz bits tms (Some tdi) Hw Hb) as N1. fold n in N1.
  destruct o as [tdo'|e|f|]; try done.
  - destruct Hok as [(Hl & _) Bo']. assert (Fo : filled n tdo') by (split; [done|lia]).
    destruct (print_vectors_text wsz bits tdo' None Hw Hb Fo) as (l2 & -> & T2); [done|]. cbn [mbind outcome_bind].
    eexists. split; [reflexivity|]. split_and!; try done.
    + by rewrite read_back_all.
    + by apply total_bits_all.
    + change (text_of ((Stderr, ?x) :: ?l)) with (x ++ text_of l). by rewrite text_of_app, T1, T2.
  - eexists. split; [reflexivity|]. split_and!; try done.
    change (text_of ((Stderr, ?x) :: ?l)) with (x ++ text_of l). by rewrite app_nil_r, T1.
Qed.
End shown.

(** ** An instance: a loop-back shift of 43 bits *)

Module Shown.
#[local] Existing Instance le_platform.

Definition drv : JtagDriverAxisToJtag JtagDriverLoopBack :=
  JtagDriverAxisToJtag_new 2 254 (mkLoopBack FNull true false 1).
Definition tms : list Z := [1; 2; 3; 4; 5; 6].
Definition tdi : list Z := [10; 20; 30; 40; 50; 3].
Definition shown_trace := sendVectors_trace 43 tms tdi (replicate 8 0) drv.

Ltac concrete := first [reflexivity | (vm_compute; congruence)
  | (vm_compute; split; congruence) | (repeat constructor; unfold is_byte; lia)].

Lemma drv_ok : axis_ok drv.
Proof. apply axis_new_ok; [unfold is_byte; lia|done]. Qed.

Lemma trace_shows_witness :
  ∃ l, snd shown_trace = Ret l ∧ total_bits (records 4 43 tms (Some tdi)) = 43 ∧
    text_of l = send_line 4 43 ++ records_text 4 43 tms (Some tdi) ++ records_text 4 43 (tdi ++ [0; 0]) None.
Proof.
  pose proof (@trace_shows le_platform _ _ _ 43 tms tdi (replicate 8 0) drv drv_ok ltac:(concrete)
    ltac:(concrete) ltac:(concrete) ltac:(concrete) ltac:(concrete) ltac:(concrete) ltac:(concrete)
    ltac:(concrete) ltac:(concrete) ltac:(concrete)) as Hs.
  cbv zeta in Hs. fold shown_trace in Hs.
  assert (Ef : fst (fst shown_trace) = Ret (tdi ++ [0; 0])) by (vm_compute; reflexivity).
  destruct shown_trace as [r o]. cbn [fst snd] in *. destruct Hs as (l & Eo & [_ N] & _ & Hm). rewrite Ef in Hm.
  exists l. destruct Hm as [_ Hm]. by split_and!.
Defined.

(** 30 bits: a record of 32. *)
Example too_many_bits : s_bits <$> records 4 30 tms None = [32].
Proof. reflexivity. Qed.
End Shown.
